(* ===== verification/_CoqProject ===== *)
-Q . S2P
Prelude.v
Unicode.v
GoStrings.v
GoTime.v
GoNet.v
GoIP.v
Duration.v
Policy.v
Message.v
Metrics.v
World.v
Spool.v
Passwords.v
Config.v
Auth.v
RateLimit.v
TlsStore.v
Milter.v
Dkim.v
DkimGen.v
Relay.v
HeaderCheck.v
Server.v
Sessions.v
Refinement.v
Contention.v
Heap.v
DeepCopy.v
Api.v
Access.v
Render.v
Webhook.v
Objects.v
FileSource.v
Process.v
CommandLine.v
Cache.v
Controllerutil.v
AccountController.v
GatewayController.v
Commands.v
Pki.v
Manager.v
EndToEnd.v
