(* ===== verification/Prelude.v ===== *)
(** * Mailout: a verification development for the mailout relay

    Mailout is an SMTP submission relay for the applications of a Kubernetes
    cluster, and the operator that deploys it. Applications authenticate to a
    gateway with a username and a password, the gateway checks that they may
    send as the address they claim, passes the message through filters, signs it
    and hands it to an upstream server.

    ** The program and how its parts interact

    - The dataplane ([src/internal/gateway], command [mailout gateway]). The
      server holds one snapshot of everything derived from the configuration:
      account store, compiled sender policies, certificates, filters, DKIM keys,
      quota limiter, upstream. A reload builds a new snapshot and swaps it in. A
      session runs AUTH, MAIL, RCPT and DATA against the snapshot it reads at
      each step; DATA spools the body, checks the From header, runs the filters,
      signs, and relays.
    - The configuration source ([src/internal/source]). It reads the file, finds
      the directories the configuration depends on, and reloads the server when
      one of them changes. The [gateway] command ([src/cmd/mailout/gateway.go])
      runs the server, the metrics endpoint and this watcher together.
    - The operator ([src/internal/controller], [src/internal/render],
      [src/internal/webhook], [src/api]). Admission webhooks refuse resources
      that could not be served. The account controller gives each
      [MailoutAccount] a username and a Secret with its credentials; the gateway
      controller collects the accounts of a [MailoutGateway], renders the
      dataplane's configuration into a Secret, and keeps the Deployment, the
      Services and the other objects. Both read credentials through a trimmed
      cache. The [operator] command ([src/cmd/mailout/operator.go]) registers
      them, with the watches that turn a change of an object into a
      reconciliation. The configuration the operator publishes is the one the dataplane
      loads: [Render.Config] and the server share the type [Config.Config].

    ** Files

    Foundations: [Prelude] (bytes, machine integers, lists, tactics and the
    [mailout] hint database); [Unicode], [GoStrings], [GoTime], [GoNet], [GoIP]
    (the parts of Go's standard library the program uses, at the byte level Go
    defines them at); [World] (the state monad [IO] of the dataplane: a result
    and the world after it, with the log of what the outside agreed to).

    Dataplane, one file per source file of [src/internal/gateway]:
    [Policy] (policy.go), [Message] (message.go), [Metrics] (metrics.go),
    [Spool] (spool.go), [Config] (config.go), [Passwords] and [Auth] (auth.go),
    [RateLimit] (ratelimit.go), [TlsStore] (tlsstore.go), [Milter] (milter.go),
    [Dkim] (dkim.go), [DkimGen] (dkimgen.go), [Relay] (relay.go), [HeaderCheck]
    and [Server] (server.go). [Duration] is the text form of durations in
    config.go. [Sessions] proves the session's guarantees on that model,
    [Refinement] that the server implements an abstract automaton; [Contention]
    has many connections share the slots for verifying passwords. [FileSource]
    models [src/internal/source/file.go]; [Process] the running command:
    [runGateway], [Server.Run] and [ServeMetrics] as concurrent state machines;
    [CommandLine] the flags and the logger around it, and [main.go].

    Operator: [Api] ([src/api/v1alpha1] and the monad [K] of calls to the API
    server, with the log of its writes and events), [Access] (access.go),
    [Render] (render.go), [Objects] (objects.go), [Webhook]
    ([src/internal/webhook/v1alpha1]), [Cache] (the Secret cache of
    [src/cmd/mailout/operator.go]), [Controllerutil] (what the reconcilers rely
    on of their libraries), [AccountController] (account_controller.go,
    conditions.go), [GatewayController] (gateway_controller.go). [Commands] has
    the subcommands that handle secrets and the discovery of optional kinds,
    [Manager] the operator command: its start, the registration of controllers
    and webhooks, and which change asks for which reconciliation. [Heap] is a
    memory of Go values with addresses, [DeepCopy] the generated copying
    functions of the API types ([zz_generated.deepcopy.go], three packages) over
    it. [Pki] has the certificates of the local stack ([src/internal/pki] and
    [src/hack/gencerts]). [EndToEnd] puts the operator and the dataplane
    together.

    ** How the code is modelled

    - A struct is a record with the field names of the source, a Go [error] is
      the left side of a sum or a constructor per message, a nil pointer is
      [None], a map with string keys a [gmap], a [map[string]bool] that stores
      only [true] a [gset]. An [int] or [int64] is a [Z], with the
      wrap-around written out where the code narrows one ([wrap32]); a duration is a [Z] of nanoseconds.
    - Effects of the dataplane are state passing over [World]; those of the
      operator are calls to an API server whose answers depend on the position
      of the call, so that anything may change between two reads. The session
      ([Sessions], [Refinement]) and the watcher ([FileSource]) are step
      relations, with theorems by induction on runs; so is the process
      ([Process]), where an event says which goroutine moves.
    - Code outside the repository is a class. A class alone says nothing about
      the answers ([Bcrypt], [Random], [QuotaStore], [MilterPeer],
      [UpstreamPeer], [Pki], [DkimLib], [KeyGen], [Selectors], [ApiServer],
      [Yaml], [Sha256], [ConfigFiles], [FileSystem], [ApiMachinery], [X509],
      [Pflag] and others), so a theorem
      about it holds for every behaviour, failures included. Where a theorem
      needs documented behaviour there is a second class with the laws
      ([BcryptSound], [StoreCounts], [SorterSound], [CreateOrUpdaterSound],
      [OwnerReferencerSound], [ConditionSetterSound], [KeyGenSound],
      [ControllerOwners], [ApiKeyed], [YamlRoundTrip], [SecretCache],
      [ApiMachinerySound], [X509Sound], [PflagSound], [Unicode]), with an instance
      in the witness of the theorem.

    ** What the theorems show

    - End to end ([EndToEnd]). From any configuration the operator publishes, a
      login succeeds only for an account of that gateway with the password of
      its own Secret, and MAIL takes only addresses a grant gives its namespace;
      and a reconciliation that completes has stored a configuration with which
      such an account does get in, and may send as those addresses.
    - Authorization. Whatever the interleaving of callbacks and reloads, a
      message the server accepts comes from an account enabled in the snapshot it
      holds, with an envelope sender that a snapshot it held granted
      ([Refinement]); a revoked account is cut off at its next MAIL; a message
      whose header is made of fields has one From, which obeys the same policy
      ([HeaderCheck]); a grant is never widened ([Policy]); a signature is made
      only for a domain the account may sign for ([Dkim]); a password costs the
      same to refuse whether or not the account exists ([Auth]).
    - Delivery. A 250 after DATA means that the upstream accepted the message or
      a filter discarded it ([Sessions]); errors are the upstream's own or
      temporary ([Relay]); an unreachable filter blocks unless it was set to
      fail open, and the edits applied are exactly those asked for, on messages
      whose header block has one reading ([Milter]).
    - Resources. Quotas are never exceeded over the counts the store confirms,
      and fail closed ([RateLimit]); the memory of a spool
      is bounded and its overflow to disk invisible ([Spool]); however many
      connections guess passwords, all processors but one stay free for the rest
      ([Contention]).
    - Reloads. A failed reload keeps the old snapshot, a successful one serves
      the new configuration, keeping the quota connection exactly when the store
      is the same ([Sessions]); every event the watcher receives is followed by a
      read of the file, and the watched directories are those mounted
      ([FileSource]).
    - The process ([Process]). It stops only for a signal or a socket error,
      never for an update; once told to stop it has a bounded number of steps
      left, and one is always ready unless a listener's goroutine was late to
      serve it; an account taken out of the file is cut off without a restart.
    - Operator. Admitted resources are servable, and an account admitted after
      its grant was read is within it ([Webhook]); the arbitration of a username
      names one account, a password is kept until it is rotated, and only the
      rightful account's namespace gets the Secret ([AccountController]); the published
      configuration validates and serves only accepted accounts; repeated
      reconciliations settle ([GatewayController]); the objects agree with each
      other on ports and mounts ([Objects]); what the webhook of a running
      operator admits, its controller accepts; whatever an object the operator
      wrote becomes, its gateway is reconciled, and a change of credentials
      reaches both controllers ([Manager]); the arguments it gives the gateway's
      container start the gateway on what it mounted ([CommandLine]).
    - Copies ([DeepCopy]). A copy of an API object reads like the original and
      shares no memory with it, so that the base of a status patch stays what was
      read while the conditions are rewritten in place.
    - The local stack ([Pki]). The certificates it generates carry the names asked
      for, and the gateway serves each under its names.
    - Round trips: what was parsed of a message prints to what parses back to it
      ([Message]), a generated key
      is loaded back ([DkimGen]), a duration written is read back ([Duration]).

    ** Bounds and fuel

    Recursion is structural almost everywhere. [Spool.chunksOf], the 32 KiB
    pieces [io.Copy] moves, takes the length of its input as fuel, which
    [concat_chunksOf] shows is enough: no byte is lost. [Duration.parseUnits]
    takes the length of the text, which [parseUnits_fuel] shows is enough.
    [GoIP.parseIPv6Loop] takes 8, the number of groups an address has room for,
    which is the bound of Go's own loop. The
    size limits of the
    code (the megabyte of headers, the spool threshold, the message limit, the
    700 KiB of a rendered configuration) are the source's constants.

    ** Not modelled

    - The protocol engine of go-smtp, the sockets themselves, net/http and the
      logs. The session callbacks are driven in the order go-smtp documents.
    - The queues, informers, retries and leader election of controller-runtime;
      the parsing of arguments and the dispatch to a subcommand (pflag, cobra).
    - YAML decoding, X.509 and PEM decoding, the computation of a signature,
      bcrypt, SHA-256, Redis: parameters, as above.
    - The wording of errors and status texts beyond their arguments ([%q]
      included).
    - The registration of types with a scheme, and the end-to-end test
      infrastructure ([src/test]), which starts containers and clusters. *)

From Stdlib Require Export Ascii String ZArith Lia.
From stdpp Require Export base tactics list gmap strings sorting pretty.

#[export] Set Default Proof Using "Type".

(** ** Bytes and literals *)

(** A Go [string] or [[]byte] is a sequence of bytes.  [ascii] is the type of
    8-bit bytes; [lit] turns a literal into one. *)
Abbreviation bytes := (list ascii).

Definition lit (s : string) : bytes := list_ascii_of_string s.

(** The value of a byte, as an unsigned 8-bit integer. *)
Definition byteZ (c : ascii) : Z := Z.of_N (N_of_ascii c).

(** The byte with a given value; values wrap around modulo 256. *)
Definition chr (z : Z) : ascii := ascii_of_N (Z.to_N (z mod 256)).

Declare Scope go_scope.
Delimit Scope go_scope with go.

(** Byte and string equality tests, as Go's [==]. *)
Notation "a =b b" := (bool_decide (a = b)) (at level 70, no associativity) : go_scope.
Notation "a <>b b" := (negb (bool_decide (a = b))) (at level 70, no associativity) : go_scope.
#[global] Open Scope go_scope.

Definition CR : ascii := chr 13.
Definition LF : ascii := chr 10.
Definition TAB : ascii := chr 9.
Definition SP : ascii := chr 32.
Definition CRLF : bytes := [CR; LF].

(** ** Machine integers *)

(** Go's [int] and [int64] on the platforms the program is built for. *)
Definition wrap64 (z : Z) : Z := (z + 2 ^ 63) mod 2 ^ 64 - 2 ^ 63.
Definition wrap32 (z : Z) : Z := (z + 2 ^ 31) mod 2 ^ 32 - 2 ^ 31.

(** [len], as a Go [int]. *)
Definition zlen {A} (l : list A) : Z := Z.of_nat (length l).
Arguments zlen : simpl never.

(** [s[:n]] and [s[n:]] where the source has established [0 <= n]; [n] past the
    end takes or drops everything, so a caller that needs Go's bounds panic
    states its guard. Structural on the list, so that a bound of a megabyte
    costs nothing to evaluate. *)
Fixpoint ztake {A} (n : Z) (l : list A) : list A :=
  match l with
  | [] => []
  | x :: l' => if (n <=? 0)%Z then [] else x :: ztake (n - 1) l'
  end.

Fixpoint zdrop {A} (n : Z) (l : list A) : list A :=
  match l with
  | [] => []
  | x :: l' => if (n <=? 0)%Z then l else zdrop (n - 1) l'
  end.

(** ** Errors *)

(** go-smtp's [SMTPError]: the reply sent to the client. *)
Record SMTPError := mkSMTPError {
  Code : Z;
  EnhancedCode : Z * Z * Z;
  Msg : bytes
}.

(** A Go [error] value.  [EWrap] is [fmt.Errorf("...: %w", err)]; the sentinels
    are those the program compares with [errors.Is]. *)
Inductive goerror :=
| ESmtp (e : SMTPError)
| EDiscard
| EAuthFailed
| EAccountDisabled
| EText (msg : bytes)
| EWrap (context : bytes) (inner : goerror).

(** [errors.As(err, &smtpErr)]: the first [*smtp.SMTPError] of the chain. *)
Fixpoint as_smtp (e : goerror) : option SMTPError :=
  match e with
  | ESmtp s => Some s
  | EWrap _ i => as_smtp i
  | _ => None
  end.

(** [errors.Is(err, errDiscard)]. *)
Fixpoint is_discard (e : goerror) : bool :=
  match e with
  | EDiscard => true
  | EWrap _ i => is_discard i
  | _ => false
  end.

(** A function returning [(A, error)]. *)
Inductive result (A : Type) :=
| Ok (a : A)
| Err (e : goerror).
Arguments Ok {A} a.
Arguments Err {A} e.

#[export] Instance SMTPError_eq_dec : EqDecision SMTPError.
Proof. solve_decision. Defined.
#[export] Instance goerror_eq_dec : EqDecision goerror.
Proof. solve_decision. Defined.
#[export] Instance result_eq_dec {A} `{EqDecision A} : EqDecision (result A).
Proof. solve_decision. Defined.

(** Decimal rendering, [fmt.Sprint] of an integer. *)
Definition itoa (z : Z) : bytes := lit (pretty z).

(** ** Automation *)

Create HintDb mailout discriminated.
Create Rewrite HintDb mailout.

(** Case analysis on the boolean tests, options and matches that block a goal
    or a hypothesis, in the order the program makes them. *)
Ltac case_step :=
  match goal with
  | H : context [match ?x with _ => _ end] |- _ =>
      lazymatch x with
      | context [match _ with _ => _ end] => fail
      | _ => let E := fresh "Ecase" in destruct x eqn:E
      end
  | |- context [match ?x with _ => _ end] =>
      lazymatch x with
      | context [match _ with _ => _ end] => fail
      | _ => let E := fresh "Ecase" in destruct x eqn:E
      end
  end.

Ltac cases := repeat (case_step; simplify_eq/=).

(** Turn boolean hypotheses into propositions. *)
Ltac bools :=
  repeat match goal with
  | H : _ && _ = true |- _ => apply andb_prop in H as [? ?]
  | H : _ || _ = false |- _ => apply orb_false_elim in H as [? ?]
  | H : negb _ = true |- _ => apply negb_true_iff in H
  | H : negb _ = false |- _ => apply negb_false_iff in H
  | H : bool_decide _ = true |- _ => apply bool_decide_eq_true in H
  | H : bool_decide _ = false |- _ => apply bool_decide_eq_false in H
  | H : (_ <=? _)%Z = true |- _ => apply Z.leb_le in H
  | H : (_ <=? _)%Z = false |- _ => apply Z.leb_gt in H
  | H : (_ <? _)%Z = true |- _ => apply Z.ltb_lt in H
  | H : (_ <? _)%Z = false |- _ => apply Z.ltb_ge in H
  | H : (_ =? _)%Z = true |- _ => apply Z.eqb_eq in H
  | H : (_ =? _)%Z = false |- _ => apply Z.eqb_neq in H
  end.

(** ** Lemmas shared by the components *)

Lemma byteZ_range c : (0 <= byteZ c < 256)%Z.
Proof. unfold byteZ. pose proof (N_ascii_bounded c). lia. Qed.

Lemma byteZ_inj c d : byteZ c = byteZ d -> c = d.
Proof.
  unfold byteZ. intros H%N2Z.inj.
  by rewrite <- (ascii_N_embedding c), H, ascii_N_embedding.
Qed.

Lemma byteZ_chr z : (0 <= z < 256)%Z -> byteZ (chr z) = z.
Proof.
  intros H. unfold byteZ, chr. rewrite Z.mod_small by done.
  rewrite N_ascii_embedding by lia. lia.
Qed.

Lemma chr_byteZ c : chr (byteZ c) = c.
Proof. apply byteZ_inj, byteZ_chr, byteZ_range. Qed.

#[export] Hint Rewrite chr_byteZ : mailout.

Lemma lit_app a b : lit (a +:+ b) = lit a ++ lit b.
Proof. unfold lit. induction a; simpl; [done|]. by rewrite IHa. Qed.

Lemma lit_inj a b : lit a = lit b -> a = b.
Proof.
  unfold lit. intros H.
  by rewrite <- (string_of_list_ascii_of_string a), H, string_of_list_ascii_of_string.
Qed.

Lemma itoa_inj x y : itoa x = itoa y -> x = y.
Proof. unfold itoa. intros H%lit_inj. by apply (inj pretty) in H. Qed.

(** The bytes of a decimal rendering: digits and the minus sign. *)
Definition numeral (c : ascii) : Prop := (48 <= byteZ c <= 57)%Z \/ byteZ c = 45%Z.

Lemma pretty_N_go_numeral x s :
  Forall numeral (lit s) -> Forall numeral (lit (pretty_N_go x s)).
Proof.
  revert s. induction (N.lt_wf_0 x) as [x _ IH]; intros s Hs.
  assert (x = 0 \/ 0 < x)%N as [->|Hx] by lia; [done|].
  rewrite pretty_N_go_step by done. apply IH; [by apply N.div_lt|].
  constructor; [|done]. left. unfold pretty_N_char. repeat case_match; vm_compute; done.
Qed.

Lemma pretty_N_numeral (x : N) : Forall numeral (lit (pretty x)).
Proof.
  unfold pretty, pretty_N. case_decide; [|by apply pretty_N_go_numeral].
  constructor; [|done]. left. by vm_compute.
Qed.

Lemma itoa_numeral z : Forall numeral (itoa z).
Proof.
  unfold itoa. destruct z as [|p|p].
  - constructor; [|done]. left. by vm_compute.
  - apply (pretty_N_numeral (N.pos p)).
  - change (lit (pretty (Z.neg p))) with (chr 45 :: lit (pretty (N.pos p))).
    constructor; [|apply pretty_N_numeral]. right. by vm_compute.
Qed.

Section ZLists.
Context {A : Type}.
Implicit Types (l k : list A) (n : Z).

Lemma ztake_zdrop n l : ztake n l ++ zdrop n l = l.
Proof.
  revert n. induction l as [|x l IH]; intros n; simpl; [done|].
  case_match; simpl; [done|]. by rewrite IH.
Qed.

Lemma ztake_nonpos n l : (n <= 0)%Z -> ztake n l = [].
Proof. destruct l; simpl; [done|]. intros. rewrite (proj2 (Z.leb_le _ _)); done. Qed.

Lemma zdrop_nonpos n l : (n <= 0)%Z -> zdrop n l = l.
Proof. destruct l; simpl; [done|]. intros. rewrite (proj2 (Z.leb_le _ _)); done. Qed.

Lemma zlen_nonneg l : (0 <= zlen l)%Z.
Proof. unfold zlen. lia. Qed.

Lemma zlen_app l k : zlen (l ++ k) = (zlen l + zlen k)%Z.
Proof. unfold zlen. rewrite length_app. lia. Qed.

Lemma zlen_cons x l : zlen (x :: l) = (1 + zlen l)%Z.
Proof. unfold zlen. simpl. lia. Qed.

Lemma ztake_ge n l : (zlen l <= n)%Z -> ztake n l = l.
Proof.
  revert n. induction l as [|x l IH]; intros n; simpl; [done|].
  rewrite zlen_cons. intros. pose proof (zlen_nonneg l).
  rewrite (proj2 (Z.leb_gt _ _)) by lia. rewrite IH by lia. done.
Qed.

Lemma zdrop_ge n l : (zlen l <= n)%Z -> zdrop n l = [].
Proof.
  intros H. pose proof (ztake_zdrop n l) as E. rewrite ztake_ge in E by done.
  apply (app_inv_head l). by rewrite E, app_nil_r.
Qed.

Lemma zlen_ztake n l : (0 <= n)%Z -> zlen (ztake n l) = Z.min n (zlen l).
Proof.
  revert n. induction l as [|x l IH]; intros n Hn; simpl.
  { unfold zlen. simpl. lia. }
  pose proof (zlen_nonneg l). rewrite zlen_cons. case_match; bools.
  - unfold zlen. simpl. lia.
  - rewrite zlen_cons, IH by lia. lia.
Qed.

Lemma ztake_app_exact l k : ztake (zlen l) (l ++ k) = l.
Proof.
  induction l as [|x l IH]; simpl.
  { apply ztake_nonpos. unfold zlen. simpl. lia. }
  pose proof (zlen_nonneg l). rewrite zlen_cons.
  replace (1 + zlen l <=? 0)%Z with false by (symmetry; apply Z.leb_gt; lia).
  replace (1 + zlen l - 1)%Z with (zlen l) by lia. by rewrite IH.
Qed.

Lemma zdrop_app_exact l k : zdrop (zlen l) (l ++ k) = k.
Proof.
  pose proof (ztake_zdrop (zlen l) (l ++ k)) as E. rewrite ztake_app_exact in E.
  by apply app_inv_head in E.
Qed.
End ZLists.

Section BoolFilter.
Context {A : Type} (f : A -> bool).

Lemma elem_of_bfilter (l : list A) x : x ∈ List.filter f l <-> f x = true /\ x ∈ l.
Proof. rewrite list_elem_of_In, List.filter_In, <- list_elem_of_In. tauto. Qed.

Lemma bfilter_partition (l : list A) :
  List.filter f l ++ List.filter (λ x, negb (f x)) l ≡ₚ l.
Proof.
  induction l as [|x l IH]; simpl; [done|].
  destruct (f x); simpl; [by rewrite IH|]. by rewrite <- Permutation_middle, IH.
Qed.

Lemma bfilter_NoDup_fmap {B} (g : A -> B) (l : list A) :
  NoDup (g <$> l) -> NoDup (g <$> List.filter f l).
Proof.
  induction l as [|x l IH]; cbn; [done|]. intros [Hx Hl]%NoDup_cons.
  destruct (f x); [|by apply IH]. cbn. apply NoDup_cons_2; [|by apply IH].
  contradict Hx. apply list_elem_of_fmap in Hx as (y & -> & Hy%elem_of_bfilter).
  apply list_elem_of_fmap. exists y. tauto.
Qed.
End BoolFilter.

#[export] Hint Resolve zlen_nonneg byteZ_range : mailout.
#[export] Hint Rewrite @zlen_app @zlen_cons @ztake_app_exact @zdrop_app_exact : mailout.

(** Elements of a list are told apart by a projection without duplicates. *)
Lemma NoDup_fmap_elem {A B} (g : A -> B) (l : list A) x y :
  NoDup (g <$> l) -> x ∈ l -> y ∈ l -> g x = g y -> x = y.
Proof.
  intros Hl (i & Hi)%list_elem_of_lookup (j & Hj)%list_elem_of_lookup E.
  assert (i = j) as ->; [|congruence].
  apply (NoDup_lookup (g <$> l) i j (g x)); [done|..]; rewrite list_lookup_fmap, ?Hi, ?Hj; cbn; congruence.
Qed.
