(* ===== verification/Unicode.v ===== *)
(** * Unicode: runes, UTF-8 and the case tables

    The program handles strings as bytes, but the [strings] functions it calls
    ([ToLower], [EqualFold], [TrimSpace], [Map]) work rune by rune: they decode
    UTF-8, map malformed bytes to U+FFFD and consult the Unicode tables. This
    file models that layer of the Go standard library: the decoder ([segs]),
    the encoder ([encodeRune]) with their round trip, [unicode.IsSpace], and a
    class [Unicode] for the case tables, whose laws hold in every version of
    Unicode, with the tables of Unicode 14 as the instance. *)

From S2P Require Import Prelude.

#[local] Open Scope Z_scope.

(** ** UTF-8 *)

Module Utf8.

(** [utf8.RuneError], what a malformed byte decodes to. *)
Definition RuneError : Z := 65533.

(** A Unicode scalar value: in range and not a surrogate. *)
Definition valid_rune (r : Z) : bool :=
  (0 <=? r) && (r <=? 1114111) && negb ((55296 <=? r) && (r <=? 57343)).

(** A continuation byte, [10xxxxxx]. *)
Definition is_cont (b : ascii) : bool := (128 <=? byteZ b) && (byteZ b <=? 191).

Definition in_range (lo hi : Z) (b : ascii) : bool := (lo <=? byteZ b) && (byteZ b <=? hi).

(** The two-, three- and four-byte forms [utf8.DecodeRune] accepts: overlong
    encodings, surrogates and values past U+10FFFF are excluded by the range of
    the second byte. *)
Definition is2 (b0 b1 : ascii) : bool := in_range 194 223 b0 && is_cont b1.

Definition is3 (b0 b1 b2 : ascii) : bool :=
  in_range 224 239 b0 &&
  (if byteZ b0 =? 224 then in_range 160 191 b1
   else if byteZ b0 =? 237 then in_range 128 159 b1 else is_cont b1) &&
  is_cont b2.

Definition is4 (b0 b1 b2 b3 : ascii) : bool :=
  in_range 240 244 b0 &&
  (if byteZ b0 =? 240 then in_range 144 191 b1
   else if byteZ b0 =? 244 then in_range 128 143 b1 else is_cont b1) &&
  is_cont b2 && is_cont b3.

(** Payload of a multi-byte form; the lead byte's marker is subtracted. *)
Definition val2 (b0 b1 : ascii) : Z := (byteZ b0 - 192) * 64 + (byteZ b1 - 128).
Definition val3 (b0 b1 b2 : ascii) : Z :=
  (byteZ b0 - 224) * 4096 + (byteZ b1 - 128) * 64 + (byteZ b2 - 128).
Definition val4 (b0 b1 b2 b3 : ascii) : Z :=
  (byteZ b0 - 240) * 262144 + (byteZ b1 - 128) * 4096 + (byteZ b2 - 128) * 64 + (byteZ b3 - 128).

(** Split a string into runes with the bytes each one came from, as [range]
    over a Go string does: a malformed byte is a rune of its own, [RuneError].
    UTF-8 is self-synchronising, so decoding from the end
    ([utf8.DecodeLastRune]) meets the same well-formed runes. *)
Fixpoint segs (s : bytes) : list (Z * bytes) :=
  match s with
  | [] => []
  | b0 :: s1 =>
      if byteZ b0 <? 128 then (byteZ b0, [b0]) :: segs s1 else
      match s1 with
      | [] => [(RuneError, [b0])]
      | b1 :: s2 =>
          if is2 b0 b1 then (val2 b0 b1, [b0; b1]) :: segs s2 else
          match s2 with
          | [] => (RuneError, [b0]) :: segs s1
          | b2 :: s3 =>
              if is3 b0 b1 b2 then (val3 b0 b1 b2, [b0; b1; b2]) :: segs s3 else
              match s3 with
              | [] => (RuneError, [b0]) :: segs s1
              | b3 :: s4 =>
                  if is4 b0 b1 b2 b3
                  then (val4 b0 b1 b2 b3, [b0; b1; b2; b3]) :: segs s4
                  else (RuneError, [b0]) :: segs s1
              end
          end
      end
  end.

Definition runes (s : bytes) : list Z := (segs s).*1.
Definition unsegs (l : list (Z * bytes)) : bytes := concat (l.*2).

(** [utf8.AppendRune]: an invalid rune is written as [RuneError]. *)
Definition encodeRune (r : Z) : bytes :=
  let r := if valid_rune r then r else RuneError in
  if r <? 128 then [chr r]
  else if r <? 2048 then [chr (192 + r / 64); chr (128 + r mod 64)]
  else if r <? 65536 then
    [chr (224 + r / 4096); chr (128 + (r / 64) mod 64); chr (128 + r mod 64)]
  else
    [chr (240 + r / 262144); chr (128 + (r / 4096) mod 64);
     chr (128 + (r / 64) mod 64); chr (128 + r mod 64)].

Definition encodeRunes (rs : list Z) : bytes := concat (encodeRune <$> rs).

End Utf8.

(** ** The case tables *)

(** Lower-casing of an ASCII rune. *)
Definition lower_ascii (r : Z) : Z := if (65 <=? r) && (r <=? 90) then r + 32 else r.

(** [unicode.IsSpace]. *)
Definition IsSpace (r : Z) : bool :=
  ((9 <=? r) && (r <=? 13)) || (r =? 32) || (r =? 133) || (r =? 160) || (r =? 5760) ||
  ((8192 <=? r) && (r <=? 8202)) || (r =? 8232) || (r =? 8233) || (r =? 8239) ||
  (r =? 8287) || (r =? 12288).

(** What the program relies on in [unicode.ToLower] and in the orbits of
    [unicode.SimpleFold], beyond ASCII. Every version of the Unicode tables
    satisfies the laws. *)
Class Unicode := {
  lower_hi : Z -> Z;
  fold_hi : Z -> Z;
  lower_hi_valid : forall r, 128 <= r -> Utf8.valid_rune r = true ->
    Utf8.valid_rune (lower_hi r) = true;
  (** lower case has no further lower case *)
  lower_hi_idem : forall r, 128 <= r ->
    (if lower_hi r <? 128 then lower_ascii (lower_hi r) else lower_hi (lower_hi r)) = lower_hi r;
  (** the only ASCII characters that are lower case of something else are letters *)
  lower_hi_ascii : forall r, 128 <= r -> lower_hi r < 128 -> 97 <= lower_hi r <= 122;
  (** white space has no case *)
  lower_hi_space : forall r, 128 <= r -> IsSpace (lower_hi r) = IsSpace r;
  (** ASCII letters other than k and s fold only with ASCII letters *)
  fold_hi_ascii : forall r, 128 <= r -> fold_hi r < 128 -> fold_hi r = 107 \/ fold_hi r = 115
}.

Section Lower.
Context `{Unicode}.

(** [unicode.ToLower]. *)
Definition lower (r : Z) : Z := if r <? 128 then lower_ascii r else lower_hi r.

(** The representative of a rune's [unicode.SimpleFold] orbit: two runes are
    in the same orbit exactly when their representatives are equal. *)
Definition fold (r : Z) : Z := if r <? 128 then lower_ascii r else fold_hi r.
End Lower.

(** ** The tables of Unicode 14 *)

Module Tables.

(** An entry [(lo, hi, stride, delta)] maps [lo], [lo + stride], ... up to [hi]
    to themselves plus [delta]. *)
Definition entry : Type := Z * Z * Z * Z.

Definition hits (r : Z) (e : entry) : bool :=
  let '(lo, hi, st, _) := e in
  if lo <=? r then if r <=? hi then (r - lo) mod st =? 0 else false else false.

Definition apply_table (t : list entry) (r : Z) : Z :=
  match List.find (hits r) t with
  | Some (_, _, _, d) => r + d
  | None => r
  end.

Definition lower_table : list entry :=
  [(192,214,1,32); (216,222,1,32); (256,302,2,1); (304,304,1,(-199)); (306,310,2,1);
   (313,327,2,1); (330,374,2,1); (376,376,1,(-121)); (377,381,2,1); (385,385,1,210);
   (386,388,2,1); (390,390,1,206); (391,391,1,1); (393,394,1,205); (395,395,1,1);
   (398,398,1,79); (399,399,1,202); (400,400,1,203); (401,401,1,1); (403,403,1,205);
   (404,404,1,207); (406,406,1,211); (407,407,1,209); (408,408,1,1); (412,412,1,211);
   (413,413,1,213); (415,415,1,214); (416,420,2,1); (422,422,1,218); (423,423,1,1);
   (425,425,1,218); (428,428,1,1); (430,430,1,218); (431,431,1,1); (433,434,1,217);
   (435,437,2,1); (439,439,1,219); (440,440,1,1); (444,444,1,1); (452,452,1,2);
   (453,453,1,1); (455,455,1,2); (456,456,1,1); (458,458,1,2); (459,475,2,1);
   (478,494,2,1); (497,497,1,2); (498,500,2,1); (502,502,1,(-97)); (503,503,1,(-56));
   (504,542,2,1); (544,544,1,(-130)); (546,562,2,1); (570,570,1,10795); (571,571,1,1);
   (573,573,1,(-163)); (574,574,1,10792); (577,577,1,1); (579,579,1,(-195));
   (580,580,1,69); (581,581,1,71); (582,590,2,1); (880,882,2,1); (886,886,1,1);
   (895,895,1,116); (902,902,1,38); (904,906,1,37); (908,908,1,64); (910,911,1,63);
   (913,929,1,32); (931,939,1,32); (975,975,1,8); (984,1006,2,1); (1012,1012,1,(-60));
   (1015,1015,1,1); (1017,1017,1,(-7)); (1018,1018,1,1); (1021,1023,1,(-130));
   (1024,1039,1,80); (1040,1071,1,32); (1120,1152,2,1); (1162,1214,2,1); (1216,1216,1,15);
   (1217,1229,2,1); (1232,1326,2,1); (1329,1366,1,48); (4256,4293,1,7264);
   (4295,4295,1,7264); (4301,4301,1,7264); (5024,5103,1,38864); (5104,5109,1,8);
   (7312,7354,1,(-3008)); (7357,7359,1,(-3008)); (7680,7828,2,1); (7838,7838,1,(-7615));
   (7840,7934,2,1); (7944,7951,1,(-8)); (7960,7965,1,(-8)); (7976,7983,1,(-8));
   (7992,7999,1,(-8)); (8008,8013,1,(-8)); (8025,8031,2,(-8)); (8040,8047,1,(-8));
   (8072,8079,1,(-8)); (8088,8095,1,(-8)); (8104,8111,1,(-8)); (8120,8121,1,(-8));
   (8122,8123,1,(-74)); (8124,8124,1,(-9)); (8136,8139,1,(-86)); (8140,8140,1,(-9));
   (8152,8153,1,(-8)); (8154,8155,1,(-100)); (8168,8169,1,(-8)); (8170,8171,1,(-112));
   (8172,8172,1,(-7)); (8184,8185,1,(-128)); (8186,8187,1,(-126)); (8188,8188,1,(-9));
   (8486,8486,1,(-7517)); (8490,8490,1,(-8383)); (8491,8491,1,(-8262)); (8498,8498,1,28);
   (8544,8559,1,16); (8579,8579,1,1); (9398,9423,1,26); (11264,11311,1,48);
   (11360,11360,1,1); (11362,11362,1,(-10743)); (11363,11363,1,(-3814));
   (11364,11364,1,(-10727)); (11367,11371,2,1); (11373,11373,1,(-10780));
   (11374,11374,1,(-10749)); (11375,11375,1,(-10783)); (11376,11376,1,(-10782));
   (11378,11378,1,1); (11381,11381,1,1); (11390,11391,1,(-10815)); (11392,11490,2,1);
   (11499,11501,2,1); (11506,11506,1,1); (42560,42604,2,1); (42624,42650,2,1);
   (42786,42798,2,1); (42802,42862,2,1); (42873,42875,2,1); (42877,42877,1,(-35332));
   (42878,42886,2,1); (42891,42891,1,1); (42893,42893,1,(-42280)); (42896,42898,2,1);
   (42902,42920,2,1); (42922,42922,1,(-42308)); (42923,42923,1,(-42319));
   (42924,42924,1,(-42315)); (42925,42925,1,(-42305)); (42926,42926,1,(-42308));
   (42928,42928,1,(-42258)); (42929,42929,1,(-42282)); (42930,42930,1,(-42261));
   (42931,42931,1,928); (42932,42946,2,1); (42948,42948,1,(-48)); (42949,42949,1,(-42307));
   (42950,42950,1,(-35384)); (42951,42953,2,1); (42960,42960,1,1); (42966,42968,2,1);
   (42997,42997,1,1); (65313,65338,1,32); (66560,66599,1,40); (66736,66771,1,40);
   (66928,66938,1,39); (66940,66954,1,39); (66956,66962,1,39); (66964,66965,1,39);
   (68736,68786,1,64); (71840,71871,1,32); (93760,93791,1,32); (125184,125217,1,34)].

Definition fold_table : list entry :=
  [(181,181,1,775); (192,214,1,32); (216,222,1,32); (256,302,2,1); (306,310,2,1);
   (313,327,2,1); (330,374,2,1); (376,376,1,(-121)); (377,381,2,1); (383,383,1,(-268));
   (385,385,1,210); (386,388,2,1); (390,390,1,206); (391,391,1,1); (393,394,1,205);
   (395,395,1,1); (398,398,1,79); (399,399,1,202); (400,400,1,203); (401,401,1,1);
   (403,403,1,205); (404,404,1,207); (406,406,1,211); (407,407,1,209); (408,408,1,1);
   (412,412,1,211); (413,413,1,213); (415,415,1,214); (416,420,2,1); (422,422,1,218);
   (423,423,1,1); (425,425,1,218); (428,428,1,1); (430,430,1,218); (431,431,1,1);
   (433,434,1,217); (435,437,2,1); (439,439,1,219); (440,440,1,1); (444,444,1,1);
   (452,452,1,2); (453,453,1,1); (455,455,1,2); (456,456,1,1); (458,458,1,2);
   (459,475,2,1); (478,494,2,1); (497,497,1,2); (498,500,2,1); (502,502,1,(-97));
   (503,503,1,(-56)); (504,542,2,1); (544,544,1,(-130)); (546,562,2,1); (570,570,1,10795);
   (571,571,1,1); (573,573,1,(-163)); (574,574,1,10792); (577,577,1,1); (579,579,1,(-195));
   (580,580,1,69); (581,581,1,71); (582,590,2,1); (837,837,1,116); (880,882,2,1);
   (886,886,1,1); (895,895,1,116); (902,902,1,38); (904,906,1,37); (908,908,1,64);
   (910,911,1,63); (913,929,1,32); (931,939,1,32); (962,962,1,1); (975,975,1,8);
   (976,976,1,(-30)); (977,977,1,(-25)); (981,981,1,(-15)); (982,982,1,(-22));
   (984,1006,2,1); (1008,1008,1,(-54)); (1009,1009,1,(-48)); (1012,1012,1,(-60));
   (1013,1013,1,(-64)); (1015,1015,1,1); (1017,1017,1,(-7)); (1018,1018,1,1);
   (1021,1023,1,(-130)); (1024,1039,1,80); (1040,1071,1,32); (1120,1152,2,1);
   (1162,1214,2,1); (1216,1216,1,15); (1217,1229,2,1); (1232,1326,2,1); (1329,1366,1,48);
   (4256,4293,1,7264); (4295,4295,1,7264); (4301,4301,1,7264); (5112,5117,1,(-8));
   (7296,7296,1,(-6222)); (7297,7297,1,(-6221)); (7298,7298,1,(-6212));
   (7299,7300,1,(-6210)); (7301,7301,1,(-6211)); (7302,7302,1,(-6204));
   (7303,7303,1,(-6180)); (7304,7304,1,35267); (7312,7354,1,(-3008));
   (7357,7359,1,(-3008)); (7680,7828,2,1); (7835,7835,1,(-58)); (7838,7838,1,(-7615));
   (7840,7934,2,1); (7944,7951,1,(-8)); (7960,7965,1,(-8)); (7976,7983,1,(-8));
   (7992,7999,1,(-8)); (8008,8013,1,(-8)); (8025,8031,2,(-8)); (8040,8047,1,(-8));
   (8072,8079,1,(-8)); (8088,8095,1,(-8)); (8104,8111,1,(-8)); (8120,8121,1,(-8));
   (8122,8123,1,(-74)); (8124,8124,1,(-9)); (8126,8126,1,(-7173)); (8136,8139,1,(-86));
   (8140,8140,1,(-9)); (8152,8153,1,(-8)); (8154,8155,1,(-100)); (8168,8169,1,(-8));
   (8170,8171,1,(-112)); (8172,8172,1,(-7)); (8184,8185,1,(-128)); (8186,8187,1,(-126));
   (8188,8188,1,(-9)); (8486,8486,1,(-7517)); (8490,8490,1,(-8383)); (8491,8491,1,(-8262));
   (8498,8498,1,28); (8544,8559,1,16); (8579,8579,1,1); (9398,9423,1,26);
   (11264,11311,1,48); (11360,11360,1,1); (11362,11362,1,(-10743));
   (11363,11363,1,(-3814)); (11364,11364,1,(-10727)); (11367,11371,2,1);
   (11373,11373,1,(-10780)); (11374,11374,1,(-10749)); (11375,11375,1,(-10783));
   (11376,11376,1,(-10782)); (11378,11378,1,1); (11381,11381,1,1);
   (11390,11391,1,(-10815)); (11392,11490,2,1); (11499,11501,2,1); (11506,11506,1,1);
   (42560,42604,2,1); (42624,42650,2,1); (42786,42798,2,1); (42802,42862,2,1);
   (42873,42875,2,1); (42877,42877,1,(-35332)); (42878,42886,2,1); (42891,42891,1,1);
   (42893,42893,1,(-42280)); (42896,42898,2,1); (42902,42920,2,1);
   (42922,42922,1,(-42308)); (42923,42923,1,(-42319)); (42924,42924,1,(-42315));
   (42925,42925,1,(-42305)); (42926,42926,1,(-42308)); (42928,42928,1,(-42258));
   (42929,42929,1,(-42282)); (42930,42930,1,(-42261)); (42931,42931,1,928);
   (42932,42946,2,1); (42948,42948,1,(-48)); (42949,42949,1,(-42307));
   (42950,42950,1,(-35384)); (42951,42953,2,1); (42960,42960,1,1); (42966,42968,2,1);
   (42997,42997,1,1); (43888,43967,1,(-38864)); (65313,65338,1,32); (66560,66599,1,40);
   (66736,66771,1,40); (66928,66938,1,39); (66940,66954,1,39); (66956,66962,1,39);
   (66964,66965,1,39); (68736,68786,1,64); (71840,71871,1,32); (93760,93791,1,32);
   (125184,125217,1,34)].

(** The runes a table moves, enumerated, so that a law over all runes is a check
    on finitely many. *)
Definition points (t : list entry) : list Z :=
  t ≫= λ e, let '(lo, hi, st, _) := e in (λ k, lo + st * k) <$> seqZ 0 ((hi - lo) / st + 1).

Definition strides_ok (t : list entry) : bool :=
  forallb (λ e : entry, let '(_, _, st, _) := e in 0 <? st) t.

Lemma apply_table_cases t r :
  strides_ok t = true -> apply_table t r = r \/ r ∈ points t.
Proof.
  intros Hst. unfold apply_table. destruct (List.find _ _) as [e|] eqn:E; [right|by left].
  apply List.find_some in E as [Hin Hhit].
  unfold points. apply list_elem_of_bind. exists e. split; [|by apply list_elem_of_In].
  unfold strides_ok in Hst. rewrite List.forallb_forall in Hst. specialize (Hst e Hin).
  destruct e as [[[lo hi] st] d]. unfold hits in Hhit. cases; bools.
  apply list_elem_of_fmap. exists ((r - lo) / st). split.
  - pose proof (Z.div_mod (r - lo) st). lia.
  - apply elem_of_seqZ. pose proof (Z.div_pos (r - lo) st).
    pose proof (Z.div_le_mono (r - lo) (hi - lo) st). lia.
Qed.

(** A law holds of every rune when it holds of the runes the table fixes and, by
    computation, at the points it moves. *)
Lemma apply_table_law t (P : Z -> Z -> bool) :
  strides_ok t = true ->
  forallb (λ r, P r (apply_table t r)) (points t) = true ->
  (forall r, apply_table t r = r -> P r r = true) ->
  forall r, P r (apply_table t r) = true.
Proof.
  intros Hst Hall Hfix r. destruct (apply_table_cases t r Hst) as [E|Hin].
  - rewrite E. by apply Hfix.
  - rewrite List.forallb_forall in Hall. by apply Hall, list_elem_of_In.
Qed.

(** The laws of [Unicode] that concern lower case, as one check. *)
Definition lower_law (x y : Z) : bool :=
  if x <? 128 then true else
  implb (Utf8.valid_rune x) (Utf8.valid_rune y) &&
  ((if y <? 128 then lower_ascii y else apply_table lower_table y) =? y) &&
  (if y <? 128 then (97 <=? y) && (y <=? 122) else true) &&
  eqb (IsSpace y) (IsSpace x).

Lemma lower_table_law r : lower_law r (apply_table lower_table r) = true.
Proof.
  apply apply_table_law; [by vm_compute..|].
  clear r. intros r E. unfold lower_law. destruct (r <? 128) eqn:Er; [done|].
  rewrite E, Z.eqb_refl, eqb_reflx. by destruct (Utf8.valid_rune r).
Qed.

Definition fold_law (x y : Z) : bool :=
  if x <? 128 then true else if y <? 128 then (y =? 107) || (y =? 115) else true.

Lemma fold_table_law r : fold_law r (apply_table fold_table r) = true.
Proof.
  apply apply_table_law; [by vm_compute..|].
  clear r. intros r E. unfold fold_law. by destruct (r <? 128).
Qed.

End Tables.

#[export] Instance unicode14 : Unicode.
Proof.
  refine {| lower_hi := Tables.apply_table Tables.lower_table;
            fold_hi := Tables.apply_table Tables.fold_table |};
    intros r Hr%Z.ltb_ge;
    pose proof (Tables.lower_table_law r) as Hl; pose proof (Tables.fold_table_law r) as Hf;
    unfold Tables.lower_law, Tables.fold_law in *; rewrite Hr in Hl, Hf;
    generalize dependent (Tables.apply_table Tables.lower_table r);
    generalize dependent (Tables.apply_table Tables.fold_table r); intros f Hf y Hl; bools.
  - intros Hv. rewrite Hv in *. by destruct (Utf8.valid_rune _).
  - done.
  - intros Hy%Z.ltb_lt. rewrite Hy in *. bools. lia.
  - by apply eqb_prop.
  - intros Hy%Z.ltb_lt. rewrite Hy in Hf. apply orb_prop in Hf as [?|?]; bools; lia.
Defined.

(** ** UTF-8 facts *)

(** Induction on the length of a list, for functions that consume several
    elements at a time. *)
Lemma list_length_ind {A} (P : list A -> Prop) :
  (forall l, (forall k, (length k < length l)%nat -> P k) -> P l) -> forall l, P l.
Proof.
  intros H l. assert (G : forall n k, (length k < n)%nat -> P k).
  { induction n as [|n IH]; intros k Hk; [lia|]. apply H. intros. apply IH. lia. }
  apply (G (S (length l))). lia.
Qed.

Module Utf8Facts.
Import Utf8.

Lemma valid_rune_spec r :
  valid_rune r = true <-> 0 <= r <= 1114111 /\ ~ (55296 <= r <= 57343).
Proof. unfold valid_rune. lia. Qed.

Lemma is2_spec b0 b1 :
  is2 b0 b1 = true <-> 194 <= byteZ b0 <= 223 /\ 128 <= byteZ b1 <= 191.
Proof. unfold is2, in_range, is_cont. lia. Qed.

Lemma is3_spec b0 b1 b2 :
  is3 b0 b1 b2 = true <->
  224 <= byteZ b0 <= 239 /\ 128 <= byteZ b1 <= 191 /\ 128 <= byteZ b2 <= 191 /\
  (byteZ b0 = 224 -> 160 <= byteZ b1) /\ (byteZ b0 = 237 -> byteZ b1 <= 159).
Proof.
  unfold is3, in_range, is_cont.
  destruct (byteZ b0 =? 224) eqn:E; [|destruct (byteZ b0 =? 237) eqn:E']; lia.
Qed.

Lemma is4_spec b0 b1 b2 b3 :
  is4 b0 b1 b2 b3 = true <->
  240 <= byteZ b0 <= 244 /\ 128 <= byteZ b1 <= 191 /\ 128 <= byteZ b2 <= 191 /\
  128 <= byteZ b3 <= 191 /\
  (byteZ b0 = 240 -> 144 <= byteZ b1) /\ (byteZ b0 = 244 -> byteZ b1 <= 143).
Proof.
  unfold is4, in_range, is_cont.
  destruct (byteZ b0 =? 240) eqn:E; [|destruct (byteZ b0 =? 244) eqn:E']; lia.
Qed.

Lemma is_cont_spec b : is_cont b = true <-> 128 <= byteZ b <= 191.
Proof. unfold is_cont. lia. Qed.

Ltac conts := repeat constructor; apply is_cont_spec; lia.

(** One step of the decoder: the first byte, the continuation bytes it takes and
    a valid rune. *)
Lemma segs_cons b0 s1 :
  exists r k s', segs (b0 :: s1) = (r, b0 :: k) :: segs s' /\ s1 = k ++ s' /\
    valid_rune r = true /\ (r < 128 -> r = byteZ b0) /\ Forall (λ c, is_cont c = true) k.
Proof.
  assert (Err : exists r k s', (RuneError, [b0]) :: segs s1 = (r, b0 :: k) :: segs s' /\
    s1 = k ++ s' /\ valid_rune r = true /\ (r < 128 -> r = byteZ b0) /\
    Forall (λ c, is_cont c = true) k)
    by (exists RuneError, [], s1; done).
  assert (R0 := byteZ_range b0). cbn [segs]. destruct (byteZ b0 <? 128) eqn:E0.
  { exists (byteZ b0), [], s1. repeat split; [apply valid_rune_spec; lia|done]. }
  destruct s1 as [|b1 s2]; [done|]. destruct (is2 b0 b1) eqn:E2.
  { exists (val2 b0 b1), [b1], s2. apply is2_spec in E2.
    repeat split; [apply valid_rune_spec; unfold val2; lia|unfold val2; lia|conts]. }
  destruct s2 as [|b2 s3]; [done|]. destruct (is3 b0 b1 b2) eqn:E3.
  { exists (val3 b0 b1 b2), [b1; b2], s3. apply is3_spec in E3.
    repeat split; [apply valid_rune_spec; unfold val3; lia|unfold val3; lia|conts]. }
  destruct s3 as [|b3 s4]; [done|]. destruct (is4 b0 b1 b2 b3) eqn:E4; [|done].
  exists (val4 b0 b1 b2 b3), [b1; b2; b3], s4. apply is4_spec in E4.
  repeat split; [apply valid_rune_spec; unfold val4; lia|unfold val4; lia|conts].
Qed.

(** Decoding loses no byte. *)
Lemma unsegs_segs s : unsegs (segs s) = s.
Proof.
  induction s as [[|b s] IH] using list_length_ind; [done|].
  destruct (segs_cons b s) as (r & k & s' & -> & -> & _).
  unfold unsegs in *. simpl. rewrite IH; [done|]. simpl. rewrite length_app. lia.
Qed.

Lemma runes_valid s : Forall (λ r, valid_rune r = true) (runes s).
Proof.
  induction s as [[|b s] IH] using list_length_ind; [constructor|].
  unfold runes. destruct (segs_cons b s) as (r & k & s' & -> & -> & Hv & _ & _).
  simpl. constructor; [done|]. apply IH. simpl. rewrite length_app. lia.
Qed.

(** Arithmetic on the bytes of an encoding. *)
Ltac enc_arith := rewrite ?byteZ_chr in *; Z.div_mod_to_equations; lia.

(** Decoding an encoded rune gives it back, whatever follows. *)
Lemma segs_encode r s :
  valid_rune r = true -> segs (encodeRune r ++ s) = (r, encodeRune r) :: segs s.
Proof.
  intros Hv. unfold encodeRune. rewrite Hv. apply valid_rune_spec in Hv.
  destruct (r <? 128) eqn:E1; [|destruct (r <? 2048) eqn:E2; [|destruct (r <? 65536) eqn:E3]];
    cbn [app segs].
  - rewrite byteZ_chr, E1 by lia. done.
  - rewrite (proj2 (Z.ltb_ge _ _)) by enc_arith.
    rewrite (proj2 (is2_spec _ _)) by enc_arith.
    do 2 f_equal. unfold val2. enc_arith.
  - rewrite (proj2 (Z.ltb_ge _ _)) by enc_arith.
    destruct (is2 _ _) eqn:C2; [apply is2_spec in C2; enc_arith|].
    rewrite (proj2 (is3_spec _ _ _)) by enc_arith.
    do 2 f_equal. unfold val3. enc_arith.
  - rewrite (proj2 (Z.ltb_ge _ _)) by enc_arith.
    destruct (is2 _ _) eqn:C2; [apply is2_spec in C2; enc_arith|].
    destruct (is3 _ _ _) eqn:C3; [apply is3_spec in C3; enc_arith|].
    rewrite (proj2 (is4_spec _ _ _ _)) by enc_arith.
    do 2 f_equal. unfold val4. enc_arith.
Qed.

(** Encoding then decoding a sequence of valid runes is the identity. *)
Lemma segs_encodeRunes rs :
  Forall (λ r, valid_rune r = true) rs -> segs (encodeRunes rs) = (λ r, (r, encodeRune r)) <$> rs.
Proof.
  induction 1 as [|r rs Hr _ IH]; [done|].
  unfold encodeRunes in *. cbn [fmap list_fmap concat]. by rewrite segs_encode, IH.
Qed.

Lemma runes_encodeRunes rs :
  Forall (λ r, valid_rune r = true) rs -> runes (encodeRunes rs) = rs.
Proof.
  intros H. unfold runes. rewrite segs_encodeRunes by done.
  rewrite <- list_fmap_compose. by rewrite list_fmap_id.
Qed.

(** A string whose first byte is not a continuation byte. *)
Definition starts_rune (s : bytes) : Prop :=
  match s with [] => True | b :: _ => is_cont b = false end.

(** Decoding is compositional at a rune boundary: bytes that follow cannot
    change how what precedes is read. *)
Lemma segs_app a b : starts_rune b -> segs (a ++ b) = segs a ++ segs b.
Proof.
  intros Hb. destruct (decide (b = [])) as [->|Hne]; [by rewrite !app_nil_r|].
  assert (C : forall c t, b = c :: t -> ~ (128 <= byteZ c <= 191)).
  { intros c t -> Hc. simpl in Hb. apply is_cont_spec in Hc. congruence. }
  induction a as [[|b0 a1] IH] using list_length_ind; [done|].
  assert (IH1 : segs (a1 ++ b) = segs a1 ++ segs b) by (apply IH; simpl; lia).
  cbn [segs app]. destruct (byteZ b0 <? 128); [by rewrite IH1|].
  destruct a1 as [|b1 a2]; cbn [app] in *.
  { destruct b as [|c1 t]; [done|]. specialize (C c1 t eq_refl).
    destruct (is2 b0 c1) eqn:C2; [apply is2_spec in C2; lia|].
    destruct t as [|c2 t]; [done|].
    destruct (is3 b0 c1 c2) eqn:C3; [apply is3_spec in C3; lia|].
    destruct t as [|c3 t]; [done|].
    destruct (is4 b0 c1 c2 c3) eqn:C4; [apply is4_spec in C4; lia|]. done. }
  destruct (is2 b0 b1); [rewrite IH by (simpl; lia); done|].
  destruct a2 as [|b2 a3]; cbn [app] in *.
  { destruct b as [|c2 t]; [done|]. specialize (C c2 t eq_refl).
    destruct (is3 b0 b1 c2) eqn:C3; [apply is3_spec in C3; lia|].
    destruct t as [|c3 t]; [by rewrite IH1|].
    destruct (is4 b0 b1 c2 c3) eqn:C4; [apply is4_spec in C4; lia|]. by rewrite IH1. }
  destruct (is3 b0 b1 b2); [rewrite IH by (simpl; lia); done|].
  destruct a3 as [|b3 a4]; cbn [app] in *.
  { destruct b as [|c3 t]; [done|]. specialize (C c3 t eq_refl).
    destruct (is4 b0 b1 b2 c3) eqn:C4; [apply is4_spec in C4; lia|]. by rewrite IH1. }
  destruct (is4 b0 b1 b2 b3); [rewrite IH by (simpl; lia); done|]. by rewrite IH1.
Qed.

(** In particular at an ASCII byte. *)
Lemma segs_app_ascii a c b :
  byteZ c < 128 -> segs (a ++ c :: b) = segs a ++ (byteZ c, [c]) :: segs b.
Proof.
  intros Hc. rewrite segs_app.
  - cbn [segs]. by rewrite (proj2 (Z.ltb_lt _ _)).
  - simpl. destruct (is_cont c) eqn:E; [|done]. apply is_cont_spec in E. lia.
Qed.

(** The bytes of an encoded rune: the rune itself when it is ASCII, otherwise
    bytes past ASCII only. *)
Lemma encodeRune_bytes r c :
  valid_rune r = true -> c ∈ encodeRune r -> byteZ c < 128 -> r = byteZ c.
Proof.
  intros Hv. unfold encodeRune. rewrite Hv. apply valid_rune_spec in Hv.
  destruct (r <? 128) eqn:E1; [|destruct (r <? 2048) eqn:E2; [|destruct (r <? 65536) eqn:E3]];
    rewrite ?elem_of_cons, elem_of_nil; intros Hin Hc; bools;
    repeat destruct Hin as [->|Hin]; try done; try (exfalso; enc_arith).
  by rewrite byteZ_chr by lia.
Qed.

Lemma encodeRune_ascii r : 0 <= r < 128 -> encodeRune r = [chr r].
Proof.
  intros H. unfold encodeRune. rewrite (proj2 (valid_rune_spec r)) by lia.
  by rewrite (proj2 (Z.ltb_lt _ _)) by lia.
Qed.

Lemma encodeRune_length r : (1 <= length (encodeRune r) <= 4)%nat.
Proof. unfold encodeRune. cases; simpl; lia. Qed.

Lemma encodeRune_nonnil r : encodeRune r <> [].
Proof. intros E. pose proof (encodeRune_length r). rewrite E in *. simpl in *. lia. Qed.

End Utf8Facts.

#[export] Hint Resolve Utf8Facts.runes_valid : mailout.
