(* ===== verification/GoStrings.v ===== *)
(** * GoStrings: the functions of Go's [strings] and [bytes] packages

    The operations on strings the program uses, executable and at the byte
    level Go defines them at, with the lemmas the components share: how [Cut]
    decomposes a string, how [ToLower] commutes with [Cut] at an ASCII
    separator, and that normalising an entry ([ToLower] of [TrimSpace]) is
    idempotent. *)

From S2P Require Import Prelude Unicode.
Import Utf8 Utf8Facts.

(** ** Searching and cutting *)

Fixpoint HasPrefix (s p : bytes) : bool :=
  match p, s with
  | [], _ => true
  | c :: p', x :: s' => if x =b c then HasPrefix s' p' else false
  | _ :: _, [] => false
  end.

Definition HasSuffix (s p : bytes) : bool := HasPrefix (rev s) (rev p).

(** [strings.Index]: position of the first occurrence, [None] for Go's [-1]. *)
Fixpoint Index (s sub : bytes) : option nat :=
  if HasPrefix s sub then Some 0%nat else
  match s with
  | [] => None
  | _ :: s' => S <$> Index s' sub
  end.

Definition Contains (s sub : bytes) : bool :=
  match Index s sub with Some _ => true | None => false end.

Definition ContainsByte (s : bytes) (c : ascii) : bool := existsb (λ x, x =b c) s.

(** [strings.LastIndex] of a one-byte string. *)
Fixpoint LastIndexByte (s : bytes) (c : ascii) : option nat :=
  match s with
  | [] => None
  | x :: s' =>
      match LastIndexByte s' c with
      | Some i => Some (S i)
      | None => if x =b c then Some 0%nat else None
      end
  end.

(** [strings.Cut] around a one-byte separator: before, after, found. *)
Fixpoint Cut (s : bytes) (c : ascii) : bytes * bytes * bool :=
  match s with
  | [] => ([], [], false)
  | x :: s' =>
      if x =b c then ([], s', true)
      else let '(a, b, f) := Cut s' c in (x :: a, b, f)
  end.

(** ** Trimming *)

Definition TrimPrefix (s p : bytes) : bytes := if HasPrefix s p then drop (length p) s else s.
Definition TrimSuffix (s p : bytes) : bytes :=
  if HasSuffix s p then take (length s - length p) s else s.

(** [strings.CutPrefix]. *)
Definition CutPrefix (s p : bytes) : option bytes :=
  if HasPrefix s p then Some (drop (length p) s) else None.

Fixpoint drop_while {A} (f : A -> bool) (l : list A) : list A :=
  match l with
  | [] => []
  | x :: l' => if f x then drop_while f l' else l
  end.

Definition drop_while_end {A} (f : A -> bool) (l : list A) : list A := rev (drop_while f (rev l)).

(** [strings.TrimRight] with an ASCII cutset. *)
Definition TrimRight (s : bytes) (cutset : list ascii) : bytes :=
  drop_while_end (λ c, bool_decide (c ∈ cutset)) s.

(** [strings.TrimSpace]. *)
Definition TrimSpace (s : bytes) : bytes :=
  unsegs (drop_while_end (λ p, IsSpace p.1) (drop_while (λ p, IsSpace p.1) (segs s))).

(** [strings.SplitN(s, " ", 2)]. *)
Definition SplitN2 (s : bytes) (c : ascii) : list bytes :=
  let '(a, b, found) := Cut s c in if found then [a; b] else [s].

(** ** Mapping runes *)

(** [strings.Map], for a mapping that drops no rune. *)
Definition Map (f : Z -> Z) (s : bytes) : bytes := encodeRunes (f <$> runes s).

Section Case.
Context `{Unicode}.

Definition ToLower (s : bytes) : bytes := Map lower s.

Definition EqualFold (s t : bytes) : bool := bool_decide (fold <$> runes s = fold <$> runes t).
End Case.

(** ** Order *)

(** Go's [<=] on strings, bytewise lexicographic. *)
Fixpoint str_leb (a b : bytes) : bool :=
  match a, b with
  | [], _ => true
  | _ :: _, [] => false
  | x :: a', y :: b' =>
      if (byteZ x <? byteZ y)%Z then true
      else if (byteZ x =? byteZ y)%Z then str_leb a' b' else false
  end.

Definition str_le (a b : bytes) : Prop := str_leb a b = true.
#[export] Instance str_le_dec a b : Decision (str_le a b) := bool_eq_dec (str_leb a b) true.

(** [a < b]. *)
Definition str_ltb (a b : bytes) : bool := negb (str_leb b a).

(** [sort.Strings]. *)
Definition sort_Strings (l : list bytes) : list bytes := merge_sort str_le l.

(** ** Lemmas *)

Section CutFacts.
Implicit Types (s a b : bytes) (c : ascii).

Lemma Cut_found s c a b : Cut s c = (a, b, true) -> s = a ++ c :: b /\ c ∉ a.
Proof.
  revert a b. induction s as [|x s IH]; intros a b; simpl; [done|].
  case_bool_decide as Hx.
  - intros [= <- <-]. subst. split; [done|]. apply not_elem_of_nil.
  - destruct (Cut s c) as [[a' b'] f] eqn:E. intros [= <- <- ->].
    destruct (IH a' b' eq_refl) as [-> Hn]. split; [done|].
    rewrite not_elem_of_cons. split; [congruence|done].
Qed.

Lemma Cut_not_found s c a b : Cut s c = (a, b, false) -> a = s /\ b = [] /\ c ∉ s.
Proof.
  revert a b. induction s as [|x s IH]; intros a b; simpl.
  - intros [= <- <-]. repeat split. apply not_elem_of_nil.
  - case_bool_decide as Hx; [done|].
    destruct (Cut s c) as [[a' b'] f] eqn:E. intros [= <- <- ->].
    destruct (IH a' b' eq_refl) as (-> & -> & Hn). repeat split.
    rewrite not_elem_of_cons. split; [congruence|done].
Qed.

Lemma Cut_at a c b : c ∉ a -> Cut (a ++ c :: b) c = (a, b, true).
Proof.
  induction a as [|x a IH]; simpl; intros Hn.
  - by rewrite bool_decide_eq_true_2.
  - rewrite not_elem_of_cons in Hn. destruct Hn as [Hx Hn].
    rewrite bool_decide_eq_false_2 by congruence. by rewrite IH.
Qed.

Lemma Cut_none s c : c ∉ s -> Cut s c = (s, [], false).
Proof.
  intros Hn. destruct (Cut s c) as [[a b] [|]] eqn:E.
  - apply Cut_found in E as [-> _]. set_solver.
  - by apply Cut_not_found in E as (-> & -> & _).
Qed.

Lemma ContainsByte_spec s c : ContainsByte s c = true <-> c ∈ s.
Proof.
  unfold ContainsByte. rewrite existsb_exists. setoid_rewrite <- list_elem_of_In.
  split.
  - intros (x & Hx & E). bools. by subst.
  - intros Hc. exists c. split; [done|]. by apply bool_decide_eq_true_2.
Qed.

Lemma HasPrefix_spec s p : HasPrefix s p = true <-> exists t, s = p ++ t.
Proof.
  revert s. induction p as [|c p IH]; intros [|x s]; simpl.
  - split; [intros _; by exists []|done].
  - split; [intros _; by exists (x :: s)|done].
  - split; [done|]. intros (t & Ht). done.
  - case_bool_decide as Hx.
    + subst. rewrite IH. split; intros (t & Ht); exists t; congruence.
    + split; [done|]. intros (t & Ht). congruence.
Qed.

Lemma TrimPrefix_app p t : TrimPrefix (p ++ t) p = t.
Proof.
  unfold TrimPrefix. rewrite (proj2 (HasPrefix_spec _ _)) by eauto. by rewrite drop_app_length.
Qed.

(** The first occurrence, and nothing earlier. *)
Lemma Index_Some s sub i :
  Index s sub = Some i ->
  exists t, drop i s = sub ++ t /\ (i <= length s)%nat.
Proof.
  revert i. induction s as [|x s IH]; intros i; cbn [Index].
  - destruct (HasPrefix [] sub) eqn:E; [|done]. intros [= <-].
    apply HasPrefix_spec in E as [t Ht]. exists t. simpl. split; [by rewrite <- Ht|lia].
  - destruct (HasPrefix (x :: s) sub) eqn:E.
    + intros [= <-]. apply HasPrefix_spec in E as [t Ht]. exists t. simpl. split; [done|lia].
    + destruct (Index s sub) as [j|] eqn:Ej; [|done]. simpl. intros [= <-].
      destruct (IH j eq_refl) as (t & Ht & Hl). exists t. simpl. split; [done|lia].
Qed.

(** [Index] finds an occurrence, and the first one. *)
Lemma Index_Some_first s sub i :
  Index s sub = Some i ->
  s = take i s ++ sub ++ drop (i + length sub) s /\
  forall a b, s = a ++ sub ++ b -> (i <= length a)%nat.
Proof.
  revert i. induction s as [|x s IH]; intros i; cbn [Index].
  - destruct (HasPrefix [] sub) eqn:E; [|done]. intros [= <-].
    apply HasPrefix_spec in E as [t Ht]. split; [|intros; lia].
    by destruct sub.
  - destruct (HasPrefix (x :: s) sub) eqn:E.
    + intros [= <-]. apply HasPrefix_spec in E as [t Ht]. split; [|intros; lia].
      rewrite Ht at 1. simpl. rewrite Ht at 1. by rewrite drop_app_length.
    + destruct (Index s sub) as [j|] eqn:Ej; [|done]. simpl. intros [= <-].
      destruct (IH j eq_refl) as [Hs Hf]. split; [simpl; by f_equal|].
      intros a b Hab. destruct a as [|y a].
      * exfalso. assert (HasPrefix (x :: s) sub = true) by (apply HasPrefix_spec; by exists b).
        congruence.
      * injection Hab as -> Hab. simpl. specialize (Hf a b Hab). lia.
Qed.

Lemma Index_None_no s sub : Index s sub = None -> forall a b, s <> a ++ sub ++ b.
Proof.
  induction s as [|x s IH]; cbn [Index].
  - destruct (HasPrefix [] sub) eqn:E; [done|]. intros _ a b Hab.
    destruct a; [|done]. assert (HasPrefix [] sub = true) by (apply HasPrefix_spec; by exists b).
    congruence.
  - destruct (HasPrefix (x :: s) sub) eqn:E; [done|].
    destruct (Index s sub) as [j|] eqn:Ej; [done|]. intros _ a b Hab.
    destruct a as [|y a].
    + assert (HasPrefix (x :: s) sub = true) by (apply HasPrefix_spec; by exists b). congruence.
    + injection Hab as _ Hab. by eapply IH.
Qed.
End CutFacts.

Section TrimFacts.
Context {A : Type} (f : A -> bool).

Lemma drop_while_spec l :
  exists k, l = k ++ drop_while f l /\ Forall (λ x, f x = true) k /\
    match drop_while f l with [] => True | x :: _ => f x = false end.
Proof.
  induction l as [|x l (k & E & Hk & Hh)]; simpl; [by exists []|].
  destruct (f x) eqn:Ef; [|by exists []].
  exists (x :: k). simpl. rewrite <- E. repeat split; [|done]. by constructor.
Qed.

(** What both trims leave alone: neither end satisfies [f]. *)
Definition trimmed (l : list A) : Prop :=
  match l with [] => True | x :: _ => f x = false end /\
  match rev l with [] => True | x :: _ => f x = false end.

Lemma trim_trimmed l : trimmed l -> drop_while_end f (drop_while f l) = l.
Proof.
  intros [H1 H2]. unfold drop_while_end.
  destruct l as [|x l]; [done|]. simpl drop_while. rewrite H1.
  destruct (rev (x :: l)) as [|y k] eqn:E; [by apply (f_equal (@length _)) in E; rewrite length_rev in E|].
  simpl. rewrite H2, <- E. apply rev_involutive.
Qed.

Lemma trimmed_trim l : trimmed (drop_while_end f (drop_while f l)).
Proof.
  destruct (drop_while_spec l) as (k & _ & _ & Hh).
  set (m := drop_while f l) in *. clearbody m. unfold drop_while_end.
  destruct (drop_while_spec (rev m)) as (k' & E & Hk' & Hh').
  unfold trimmed. rewrite rev_involutive. split; [|done].
  generalize dependent (drop_while f (rev m)). intros l' E _.
  destruct (rev l') as [|y t] eqn:D; [done|].
  apply (f_equal (@rev A)) in E. rewrite rev_involutive, rev_app_distr, D in E.
  by subst m.
Qed.
End TrimFacts.

(** *** TrimSpace works on the runes of the string *)

Lemma segs_suffix s l m : segs s = l ++ m -> segs (unsegs m) = m.
Proof.
  revert s. induction l as [|p l IH]; intros s E; simpl in E.
  - by rewrite <- E, unsegs_segs.
  - destruct s as [|b s]; [done|].
    destruct (segs_cons b s) as (r & k & s' & Es & _). rewrite Es in E.
    injection E as _ E. by apply (IH s').
Qed.

Lemma segs_space_start s r bs m : segs s = (r, bs) :: m -> IsSpace r = true -> starts_rune s.
Proof.
  destruct s as [|b s]; [done|]. intros E Hr. simpl.
  destruct (is_cont b) eqn:C; [|done]. exfalso. apply is_cont_spec in C.
  cbn [segs] in E. rewrite (proj2 (Z.ltb_ge _ _)) in E by lia.
  destruct s as [|b1 s]; [injection E as <- _; done|].
  destruct (is2 b b1) eqn:E2; [apply is2_spec in E2; lia|].
  destruct s as [|b2 s]; [injection E as <- _; done|].
  destruct (is3 b b1 b2) eqn:E3; [apply is3_spec in E3; lia|].
  destruct s as [|b3 s]; [injection E as <- _; done|].
  destruct (is4 b b1 b2 b3) eqn:E4; [apply is4_spec in E4; lia|].
  injection E as <- _. done.
Qed.

Lemma unsegs_app l m : unsegs (l ++ m) = unsegs l ++ unsegs m.
Proof. unfold unsegs. by rewrite fmap_app, concat_app. Qed.

Definition trim_segs (l : list (Z * bytes)) : list (Z * bytes) :=
  drop_while_end (λ p, IsSpace p.1) (drop_while (λ p, IsSpace p.1) l).

Lemma segs_trim_end s l m :
  segs s = l ++ m -> Forall (λ p, IsSpace p.1 = true) m -> segs (unsegs l) = l.
Proof.
  intros E Hm. destruct m as [|[r bs] m].
  { rewrite app_nil_r in E. by rewrite <- E, unsegs_segs. }
  assert (Em := segs_suffix s l _ E).
  assert (Es : s = unsegs l ++ unsegs ((r, bs) :: m)) by (by rewrite <- unsegs_app, <- E, unsegs_segs).
  rewrite Es, segs_app, Em in E; [by apply app_inv_tail in E|].
  eapply segs_space_start; [apply Em|]. by apply Forall_cons in Hm as [? _].
Qed.

Lemma segs_TrimSpace s : segs (TrimSpace s) = trim_segs (segs s).
Proof.
  unfold TrimSpace. fold (trim_segs (segs s)). unfold trim_segs.
  destruct (drop_while_spec (λ p : Z * bytes, IsSpace p.1) (segs s)) as (k & E & _ & _).
  set (m := drop_while _ _) in *. clearbody m.
  apply segs_suffix in E.
  destruct (drop_while_spec (λ p : Z * bytes, IsSpace p.1) (rev m)) as (k' & E' & Hk' & _).
  apply (f_equal (@rev _)) in E'. rewrite rev_involutive, rev_app_distr in E'.
  unfold drop_while_end. eapply (segs_trim_end (unsegs m) _ (rev k')); [by rewrite E|].
  by apply Forall_rev.
Qed.

Lemma TrimSpace_idem s : TrimSpace (TrimSpace s) = TrimSpace s.
Proof.
  unfold TrimSpace at 1. rewrite segs_TrimSpace. unfold trim_segs.
  rewrite trim_trimmed by apply trimmed_trim. done.
Qed.

Section CaseFacts.
Context `{Unicode}.

Lemma lower_valid r : valid_rune r = true -> valid_rune (lower r) = true.
Proof.
  intros Hv. unfold lower. destruct (r <? 128)%Z eqn:E.
  - apply valid_rune_spec in Hv. apply valid_rune_spec. unfold lower_ascii. case_match; lia.
  - apply lower_hi_valid; [lia|done].
Qed.

Lemma lower_idem r : lower (lower r) = lower r.
Proof.
  unfold lower at 2 3. destruct (r <? 128)%Z eqn:E.
  - unfold lower, lower_ascii. cases; lia.
  - unfold lower. apply lower_hi_idem. lia.
Qed.

Lemma lower_space r : IsSpace (lower r) = IsSpace r.
Proof.
  unfold lower. destruct (r <? 128)%Z eqn:E; [|apply lower_hi_space; lia].
  unfold lower_ascii. case_match; [|done]. unfold IsSpace. lia.
Qed.

(** A separator: an ASCII byte that is not a letter, so no lower-casing
    produces or removes it. *)
Definition separator (c : ascii) : Prop :=
  (byteZ c < 128)%Z /\ ~ (65 <= byteZ c <= 90)%Z /\ ~ (97 <= byteZ c <= 122)%Z.

Lemma lower_separator c r : separator c -> lower r = byteZ c <-> r = byteZ c.
Proof.
  intros (H1 & H2 & H3). unfold lower. destruct (r <? 128)%Z eqn:E.
  - unfold lower_ascii. case_match; lia.
  - pose proof (lower_hi_ascii r). lia.
Qed.

Lemma lowers_valid s : Forall (λ r, valid_rune r = true) (lower <$> runes s).
Proof.
  apply Forall_fmap. eapply Forall_impl; [apply runes_valid|]. intros r. apply lower_valid.
Qed.

Lemma runes_ToLower s : runes (ToLower s) = lower <$> runes s.
Proof. apply runes_encodeRunes, lowers_valid. Qed.

Lemma ToLower_idem s : ToLower (ToLower s) = ToLower s.
Proof.
  unfold ToLower at 1, Map. rewrite runes_ToLower, <- list_fmap_compose.
  unfold ToLower, Map. f_equal. apply list_fmap_ext. intros i r _. apply lower_idem.
Qed.

Lemma segs_ToLower s :
  segs (ToLower s) = (λ p : Z * bytes, (lower p.1, encodeRune (lower p.1))) <$> segs s.
Proof.
  unfold ToLower, Map. rewrite segs_encodeRunes by apply lowers_valid.
  unfold runes. by rewrite <- !list_fmap_compose.
Qed.

Lemma fmap_rev {A B} (g : A -> B) l : g <$> rev l = rev (g <$> l).
Proof. apply List.map_rev. Qed.

Lemma drop_while_fmap {A B} (f : B -> bool) (g : A -> B) l :
  drop_while f (g <$> l) = g <$> drop_while (λ x, f (g x)) l.
Proof. induction l as [|x l IH]; simpl; [done|]. by case_match. Qed.

Lemma drop_while_ext {A} (f g : A -> bool) l :
  (forall x, f x = g x) -> drop_while f l = drop_while g l.
Proof. intros E. induction l as [|x l IH]; simpl; [done|]. by rewrite E, IH. Qed.

Lemma trim_segs_lower l :
  trim_segs ((λ p : Z * bytes, (lower p.1, encodeRune (lower p.1))) <$> l) =
  (λ p : Z * bytes, (lower p.1, encodeRune (lower p.1))) <$> trim_segs l.
Proof.
  unfold trim_segs, drop_while_end. rewrite drop_while_fmap, <- fmap_rev, drop_while_fmap, <- fmap_rev.
  f_equal.
  assert (E : forall k : list (Z * bytes),
    drop_while (λ p : Z * bytes, IsSpace (lower p.1, encodeRune (lower p.1)).1) k =
    drop_while (λ p : Z * bytes, IsSpace p.1) k).
  { intros k. apply drop_while_ext. intros p. apply lower_space. }
  by rewrite !E.
Qed.

Lemma TrimSpace_ToLower s : TrimSpace (ToLower s) = ToLower (TrimSpace s).
Proof.
  unfold TrimSpace at 1. rewrite segs_ToLower. fold (trim_segs (segs s)).
  change (unsegs (trim_segs ((λ p : Z * bytes, (lower p.1, encodeRune (lower p.1))) <$> segs s))
    = ToLower (TrimSpace s)).
  rewrite trim_segs_lower. unfold ToLower, Map, runes. rewrite segs_TrimSpace.
  unfold unsegs, encodeRunes. by rewrite <- !list_fmap_compose.
Qed.

(** [strings.ToLower(strings.TrimSpace(entry))], how the program normalises
    every sender entry. *)
Definition normalize (s : bytes) : bytes := ToLower (TrimSpace s).

Lemma normalize_idem s : normalize (normalize s) = normalize s.
Proof. unfold normalize. by rewrite TrimSpace_ToLower, ToLower_idem, TrimSpace_idem. Qed.

Lemma ToLower_app_sep a c b :
  separator c -> ToLower (a ++ c :: b) = ToLower a ++ c :: ToLower b.
Proof.
  intros Hc. unfold ToLower, Map, runes.
  rewrite segs_app_ascii by apply Hc. rewrite !fmap_app. unfold encodeRunes.
  rewrite fmap_app, concat_app. cbn [fmap list_fmap concat fst].
  rewrite (proj2 (lower_separator c (byteZ c) Hc) eq_refl).
  rewrite encodeRune_ascii by (pose proof (byteZ_range c); destruct Hc; lia).
  by rewrite chr_byteZ.
Qed.

Lemma encodeRunes_in c rs :
  (byteZ c < 128)%Z -> Forall (λ r, valid_rune r = true) rs ->
  c ∈ encodeRunes rs -> byteZ c ∈ rs.
Proof.
  intros Hc Hv. induction Hv as [|r rs Hr _ IH]; unfold encodeRunes; simpl.
  - by rewrite elem_of_nil.
  - rewrite elem_of_app, elem_of_cons. intros [Hin|Hin]; [|right; by apply IH].
    left. symmetry. by apply encodeRune_bytes.
Qed.

Lemma runes_in_ascii c s : (byteZ c < 128)%Z -> byteZ c ∈ runes s -> c ∈ s.
Proof.
  intros Hc. unfold runes.
  induction s as [[|b s] IH] using list_length_ind; [simpl; set_solver|].
  destruct (segs_cons b s) as (r & k & s' & -> & -> & _ & Hr & _).
  cbn [fmap list_fmap fst]. rewrite elem_of_cons. intros [E|Hin].
  - apply elem_of_cons. left. apply byteZ_inj. rewrite E. apply Hr. lia.
  - apply elem_of_cons. right. apply elem_of_app. right. apply IH; [|done]. simpl. rewrite length_app. lia.
Qed.

Lemma ToLower_in_sep c s : separator c -> c ∈ ToLower s -> c ∈ s.
Proof.
  intros Hc Hin. apply encodeRunes_in in Hin; [|apply Hc|apply lowers_valid].
  apply list_elem_of_fmap in Hin as (r & Er & Hin). symmetry in Er.
  apply (lower_separator c r Hc) in Er as ->. apply runes_in_ascii; [apply Hc|done].
Qed.

(** Cutting at a separator and lower-casing commute. *)
Lemma Cut_ToLower s c :
  separator c ->
  Cut (ToLower s) c = let '(a, b, f) := Cut s c in (ToLower a, ToLower b, f).
Proof.
  intros Hc. destruct (Cut s c) as [[a b] [|]] eqn:E.
  - apply Cut_found in E as [-> Hn]. rewrite ToLower_app_sep by done. apply Cut_at.
    intros Hin. by apply Hn, ToLower_in_sep.
  - apply Cut_not_found in E as (-> & -> & Hn). apply Cut_none.
    intros Hin. by apply Hn, ToLower_in_sep.
Qed.

Lemma ToLower_nil s : ToLower s = [] <-> s = [].
Proof.
  split; [|by intros ->]. destruct s as [|b s]; [done|]. unfold ToLower, Map, runes.
  destruct (segs_cons b s) as (r & k & s' & -> & _). unfold encodeRunes. simpl.
  intros E%app_eq_nil. destruct E as [E _]. by apply encodeRune_nonnil in E.
Qed.
End CaseFacts.

#[export] Hint Resolve normalize_idem ToLower_idem TrimSpace_idem : mailout.

(** The order on strings is total, and equal strings are the only ties. *)
Section OrderFacts.
Implicit Types (a b c : bytes).

Lemma str_leb_refl a : str_leb a a = true.
Proof. induction a as [|x a IH]; simpl; [done|]. by rewrite Z.ltb_irrefl, Z.eqb_refl. Qed.

Lemma str_leb_total a b : str_leb a b = false -> str_leb b a = true.
Proof.
  revert b. induction a as [|x a IH]; intros [|y b]; simpl; try done.
  destruct (Z.ltb_spec (byteZ x) (byteZ y)); [done|].
  destruct (Z.eqb_spec (byteZ x) (byteZ y)) as [E|E]; intros Hf.
  - rewrite E, Z.ltb_irrefl, Z.eqb_refl. by apply IH.
  - destruct (Z.ltb_spec (byteZ y) (byteZ x)); [done|lia].
Qed.

Lemma str_leb_antisymm a b : str_leb a b = true -> str_leb b a = true -> a = b.
Proof.
  revert b. induction a as [|x a IH]; intros [|y b]; simpl; try done.
  destruct (Z.ltb_spec (byteZ x) (byteZ y)), (Z.ltb_spec (byteZ y) (byteZ x)); try lia;
    destruct (Z.eqb_spec (byteZ x) (byteZ y)), (Z.eqb_spec (byteZ y) (byteZ x)); try lia; try done.
  intros. f_equal; [by apply byteZ_inj|auto].
Qed.

Lemma str_leb_trans a b c : str_leb a b = true -> str_leb b c = true -> str_leb a c = true.
Proof.
  revert b c. induction a as [|x a IH]; intros [|y b] [|z c]; simpl; try done.
  destruct (Z.ltb_spec (byteZ x) (byteZ y)), (Z.ltb_spec (byteZ y) (byteZ z)),
    (Z.ltb_spec (byteZ x) (byteZ z)); try lia; try done;
    destruct (Z.eqb_spec (byteZ x) (byteZ y)), (Z.eqb_spec (byteZ y) (byteZ z)),
      (Z.eqb_spec (byteZ x) (byteZ z)); try lia; try done.
  apply IH.
Qed.

#[export] Instance str_le_total : Total str_le.
Proof. intros a b. unfold str_le. destruct (str_leb a b) eqn:E; [by left|right]. by apply str_leb_total. Qed.
#[export] Instance str_le_trans : Transitive str_le.
Proof. intros a b c. apply str_leb_trans. Qed.
#[export] Instance str_le_antisymm : AntiSymm (=) str_le.
Proof. intros a b. apply str_leb_antisymm. Qed.

Lemma str_ltb_le a b : str_ltb b a = false <-> str_le a b.
Proof. unfold str_ltb, str_le. by rewrite negb_false_iff. Qed.

Lemma str_ltb_irrefl a : str_ltb a a = false.
Proof. unfold str_ltb. by rewrite str_leb_refl. Qed.

Lemma str_ltb_asymm a b : str_ltb a b = true -> str_ltb b a = false.
Proof. unfold str_ltb. rewrite negb_true_iff, negb_false_iff. apply str_leb_total. Qed.

Lemma sort_Strings_perm l : sort_Strings l ≡ₚ l.
Proof. apply merge_sort_Permutation. Qed.

Lemma sort_Strings_sorted l : StronglySorted str_le (sort_Strings l).
Proof. apply Sorted_StronglySorted; [apply _|]. apply Sorted_merge_sort, _. Qed.
End OrderFacts.
