(* ===== verification/GoTime.v ===== *)
(** * GoTime: dates in headers and in certificates

    [time.Time.Format(time.RFC1123Z)], as [receivedHeader] of
    [src/internal/gateway/server.go] uses it, and [AddDate] by years, as
    [src/internal/pki/pki.go] does, for a clock in UTC: the calendar computed
    with the proleptic Gregorian rules. *)

From S2P Require Import Prelude.
#[local] Open Scope Z_scope.

(** Year, month and day of a day number counted from 1970-01-01; the year is
    taken to begin in March, which puts the leap day last. *)
Definition civil (days : Z) : Z * Z * Z :=
  let z := days + 719468 in
  let era := z / 146097 in
  let doe := z - era * 146097 in
  let yoe := (doe - doe / 1460 + doe / 36524 - doe / 146096) / 365 in
  let doy := doe - (365 * yoe + yoe / 4 - yoe / 100) in
  let mp := (5 * doy + 2) / 153 in
  let d := doy - (153 * mp + 2) / 5 + 1 in
  let m := if mp <? 10 then mp + 3 else mp - 9 in
  (yoe + era * 400 + (if m <=? 2 then 1 else 0), m, d).

(** The day number of a date; a day past the end of its month runs into the next
    one, as [time.Date] normalizes it. *)
Definition daysOf (date : Z * Z * Z) : Z :=
  let '(y, m, d) := date in
  let y := if m <=? 2 then y - 1 else y in
  let mp := if m <=? 2 then m + 9 else m - 3 in
  365 * y + y / 4 - y / 100 + y / 400 + (153 * mp + 2) / 5 + d - 1 - 719468.

Definition dayNanos : Z := 86400 * 10 ^ 9.

(** [t.AddDate(years, 0, 0)], in nanoseconds of UTC. *)
Definition AddYears (t years : Z) : Z :=
  let '(y, m, d) := civil (t / dayNanos) in
  daysOf (y + years, m, d) * dayNanos + t mod dayNanos.

Definition weekday (days : Z) : bytes :=
  nth (Z.to_nat ((days + 4) mod 7))
    (lit <$> ["Sun"; "Mon"; "Tue"; "Wed"; "Thu"; "Fri"; "Sat"]%string) [].

Definition month (m : Z) : bytes :=
  nth (Z.to_nat (m - 1))
    (lit <$> ["Jan"; "Feb"; "Mar"; "Apr"; "May"; "Jun"; "Jul"; "Aug"; "Sep"; "Oct"; "Nov"; "Dec"]%string) [].

(** Two digits, and four for the year. *)
Definition pad2 (z : Z) : bytes := if z <? 10 then lit "0" ++ itoa z else itoa z.
Definition pad4 (z : Z) : bytes :=
  if z <? 10 then lit "000" ++ itoa z
  else if z <? 100 then lit "00" ++ itoa z
  else if z <? 1000 then lit "0" ++ itoa z else itoa z.

(** "Mon, 02 Jan 2006 15:04:05 -0700". *)
Definition RFC1123Z (unix : Z) : bytes :=
  let days := unix / 86400 in
  let secs := unix mod 86400 in
  let '(y, m, d) := civil days in
  weekday days ++ lit ", " ++ pad2 d ++ lit " " ++ month m ++ lit " " ++ pad4 y ++ lit " " ++
  pad2 (secs / 3600) ++ lit ":" ++ pad2 (secs / 60 mod 60) ++ lit ":" ++ pad2 (secs mod 60) ++ lit " +0000".

(** A byte that is printable ASCII or a space. *)
Definition plain (b : ascii) : Prop := 32 <= byteZ b <= 126.

#[export] Instance plain_dec b : Decision (plain b).
Proof. unfold plain. apply _. Defined.

Lemma plain_lit s : forallb (λ b, bool_decide (plain b)) (lit s) = true -> Forall plain (lit s).
Proof.
  intros Hf. apply Forall_forall. intros b Hb. apply (bool_decide_eq_true (plain b)).
  apply (proj1 (forallb_forall _ _) Hf). by apply list_elem_of_In.
Qed.

Lemma itoa_plain z : Forall plain (itoa z).
Proof. eapply Forall_impl; [apply itoa_numeral|]. unfold numeral, plain. intros b Hb. lia. Qed.

Lemma nth_plain n l : Forall (Forall plain) l -> Forall plain (nth n l []).
Proof.
  revert n. induction l as [|x l IH]; intros [|n] Hl; simpl; try constructor;
    apply Forall_cons in Hl as [? ?]; auto.
Qed.

Lemma names_plain (l : list string) :
  forallb (λ s, forallb (λ b, bool_decide (plain b)) (lit s)) l = true -> Forall (Forall plain) (lit <$> l).
Proof.
  induction l as [|s l IH]; simpl; [constructor|]. intros Hf. bools. constructor; [by apply plain_lit|by apply IH].
Qed.

Lemma RFC1123Z_plain t : Forall plain (RFC1123Z t).
Proof.
  unfold RFC1123Z. destruct (civil _) as [[y m] d]. unfold pad2, pad4, weekday, month.
  repeat (apply Forall_app_2); repeat case_match; repeat (apply Forall_app_2);
    first [apply itoa_plain | by apply plain_lit; vm_compute | by apply nth_plain, names_plain; vm_compute].
Qed.

(** The reference date of the layout, and a leap day. *)
Example RFC1123Z_examples :
  RFC1123Z 1136239445 = lit "Mon, 02 Jan 2006 22:04:05 +0000" /\
  RFC1123Z 1709164800 = lit "Thu, 29 Feb 2024 00:00:00 +0000" /\
  RFC1123Z 0 = lit "Thu, 01 Jan 1970 00:00:00 +0000".
Proof. vm_compute. done. Qed.

(** ** Calendar arithmetic *)

(** The day of an era of 400 years, a year and a month at a time. *)
Definition yearOfEra (doe : Z) : Z := (doe - doe / 1460 + doe / 36524 - doe / 146096) / 365.
Definition dayOfYear (doe : Z) : Z :=
  doe - (365 * yearOfEra doe + yearOfEra doe / 4 - yearOfEra doe / 100).

Lemma era_bounds doe : 0 <= doe < 146097 -> 0 <= yearOfEra doe < 400 /\ 0 <= dayOfYear doe <= 365.
Proof.
  intros Hd. assert (Hy : 0 <= yearOfEra doe < 400).
  { unfold yearOfEra. Z.to_euclidean_division_equations. lia. }
  split; [done|]. unfold dayOfYear. remember (yearOfEra doe) as y eqn:E. unfold yearOfEra in E.
  Z.to_euclidean_division_equations. lia.
Qed.

(** Every day is the day of its date. *)
Lemma daysOf_civil days : daysOf (civil days) = days.
Proof.
  unfold civil. set (era := (days + 719468) / 146097).
  assert (Hd : 0 <= days + 719468 - era * 146097 < 146097)
    by (pose proof (Z.mod_pos_bound (days + 719468) 146097); pose proof (Z.div_mod (days + 719468) 146097); lia).
  set (doe := days + 719468 - era * 146097) in *. destruct (era_bounds doe Hd) as [Hy Hdy].
  fold (yearOfEra doe). fold (dayOfYear doe). set (yoe := yearOfEra doe) in *.
  assert (Hmp : 0 <= (5 * dayOfYear doe + 2) / 153 <= 11)
    by (split; [apply Z.div_pos; lia|apply Z.lt_succ_r, Z.div_lt_upper_bound; lia]).
  assert (Hdoy : dayOfYear doe = doe - (365 * yoe + yoe / 4 - yoe / 100)) by done.
  set (mp := (5 * dayOfYear doe + 2) / 153) in *. set (doy := dayOfYear doe) in *. clearbody mp doy yoe.
  assert (Hera : (yoe + era * 400) / 4 = yoe / 4 + era * 100 /\ (yoe + era * 400) / 100 = yoe / 100 + era * 4 /\
    (yoe + era * 400) / 400 = era) by (clear -Hy; Z.to_euclidean_division_equations; lia).
  destruct Hera as (E1 & E2 & E3). unfold daysOf, doe in *.
  destruct (mp <? 10) eqn:Em; bools.
  - rewrite (proj2 (Z.leb_gt (mp + 3) 2)) by lia. cbn iota. rewrite Z.add_0_r, E1, E2, E3.
    replace (mp + 3 - 3) with mp by lia. lia.
  - rewrite (proj2 (Z.leb_le (mp - 9) 2)) by lia. cbn iota.
    replace (yoe + era * 400 + 1 - 1) with (yoe + era * 400) by lia. rewrite E1, E2, E3.
    replace (mp - 9 + 9) with mp by lia. lia.
Qed.

(** A year later is 365 or 366 days later, at the same time of day. *)
Lemma AddYears_one t : AddYears t 1 = t + 365 * dayNanos \/ AddYears t 1 = t + 366 * dayNanos.
Proof.
  unfold AddYears. pose proof (daysOf_civil (t / dayNanos)) as Hd.
  destruct (civil (t / dayNanos)) as [[y m] d].
  assert (Ht : t = t / dayNanos * dayNanos + t mod dayNanos)
    by (rewrite (Z.mul_comm (t / dayNanos)); apply Z.div_mod; by vm_compute).
  assert (Hy : daysOf (y + 1, m, d) = daysOf (y, m, d) + 365 \/ daysOf (y + 1, m, d) = daysOf (y, m, d) + 366).
  { unfold daysOf. clear. destruct (m <=? 2); Z.to_euclidean_division_equations; lia. }
  rewrite Hd in Hy. destruct Hy as [-> | ->]; [left|right]; lia.
Qed.

Example AddYears_leap_day : AddYears (1709164800 * 10 ^ 9) 1 = 1740787200 * 10 ^ 9.
Proof. by vm_compute. Qed.
