(* ===== verification/GoNet.v ===== *)
(** * GoNet: addresses and decimal numbers

    The functions of Go's [net], [strconv] and [fmt] packages the operator uses
    to take a listener or store address apart: [net.SplitHostPort],
    [strconv.Atoi] and [fmt.Sscan] into an [int]; with the round trips through
    the decimal rendering the program prints ports with. *)

From S2P Require Import Prelude Unicode GoStrings.
Import Utf8 Utf8Facts.
#[local] Open Scope Z_scope.

Definition COLON : ascii := chr 58.
Definition LBRACKET : ascii := chr 91.
Definition RBRACKET : ascii := chr 93.

(** [bytealg.IndexByteString], [None] for [-1]. *)
Fixpoint IndexByte (s : bytes) (c : ascii) : option nat :=
  match s with
  | [] => None
  | x :: s' => if x =b c then Some 0%nat else S <$> IndexByte s' c
  end.

(** Host and port; [None] is any of its errors. A bracketed host must end just
    before the last colon; no other bracket, and no other colon outside them,
    is accepted. *)
Definition SplitHostPort (hostport : bytes) : option (bytes * bytes) :=
  match LastIndexByte hostport COLON with
  | None => None
  | Some i =>
      let finish host j k :=
        if ContainsByte (drop j hostport) LBRACKET then None
        else if ContainsByte (drop k hostport) RBRACKET then None
        else Some (host, drop (S i) hostport) in
      if HasPrefix hostport [LBRACKET] then
        match IndexByte hostport RBRACKET with
        | None => None
        | Some end_ =>
            if (S end_ =? i)%nat then finish (take (end_ - 1) (drop 1 hostport)) 1%nat (S end_)
            else None
        end
      else
        let host := take i hostport in
        if ContainsByte host COLON then None else finish host 0%nat 0%nat
  end.

(** The value of a run of decimal digits. *)
Definition is_digit (c : ascii) : bool := (48 <=? byteZ c) && (byteZ c <=? 57).
Definition decimal (acc : Z) (digits : bytes) : Z :=
  foldl (λ n c, n * 10 + (byteZ c - 48)) acc digits.

Definition MaxInt64 : Z := 2 ^ 63 - 1.
Definition MinInt64 : Z := - 2 ^ 63.

(** In the range of an [int], or the error of a number out of range. *)
Definition in_int (z : Z) : option Z :=
  if (MinInt64 <=? z) && (z <=? MaxInt64) then Some z else None.

(** [strconv.Atoi]: a sign, then one digit at least. *)
Definition Atoi (s : bytes) : option Z :=
  let '(neg, digits) :=
    match s with
    | c :: s' => if c =b chr 45 then (true, s') else if c =b chr 43 then (false, s') else (false, s)
    | [] => (false, s)
    end in
  if (digits =b []) || negb (forallb is_digit digits) then None
  else in_int (if neg then - decimal 0 digits else decimal 0 digits).

(** *** fmt.Sscan into an [int] *)

Definition lower_byte (c : ascii) : Z := if (65 <=? byteZ c) && (byteZ c <=? 90) then byteZ c + 32 else byteZ c.

(** The value of a digit in any base, [None] for another byte. *)
Definition digit_value (c : ascii) : option Z :=
  if is_digit c then Some (byteZ c - 48)
  else if (97 <=? lower_byte c) && (lower_byte c <=? 122) then Some (lower_byte c - 97 + 10)
  else None.

(** The base a prefix announces ([0b], [0o], [0x]). *)
Definition base_prefix (s : bytes) : option Z :=
  match s with
  | z :: c :: _ =>
      if z =b chr 48 then
        if lower_byte c =? 98 then Some 2
        else if lower_byte c =? 111 then Some 8
        else if lower_byte c =? 120 then Some 16
        else None
      else None
  | _ => None
  end.

(** [strconv.underscoreOK] past the sign: underscores separate digits. *)
Fixpoint underscoreLoop (hex : bool) (last : ascii) (s : bytes) : bool :=
  match s with
  | [] => last <>b chr 95
  | c :: s' =>
      if is_digit c || hex && ((97 <=? lower_byte c) && (lower_byte c <=? 102))
      then underscoreLoop hex (chr 48) s'
      else if c =b chr 95 then if last <>b chr 48 then false else underscoreLoop hex c s'
      else if last =b chr 95 then false
      else underscoreLoop hex (chr 33) s'
  end.

Definition underscoreOK (s : bytes) : bool :=
  match base_prefix s with
  | Some b => underscoreLoop (b =? 16) (chr 48) (drop 2 s)
  | None => underscoreLoop false (chr 94) s
  end.

(** The digits of a number in a base, underscores skipped. *)
Fixpoint digits_in (base acc : Z) (s : bytes) : option Z :=
  match s with
  | [] => Some acc
  | c :: s' =>
      if c =b chr 95 then digits_in base acc s'
      else match digit_value c with
           | Some d => if d <? base then digits_in base (acc * base + d) s' else None
           | None => None
           end
  end.

(** [strconv.ParseUint] with base 0: the base is that of the prefix, 8 after
    another leading zero, 10 otherwise. *)
Definition ParseUint0 (s : bytes) : option Z :=
  if s =b [] then None
  else
    let '(base, digits) :=
      match base_prefix s with
      | Some b => if (2 <? length s)%nat then (b, drop 2 s) else (8, drop 1 s)
      | None => if HasPrefix s [chr 48] then (8, drop 1 s) else (10, s)
      end in
    match digits_in base 0 digits with
    | Some z => if ContainsByte s (chr 95) && negb (underscoreOK s) then None else Some z
    | None => None
    end.

(** The bytes [scanNumber] accepts, by the base the prefix chose. *)
Definition accepted_digit (base : Z) (c : ascii) : bool :=
  (c =b chr 95) || match digit_value c with Some d => d <? base | None => false end.

Fixpoint take_while {A} (f : A -> bool) (l : list A) : list A :=
  match l with
  | [] => []
  | x :: l' => if f x then x :: take_while f l' else []
  end.

(** The token read after the sign, [None] where no digit follows. *)
Definition scanNumber (s : bytes) : option bytes :=
  match s with
  | z :: rest =>
      if z =b chr 48 then
        match base_prefix s, rest with
        | Some b, p :: digits => Some (z :: p :: take_while (accepted_digit b) digits)
        | _, _ => Some (z :: take_while (accepted_digit 8) rest)
        end
      else if accepted_digit 10 z then Some (take_while (accepted_digit 10) s)
      else None
  | [] => None
  end.

(** [fmt.Sscan(s, &n)] for an [int]; [None] is an error, which leaves [n]
    alone. *)
Definition Sscan (s : bytes) : option Z :=
  let s := unsegs (drop_while (λ p, IsSpace p.1) (segs s)) in
  let '(neg, s) :=
    match s with
    | c :: s' => if c =b chr 45 then (true, s') else if c =b chr 43 then (false, s') else (false, s)
    | [] => (false, s)
    end in
  match scanNumber s with
  | None => None
  | Some tok =>
      match ParseUint0 tok with
      | None => None
      | Some z => in_int (if neg then - z else z)
      end
  end.

(** ** Round trips *)

Lemma decimal_pretty_go x s : decimal 0 (lit (pretty_N_go x s)) = decimal (Z.of_N x) (lit s).
Proof.
  revert s. induction (N.lt_wf_0 x) as [x _ IH]; intros s.
  assert (x = 0 \/ 0 < x)%N as [->|Hx] by lia; [done|].
  rewrite pretty_N_go_step by done. rewrite IH by by apply N.div_lt.
  change (lit (String (pretty_N_char (x mod 10)) s)) with (pretty_N_char (x mod 10) :: lit s).
  unfold decimal. cbn [foldl]. f_equal.
  assert (byteZ (pretty_N_char (x mod 10)) = 48 + Z.of_N (x mod 10)) as ->.
  { pose proof (N.mod_lt x 10 ltac:(done)). generalize dependent (x mod 10)%N. intros m Hm.
    assert (m = 0 \/ m = 1 \/ m = 2 \/ m = 3 \/ m = 4 \/ m = 5 \/ m = 6 \/ m = 7 \/ m = 8 \/ m = 9)%N
      as Hc by lia. by repeat destruct Hc as [->|Hc]; subst. }
  pose proof (N.div_mod x 10 ltac:(done)). lia.
Qed.

Lemma decimal_pretty (x : N) : decimal 0 (lit (pretty x)) = Z.of_N x.
Proof. unfold pretty, pretty_N. case_decide as E; [by subst|]. by rewrite decimal_pretty_go. Qed.

Lemma pretty_N_go_digits x s :
  forallb is_digit (lit s) = true -> forallb is_digit (lit (pretty_N_go x s)) = true.
Proof.
  revert s. induction (N.lt_wf_0 x) as [x _ IH]; intros s Hs.
  assert (x = 0 \/ 0 < x)%N as [->|Hx] by lia; [done|].
  rewrite pretty_N_go_step by done. apply IH; [by apply N.div_lt|].
  change (lit (String (pretty_N_char (x mod 10)) s)) with (pretty_N_char (x mod 10) :: lit s).
  cbn [forallb]. rewrite Hs, andb_true_r. unfold pretty_N_char. repeat case_match; done.
Qed.

Lemma pretty_N_digits (x : N) : forallb is_digit (lit (pretty x)) = true.
Proof. unfold pretty, pretty_N. case_decide; [done|by apply pretty_N_go_digits]. Qed.

Lemma pretty_N_nonempty (x : N) : lit (pretty x) <> [].
Proof.
  intros E. destruct (decide (x = 0%N)) as [->|Hx]; [done|].
  pose proof (decimal_pretty x) as Hd. rewrite E in Hd. cbn in Hd. lia.
Qed.

(** A natural number prints as digits, without a sign. *)
Lemma itoa_digits z : 0 <= z ->
  forallb is_digit (itoa z) = true /\ itoa z <> [] /\ decimal 0 (itoa z) = z.
Proof.
  intros Hz. assert (itoa z = lit (pretty (Z.to_N z))) as ->.
  { destruct z; [done|done|lia]. }
  split_and!; [apply pretty_N_digits|apply pretty_N_nonempty|rewrite decimal_pretty; lia].
Qed.

Lemma digit_bytes s c : forallb is_digit s = true -> c ∈ s -> 48 <= byteZ c <= 57.
Proof.
  intros Hs Hc%list_elem_of_In. rewrite forallb_forall in Hs. specialize (Hs _ Hc).
  unfold is_digit in Hs. bools. lia.
Qed.

Lemma Atoi_itoa z : 0 <= z <= MaxInt64 -> Atoi (itoa z) = Some z.
Proof.
  intros Hz. destruct (itoa_digits z) as (Hd & Hne & Hv); [lia|]. unfold Atoi.
  destruct (itoa z) as [|c s] eqn:E; [done|].
  assert (48 <= byteZ c <= 57) as Hc by (eapply digit_bytes; [exact Hd|left]).
  rewrite bool_decide_eq_false_2 by (intros ->; change (byteZ (chr 45)) with 45 in Hc; lia).
  rewrite bool_decide_eq_false_2 by (intros ->; change (byteZ (chr 43)) with 43 in Hc; lia).
  rewrite bool_decide_eq_false_2 by done. rewrite Hd, Hv. cbn [orb negb]. unfold in_int.
  rewrite (proj2 (andb_true_iff _ _)); [done|]. unfold MinInt64, MaxInt64 in *.
  split; apply Z.leb_le; lia.
Qed.

Lemma ContainsByte_not s c : c ∉ s -> ContainsByte s c = false.
Proof.
  intros Hc. unfold ContainsByte. apply not_true_iff_false. rewrite existsb_exists.
  intros (x & Hx%list_elem_of_In & E). bools. by subst.
Qed.

Lemma LastIndexByte_not s c : c ∉ s -> LastIndexByte s c = None.
Proof.
  induction s as [|x s IH]; cbn; [done|]. intros [Hx Hs]%not_elem_of_cons. rewrite IH by done.
  by rewrite bool_decide_eq_false_2.
Qed.

(** The address of a listener on every interface comes apart as it was made. *)
Lemma SplitHostPort_port p : 0 <= p -> SplitHostPort (lit ":" ++ itoa p) = Some ([], itoa p).
Proof.
  intros Hp. destruct (itoa_digits p Hp) as (Hd & _ & _).
  assert (Hno : forall c, byteZ c < 48 \/ 57 < byteZ c -> c ∉ itoa p)
    by (intros c Hc Hin; pose proof (digit_bytes _ _ Hd Hin); lia).
  unfold SplitHostPort. change (lit ":" ++ itoa p) with (COLON :: itoa p).
  assert (LastIndexByte (COLON :: itoa p) COLON = Some 0%nat) as ->.
  { cbn [LastIndexByte]. rewrite LastIndexByte_not by (apply Hno; vm_compute; by right). done. }
  change (HasPrefix (COLON :: itoa p) [LBRACKET]) with false. cbn [take drop].
  change (ContainsByte [] COLON) with false.
  assert (Hb : forall c, c <> COLON -> c ∉ itoa p -> ContainsByte (COLON :: itoa p) c = false).
  { intros c Hne Hc. apply ContainsByte_not. by rewrite not_elem_of_cons. }
  rewrite !Hb; [done| | | |]; try (by intros E; apply (f_equal byteZ) in E; vm_compute in E);
    apply Hno; vm_compute; by right.
Qed.

(** A positive number prints without a leading zero. *)
Lemma pretty_N_go_head x s : (0 < x)%N ->
  exists c rest, lit (pretty_N_go x s) = c :: rest /\ 49 <= byteZ c <= 57.
Proof.
  revert s. induction (N.lt_wf_0 x) as [x _ IH]; intros s Hx.
  rewrite pretty_N_go_step by done. destruct (decide (x < 10)%N) as [Hl|Hl].
  - rewrite N.div_small, N.mod_small by done. exists (pretty_N_char x), (lit s). split; [done|].
    assert (x = 1 \/ x = 2 \/ x = 3 \/ x = 4 \/ x = 5 \/ x = 6 \/ x = 7 \/ x = 8 \/ x = 9)%N
      as Hc by lia. by repeat destruct Hc as [->|Hc]; subst.
  - apply IH; [by apply N.div_lt|]. apply N.div_str_pos. lia.
Qed.

Lemma itoa_head z : 0 < z -> exists c rest, itoa z = c :: rest /\ 49 <= byteZ c <= 57.
Proof.
  intros Hz. destruct z as [|p|p]; [lia| |lia].
  change (itoa (Z.pos p)) with (lit (pretty (N.pos p))). unfold pretty, pretty_N.
  case_decide; [lia|]. apply pretty_N_go_head. lia.
Qed.

Lemma digit_accepted c : is_digit c = true -> digit_value c = Some (byteZ c - 48) /\
  accepted_digit 10 c = true /\ c <> chr 95.
Proof.
  intros Hc. unfold accepted_digit, digit_value. rewrite Hc. unfold is_digit in Hc. bools.
  split_and!; [done| |intros ->; change (byteZ (chr 95)) with 95 in *; lia].
  apply orb_true_iff. right. apply Z.ltb_lt. lia.
Qed.

Lemma take_while_all {A} (f : A -> bool) l : forallb f l = true -> take_while f l = l.
Proof. induction l as [|x l IH]; cbn; [done|]. intros [-> Hl]%andb_prop. by rewrite IH. Qed.

Lemma digits_in_decimal s : forall acc, forallb is_digit s = true -> digits_in 10 acc s = Some (decimal acc s).
Proof.
  induction s as [|c s IH]; intros acc; cbn [forallb digits_in]; [done|].
  intros [Hc Hs]%andb_prop. destruct (digit_accepted c Hc) as (-> & _ & Hne).
  rewrite bool_decide_eq_false_2 by done. unfold is_digit in Hc. bools.
  rewrite (proj2 (Z.ltb_lt _ _)) by lia. by rewrite IH.
Qed.

Lemma drop_while_digit c s : 49 <= byteZ c <= 57 ->
  drop_while (λ p, IsSpace p.1) (segs (c :: s)) = segs (c :: s).
Proof.
  intros Hc. cbn [segs]. rewrite (proj2 (Z.ltb_lt _ _)) by lia. cbn [drop_while fst].
  assert (IsSpace (byteZ c) = false) as ->; [|done].
  assert (exists k, byteZ c = k /\ 49 <= k <= 57) as (k & -> & Hk) by eauto.
  assert (k = 49 \/ k = 50 \/ k = 51 \/ k = 52 \/ k = 53 \/ k = 54 \/ k = 55 \/ k = 56 \/ k = 57)
    as Hcs by lia. by repeat destruct Hcs as [->|Hcs]; subst.
Qed.

Lemma Sscan_itoa z : 0 < z <= MaxInt64 -> Sscan (itoa z) = Some z.
Proof.
  intros Hz. destruct (itoa_digits z) as (Hd & _ & Hv); [lia|].
  destruct (itoa_head z) as (c & s & E & Hc); [lia|]. rewrite E in *.
  assert (Hcd : is_digit c = true) by by apply andb_prop in Hd as [? _].
  destruct (digit_accepted c Hcd) as (_ & Hacc & _).
  assert (Hne : forall b, byteZ b < 49 -> c <> b) by (intros b Hb ->; lia).
  unfold Sscan. rewrite drop_while_digit by lia. rewrite unsegs_segs.
  rewrite !bool_decide_eq_false_2 by (apply Hne; by vm_compute).
  assert (take_while (accepted_digit 10) (c :: s) = c :: s) as Htw.
  { apply take_while_all. apply forallb_forall. intros x Hx.
    apply digit_accepted. rewrite forallb_forall in Hd. auto. }
  unfold scanNumber. rewrite bool_decide_eq_false_2, Hacc, Htw by (apply Hne; by vm_compute).
  unfold ParseUint0. rewrite bool_decide_eq_false_2 by done.
  assert (base_prefix (c :: s) = None) as ->.
  { unfold base_prefix. destruct s; [done|]. by rewrite bool_decide_eq_false_2 by (apply Hne; by vm_compute). }
  assert (HasPrefix (c :: s) [chr 48] = false) as ->.
  { cbn. by rewrite bool_decide_eq_false_2 by (apply Hne; by vm_compute). }
  rewrite digits_in_decimal, Hv by done. rewrite ContainsByte_not.
  2: { intros Hin. pose proof (digit_bytes _ _ Hd Hin). change (byteZ (chr 95)) with 95 in *. lia. }
  cbn [andb]. unfold in_int, MinInt64, MaxInt64 in *.
  by rewrite (proj2 (andb_true_iff _ _)) by (split; apply Z.leb_le; lia).
Qed.
