(* ===== verification/GoIP.v ===== *)
(** * GoIP: [net.ParseIP]

    The textual addresses of Go's [net/netip], as [src/internal/gateway/milter.go]
    and [src/internal/pki/pki.go] use them: dotted quads, and IPv6 with its
    ellipsis and trailing quad. *)

From S2P Require Import Prelude GoNet.
#[local] Open Scope Z_scope.

Definition IPDOT : ascii := chr 46.
Definition PERCENT : ascii := chr 37.

(** [parseIPv4Fields]: the octet being read, its number of digits, the octets
    before it, and the byte before the next one. *)
Fixpoint parseIPv4Loop (prev : option ascii) (val : Z) (digLen : nat) (fields : list Z) (s : bytes)
    : option (list Z) :=
  match s with
  | [] => if (length fields <? 3)%nat then None else Some (fields ++ [val])
  | c :: s' =>
      if is_digit c then
        if (digLen =? 1)%nat && (val =? 0) then None
        else
          let val := val * 10 + (byteZ c - 48) in
          if 255 <? val then None else parseIPv4Loop (Some c) val (S digLen) fields s'
      else if c =b IPDOT then
        if (prev =b None) || (s' =b []) || (prev =b Some IPDOT) then None
        else if (length fields =? 3)%nat then None
        else parseIPv4Loop (Some c) 0 0 (fields ++ [val]) s'
      else None
  end.

Definition parseIPv4 (s : bytes) : option (list Z) := parseIPv4Loop None 0 0 [] s.

Definition hexDigit (c : ascii) : option Z :=
  match digit_value c with
  | Some d => if d <? 16 then Some d else None
  | None => None
  end.

(** A hexadecimal group: its number of digits, its value and what follows it. *)
Fixpoint parseGroup (off : nat) (acc : Z) (s : bytes) : option (nat * Z * bytes) :=
  match s with
  | [] => Some (off, acc, s)
  | c :: s' =>
      match hexDigit c with
      | None => Some (off, acc, s)
      | Some d =>
          let acc := acc * 16 + d in
          if (3 <? off)%nat || (65535 <? acc) then None else parseGroup (S off) acc s'
      end
  end.

(** The loop of [parseIPv6], for the [n] groups there is room for: the bytes, the
    place of the ellipsis and what is left of the text. *)
Fixpoint parseIPv6Loop (n : nat) (ip : list Z) (ellipsis : option nat) (s : bytes)
    : option (list Z * option nat * bytes) :=
  match n with
  | O => Some (ip, ellipsis, s)
  | S n =>
      match parseGroup 0 0 s with
      | None => None
      | Some (off, acc, rest) =>
          if (off =? 0)%nat then None
          else if head rest =b Some IPDOT then
            if (ellipsis =b None) && negb (length ip =? 12)%nat then None
            else if (16 <? length ip + 4)%nat then None
            else match parseIPv4 s with
                 | Some quad => Some (ip ++ quad, ellipsis, [])
                 | None => None
                 end
          else
            let ip := ip ++ [acc / 256; acc mod 256] in
            match rest with
            | [] => Some (ip, ellipsis, [])
            | c :: rest =>
                if c <>b COLON then None
                else
                  match rest with
                  | [] => None
                  | d :: rest' =>
                      if d =b COLON then
                        if ellipsis <>b None then None
                        else if rest' =b [] then Some (ip, Some (length ip), [])
                        else parseIPv6Loop n ip (Some (length ip)) rest'
                      else parseIPv6Loop n ip ellipsis rest
                  end
            end
      end
  end.

Definition zeros (n : nat) : list Z := replicate n 0.

(** [parseIPv6] of a text without a zone. *)
Definition parseIPv6 (s : bytes) : option (list Z) :=
  let leading := take 2 s =b [COLON; COLON] in
  let s' := if leading then drop 2 s else s in
  if leading && (s' =b []) then Some (zeros 16)
  else
    match parseIPv6Loop 8 [] (if leading then Some 0%nat else None) s' with
    | None => None
    | Some (ip, ellipsis, rest) =>
        if rest <>b [] then None
        else if (length ip <? 16)%nat then
          match ellipsis with
          | None => None
          | Some e => Some (take e ip ++ zeros (16 - length ip) ++ drop e ip)
          end
        else if ellipsis <>b None then None
        else Some ip
    end.

(** [netip.ParseAddr]: the first of a dot, a colon and a percent sign says which
    notation it is. *)
Fixpoint ParseAddrLoop (s all : bytes) : option (list Z) :=
  match s with
  | [] => None
  | c :: s' =>
      if c =b IPDOT then
        match parseIPv4 all with
        | Some quad => Some (zeros 10 ++ [255; 255] ++ quad)
        | None => None
        end
      else if c =b COLON then parseIPv6 all
      else if c =b PERCENT then None
      else ParseAddrLoop s' all
  end.

(** [net.ParseIP]: the 16 bytes of the address. A text with a zone is refused,
    and so is every other text with a percent sign. *)
Definition ParseIP (s : bytes) : option (list Z) :=
  if bool_decide (PERCENT ∈ s) then None else ParseAddrLoop s s.

(** [IP.To4]. *)
Definition To4 (ip : list Z) : option (list Z) :=
  if (take 10 ip =b zeros 10) && (take 2 (drop 10 ip) =b [255; 255]) then Some (drop 12 ip) else None.

(** The text of a dotted quad. *)
Definition quadText (a b c d : Z) : bytes :=
  itoa a ++ [IPDOT] ++ itoa b ++ [IPDOT] ++ itoa c ++ [IPDOT] ++ itoa d.

(** ** Lemmas *)

Definition is_byte (z : Z) : Prop := 0 <= z < 256.

Lemma parseIPv4Loop_spec s : forall prev val n fields quad,
  parseIPv4Loop prev val n fields s = Some quad -> (length fields <= 3)%nat -> 0 <= val <= 255 ->
  Forall is_byte fields -> length quad = 4%nat /\ Forall is_byte quad.
Proof.
  induction s as [|c s IH]; intros prev val n fields quad; cbn [parseIPv4Loop].
  - destruct (length fields <? 3)%nat eqn:E; [done|]. intros [= <-] Hl Hv Hf. apply Nat.ltb_ge in E.
    rewrite length_app. cbn. split; [lia|]. apply Forall_app. split; [done|]. constructor; [|done]. unfold is_byte. lia.
  - destruct (is_digit c) eqn:Ed.
    + case_match; [done|]. case_match eqn:Ev; [done|]. bools. intros H' Hl Hv Hf. eapply IH; [exact H'|done| |done].
      unfold is_digit in Ed. bools. lia.
    + case_match; [|done]. case_match; [done|]. case_match eqn:El; [done|]. intros H' Hl Hv Hf.
      apply Nat.eqb_neq in El. eapply IH; [exact H'| |lia|].
      * rewrite length_app. cbn. lia.
      * apply Forall_app. split; [done|]. constructor; [|done]. unfold is_byte. lia.
Qed.

Lemma parseIPv4_spec s quad : parseIPv4 s = Some quad -> length quad = 4%nat /\ Forall is_byte quad.
Proof. intros H. eapply parseIPv4Loop_spec; [exact H|cbn; lia|lia|done]. Qed.

Lemma parseGroup_range s : forall off acc n v rest,
  parseGroup off acc s = Some (n, v, rest) -> 0 <= acc < 65536 -> 0 <= v < 65536.
Proof.
  induction s as [|c s IH]; intros off acc n v rest; cbn [parseGroup]; [by intros [= <- <- <-]|].
  unfold hexDigit. destruct (digit_value c) as [d|] eqn:Ed; [|by intros [= <- <- <-]].
  destruct (d <? 16) eqn:E16; [|by intros [= <- <- <-]]. case_match eqn:E; [done|]. bools.
  intros Hg Ha. eapply IH; [exact Hg|]. assert (0 <= d); [|lia].
  revert Ed. unfold digit_value. pose proof (byteZ_range c). unfold is_digit, lower_byte.
  repeat case_match; intros; simplify_eq; bools; try done; lia.
Qed.

Lemma parseIPv6Loop_spec n : forall ip ell s ip' ell' rest,
  parseIPv6Loop n ip ell s = Some (ip', ell', rest) ->
  (length ip + 2 * n = 16)%nat -> Forall is_byte ip -> (length ip' <= 16)%nat /\ Forall is_byte ip'.
Proof.
  induction n as [|n IH]; intros ip ell s ip' ell' rest; cbn [parseIPv6Loop].
  { intros [= <- <- <-] Hl Hf. split; [lia|done]. }
  destruct (parseGroup 0 0 s) as [[[off acc] tl]|] eqn:Eg; [|done].
  apply parseGroup_range in Eg; [|lia]. case_match; [done|]. case_match.
  { case_match; [done|]. case_match eqn:E16; [done|]. destruct (parseIPv4 s) as [quad|] eqn:E4; [|done].
    intros [= <- <- <-] Hl Hf. apply parseIPv4_spec in E4 as [H4 Hq]. apply Nat.ltb_ge in E16.
    rewrite length_app. split; [lia|]. by apply Forall_app. }
  assert (Hnew : Forall is_byte ip -> Forall is_byte (ip ++ [acc / 256; acc mod 256])).
  { intros Hf. apply Forall_app. split; [done|]. pose proof (Z.div_pos acc 256).
    pose proof (Z.div_lt_upper_bound acc 256 256). pose proof (Z.mod_pos_bound acc 256).
    constructor; [unfold is_byte; lia|]. constructor; [unfold is_byte; lia|done]. }
  assert (Hlen : length (ip ++ [acc / 256; acc mod 256]) = (length ip + 2)%nat) by by rewrite length_app.
  destruct tl as [|c [|d tl]]; [|by case_match|].
  { intros [= <- <- <-] Hl Hf. split; [lia|]. by apply Hnew. }
  case_match; [done|]. case_match; [case_match; [done|case_match]|].
  { intros [= <- <- <-] Hl Hf. split; [lia|]. by apply Hnew. }
  all: intros HL Hl Hf; eapply IH; [exact HL|lia|by apply Hnew].
Qed.

(** An address is 16 bytes. *)
Lemma ParseIP_is_an_address s ip : ParseIP s = Some ip -> length ip = 16%nat /\ Forall is_byte ip.
Proof.
  unfold ParseIP. case_bool_decide; [done|]. generalize s at 1 as t. intros t. revert ip.
  assert (Hz : forall n, Forall is_byte (zeros n)).
  { intros n. apply Forall_replicate. unfold is_byte. lia. }
  induction t as [|c t IH]; intros ip; cbn [ParseAddrLoop]; [done|]. case_match.
  - destruct (parseIPv4 s) as [quad|] eqn:E4; [|done]. intros [= <-]. apply parseIPv4_spec in E4 as [H4 Hq].
    split; [cbn; lia|]. repeat (constructor; [unfold is_byte; lia|]). done.
  - case_match; [|case_match; [done|apply IH]]. unfold parseIPv6. cbv zeta.
    destruct ((take 2 s =b [COLON; COLON]) && _); [intros [= <-]; split; [done|]; apply (Hz 16%nat)|].
    destruct (parseIPv6Loop _ _ _ _) as [[[ip' ell] rest]|] eqn:E; [|done].
    destruct (rest <>b []); [done|].
    apply parseIPv6Loop_spec in E as [Hl Hf]; [|done..]. destruct (length ip' <? 16)%nat eqn:El.
    + destruct ell as [e|]; [|done]. intros [= <-]. apply Nat.ltb_lt in El.
      rewrite !length_app. unfold zeros. rewrite length_replicate, length_take, length_drop. split; [lia|].
      rewrite !Forall_app. split_and!; [by apply Forall_take|apply Hz|by apply Forall_drop].
    + destruct (ell <>b None); [done|]. intros [= <-]. apply Nat.ltb_ge in El. split; [lia|done].
Qed.

Example ipv6_forms :
  ParseIP (lit "2001:db8::1") = Some [32; 1; 13; 184; 0; 0; 0; 0; 0; 0; 0; 0; 0; 0; 0; 1] /\
  ParseIP (lit "::ffff:10.0.0.1") = ParseIP (lit "10.0.0.1") /\
  (ParseIP (lit "10.0.0.1") ≫= To4) = Some [10; 0; 0; 1] /\
  ParseIP (lit "fe80::1%eth0") = None /\ ParseIP (lit "1::2::3") = None /\ ParseIP (lit "10.0.0.01") = None /\
  ParseIP (lit "localhost") = None /\ ParseIP (lit "1:2:3:4:5:6:7::") = Some [0;1;0;2;0;3;0;4;0;5;0;6;0;7;0;0] /\
  ParseIP (lit "1:2:3:4:5:6:7:8::") = None.
Proof. vm_compute. by repeat split. Qed.
