(* ===== verification/Duration.v ===== *)
(** * Duration: time limits as text

    Models [Duration] of [src/internal/gateway/config.go]: how a time limit is
    written to the configuration file and read back, with the functions of Go's
    standard library it is made of: [time.Duration.String] and
    [time.ParseDuration] with their 64-bit overflow checks and the float64
    arithmetic of fractions, and the string and number literals of
    [encoding/json]. *)

From S2P Require Import Prelude Unicode GoStrings GoNet.
Import Utf8 Utf8Facts.
#[local] Open Scope Z_scope.

Module Duration.

Definition Microsecond : Z := 1000.
Definition Millisecond : Z := 1000000.
Definition Second : Z := 1000000000.
Definition Minute : Z := 60 * Second.
Definition Hour : Z := 60 * Minute.

Definition DOT : ascii := chr 46.
Definition MINUS : ascii := chr 45.

(** The micro sign (U+00B5) and the Greek letter (U+03BC), in UTF-8. *)
Definition micro : bytes := [chr 194; chr 181].
Definition mu : bytes := [chr 206; chr 188].

(** ** time.Duration.String *)

(** [fmtFrac]: the fraction of [v / 10^prec] in front of [buf], without its
    trailing zeros, and the integer part. *)
Fixpoint fmtFrac (prec : nat) (v : Z) (print : bool) (buf : bytes) : bytes * Z :=
  match prec with
  | O => (if print then DOT :: buf else buf, v)
  | S prec =>
      let digit := v mod 10 in
      let print := print || (digit <>b 0) in
      fmtFrac prec (v / 10) print (if print then chr (digit + 48) :: buf else buf)
  end.

(** A value in one unit: its fraction, then its integer part. *)
Definition fmtUnit (prec : nat) (u : Z) (unit : bytes) : bytes :=
  let '(buf, v) := fmtFrac prec u false unit in itoa v ++ buf.

(** The text of an unsigned number of nanoseconds. *)
Definition fmtMagnitude (u : Z) : bytes :=
  if u <? Second then
    if u =? 0 then lit "0s"
    else if u <? Microsecond then fmtUnit 0 u (lit "ns")
    else if u <? Millisecond then fmtUnit 3 u (micro ++ lit "s")
    else fmtUnit 6 u (lit "ms")
  else
    let '(buf, u) := fmtFrac 9 u false (lit "s") in
    let buf := itoa (u mod 60) ++ buf in
    let u := u / 60 in
    if 0 <? u then
      let buf := itoa (u mod 60) ++ lit "m" ++ buf in
      let u := u / 60 in
      if 0 <? u then itoa u ++ lit "h" ++ buf else buf
    else buf.

Definition Duration_String (d : Z) : bytes :=
  if d <? 0 then MINUS :: fmtMagnitude ((- d) mod 2 ^ 64) else fmtMagnitude d.

(** ** float64 *)

(** A positive float64, [m * 2^e]. Its exponent is unbounded here: in
    [ParseDuration] a value out of range only occurs past 300 leading zeros of
    a fraction, where both truncate to 0 nanoseconds. *)
Definition float64 : Type := Z * Z.

(** The integer nearest [n / d], ties to even. *)
Definition roundEven (n d : Z) : Z :=
  let q := n / d in
  let r := n mod d in
  if 2 * r <? d then q else if d <? 2 * r then q + 1 else if Z.even q then q else q + 1.

(** The float64 nearest [n / d]: 53 significant bits. *)
Definition round64 (n d : Z) : float64 :=
  let s := 52 - (Z.log2 n - Z.log2 d) in
  let s := if n * 2 ^ Z.max s 0 <? d * 2 ^ Z.max (- s) 0 * 2 ^ 52 then s + 1 else s in
  (roundEven (n * 2 ^ Z.max s 0) (d * 2 ^ Z.max (- s) 0), - s).

Definition num (x : float64) : Z := x.1 * 2 ^ Z.max x.2 0.
Definition den (x : float64) : Z := 2 ^ Z.max (- x.2) 0.

Definition ofInt (z : Z) : float64 := round64 z 1.
Definition fmul (x y : float64) : float64 := round64 (num x * num y) (den x * den y).
Definition fdiv (x y : float64) : float64 := round64 (num x * den y) (den x * num y).
(** [uint64(x)]. *)
Definition truncate (x : float64) : Z := num x / den x.

(** ** ParseDuration *)

(** [leadingInt]; [None] on overflow. *)
Fixpoint leadingInt (x : Z) (s : bytes) : option (Z * bytes) :=
  match s with
  | [] => Some (x, [])
  | c :: s' =>
      if is_digit c then
        if 2 ^ 63 / 10 <? x then None
        else
          let x := x * 10 + (byteZ c - 48) in
          if 2 ^ 63 <? x then None else leadingInt x s'
      else Some (x, s)
  end.

(** [leadingFraction]: digits past what fits are read and ignored. *)
Fixpoint leadingFraction (x : Z) (scale : float64) (overflow : bool) (s : bytes) : Z * float64 * bytes :=
  match s with
  | [] => (x, scale, [])
  | c :: s' =>
      if is_digit c then
        if overflow then leadingFraction x scale true s'
        else if (2 ^ 63 - 1) / 10 <? x then leadingFraction x scale true s'
        else
          let y := x * 10 + (byteZ c - 48) in
          if 2 ^ 63 <? y then leadingFraction x scale true s'
          else leadingFraction y (fmul scale (ofInt 10)) false s'
      else (x, scale, s)
  end.

Definition unitMap : list (bytes * Z) :=
  [(lit "ns", 1); (lit "us", Microsecond); (micro ++ lit "s", Microsecond); (mu ++ lit "s", Microsecond);
   (lit "ms", Millisecond); (lit "s", Second); (lit "m", Minute); (lit "h", Hour)].

Fixpoint unit_of (units : list (bytes * Z)) (u : bytes) : option Z :=
  match units with
  | [] => None
  | (name, z) :: units => if u =b name then Some z else unit_of units u
  end.

Definition unit_byte (c : ascii) : bool := negb ((c =b DOT) || is_digit c).

(** An optional dot and the digits after it: the fraction, its scale, what
    follows and whether there were digits. *)
Definition fractionPart (s : bytes) : Z * float64 * bytes * bool :=
  match s with
  | c :: s' =>
      if c =b DOT then
        let '(f, scale, rem) := leadingFraction 0 (ofInt 1) false s' in
        (f, scale, rem, length s' <>b length rem)
      else (0, ofInt 1, s, false)
  | [] => (0, ofInt 1, s, false)
  end.

(** The unit, and the number in nanoseconds. *)
Definition unitValue (v f : Z) (scale : float64) (s : bytes) : option (Z * bytes) :=
  let u := take_while unit_byte s in
  if u =b [] then None
  else
    match unit_of unitMap u with
    | None => None
    | Some unit =>
        if 2 ^ 63 / unit <? v then None
        else
          let v := v * unit in
          let v := if 0 <? f then v + truncate (fmul (ofInt f) (fdiv (ofInt unit) scale)) else v in
          if (0 <? f) && (2 ^ 63 <? v) then None
          else Some (v, drop (length u) s)
    end.

(** One turn of the loop: the value in nanoseconds of the number and unit [s]
    starts with, and what follows. *)
Definition parseUnit (s : bytes) : option (Z * bytes) :=
  match s with
  | [] => None
  | c :: _ =>
      if negb ((c =b DOT) || is_digit c) then None
      else
        match leadingInt 0 s with
        | None => None
        | Some (v, s1) =>
            let pre := length s <>b length s1 in
            let '(f, scale, s2, post) := fractionPart s1 in
            if negb pre && negb post then None else unitValue v f scale s2
        end
  end.

(** The loop: every turn consumes a unit, so the length of [s] is fuel enough.
    The sum is a [uint64]. *)
Fixpoint parseUnits (fuel : nat) (d : Z) (s : bytes) : option Z :=
  match fuel, s with
  | _, [] => Some d
  | O, _ => None
  | S fuel, _ =>
      match parseUnit s with
      | None => None
      | Some (v, rest) =>
          let d := (d + v) mod 2 ^ 64 in
          if 2 ^ 63 <? d then None else parseUnits fuel d rest
      end
  end.

Definition ParseDuration (s : bytes) : option Z :=
  let '(neg, s) :=
    match s with
    | c :: s' => if c =b MINUS then (true, s') else if c =b chr 43 then (false, s') else (false, s)
    | [] => (false, s)
    end in
  if s =b lit "0" then Some 0
  else if s =b [] then None
  else
    match parseUnits (length s) 0 s with
    | None => None
    | Some d =>
        if neg then Some (wrap64 (- wrap64 d))
        else if 2 ^ 63 - 1 <? d then None else Some d
    end.

(** ** JSON literals *)

Definition QUOTE : ascii := chr 34.
Definition BACKSLASH : ascii := chr 92.

Definition hexDigit (n : Z) : ascii := if n <? 10 then chr (48 + n) else chr (87 + n).

(** [json.Marshal] of a string: one rune. HTML characters are escaped too. *)
Definition marshalRune (p : Z * bytes) : bytes :=
  let '(r, bs) := p in
  let u00 := lit "\u00" ++ [hexDigit (r / 16); hexDigit (r mod 16)] in
  if (r =? 34) || (r =? 92) then [BACKSLASH; chr r]
  else if r =? 8 then lit "\b"
  else if r =? 12 then lit "\f"
  else if r =? 10 then lit "\n"
  else if r =? 13 then lit "\r"
  else if r =? 9 then lit "\t"
  else if (r <? 32) || (r =? 60) || (r =? 62) || (r =? 38) then u00
  else if (r =? RuneError) && (length bs =b 1%nat) then lit "\ufffd"
  else if (r =? 8232) || (r =? 8233) then lit "\u202" ++ [hexDigit (r mod 16)]
  else bs.

Definition json_Marshal (s : bytes) : bytes :=
  QUOTE :: concat (marshalRune <$> segs s) ++ [QUOTE].

Definition json_space (c : ascii) : bool :=
  (c =b SP) || (c =b TAB) || (c =b CR) || (c =b LF).
Definition json_trim (b : bytes) : bytes := drop_while_end json_space (drop_while json_space b).

Definition hexValue (c : ascii) : option Z :=
  match digit_value c with Some d => if d <? 16 then Some d else None | None => None end.

(** The four digits of a [\u] escape. *)
Definition hex4 (a b c d : ascii) : option Z :=
  match hexValue a, hexValue b, hexValue c, hexValue d with
  | Some a, Some b, Some c, Some d => Some (((a * 16 + b) * 16 + c) * 16 + d)
  | _, _, _, _ => None
  end.

(** The escapes of one character. *)
Definition escape (c : ascii) : option ascii :=
  if (c =b QUOTE) || (c =b BACKSLASH) || (c =b chr 47) then Some c
  else if c =b chr 98 then Some (chr 8)
  else if c =b chr 102 then Some (chr 12)
  else if c =b chr 110 then Some LF
  else if c =b chr 114 then Some CR
  else if c =b chr 116 then Some TAB
  else None.

(** The contents of a string literal, from after its opening quote to the
    quote that must end the input. An unpaired surrogate becomes U+FFFD. *)
Fixpoint unescape (s : bytes) : option bytes :=
  match s with
  | [] => None
  | c :: s =>
      if c =b QUOTE then if s =b [] then Some [] else None
      else if byteZ c <? 32 then None
      else if c <>b BACKSLASH then cons c <$> unescape s
      else
        match s with
        | u :: s =>
            match escape u with
            | Some e => cons e <$> unescape s
            | None =>
                if u <>b chr 117 then None
                else
                  match s with
                  | a :: b :: c :: d :: s =>
                      match hex4 a b c d with
                      | None => None
                      | Some r =>
                          let single := app (encodeRune r) <$> unescape s in
                          if negb ((55296 <=? r) && (r <=? 56319)) then single
                          else
                            match s with
                            | q :: v :: a :: b :: c :: d :: s =>
                                if negb ((q =b BACKSLASH) && (v =b chr 117)) then single
                                else
                                  match hex4 a b c d with
                                  | None => single
                                  | Some r2 =>
                                      if negb ((56320 <=? r2) && (r2 <=? 57343)) then single
                                      else app (encodeRune ((r - 55296) * 1024 + (r2 - 56320) + 65536)) <$> unescape s
                                  end
                            | _ => single
                            end
                      end
                  | _ => None
                  end
            end
        | [] => None
        end
  end.

(** [json.Unmarshal(b, &s)] for a string; bytes that are not UTF-8 become
    U+FFFD, and [null] leaves [s] empty. *)
Definition json_string (b : bytes) : option bytes :=
  let t := json_trim b in
  if t =b lit "null" then Some []
  else
    match t with
    | q :: s => if q =b QUOTE then (λ s, encodeRunes (runes s)) <$> unescape s else None
    | [] => None
    end.

(** [json.Unmarshal(b, &n)] for an [int64]: a fraction or an exponent is
    refused. *)
Definition json_int64 (b : bytes) : option Z :=
  let t := json_trim b in
  if t =b lit "null" then Some 0
  else
    let '(neg, digits) :=
      match t with
      | c :: t' => if c =b MINUS then (true, t') else (false, t)
      | [] => (false, t)
      end in
    match digits with
    | [] => None
    | c :: rest =>
        if negb (forallb is_digit digits) || ((c =b chr 48) && (rest <>b [])) then None
        else in_int (if neg then - decimal 0 digits else decimal 0 digits)
    end.

(** ** The two methods *)

Inductive durationError :=
| BadDuration (s : bytes)   (* duration %q: %w *)
| NotADuration.             (* expected a string like "30s" or a number of nanoseconds *)

Definition MarshalJSON (d : Z) : bytes := json_Marshal (Duration_String d).

Definition UnmarshalJSON (b : bytes) : Z + durationError :=
  match json_string b with
  | Some s =>
      match ParseDuration s with
      | Some parsed => inl parsed
      | None => inr (BadDuration s)
      end
  | None =>
      match json_int64 b with
      | Some n => inl n
      | None => inr NotADuration
      end
  end.

End Duration.
Import Duration.

(** ** Floats that are integers *)

(** The float is the integer [v]. *)
Definition is_int (x : float64) (v : Z) : Prop := num x = v * den x.

Lemma pow_max_pos k : 0 < 2 ^ Z.max k 0.
Proof. apply Z.pow_pos_nonneg; lia. Qed.

Lemma roundEven_exact v d : 0 < d -> roundEven (v * d) d = v.
Proof.
  intros Hd. unfold roundEven. rewrite Z.div_mul, Z.mod_mul by lia.
  by rewrite (proj2 (Z.ltb_lt _ _)) by lia.
Qed.

(** An integer of at most 52 bits is not rounded, however it is given. *)
Lemma round64_exact v d : 0 < v < 2 ^ 52 -> 0 < d -> is_int (round64 (v * d) d) v.
Proof.
  intros Hv Hd. assert (0 <= 52 - (Z.log2 (v * d) - Z.log2 d)) as Hs.
  { pose proof (Z.log2_mul_above v d ltac:(lia) ltac:(lia)).
    assert (Z.log2 v < 52) by (apply Z.log2_lt_pow2; lia). lia. }
  unfold is_int, round64, num, den.
  match goal with |- context [if ?b then ?x + 1 else ?x] => set (s := if b then x + 1 else x) end.
  assert (0 <= s) as Hs' by (subst s; case_match; lia). cbn [fst snd]. clearbody s.
  rewrite (Z.max_l s 0), (Z.max_r (- s) 0), Z.opp_involutive, (Z.max_l s 0), Z.pow_0_r, !Z.mul_1_r by lia.
  replace (v * d * 2 ^ s) with (v * 2 ^ s * d) by ring. by apply roundEven_exact.
Qed.

Lemma ofInt_exact v : 0 < v < 2 ^ 52 -> is_int (ofInt v) v.
Proof. intros Hv. unfold ofInt. rewrite <- (Z.mul_1_r v) at 1. apply round64_exact; lia. Qed.

Lemma den_pos x : 0 < den x.
Proof. apply pow_max_pos. Qed.

Lemma fmul_exact x y a b : is_int x a -> is_int y b -> 0 < a * b < 2 ^ 52 -> is_int (fmul x y) (a * b).
Proof.
  unfold is_int, fmul. intros Hx Hy Hab. pose proof (den_pos x). pose proof (den_pos y).
  rewrite Hx, Hy. replace (a * den x * (b * den y)) with (a * b * (den x * den y)) by ring.
  apply round64_exact; [done|nia].
Qed.

Lemma fdiv_exact x y a b : is_int x (a * b) -> is_int y b -> 0 < a < 2 ^ 52 -> 0 < b -> is_int (fdiv x y) a.
Proof.
  unfold is_int, fdiv. intros Hx Hy Ha Hb. pose proof (den_pos x). pose proof (den_pos y).
  rewrite Hx, Hy. replace (a * b * den x * den y) with (a * (den x * (b * den y))) by ring.
  apply round64_exact; [done|nia].
Qed.

Lemma truncate_exact x v : is_int x v -> truncate x = v.
Proof. unfold is_int, truncate. intros ->. apply Z.div_mul. pose proof (den_pos x). lia. Qed.

(** ** Digits *)

Lemma is_digit_chr d : 0 <= d < 10 -> is_digit (chr (d + 48)) = true /\ byteZ (chr (d + 48)) = d + 48.
Proof.
  intros Hd. rewrite byteZ_chr by lia. split; [|done]. unfold is_digit. rewrite byteZ_chr by lia.
  apply andb_true_iff. split; apply Z.leb_le; lia.
Qed.

Lemma decimal_app acc a b : decimal acc (a ++ b) = decimal (decimal acc a) b.
Proof. unfold decimal. by rewrite foldl_app. Qed.

Lemma decimal_mono s : forall acc, forallb is_digit s = true -> 0 <= acc -> acc <= decimal acc s.
Proof.
  induction s as [|c s IH]; intros acc; cbn [forallb]; [done|]. intros [Hc Hs]%andb_prop Hacc.
  unfold is_digit in Hc. bools. change (decimal acc (c :: s)) with (decimal (acc * 10 + (byteZ c - 48)) s).
  etransitivity; [|apply IH; [done|lia]]. lia.
Qed.

Lemma pow10_S k : 10 ^ Z.of_nat (S k) = 10 * 10 ^ Z.of_nat k.
Proof. rewrite Nat2Z.inj_succ, Z.pow_succ_r; lia. Qed.

Lemma pow10_pos k : 0 < 10 ^ Z.of_nat k.
Proof. apply Z.pow_pos_nonneg; lia. Qed.

Lemma mod_pow10_S v k : v mod 10 ^ Z.of_nat (S k) = 10 * ((v / 10) mod 10 ^ Z.of_nat k) + v mod 10.
Proof. rewrite pow10_S. rewrite Z.rem_mul_r by (pose proof (pow10_pos k); lia). ring. Qed.

Lemma div_pow10_S v k : v / 10 ^ Z.of_nat (S k) = v / 10 / 10 ^ Z.of_nat k.
Proof. rewrite pow10_S, Z.div_div; pose proof (pow10_pos k); lia. Qed.

(** Once a digit was printed, all the others are. *)
Lemma fmtFrac_printing prec : forall v buf, 0 <= v -> exists ds,
  fmtFrac prec v true buf = (DOT :: ds ++ buf, v / 10 ^ Z.of_nat prec) /\
  forallb is_digit ds = true /\ length ds = prec /\ decimal 0 ds = v mod 10 ^ Z.of_nat prec.
Proof.
  induction prec as [|prec IH]; intros v buf Hv.
  - exists []. cbn. rewrite Z.div_1_r, Z.mod_1_r. done.
  - cbn [fmtFrac orb]. destruct (IH (v / 10) (chr (v mod 10 + 48) :: buf)) as (ds & -> & Hd & Hl & Hv').
    { apply Z.div_pos; lia. }
    pose proof (Z.mod_pos_bound v 10 ltac:(lia)) as Hm. destruct (is_digit_chr _ Hm) as [Hc Hb].
    exists (ds ++ [chr (v mod 10 + 48)]). rewrite <- app_assoc, div_pow10_S. cbn [app].
    rewrite forallb_app, Hd, length_app, Hl, decimal_app, Hv', mod_pow10_S. cbn. rewrite Hc, Hb.
    split_and!; [done|done|lia|lia].
Qed.

(** The fraction is absent when it is zero, and otherwise printed without
    trailing zeros. *)
Lemma fmtFrac_spec prec : forall v buf, 0 <= v ->
  (fmtFrac prec v false buf).2 = v / 10 ^ Z.of_nat prec /\
  ((v mod 10 ^ Z.of_nat prec = 0 /\ (fmtFrac prec v false buf).1 = buf) \/
   exists ds, (fmtFrac prec v false buf).1 = DOT :: ds ++ buf /\ forallb is_digit ds = true /\
     (0 < length ds <= prec)%nat /\ 0 < decimal 0 ds /\
     decimal 0 ds * 10 ^ Z.of_nat (prec - length ds) = v mod 10 ^ Z.of_nat prec).
Proof.
  induction prec as [|prec IH]; intros v buf Hv.
  - cbn. rewrite Z.div_1_r, Z.mod_1_r. split; [done|by left].
  - cbn [fmtFrac orb]. assert (0 <= v / 10) as Hq by (apply Z.div_pos; lia).
    pose proof (Z.mod_pos_bound v 10 ltac:(lia)) as Hm. rewrite div_pow10_S, mod_pow10_S.
    case_bool_decide as E; cbn [negb].
    + destruct (IH (v / 10) buf Hq) as [-> [[H0 ->]|(ds & -> & Hd & Hl & Hp & Hs)]].
      * split; [done|left]. split; [lia|done].
      * split; [done|right]. exists ds. rewrite <- Hs, E, Nat.sub_succ_l, pow10_S by lia.
        split_and!; [done|done|lia|lia|done|ring].
    + destruct (fmtFrac_printing prec (v / 10) (chr (v mod 10 + 48) :: buf) Hq) as (ds & -> & Hd & Hl & Hs).
      destruct (is_digit_chr _ Hm) as [Hc Hb]. split; [done|right].
      exists (ds ++ [chr (v mod 10 + 48)]). cbn [fst].
      assert (decimal 0 (ds ++ [chr (v mod 10 + 48)]) = 10 * ((v / 10) mod 10 ^ Z.of_nat prec) + v mod 10) as ->.
      { rewrite decimal_app, Hs. cbn. rewrite Hb. lia. }
      rewrite forallb_app, Hd, length_app, Hl, <- app_assoc. cbn [forallb length app]. rewrite Hc.
      pose proof (Z.mod_pos_bound (v / 10) _ (pow10_pos prec)).
      replace (S prec - (prec + 1))%nat with 0%nat by lia.
      split_and!; [done|done|lia|lia|lia|]. change (Z.of_nat 0) with 0. rewrite Z.pow_0_r. ring.
Qed.

(** ** Reading back what was printed *)

(** What may follow a unit: nothing, or the next number. *)
Definition at_number (rest : bytes) : Prop := forall c s, rest = c :: s -> is_digit c = true.

Lemma leadingInt_digits ds : forall x rest, forallb is_digit ds = true -> 0 <= x -> decimal x ds <= 2 ^ 63 ->
  (forall c s, rest = c :: s -> is_digit c = false) ->
  leadingInt x (ds ++ rest) = Some (decimal x ds, rest).
Proof.
  induction ds as [|c ds IH]; intros x rest Hd Hx Hb Hr.
  - cbn [app]. destruct rest as [|c rest]; [done|]. cbn [leadingInt]. by rewrite (Hr c rest).
  - cbn in Hd. apply andb_prop in Hd as [Hc Hd].
    change (decimal x (c :: ds)) with (decimal (x * 10 + (byteZ c - 48)) ds) in *.
    assert (Hc' := Hc). unfold is_digit in Hc'. bools.
    pose proof (decimal_mono ds (x * 10 + (byteZ c - 48)) Hd ltac:(lia)).
    cbn [app leadingInt]. rewrite Hc. change (2 ^ 63 / 10) with 922337203685477580.
    change (2 ^ 63) with 9223372036854775808 in *.
    rewrite (proj2 (Z.ltb_ge _ _)) by lia. rewrite (proj2 (Z.ltb_ge _ _)) by lia.
    apply IH; [done|lia|done|done].
Qed.

(** At most nine digits: no overflow, and the scale is exact. *)
Lemma leadingFraction_digits ds : forall x scale k rest, forallb is_digit ds = true ->
  (k + length ds <= 9)%nat -> 0 <= x < 10 ^ Z.of_nat k -> is_int scale (10 ^ Z.of_nat k) ->
  (forall c s, rest = c :: s -> is_digit c = false) ->
  exists scale', leadingFraction x scale false (ds ++ rest) = (decimal x ds, scale', rest) /\
    is_int scale' (10 ^ Z.of_nat (k + length ds)) /\ decimal x ds < 10 ^ Z.of_nat (k + length ds).
Proof.
  induction ds as [|c ds IH]; intros x scale k rest Hd Hk Hx Hs Hr.
  - exists scale. rewrite Nat.add_0_r. change (decimal x []) with x. cbn [app].
    split_and!; [|done|lia]. destruct rest as [|c rest]; [done|]. cbn [leadingFraction]. by rewrite (Hr c rest).
  - cbn in Hd, Hk. apply andb_prop in Hd as [Hc Hd]. assert (Hc' := Hc). unfold is_digit in Hc'. bools.
    assert (10 ^ Z.of_nat (S k) <= 10 ^ 9) as H9 by (apply Z.pow_le_mono_r; lia).
    rewrite pow10_S in H9. change (10 ^ 9) with 1000000000 in H9.
    cbn [app leadingFraction]. rewrite Hc. change ((2 ^ 63 - 1) / 10) with 922337203685477580.
    rewrite (proj2 (Z.ltb_ge _ _)) by lia. rewrite (proj2 (Z.ltb_ge _ _)) by lia.
    destruct (IH (x * 10 + (byteZ c - 48)) (fmul scale (ofInt 10)) (S k) rest) as (sc & -> & Hsc & Hlt);
      [done|lia|rewrite pow10_S; lia| |done|].
    + rewrite pow10_S, Z.mul_comm. apply fmul_exact; [done|by apply ofInt_exact|lia].
    + exists sc. cbn [length]. rewrite Nat.add_succ_r. done.
Qed.

(** A fraction as [fmtFrac] leaves it, and the nanoseconds it stands for. *)
Definition fraction (prec : nat) (text : bytes) (ns : Z) : Prop :=
  (text = [] /\ ns = 0) \/
  exists ds, text = DOT :: ds /\ forallb is_digit ds = true /\ (0 < length ds <= prec)%nat /\
    0 < decimal 0 ds /\ ns = decimal 0 ds * 10 ^ Z.of_nat (prec - length ds).

Lemma fmtFrac_text prec v buf : 0 <= v -> exists text,
  fmtFrac prec v false buf = (text ++ buf, v / 10 ^ Z.of_nat prec) /\
  fraction prec text (v mod 10 ^ Z.of_nat prec).
Proof.
  intros Hv. destruct (fmtFrac_spec prec v buf Hv) as [H2 [[H0 H1]|(ds & H1 & Hd & Hl & Hp & Hs)]];
    destruct (fmtFrac prec v false buf) as [b q]; cbn in *; subst.
  - exists []. split; [done|]. left. done.
  - exists (DOT :: ds). split; [done|]. right. exists ds. done.
Qed.

Lemma take_while_stop {A} (f : A -> bool) l k :
  forallb f l = true -> (forall c s, k = c :: s -> f c = false) -> take_while f (l ++ k) = l.
Proof.
  induction l as [|c l IH]; cbn [app forallb take_while].
  - intros _ Hk. destruct k as [|c k]; [done|]. cbn [take_while]. by rewrite (Hk c k).
  - intros [-> Hl]%andb_prop Hk. by rewrite IH.
Qed.

Lemma unit_stops unit rest c s :
  forallb unit_byte unit = true -> unit <> [] -> unit ++ rest = c :: s -> is_digit c = false /\ c <> DOT.
Proof.
  intros Hub Hne E. destruct unit as [|c' unit]; [done|]. cbn in E, Hub. simplify_eq.
  apply andb_prop in Hub as [Hb _]. unfold unit_byte in Hb. by bools.
Qed.

Lemma fraction_stops prec text ns unit rest c s :
  fraction prec text ns -> forallb unit_byte unit = true -> unit <> [] ->
  text ++ unit ++ rest = c :: s -> is_digit c = false.
Proof.
  intros [[-> _]|(ds & -> & _)] Hub Hne E; [by eapply unit_stops|]. cbn in E. by simplify_eq.
Qed.

(** The printed fraction is read exactly: its digits, over an exact scale. *)
Lemma fractionPart_printed prec text ns unit rest :
  (prec <= 9)%nat -> fraction prec text ns -> forallb unit_byte unit = true -> unit <> [] ->
  exists f scale post k, fractionPart (text ++ unit ++ rest) = (f, scale, unit ++ rest, post) /\
    0 <= f < 10 ^ Z.of_nat k /\ (k <= prec)%nat /\ is_int scale (10 ^ Z.of_nat k) /\
    ns = f * 10 ^ Z.of_nat (prec - k) /\ (f = 0 -> text = []) /\ (text = [] -> f = 0).
Proof.
  intros Hprec Hf Hub Hune. assert (Hstop := unit_stops unit rest).
  destruct Hf as [[-> ->]|(ds & -> & Hds & Hlen & Hdpos & Ens)].
  - exists 0, (ofInt 1), false, 0%nat. cbn [app].
    split_and!; [|done|done|lia|by apply ofInt_exact|done|done|done].
    unfold fractionPart. destruct (unit ++ rest) as [|c s] eqn:E; [done|].
    rewrite bool_decide_eq_false_2; [done|]. by apply (Hstop c s).
  - cbn [app]. unfold fractionPart. rewrite bool_decide_eq_true_2 by done.
    destruct (leadingFraction_digits ds 0 (ofInt 1) 0 (unit ++ rest) Hds) as (sc & -> & Hsc & Hlt);
      [lia|done|by apply ofInt_exact|by intros; eapply Hstop|].
    eexists _, sc, _, (length ds). split; [reflexivity|]. split_and!; [lia|done|lia|done|done|lia|done].
Qed.

(** A printed number in its unit is exact, in a unit of [10^prec] nanoseconds
    when it has a fraction. *)
Lemma unitValue_printed v f scale k prec unit u rest :
  0 <= v -> (prec <= 9)%nat -> 0 <= f < 10 ^ Z.of_nat k -> (k <= prec)%nat -> is_int scale (10 ^ Z.of_nat k) ->
  unit_of unitMap unit = Some u -> forallb unit_byte unit = true -> unit <> [] -> at_number rest ->
  (f = 0 \/ u = 10 ^ Z.of_nat prec) -> 0 < u -> v * u + f * 10 ^ Z.of_nat (prec - k) <= 2 ^ 63 ->
  unitValue v f scale (unit ++ rest) = Some (v * u + f * 10 ^ Z.of_nat (prec - k), rest).
Proof.
  intros Hv Hprec Hf Hk Hsc Hu Hub Hune Hrest Hfu Hpos Hmax. unfold unitValue.
  rewrite take_while_stop; [|done|]. 2: { intros c s E. unfold unit_byte. rewrite (Hrest c s E). by rewrite orb_true_r. }
  rewrite (bool_decide_eq_false_2 _ Hune), Hu, drop_app_length.
  rewrite (proj2 (Z.ltb_ge (2 ^ 63 / u) v)) by (apply Z.div_le_lower_bound; nia).
  destruct (Z.ltb_spec 0 f) as [Hf0|]; cbn [andb].
  2: { replace f with 0 by lia. by rewrite Z.mul_0_l, Z.add_0_r. }
  destruct Hfu as [->|Hu10]; [lia|].
  assert (10 ^ Z.of_nat prec = 10 ^ Z.of_nat (prec - k) * 10 ^ Z.of_nat k) as Hsplit.
  { rewrite <- Z.pow_add_r by lia. f_equal. lia. }
  assert (10 ^ Z.of_nat prec <= 10 ^ 9) as H9 by (apply Z.pow_le_mono_r; lia).
  change (10 ^ 9) with 1000000000 in H9.
  pose proof (pow10_pos (prec - k)). pose proof (pow10_pos k).
  assert (truncate (fmul (ofInt f) (fdiv (ofInt u) scale)) = f * 10 ^ Z.of_nat (prec - k)) as ->.
  { apply truncate_exact, fmul_exact; [apply ofInt_exact; nia| |nia].
    apply (fdiv_exact _ _ _ (10 ^ Z.of_nat k)); [|done|nia|done].
    rewrite <- Hsplit, <- Hu10. apply ofInt_exact. nia. }
  by rewrite (proj2 (Z.ltb_ge _ _)) by lia.
Qed.

Lemma parseUnit_printed v prec text ns unit u rest :
  0 <= v -> (prec <= 9)%nat -> fraction prec text ns -> unit_of unitMap unit = Some u ->
  forallb unit_byte unit = true -> unit <> [] -> at_number rest ->
  (text = [] \/ u = 10 ^ Z.of_nat prec) -> 0 < u -> v * u + ns <= 2 ^ 63 ->
  parseUnit (itoa v ++ text ++ unit ++ rest) = Some (v * u + ns, rest).
Proof.
  intros Hv Hprec Hf Hu Hub Hune Hrest Htext Hpos Hmax.
  destruct (fractionPart_printed prec text ns unit rest Hprec Hf Hub Hune)
    as (f & scale & post & k & Efrac & Hf0 & Hk & Hsc & -> & _ & Htf).
  destruct (itoa_digits v Hv) as (Hd & Hne & Hval). destruct (itoa v) as [|c0 ds0] eqn:Ei; [done|].
  assert (is_digit c0 = true) as Hc0 by (by apply andb_prop in Hd as [? _]).
  pose proof (pow10_pos (prec - k)).
  unfold parseUnit. cbn [app]. rewrite Hc0, orb_true_r. cbn [negb].
  change (c0 :: ds0 ++ text ++ unit ++ rest) with ((c0 :: ds0) ++ text ++ unit ++ rest).
  rewrite (leadingInt_digits _ 0 _ Hd); [|done|rewrite Hval; nia|by intros; eapply fraction_stops].
  rewrite Hval, Efrac.
  rewrite (bool_decide_eq_false_2 (length ((c0 :: ds0) ++ text ++ unit ++ rest) = length (text ++ unit ++ rest)))
    by (rewrite length_app; cbn; lia). cbn [negb andb].
  apply unitValue_printed; try done. destruct Htext; auto.
Qed.

(** *** The loop *)

Lemma leadingInt_shorter s : forall x v rest, leadingInt x s = Some (v, rest) -> (length rest <= length s)%nat.
Proof.
  induction s as [|c s IH]; intros x v rest; cbn [leadingInt]; [by intros [= _ <-]|].
  destruct (is_digit c); [|intros [= _ <-]; done]. destruct (_ <? x); [done|]. destruct (_ <? _); [done|].
  intros E%IH. cbn. lia.
Qed.

Lemma leadingFraction_shorter s : forall x scale o, (length (leadingFraction x scale o s).2 <= length s)%nat.
Proof.
  induction s as [|c s IH]; intros x scale o; cbn [leadingFraction]; [done|].
  destruct (is_digit c); [|done].
  destruct o; [|destruct (_ <? x); [|destruct (_ <? _)]]; (etransitivity; [apply IH|cbn; lia]).
Qed.

Lemma fractionPart_shorter s f scale rem post :
  fractionPart s = (f, scale, rem, post) -> (length rem <= length s)%nat.
Proof.
  unfold fractionPart. destruct s as [|c s]; [intros [=]; by subst|]. case_bool_decide; [|intros [=]; by subst].
  pose proof (leadingFraction_shorter s 0 (ofInt 1) false) as Hl.
  destruct (leadingFraction 0 (ofInt 1) false s) as [[? ?] ?]. intros [=]; subst. cbn in *. lia.
Qed.

Lemma take_while_length {A} (f : A -> bool) l : (length (take_while f l) <= length l)%nat.
Proof. induction l as [|c l IH]; cbn; [done|]. destruct (f c); cbn; lia. Qed.

(** A turn consumes something: the loop ends. *)
Lemma parseUnit_shorter s v rest : parseUnit s = Some (v, rest) -> (length rest < length s)%nat.
Proof.
  unfold parseUnit. destruct s as [|c s]; [done|]. destruct (negb _); [done|].
  destruct (leadingInt 0 (c :: s)) as [[v0 s1]|] eqn:E1; [|done]. apply leadingInt_shorter in E1.
  destruct (fractionPart s1) as [[[f scale] s2] post] eqn:E2. apply fractionPart_shorter in E2.
  destruct (_ && _); [done|]. unfold unitValue. pose proof (take_while_length unit_byte s2).
  case_bool_decide as Eu; [done|]. destruct (unit_of _ _); [|done]. destruct (_ <? v0); [done|].
  destruct (_ && _); [done|]. intros [= _ <-]. rewrite length_drop.
  destruct (take_while unit_byte s2); [done|]. cbn in *. lia.
Qed.

Lemma parseUnits_fuel n : forall m d s, (length s <= n)%nat -> (length s <= m)%nat ->
  parseUnits n d s = parseUnits m d s.
Proof.
  induction n as [|n IH]; intros m d s Hn Hm; (destruct s as [|c s]; [by destruct m|]); [cbn in Hn; lia|].
  destruct m as [|m]; [cbn in Hm; lia|]. cbn [parseUnits].
  destruct (parseUnit (c :: s)) as [[v rest]|] eqn:E; [|done]. apply parseUnit_shorter in E.
  destruct (_ <? _); [done|]. apply IH; cbn in *; lia.
Qed.

(** The loop with all the fuel it needs. *)
Definition units (d : Z) (s : bytes) : option Z := parseUnits (length s) d s.

Lemma units_step d v s rest : parseUnit s = Some (v, rest) -> 0 <= d -> 0 <= v -> d + v <= 2 ^ 63 ->
  units d s = units (d + v) rest.
Proof.
  intros E Hd Hv Hs. assert (Hl := parseUnit_shorter _ _ _ E). unfold units.
  destruct s as [|c s]; [done|]. cbn [length parseUnits]. rewrite E.
  rewrite Z.mod_small by (change (2 ^ 64) with (2 * 2 ^ 63); lia).
  rewrite (proj2 (Z.ltb_ge _ _)) by lia. apply parseUnits_fuel; cbn in *; lia.
Qed.

Lemma at_number_itoa z s : 0 <= z -> at_number (itoa z ++ s).
Proof.
  intros Hz c t E. destruct (itoa_digits z Hz) as (Hd & Hne & _).
  destruct (itoa z); [done|]. cbn in E, Hd. simplify_eq. by apply andb_prop in Hd as [? _].
Qed.

Lemma no_fraction prec : fraction prec [] 0.
Proof. by left. Qed.

(** A whole number of a unit. *)
Lemma units_whole d v unit u rest :
  unit_of unitMap unit = Some u -> forallb unit_byte unit = true -> unit <> [] -> at_number rest ->
  0 <= v -> 0 < u -> 0 <= d -> d + v * u <= 2 ^ 63 ->
  units d (itoa v ++ unit ++ rest) = units (d + v * u) rest.
Proof.
  intros Hu Hub Hne Hr Hv Hp Hd Hs.
  assert (parseUnit (itoa v ++ [] ++ unit ++ rest) = Some (v * u + 0, rest)) as E.
  { apply (parseUnit_printed v 0 [] 0 unit u rest); auto using no_fraction; lia. }
  cbn [app] in E. rewrite Z.add_0_r in E. apply units_step; [done|done|nia|done].
Qed.

(** The last number, with its fraction. *)
Lemma units_last d v prec text ns unit :
  unit_of unitMap unit = Some (10 ^ Z.of_nat prec) -> forallb unit_byte unit = true -> unit <> [] ->
  (prec <= 9)%nat -> fraction prec text ns -> 0 <= ns -> 0 <= v -> 0 <= d -> d + (v * 10 ^ Z.of_nat prec + ns) <= 2 ^ 63 ->
  units d (itoa v ++ text ++ unit) = Some (d + (v * 10 ^ Z.of_nat prec + ns)).
Proof.
  intros Hu Hub Hne Hp Hf Hns Hv Hd Hs. pose proof (pow10_pos prec).
  assert (at_number []) as Hr by by intros ? ? ?.
  pose proof (parseUnit_printed v prec text ns unit _ [] Hv Hp Hf Hu Hub Hne Hr) as E.
  rewrite app_nil_r in E. rewrite (units_step d (v * 10 ^ Z.of_nat prec + ns) _ []); [done| |done|nia|done].
  apply E; [by right|done|lia].
Qed.

Lemma fmtUnit_reads prec u unit : 0 <= u <= 2 ^ 63 -> (prec <= 9)%nat ->
  unit_of unitMap unit = Some (10 ^ Z.of_nat prec) -> forallb unit_byte unit = true -> unit <> [] ->
  units 0 (fmtUnit prec u unit) = Some u /\ at_number (fmtUnit prec u unit).
Proof.
  intros Hu Hp Hn Hub Hne. unfold fmtUnit.
  destruct (fmtFrac_text prec u unit) as (text & -> & Hf); [lia|]. pose proof (pow10_pos prec) as Hpos.
  assert (0 <= u / 10 ^ Z.of_nat prec) by (apply Z.div_pos; lia).
  pose proof (Z.div_mod u (10 ^ Z.of_nat prec) ltac:(lia)).
  pose proof (Z.mod_pos_bound u (10 ^ Z.of_nat prec) Hpos).
  split; [|by apply at_number_itoa]. rewrite (units_last 0 _ prec text _ unit Hn Hub Hne Hp Hf); [f_equal| | | |]; lia.
Qed.

Lemma fmtMagnitude_reads u : 0 <= u <= 2 ^ 63 ->
  units 0 (fmtMagnitude u) = Some u /\ at_number (fmtMagnitude u).
Proof.
  intros Hu. unfold fmtMagnitude. destruct (u <? Second) eqn:Es.
  { destruct (Z.eqb_spec u 0) as [->|]; [split; [done|by intros ? ? [= <- _]]|].
    destruct (u <? Microsecond); [apply fmtUnit_reads; (done || lia)|].
    destruct (u <? Millisecond); apply fmtUnit_reads; (done || lia). }
  apply Z.ltb_ge in Es. unfold Second in Es.
  destruct (fmtFrac_text 9 u (lit "s")) as (text & -> & Hf); [lia|].
  change (10 ^ Z.of_nat 9) with 1000000000 in *.
  pose proof (Z.div_mod u 1000000000 ltac:(lia)). pose proof (Z.mod_pos_bound u 1000000000 ltac:(lia)).
  set (q := u / 1000000000) in *. set (ns := u mod 1000000000) in *.
  pose proof (Z.div_mod q 60 ltac:(lia)). pose proof (Z.mod_pos_bound q 60 ltac:(lia)).
  pose proof (Z.div_mod (q / 60) 60 ltac:(lia)). pose proof (Z.mod_pos_bound (q / 60) 60 ltac:(lia)).
  assert (0 <= q / 60) by (apply Z.div_pos; lia). assert (0 <= q / 60 / 60) by (apply Z.div_pos; lia).
  change (2 ^ 63) with 9223372036854775808 in *.
  assert (Hlast : forall d, 0 <= d -> d + (q mod 60 * 1000000000 + ns) <= 9223372036854775808 ->
    units d (itoa (q mod 60) ++ text ++ lit "s") = Some (d + (q mod 60 * 1000000000 + ns))).
  { intros d Hd Hs. apply (units_last d (q mod 60) 9 text ns (lit "s")); try done; lia. }
  destruct (Z.ltb_spec 0 (q / 60)); [|split; [rewrite Hlast; [f_equal| |]; lia|apply at_number_itoa; lia]].
  destruct (Z.ltb_spec 0 (q / 60 / 60)); (split; [|apply at_number_itoa; lia]).
  - rewrite (units_whole 0 _ (lit "h") Hour) by (done || (apply at_number_itoa; lia) || (unfold Hour, Minute, Second; lia)).
    rewrite (units_whole _ _ (lit "m") Minute) by (done || (apply at_number_itoa; lia) || (unfold Hour, Minute, Second; lia)).
    rewrite Hlast by (unfold Hour, Minute, Second; lia). f_equal. unfold Hour, Minute, Second. lia.
  - rewrite (units_whole 0 _ (lit "m") Minute) by (done || (apply at_number_itoa; lia) || (unfold Hour, Minute, Second; lia)).
    rewrite Hlast by (unfold Hour, Minute, Second; lia). f_equal. unfold Hour, Minute, Second. lia.
Qed.

(** [time.ParseDuration] reads what [String] prints, the least duration
    included, whose magnitude is not an [int64]. *)
Lemma ParseDuration_String d : MinInt64 <= d <= MaxInt64 -> ParseDuration (Duration_String d) = Some d.
Proof.
  unfold MinInt64, MaxInt64. intros Hd. unfold ParseDuration, Duration_String.
  assert (Hm : forall u, 0 <= u <= 2 ^ 63 -> exists c s, fmtMagnitude u = c :: s /\ is_digit c = true /\
    fmtMagnitude u <> lit "0" /\ parseUnits (length (fmtMagnitude u)) 0 (fmtMagnitude u) = Some u).
  { intros u Hu. destruct (fmtMagnitude_reads u Hu) as [Hr Hn]. destruct (fmtMagnitude u) as [|c s] eqn:E.
    - exfalso. cbn in Hr. simplify_eq.
    - exists c, s. split_and!; [done|by eapply Hn| |exact Hr]. intros E0. rewrite E0 in Hr. by vm_compute in Hr. }
  destruct (Z.ltb_spec d 0) as [Hneg|Hneg].
  - rewrite Z.mod_small by (change (2 ^ 64) with (2 * 2 ^ 63); lia).
    destruct (Hm (- d)) as (c & s & E & _ & Hz & Hr); [lia|].
    rewrite (bool_decide_eq_true_2 (MINUS = MINUS)) by done. rewrite (bool_decide_eq_false_2 _ Hz).
    rewrite Hr. rewrite bool_decide_eq_false_2 by (by rewrite E). f_equal. unfold wrap64.
    change (2 ^ 63) with 9223372036854775808 in *. change (2 ^ 64) with 18446744073709551616.
    Z.div_mod_to_equations. lia.
  - destruct (Hm d) as (c & s & E & Hc & Hz & Hr); [lia|]. rewrite E in *.
    assert (forall b, is_digit b = false -> c <> b) as Hne by (intros b Hb ->; congruence).
    rewrite !(bool_decide_eq_false_2 (c = _)) by (apply Hne; by vm_compute).
    rewrite (bool_decide_eq_false_2 _ Hz), (bool_decide_eq_false_2 (c :: s = [])), Hr by done.
    by rewrite (proj2 (Z.ltb_ge _ _)) by lia.
Qed.

(** ** Text JSON leaves alone *)

Definition plain_rune (r : Z) : Prop :=
  valid_rune r = true /\ 32 <= r /\ Forall (λ x, r <> x) [34; 92; 60; 62; 38; 8232; 8233].

Definition plain_text (s : bytes) : Prop := exists rs, Forall plain_rune rs /\ s = encodeRunes rs.

Lemma plain_app a b : plain_text a -> plain_text b -> plain_text (a ++ b).
Proof.
  intros (ra & Ha & ->) (rb & Hb & ->). exists (ra ++ rb). split; [by apply Forall_app|].
  unfold encodeRunes. by rewrite fmap_app, concat_app.
Qed.

Lemma plain_cons c s : plain_text [c] -> plain_text s -> plain_text (c :: s).
Proof. apply (plain_app [c]). Qed.

(** Digits and the letters of the units. *)
Definition plain_byte (c : ascii) : bool :=
  (c =b DOT) || (c =b MINUS) || is_digit c || ((97 <=? byteZ c) && (byteZ c <=? 122)).

Lemma plain_one c : plain_byte c = true -> plain_text [c].
Proof.
  intros Hc. assert (45 <= byteZ c <= 57 \/ 97 <= byteZ c <= 122) as Hr.
  { unfold plain_byte, is_digit in Hc. rewrite !orb_true_iff in Hc.
    destruct Hc as [[[Hc|Hc]|Hc]|Hc]; bools; subst; try lia; by left. }
  exists [byteZ c]. split.
  - constructor; [|done]. split_and!; [apply valid_rune_spec; lia|lia|]. repeat constructor; lia.
  - unfold encodeRunes. cbn. rewrite encodeRune_ascii, chr_byteZ by lia. done.
Qed.

Lemma plain_bytes s : forallb plain_byte s = true -> plain_text s.
Proof.
  induction s as [|c s IH]; cbn; [exists []; done|]. intros [Hc Hs]%andb_prop.
  apply plain_cons; [by apply plain_one|auto].
Qed.

Lemma plain_digits s : forallb is_digit s = true -> plain_text s.
Proof.
  intros Hs. apply plain_bytes. rewrite forallb_forall in *. intros c Hc. unfold plain_byte.
  rewrite (Hs c Hc). by rewrite orb_true_r.
Qed.

Lemma plain_itoa z : 0 <= z -> plain_text (itoa z).
Proof. intros Hz. apply plain_digits, itoa_digits, Hz. Qed.

Lemma plain_micro : plain_text micro.
Proof.
  exists [181]. split; [|by vm_compute]. constructor; [|done].
  split_and!; [done|lia|]. repeat constructor; lia.
Qed.

Lemma plain_fraction prec text ns : fraction prec text ns -> plain_text text.
Proof.
  intros [[-> _]|(ds & -> & Hd & _)]; [by apply plain_bytes|].
  apply plain_cons; [by apply plain_one|by apply plain_digits].
Qed.

Lemma plain_fmtUnit prec u unit : 0 <= u -> plain_text unit -> plain_text (fmtUnit prec u unit).
Proof.
  intros Hu Hn. unfold fmtUnit. destruct (fmtFrac_text prec u unit Hu) as (text & -> & Hf).
  pose proof (pow10_pos prec). apply plain_app; [apply plain_itoa, Z.div_pos; lia|].
  apply plain_app; [by eapply plain_fraction|done].
Qed.

Lemma plain_magnitude u : 0 <= u -> plain_text (fmtMagnitude u).
Proof.
  intros Hu. unfold fmtMagnitude. destruct (u <? Second).
  { destruct (u =? 0); [by apply plain_bytes|]. destruct (u <? Microsecond); [by apply plain_fmtUnit, plain_bytes|].
    destruct (u <? Millisecond); apply plain_fmtUnit; try done; [|by apply plain_bytes].
    apply plain_app; [apply plain_micro|by apply plain_bytes]. }
  destruct (fmtFrac_text 9 u (lit "s") Hu) as (text & -> & Hf). apply plain_fraction in Hf.
  assert (0 <= u / 10 ^ Z.of_nat 9) as Hq by (apply Z.div_pos; lia).
  generalize dependent (u / 10 ^ Z.of_nat 9). intros q Hq.
  pose proof (Z.mod_pos_bound q 60 ltac:(lia)). pose proof (Z.mod_pos_bound (q / 60) 60 ltac:(lia)).
  assert (plain_text (itoa (q mod 60) ++ text ++ lit "s")) as Hs.
  { apply plain_app; [apply plain_itoa; lia|]. apply plain_app; [done|by apply plain_bytes]. }
  assert (plain_text (itoa (q / 60 mod 60) ++ lit "m" ++ itoa (q mod 60) ++ text ++ lit "s")) as Hm.
  { apply plain_app; [apply plain_itoa; lia|]. apply plain_app; [by apply plain_bytes|done]. }
  destruct (0 <? q / 60); [|done]. destruct (Z.ltb_spec 0 (q / 60 / 60)); [|done].
  apply plain_app; [apply plain_itoa; lia|]. apply plain_app; [by apply plain_bytes|done].
Qed.

Lemma marshalRune_plain r : plain_rune r -> marshalRune (r, encodeRune r) = encodeRune r.
Proof.
  intros (Hv & H32 & Hn). rewrite !Forall_cons in Hn. destruct Hn as (? & ? & ? & ? & ? & ? & ? & _).
  assert (Hne : forall z, r <> z -> (r =? z) = false) by (intros z; apply Z.eqb_neq).
  unfold marshalRune. rewrite !Hne by lia. rewrite (proj2 (Z.ltb_ge _ _)) by lia. cbn [orb].
  destruct (Z.eqb_spec r RuneError) as [->|]; [by vm_compute|cbn [andb]]. by rewrite !Hne by lia.
Qed.

Lemma json_Marshal_plain s : plain_text s -> json_Marshal s = QUOTE :: s ++ [QUOTE].
Proof.
  intros (rs & Hrs & ->). unfold json_Marshal. rewrite segs_encodeRunes by (eapply Forall_impl; [done|by intros ? [? _]]).
  rewrite <- list_fmap_compose. do 2 f_equal. unfold encodeRunes. f_equal.
  apply list_fmap_ext. intros i r Hr. apply marshalRune_plain. by eapply Forall_lookup_1 in Hrs.
Qed.

(** The bytes of plain text end no literal and start no escape. *)
Lemma plain_text_bytes s c : plain_text s -> c ∈ s -> c <> QUOTE /\ c <> BACKSLASH /\ 32 <= byteZ c.
Proof.
  intros (rs & Hrs & ->) (bs & Hbs & Hc)%list_elem_of_In%in_concat.
  apply list_elem_of_In, list_elem_of_fmap in Hbs as (r & -> & Hr). apply list_elem_of_In in Hc.
  rewrite Forall_forall in Hrs. destruct (Hrs r Hr) as (Hv & H32 & Hn).
  rewrite !Forall_cons in Hn. destruct Hn as (H34 & H92 & _).
  destruct (Z.lt_ge_cases (byteZ c) 128) as [Hlt|Hge].
  - pose proof (encodeRune_bytes r c Hv Hc Hlt) as ->. split_and!; [intros ->; by apply H34|intros ->; by apply H92|done].
  - split_and!; [intros ->; by vm_compute in Hge|intros ->; by vm_compute in Hge|lia].
Qed.

Lemma unescape_plain s : (forall c, c ∈ s -> c <> QUOTE /\ c <> BACKSLASH /\ 32 <= byteZ c) ->
  unescape (s ++ [QUOTE]) = Some s.
Proof.
  induction s as [|c s IH]; intros Hs; [done|]. destruct (Hs c) as (Hq & Hb & H32); [by left|].
  cbn [app unescape]. rewrite (bool_decide_eq_false_2 _ Hq), (proj2 (Z.ltb_ge _ _)) by done.
  rewrite (bool_decide_eq_false_2 _ Hb). cbn [negb]. rewrite IH; [done|]. intros d Hd. apply Hs. by right.
Qed.

Lemma json_string_plain s : plain_text s -> json_string (QUOTE :: s ++ [QUOTE]) = Some s.
Proof.
  intros Hs. unfold json_string, json_trim. rewrite trim_trimmed.
  2: { split; [done|]. cbn. rewrite rev_app_distr. done. }
  rewrite bool_decide_eq_false_2 by done. rewrite bool_decide_eq_true_2 by done.
  rewrite unescape_plain by (intros c; by apply plain_text_bytes). cbn. f_equal.
  destruct Hs as (rs & Hrs & ->). rewrite runes_encodeRunes; [done|].
  eapply Forall_impl; [done|by intros ? [? _]].
Qed.

(** ** The round trip and the range *)

Lemma plain_Duration d : MinInt64 <= d <= MaxInt64 -> plain_text (Duration_String d).
Proof.
  unfold MinInt64, MaxInt64. intros Hd. unfold Duration_String.
  destruct (Z.ltb_spec d 0); [|by apply plain_magnitude].
  apply plain_cons; [by apply plain_one|]. apply plain_magnitude, Z.mod_pos_bound. lia.
Qed.

Lemma is_digit_spaces c : is_digit c = true \/ c = MINUS -> json_space c = false /\ c <> QUOTE /\ c <> chr 110.
Proof.
  intros [Hc| ->]; [|by vm_compute]. unfold is_digit in Hc. bools. unfold json_space.
  assert (Hne : forall b, byteZ b < 48 \/ 57 < byteZ b -> c <> b) by (intros b Hb ->; lia).
  rewrite !bool_decide_eq_false_2 by (apply Hne; vm_compute; auto).
  split_and!; [done| |]; apply Hne; vm_compute; auto.
Qed.

Lemma itoa_neg d : d < 0 -> itoa d = MINUS :: itoa (- d).
Proof. intros Hd. by destruct d. Qed.

(** A number is only ever a number. *)
Lemma number_literal t : t <> [] -> (forall c, c ∈ t -> is_digit c = true \/ c = MINUS) ->
  json_trim t = t /\ json_string t = None /\ t <> lit "null".
Proof.
  intros Hne Ht. assert (json_trim t = t) as Htrim.
  { apply trim_trimmed. split.
    - destruct t as [|c t]; [done|]. apply is_digit_spaces, Ht. by left.
    - destruct (rev t) as [|c k] eqn:E; [done|]. apply is_digit_spaces, Ht.
      apply list_elem_of_In, in_rev. rewrite E. by left. }
  destruct t as [|c t]; [done|]. destruct (is_digit_spaces c) as (_ & Hq & Hn); [apply Ht; by left|].
  assert (c :: t <> lit "null") as Hnull by (intros E; apply Hn; by injection E).
  unfold json_string. rewrite Htrim, (bool_decide_eq_false_2 _ Hnull), (bool_decide_eq_false_2 _ Hq). done.
Qed.

Definition minusOf (neg : bool) : bytes := if neg then [MINUS] else [].

Lemma json_digits (neg : bool) z : 0 <= z -> in_int (if neg then - z else z) = Some (if neg then - z else z) ->
  json_int64 ((minusOf neg) ++ itoa z) = Some (if neg then - z else z) /\
  json_string ((minusOf neg) ++ itoa z) = None.
Proof.
  intros Hz Hin. destruct (itoa_digits z Hz) as (Hd & Hne & Hval).
  set (t := minusOf neg ++ itoa z).
  destruct (number_literal t) as (Htrim & Hs & Hn).
  { subst t. unfold minusOf. by intros [_ ?]%app_nil. }
  { intros c [Hc|Hc]%elem_of_app.
    - right. unfold minusOf in Hc. destruct neg; [by apply list_elem_of_singleton in Hc|by apply not_elem_of_nil in Hc].
    - left. rewrite forallb_forall in Hd. by apply Hd, list_elem_of_In. }
  split; [|done]. unfold json_int64. rewrite Htrim, (bool_decide_eq_false_2 _ Hn). subst t. unfold minusOf.
  destruct (itoa z) as [|c rest] eqn:E; [done|].
  assert (((c =b chr 48) && (rest <>b [])) = false) as H0.
  { destruct (decide (z = 0)) as [->|]; [injection E as <- <-; by vm_compute|]. apply andb_false_intro1, bool_decide_eq_false_2.
    destruct (itoa_head z) as (c' & r' & E' & Hc'); [lia|]. rewrite E in E'. simplify_eq.
    intros ->. by change (byteZ (chr 48)) with 48 in Hc'; lia. }
  assert (is_digit c = true) as Hc by (by apply andb_prop in Hd as [? _]).
  destruct neg; cbn [app].
  - rewrite (bool_decide_eq_true_2 (MINUS = MINUS)) by done. by rewrite Hd, H0, Hval.
  - rewrite bool_decide_eq_false_2 by (intros ->; by vm_compute in Hc). by rewrite Hd, H0, Hval.
Qed.

Lemma in_int_id z : MinInt64 <= z <= MaxInt64 -> in_int z = Some z.
Proof. intros Hz. unfold in_int. by rewrite (proj2 (andb_true_iff _ _)) by (split; apply Z.leb_le; lia). Qed.

(** C34: A time limit survives the configuration file: for every 64-bit duration,
    reading back what [MarshalJSON] wrote gives the same duration, to the
    nanosecond, the greatest and the least included; and a plain number of
    nanoseconds is read as that number. *)
Theorem duration_round_trips (d : Z) :
  MinInt64 <= d <= MaxInt64 ->
  UnmarshalJSON (MarshalJSON d) = inl d /\ UnmarshalJSON (itoa d) = inl d.
Proof.
  intros Hd. unfold UnmarshalJSON, MarshalJSON. split.
  - rewrite json_Marshal_plain, json_string_plain by by apply plain_Duration. by rewrite ParseDuration_String.
  - destruct (Z.ltb_spec d 0) as [Hneg|Hneg].
    + rewrite itoa_neg by done. destruct (json_digits true (- d)) as [H1 H2]; [lia| |].
      { rewrite Z.opp_involutive. by apply in_int_id. }
      cbn [app minusOf] in *. by rewrite H2, H1, Z.opp_involutive.
    + destruct (json_digits false d) as [H1 H2]; [lia|by apply in_int_id|]. cbn [app minusOf] in *. by rewrite H2, H1.
Qed.

Lemma duration_round_trips_witness :
  UnmarshalJSON (MarshalJSON MinInt64) = inl MinInt64 /\ UnmarshalJSON (itoa MinInt64) = inl MinInt64.
Proof. apply (duration_round_trips MinInt64). split; by vm_compute. Defined.

Lemma parseUnits_nonneg fuel : forall d s v, 0 <= d <= 2 ^ 63 -> parseUnits fuel d s = Some v -> 0 <= v <= 2 ^ 63.
Proof.
  induction fuel as [|fuel IH]; intros d s v Hd; (destruct s as [|c s]; cbn [parseUnits]; [by intros [= <-]|]); [done|].
  destruct (parseUnit (c :: s)) as [[u rest]|]; [|done]. destruct (Z.ltb_spec (2 ^ 63) ((d + u) mod 2 ^ 64)); [done|].
  apply IH. pose proof (Z.mod_pos_bound (d + u) (2 ^ 64) ltac:(lia)). lia.
Qed.

Lemma ParseDuration_range s d : ParseDuration s = Some d -> MinInt64 <= d <= MaxInt64.
Proof.
  unfold ParseDuration, MinInt64, MaxInt64.
  match goal with |- context [match ?p with pair _ _ => _ end] => destruct p as [neg s'] end.
  case_bool_decide; [intros [= <-]; lia|]. case_bool_decide; [done|].
  destruct (parseUnits (length s') 0 s') as [u|] eqn:E; [|done]. apply parseUnits_nonneg in E; [|lia].
  destruct neg.
  - intros [= <-]. generalize (- wrap64 u). intros z. unfold wrap64.
    pose proof (Z.mod_pos_bound (z + 2 ^ 63) (2 ^ 64) ltac:(lia)). lia.
  - destruct (Z.ltb_spec (2 ^ 63 - 1) u); [done|]. intros [= <-]. lia.
Qed.

(** No text makes a duration that is not a 64-bit number of nanoseconds,
    whatever its units, fractions and sums: overflow is refused. *)
Theorem duration_stays_in_range (b : bytes) (d : Z) :
  UnmarshalJSON b = inl d -> MinInt64 <= d <= MaxInt64.
Proof.
  unfold UnmarshalJSON. destruct (json_string b) as [s|].
  - destruct (ParseDuration s) eqn:E; [|done]. intros [= <-]. by eapply ParseDuration_range.
  - destruct (json_int64 b) as [n|] eqn:E; [|done]. intros [= <-]. unfold json_int64 in E.
    assert (Hin : forall z k, in_int z = Some k -> MinInt64 <= k <= MaxInt64).
    { unfold in_int. intros z k. destruct (_ && _) eqn:Er; [|done]. intros [= <-]. bools. lia. }
    revert E. case_bool_decide; [intros [= <-]; by vm_compute|].
    match goal with |- context [match ?p with pair _ _ => _ end] => destruct p as [neg [|c rest]] end; [done|].
    destruct (_ || _); [done|]. apply Hin.
Qed.

Lemma duration_in_range_witness : UnmarshalJSON (QUOTE :: lit "2562048h" ++ [QUOTE]) = inr (BadDuration (lit "2562048h")) /\ MinInt64 <= 90000000000 <= MaxInt64.
Proof. split; [by vm_compute|]. apply (duration_stays_in_range (MarshalJSON 90000000000)). by vm_compute. Defined.
