(* ===== verification/Policy.v ===== *)
(** * Policy: which addresses an account may send from

    Models [src/internal/gateway/policy.go]: the compiled sender policy, the
    two questions asked of it ([allows] for an address, [canSign] for a domain)
    and the computation of an account's effective senders from what its
    namespace was granted ([GrantedSubset]). A Go [map[string]bool] that only
    ever stores [true] is a [gset]. *)

From S2P Require Import Prelude Unicode GoStrings.
Import Utf8 Utf8Facts.

Definition AT : ascii := chr 64.
Definition LT : ascii := chr 60.
Definition GT : ascii := chr 62.
Definition STAR : bytes := [chr 42].

Module Policy.

Record senderPolicy := mkPolicy {
  addresses : gset bytes;
  domains : gset bytes
}.

Definition emptyPolicy : senderPolicy := mkPolicy ∅ ∅.

Section Policy.
Context `{Unicode}.

(** The body of the loop of [newSenderPolicy]. *)
Definition addEntry (p : senderPolicy) (entry : bytes) : senderPolicy :=
  let entry := ToLower (TrimSpace entry) in
  let '(local, domain, found) := Cut entry AT in
  if negb found || (domain =b []) || (local =b []) then p
  else if local =b STAR then mkPolicy (addresses p) ({[domain]} ∪ domains p)
  else mkPolicy ({[entry]} ∪ addresses p) (domains p).

Definition newSenderPolicy (allowedSenders : list bytes) : senderPolicy :=
  foldl addEntry emptyPolicy allowedSenders.

Definition empty (p : senderPolicy) : bool :=
  (size (addresses p) =? 0)%nat && (size (domains p) =? 0)%nat.

(** Display name and angle brackets stripped; empty when no address is left. *)
Definition bareAddress (address : bytes) : bytes :=
  let addr := TrimSpace address in
  let addr :=
    match LastIndexByte addr LT with
    | Some start =>
        match Index (drop start addr) [GT] with
        | Some stop =>
            if (0 <? stop)%nat then take (stop - 1) (drop (start + 1) addr) else addr
        | None => addr
        end
    | None => addr
    end in
  let addr := TrimSpace addr in
  if negb (Contains addr [AT]) then [] else addr.

Definition allows (p : senderPolicy) (address : bytes) : bool :=
  let addr := ToLower (bareAddress address) in
  if addr =b [] then false
  else if bool_decide (addr ∈ addresses p) then true
  else let '(_, domain, found) := Cut addr AT in
       found && bool_decide (domain ∈ domains p).

Definition canSign (p : senderPolicy) (domain : bytes) : bool :=
  let domain := ToLower (TrimSpace domain) in
  if domain =b [] then false
  else if bool_decide (domain ∈ domains p) then true
  else existsb (λ address,
         let '(_, addressDomain, found) := Cut address AT in
         found && (addressDomain =b domain)) (elements (addresses p)).

(** One turn of the loop of [covers]: is the entry covered? *)
Definition covered (p : senderPolicy) (entry : bytes) : bool :=
  let normalized := ToLower (TrimSpace entry) in
  let '(local, domain, found) := Cut normalized AT in
  if negb found || (domain =b []) || (local =b []) then false
  else if local =b STAR then bool_decide (domain ∈ domains p)
  else negb (negb (bool_decide (domain ∈ domains p)) &&
             negb (bool_decide (normalized ∈ addresses p))).

(** The entries of [requested] the policy does not grant. *)
Definition covers (p : senderPolicy) (requested : list bytes) : list bytes :=
  List.filter (λ entry, negb (covered p entry)) requested.

(** What the policy grants, in a stable order. *)
Definition entries (p : senderPolicy) : list bytes :=
  sort_Strings (((λ domain, STAR ++ AT :: domain) <$> elements (domains p)) ++
                elements (addresses p)).

Definition GrantedSubset (granted requested : list bytes) : list bytes * list bytes :=
  let policy := newSenderPolicy granted in
  if (length requested =? 0)%nat then (entries policy, [])
  else
    let refused := covers policy requested in
    let refusedSet : gset bytes := list_to_set refused in
    (List.filter (λ entry, negb (bool_decide (entry ∈ refusedSet))) requested, refused).

End Policy.
End Policy.
Import Policy.

(** ** What an entry means *)

(** The reading of one [allowedSenders] entry, independent of the maps it is
    compiled to: a whole domain, or one address. *)
Inductive grant :=
| GDomain (domain : bytes)
| GAddress (address domain : bytes).

Section Meaning.
Context `{Unicode}.

Definition parse_entry (entry : bytes) : option grant :=
  let n := normalize entry in
  let '(local, domain, found) := Cut n AT in
  if found && (domain <>b []) && (local <>b []) then
    Some (if local =b STAR then GDomain domain else GAddress n domain)
  else None.

(** An address (bare and lower-cased) falls under a grant. *)
Definition under (addr : bytes) (g : grant) : Prop :=
  match g with
  | GDomain d => exists local, addr = local ++ AT :: d /\ AT ∉ local
  | GAddress a _ => addr = a
  end.

Definition grant_domain (g : grant) : bytes :=
  match g with GDomain d => d | GAddress _ d => d end.

Lemma addEntry_parse p e :
  addEntry p e =
  match parse_entry e with
  | Some (GDomain d) => mkPolicy (addresses p) ({[d]} ∪ domains p)
  | Some (GAddress a _) => mkPolicy ({[a]} ∪ addresses p) (domains p)
  | None => p
  end.
Proof.
  unfold addEntry, parse_entry, normalize. destruct (Cut _ _) as [[local domain] found].
  destruct found; simpl; [|done]. repeat case_bool_decide; simpl; done.
Qed.

Lemma newSenderPolicy_spec l p :
  let q := foldl addEntry p l in
  (forall d, d ∈ domains q <-> d ∈ domains p \/ exists e, e ∈ l /\ parse_entry e = Some (GDomain d)) /\
  (forall a, a ∈ addresses q <->
    a ∈ addresses p \/ exists e d, e ∈ l /\ parse_entry e = Some (GAddress a d)).
Proof.
  revert p. induction l as [|e l IH]; intros p; simpl.
  { set_solver. }
  destruct (IH (addEntry p e)) as [IHd IHa]. rewrite addEntry_parse in *.
  split; intros x.
  - rewrite IHd. destruct (parse_entry e) as [[d|a d]|] eqn:E; simpl; set_solver.
  - rewrite IHa. destruct (parse_entry e) as [[d|a d]|] eqn:E; simpl; set_solver.
Qed.

Lemma domains_new l d :
  d ∈ domains (newSenderPolicy l) <-> exists e, e ∈ l /\ parse_entry e = Some (GDomain d).
Proof. rewrite (proj1 (newSenderPolicy_spec l emptyPolicy)). simpl. set_solver. Qed.

Lemma addresses_new l a :
  a ∈ addresses (newSenderPolicy l) <-> exists e d, e ∈ l /\ parse_entry e = Some (GAddress a d).
Proof. rewrite (proj2 (newSenderPolicy_spec l emptyPolicy)). simpl. set_solver. Qed.

(** The compiled policy depends only on which grants the entries carry. *)
Lemma newSenderPolicy_ext l k :
  (forall g, (exists e, e ∈ l /\ parse_entry e = Some g) <->
    (exists e, e ∈ k /\ parse_entry e = Some g)) ->
  newSenderPolicy l = newSenderPolicy k.
Proof.
  intros E. destruct (newSenderPolicy l) as [al dl] eqn:El, (newSenderPolicy k) as [ak dk] eqn:Ek.
  f_equal; apply set_eq; intros x.
  - pose proof (addresses_new l x) as Hl. pose proof (addresses_new k x) as Hk.
    rewrite El in Hl. rewrite Ek in Hk. simpl in *. rewrite Hl, Hk.
    split; intros (e & d & He).
    + destruct (proj1 (E (GAddress x d))) as (e' & ?); eauto.
    + destruct (proj2 (E (GAddress x d))) as (e' & ?); eauto.
  - pose proof (domains_new l x) as Hl. pose proof (domains_new k x) as Hk.
    rewrite El in Hl. rewrite Ek in Hk. simpl in *. rewrite Hl, Hk. apply E.
Qed.

(** The shape of a parsed entry. *)
Lemma parse_entry_Some e g :
  parse_entry e = Some g ->
  exists local, normalize e = local ++ AT :: grant_domain g /\ (AT ∉ local) /\ local <> [] /\
    grant_domain g <> [] /\
    match g with GDomain _ => local = STAR | GAddress a _ => local <> STAR /\ a = normalize e end.
Proof.
  unfold parse_entry. destruct (Cut _ _) as [[local domain] [|]] eqn:E; simpl; [|done].
  apply Cut_found in E as [E Hn]. repeat case_bool_decide; simpl; intros [= <-];
    exists local; simpl; auto 10.
Qed.

Lemma parse_entry_normalize e : parse_entry (normalize e) = parse_entry e.
Proof. unfold parse_entry. by rewrite normalize_idem. Qed.

Lemma at_separator : separator AT.
Proof. unfold separator. change (byteZ AT) with 64%Z. lia. Qed.

Lemma allows_under p a :
  ([] : bytes) ∉ addresses p ->
  allows p a = true <->
  (ToLower (bareAddress a) ∈ addresses p \/
   exists d, d ∈ domains p /\ under (ToLower (bareAddress a)) (GDomain d)).
Proof.
  intros Hne. unfold allows. set (addr := ToLower (bareAddress a)). clearbody addr.
  case_bool_decide as Hn.
  { subst. split; [done|]. intros [?|(d & _ & local & E & _)]; [done|].
    by destruct local. }
  case_bool_decide as Ha; [naive_solver|].
  destruct (Cut addr AT) as [[local domain] [|]] eqn:E; simpl.
  - apply Cut_found in E as [-> Hl]. rewrite bool_decide_eq_true. split.
    + intros Hd. right. exists domain. eauto.
    + intros [?|(d & Hd & local' & E & Hl')]; [done|].
      assert (Cut (local ++ AT :: domain) AT = Cut (local' ++ AT :: d) AT) as E2 by (by rewrite E).
      rewrite !Cut_at in E2 by done. by injection E2 as _ ->.
  - apply Cut_not_found in E as (_ & _ & Hl). split; [done|].
    intros [?|(d & Hd & local' & E & Hl')]; [done|]. set_solver.
Qed.

Lemma new_addresses_nonempty l : ([] : bytes) ∉ addresses (newSenderPolicy l).
Proof.
  intros (e & d & _ & Hp)%addresses_new.
  apply parse_entry_Some in Hp as (local & E & _ & _ & _ & _ & En). rewrite <- En in E.
  by destruct local.
Qed.

(** The grants a list of entries carries. *)
Definition carries (l : list bytes) (g : grant) : Prop :=
  exists e, e ∈ l /\ parse_entry e = Some g.

Lemma allows_carries l a :
  allows (newSenderPolicy l) a = true <->
  exists g, carries l g /\ under (ToLower (bareAddress a)) g.
Proof.
  rewrite allows_under by apply new_addresses_nonempty.
  setoid_rewrite domains_new. rewrite addresses_new. unfold carries. split.
  - intros [(e & d & He & Hp)|(d & (e & He & Hp) & Hu)].
    + exists (GAddress (ToLower (bareAddress a)) d). split; [by exists e|done].
    + exists (GDomain d). split; [by exists e|done].
  - intros (g & (e & He & Hp) & Hu). destruct g as [d|a' d]; simpl in Hu; [eauto 10|].
    subst a'. eauto 10.
Qed.

Lemma canSign_carries l d :
  canSign (newSenderPolicy l) d = true <->
  exists g, carries l g /\ grant_domain g = normalize d.
Proof.
  unfold canSign. fold (normalize d). case_bool_decide as Hn.
  { rewrite Hn. split; [done|]. intros (g & (e & _ & Hp) & Hg).
    apply parse_entry_Some in Hp as (local & _ & _ & _ & Hd & _). congruence. }
  case_bool_decide as Hd.
  { split; [intros _|done]. apply domains_new in Hd as (e & ? & ?).
    exists (GDomain (normalize d)). split; [|done]. by exists e. }
  rewrite existsb_exists. setoid_rewrite <- list_elem_of_In. setoid_rewrite elem_of_elements.
  split.
  - intros (a & Ha & Hc). apply addresses_new in Ha as (e & d' & He & Hp).
    exists (GAddress a d'). split; [by exists e|]. simpl.
    apply parse_entry_Some in Hp as (local & E & Hl & _ & _ & _ & Ea). simpl in E.
    rewrite <- Ea in E. rewrite E, Cut_at in Hc by done. simpl in Hc. by bools.
  - intros (g & (e & He & Hp) & Hg). destruct g as [d'|a d'].
    + exfalso. apply Hd. apply domains_new. exists e. simpl in Hg. by rewrite <- Hg.
    + exists a. rewrite addresses_new. split; [eauto|].
      apply parse_entry_Some in Hp as (local & E & Hl & _ & _ & _ & Ea). simpl in *.
      rewrite <- Ea in E. rewrite E, Cut_at by done. simpl. by apply bool_decide_eq_true_2.
Qed.

(** [g] stays within a list of entries: it is one of its grants, or an address
    of a domain granted whole. *)
Definition within (g : grant) (l : list bytes) : Prop :=
  carries l (GDomain (grant_domain g)) \/
  match g with GDomain _ => False | GAddress a d => carries l (GAddress a d) end.

Lemma covered_within l e :
  covered (newSenderPolicy l) e = true <->
  exists g, parse_entry e = Some g /\ within g l.
Proof.
  unfold covered, parse_entry. fold (normalize e).
  destruct (Cut (normalize e) AT) as [[local domain] [|]] eqn:E; simpl; [|split; [done|by intros (g & ? & _)]].
  apply Cut_found in E as [E Hl].
  destruct (decide (domain = [])) as [->|Hd]; [simpl; split; [done|by intros (g & ? & _)]|].
  destruct (decide (local = [])) as [->|Hl'];
    [simpl; rewrite !bool_decide_eq_false_2 by done; simpl; split; [done|by intros (g & ? & _)]|].
  rewrite !(bool_decide_eq_false_2 (_ = [])) by done. simpl.
  destruct (decide (local = STAR)) as [Hs|Hs].
  - rewrite !(bool_decide_eq_true_2 (local = STAR)) by done.
    rewrite bool_decide_eq_true, domains_new. unfold within. split.
    + intros HH. eexists. split; [done|]. by left.
    + by intros (g & [= <-] & [?|[]]).
  - rewrite !(bool_decide_eq_false_2 (local = STAR)) by done.
    rewrite negb_andb, !negb_involutive, orb_true_iff, !bool_decide_eq_true.
    rewrite domains_new, addresses_new. unfold within. split.
    + intros HH. eexists. split; [done|]. simpl.
      destruct HH as [?|(e' & d & He & Hp)]; [by left|right]. exists e'. split; [done|].
      assert (d = domain) as ->; [|done].
      apply parse_entry_Some in Hp as (local' & E' & Hl2 & _ & _ & _ & En). simpl in E'.
      rewrite <- En, E in E'.
      assert (E2 := f_equal (λ s, Cut s AT) E'). simpl in E2. rewrite !Cut_at in E2 by done.
      by injection E2 as _ ->.
    + intros (g & [= <-] & [?|(e' & ?)]); [by left|right; eauto].
Qed.
Lemma within_under e g l addr :
  parse_entry e = Some g -> within g l -> under addr g ->
  exists g', carries l g' /\ under addr g'.
Proof.
  intros Hp [Hw|Hw] Hu.
  - exists (GDomain (grant_domain g)). split; [done|].
    destruct g as [d|a d]; [done|]. simpl in *. subst addr.
    apply parse_entry_Some in Hp as (local & E & Hl & _ & _ & _ & ->). simpl in E. eauto.
  - destruct g as [d|a d]; [done|]. eauto.
Qed.

Lemma entries_carries l g : carries (entries (newSenderPolicy l)) g <-> carries l g.
Proof.
  unfold carries, entries, sort_Strings. setoid_rewrite merge_sort_Permutation.
  setoid_rewrite elem_of_app. setoid_rewrite list_elem_of_fmap. setoid_rewrite elem_of_elements.
  setoid_rewrite domains_new. setoid_rewrite addresses_new.
  assert (Hd : forall e d, parse_entry e = Some (GDomain d) ->
            parse_entry (STAR ++ AT :: d) = Some (GDomain d)).
  { intros e d Hp. assert (Hs := Hp). apply parse_entry_Some in Hs as (local & E & _ & _ & _ & ->).
    cbn [grant_domain] in E. by rewrite <- E, parse_entry_normalize. }
  assert (Ha : forall e a d, parse_entry e = Some (GAddress a d) ->
            parse_entry a = Some (GAddress a d)).
  { intros e a d Hp. assert (Hs := Hp). apply parse_entry_Some in Hs as (local & _ & _ & _ & _ & _ & ->).
    by rewrite parse_entry_normalize. }
  split.
  - intros (x & [(d & -> & e & He & Hp)|(e & d & He & Hp)] & Hx).
    + exists e. split; [done|]. rewrite (Hd e d Hp) in Hx. congruence.
    + exists e. split; [done|]. rewrite (Ha e x d Hp) in Hx. congruence.
  - intros (e & He & Hp). destruct g as [d|a d].
    + exists (STAR ++ AT :: d). split; [left; eauto|]. eapply Hd; eauto.
    + exists a. split; [right; eauto|]. eapply Ha; eauto.
Qed.

(** On a non-empty request the two lists are the two sides of [covered]. *)
Lemma GrantedSubset_eq granted requested :
  requested <> [] ->
  GrantedSubset granted requested =
  (List.filter (covered (newSenderPolicy granted)) requested,
   List.filter (λ e, negb (covered (newSenderPolicy granted) e)) requested).
Proof.
  intros Hne. unfold GrantedSubset. destruct requested as [|r rs]; [done|].
  cbn [length Nat.eqb]. unfold covers. f_equal. set (rq := r :: rs). clearbody rq.
  apply List.filter_ext_in. intros e He%list_elem_of_In.
  destruct (covered (newSenderPolicy granted) e) eqn:Ec; [apply negb_true_iff|apply negb_false_iff].
  - apply bool_decide_eq_false. rewrite elem_of_list_to_set, elem_of_bfilter, Ec. naive_solver.
  - apply bool_decide_eq_true. rewrite elem_of_list_to_set, elem_of_bfilter, Ec. done.
Qed.

(** What survives [GrantedSubset] is within the grant. *)
Lemma GrantedSubset_within granted requested e g :
  e ∈ (GrantedSubset granted requested).1 -> parse_entry e = Some g ->
  within g granted.
Proof.
  intros He Hp. destruct (decide (requested = [])) as [->|Hne].
  - assert (Hc : carries granted g) by (apply entries_carries; by exists e).
    destruct g; [by left|by right].
  - rewrite GrantedSubset_eq in He by done. apply elem_of_bfilter in He as [Hc _].
    apply covered_within in Hc as (g' & Hp' & Hw). congruence.
Qed.
End Meaning.

(** ** Properties *)

Section Properties.
Context `{Unicode}.

(** When none of what is asked for is refused, all of it is within the grant. *)
Lemma nothing_refused_within (granted requested : list bytes) (a : bytes) :
  requested <> [] -> (GrantedSubset granted requested).2 = [] ->
  allows (newSenderPolicy requested) a = true -> allows (newSenderPolicy granted) a = true.
Proof.
  intros Hne. rewrite GrantedSubset_eq by done. cbn [snd]. intros Hnil.
  rewrite !allows_carries. intros (g & (e & He & Hp) & Hu). eapply within_under; eauto.
  assert (Hc : covered (newSenderPolicy granted) e = true).
  { apply negb_false_iff, not_true_iff_false. intros Hn.
    assert (Hin : e ∈ List.filter (λ e, negb (covered (newSenderPolicy granted) e)) requested)
      by by apply elem_of_bfilter.
    rewrite Hnil in Hin. by apply not_elem_of_nil in Hin. }
  apply covered_within in Hc as (g' & Hp' & Hw). by simplify_eq.
Qed.

(** A compiled policy lets an address through exactly when some entry it was
    compiled from grants it: the entry is well formed and either names that very
    address, or is [*@domain] and the address is in that domain (compared bare
    and lower-cased). *)
Theorem allows_iff_some_entry_grants (l : list bytes) (a : bytes) :
  allows (newSenderPolicy l) a = true <->
  exists e g, e ∈ l /\ parse_entry e = Some g /\ under (ToLower (bareAddress a)) g.
Proof. rewrite allows_carries. unfold carries. naive_solver. Qed.

(** A domain may be signed exactly when some entry of the policy is in that
    domain: the right to be signed for a domain is the right to send from it. *)
Theorem canSign_iff_some_entry_in_domain (l : list bytes) (d : bytes) :
  canSign (newSenderPolicy l) d = true <->
  exists e g, e ∈ l /\ parse_entry e = Some g /\ grant_domain g = normalize d.
Proof. rewrite canSign_carries. unfold carries. naive_solver. Qed.

(** C12: an account never gets beyond its grant: an address its effective
    senders allow is one the grant allows, whatever the account asked for. *)
Theorem GrantedSubset_never_widens (granted requested : list bytes) (a : bytes) :
  allows (newSenderPolicy (GrantedSubset granted requested).1) a = true ->
  allows (newSenderPolicy granted) a = true.
Proof.
  rewrite !allows_carries. intros (g & (e & He & Hp) & Hu).
  eapply within_under; eauto. by eapply GrantedSubset_within.
Qed.

(** Nor can it be signed for a domain outside its grant. *)
Theorem GrantedSubset_never_widens_signing (granted requested : list bytes) (d : bytes) :
  canSign (newSenderPolicy (GrantedSubset granted requested).1) d = true ->
  canSign (newSenderPolicy granted) d = true.
Proof.
  rewrite !canSign_carries. intros (g & (e & He & Hp) & Hd).
  destruct (GrantedSubset_within _ _ _ _ He Hp) as [Hw|Hw]; [eauto|].
  destruct g; [done|eauto].
Qed.

(** An account that asks for nothing gets the whole grant: its effective
    senders compile to the very policy of the grant, and nothing is refused. *)
Theorem GrantedSubset_nothing_asked (granted : list bytes) :
  newSenderPolicy (GrantedSubset granted []).1 = newSenderPolicy granted /\
  (GrantedSubset granted []).2 = [].
Proof. split; [|done]. apply newSenderPolicy_ext. apply entries_carries. Qed.

(** What is asked for is split, in order and without loss, into what is
    served and what is refused; an entry is served exactly when it is well
    formed and within the grant. *)
Theorem GrantedSubset_partition (granted requested : list bytes) :
  requested <> [] ->
  let '(allowed, refused) := GrantedSubset granted requested in
  allowed ++ refused ≡ₚ requested /\
  (forall e, e ∈ allowed <->
     e ∈ requested /\ exists g, parse_entry e = Some g /\ within g granted) /\
  (forall e, e ∈ refused <->
     e ∈ requested /\ ~ exists g, parse_entry e = Some g /\ within g granted).
Proof.
  intros Hne. rewrite GrantedSubset_eq by done. split; [apply bfilter_partition|].
  split; intros e; rewrite elem_of_bfilter, <- covered_within.
  - tauto.
  - rewrite negb_true_iff, <- not_true_iff_false. tauto.
Qed.

End Properties.

(** ** Witnesses *)

Definition demo_granted : list bytes := [lit "*@x.test"; lit "Boss@y.test"].
Definition demo_requested : list bytes := [lit "App@x.test"; lit "eve@z.test"].

Lemma never_widens_witness :
  Policy.allows (Policy.newSenderPolicy (Policy.GrantedSubset demo_granted demo_requested).1) (lit "app@x.test") = true /\
  Policy.allows (Policy.newSenderPolicy demo_granted) (lit "app@x.test") = true.
Proof.
  assert (Ha : Policy.allows (Policy.newSenderPolicy (Policy.GrantedSubset demo_granted demo_requested).1)
    (lit "app@x.test") = true) by (vm_compute; reflexivity).
  split; [exact Ha|]. exact (GrantedSubset_never_widens demo_granted demo_requested (lit "app@x.test") Ha).
Defined.

Lemma never_widens_signing_witness :
  Policy.canSign (Policy.newSenderPolicy (Policy.GrantedSubset demo_granted demo_requested).1) (lit "X.test") = true /\
  Policy.canSign (Policy.newSenderPolicy demo_granted) (lit "X.test") = true.
Proof.
  assert (Ha : Policy.canSign (Policy.newSenderPolicy (Policy.GrantedSubset demo_granted demo_requested).1)
    (lit "X.test") = true) by (vm_compute; reflexivity).
  split; [exact Ha|]. exact (GrantedSubset_never_widens_signing demo_granted demo_requested (lit "X.test") Ha).
Defined.

Lemma partition_witness :
  Policy.GrantedSubset demo_granted demo_requested = ([lit "App@x.test"], [lit "eve@z.test"]) /\
  ([lit "App@x.test"] ++ [lit "eve@z.test"] ≡ₚ demo_requested).
Proof.
  split; [vm_compute; reflexivity|].
  apply (GrantedSubset_partition demo_granted demo_requested). discriminate.
Defined.
