(* ===== verification/Message.v ===== *)
(** * Message: headers and body of a message

    Models [src/internal/gateway/message.go]: parsing a message into an ordered
    list of header fields and a body, printing it back, and the header edits a
    milter may request. *)

From S2P Require Import Prelude Unicode GoStrings.

Definition COLON : ascii := chr 58.

Module Message.

Record headerField := mkField { Name : bytes; Value : bytes }.
Record parsedMessage := mkParsed { Headers : list headerField; Body : bytes }.

#[export] Instance headerField_eq_dec : EqDecision headerField.
Proof. solve_decision. Defined.
#[export] Instance parsedMessage_eq_dec : EqDecision parsedMessage.
Proof. solve_decision. Defined.

(** The lines [bufio.Reader.ReadString('\n')] returns one after the other: each
    ends with LF, except the last when the data does not. *)
Fixpoint split_lines (data : bytes) : list bytes :=
  match data with
  | [] => []
  | c :: data' =>
      if c =b LF then [LF] :: split_lines data'
      else match split_lines data' with
           | [] => [[c]]
           | l :: ls => (c :: l) :: ls
           end
  end.

Definition starts_blank (line : bytes) : bool :=
  match line with c :: _ => (c =b SP) || (c =b TAB) | [] => false end.

(** The read loop of [parseMessage], over the lines still to be read; [acc]
    holds the headers read so far, last first. *)
Fixpoint parseLoop (lines : list bytes) (acc : list headerField) : parsedMessage :=
  match lines with
  | [] => mkParsed (rev acc) []
  | line :: rest =>
      let trimmed := TrimRight line [CR; LF] in
      if trimmed =b [] then mkParsed (rev acc) (concat rest)
      else
        match starts_blank line, acc with
        | true, last :: acc' =>
            (* continuation of a folded header, kept verbatim *)
            parseLoop rest (mkField (Name last) (Value last ++ CRLF ++ trimmed) :: acc')
        | _, _ =>
            let '(name, value, found) := Cut trimmed COLON in
            if negb found then
              (* not a header: everything from here is body *)
              mkParsed (rev acc) (line ++ concat rest)
            else parseLoop rest (mkField name (TrimPrefix value [SP]) :: acc)
        end
  end.

(** Reading from memory never fails other than by reaching the end, so the
    error return of [parseMessage] is never taken. *)
Definition parseMessage (data : bytes) : result parsedMessage :=
  Ok (parseLoop (split_lines data) []).

(** One header as written by [fmt.Fprintf(w, "%s: %s\r\n", ...)]. *)
Definition fieldBytes (f : headerField) : bytes := Name f ++ [COLON; SP] ++ Value f ++ CRLF.

(** The successive writes of [WriteHeaders]. *)
Definition headerWrites (m : parsedMessage) : list bytes := (fieldBytes <$> Headers m) ++ [CRLF].

Definition Bytes (m : parsedMessage) : bytes := concat (headerWrites m) ++ Body m.

Definition addHeader (m : parsedMessage) (name value : bytes) : parsedMessage :=
  mkParsed (Headers m ++ [mkField name value]) (Body m).

(** [insertHeader]: [index] is one-based and clamped to the header block. *)
Definition insertHeader (m : parsedMessage) (index : Z) (name value : bytes) : parsedMessage :=
  let pos := (index - 1)%Z in
  let pos := if (pos <? 0)%Z then 0%Z else pos in
  let pos := if (zlen (Headers m) <? pos)%Z then zlen (Headers m) else pos in
  mkParsed (ztake pos (Headers m) ++ mkField name value :: zdrop pos (Headers m)) (Body m).

Section Change.
Context `{Unicode}.

(** The loop of [changeHeader]; [None] when it runs off the end without having
    found the [index]-th header of that name. *)
Fixpoint changeLoop (hs : list headerField) (seen index : Z) (name value : bytes)
    : option (list headerField) :=
  match hs with
  | [] => None
  | h :: hs' =>
      if negb (EqualFold (Name h) name) then cons h <$> changeLoop hs' seen index name value
      else
        let seen := (seen + 1)%Z in
        if negb (seen =? index)%Z then cons h <$> changeLoop hs' seen index name value
        else if value =b [] then Some hs'
        else Some (mkField (Name h) value :: hs')
  end.

Definition changeHeader (m : parsedMessage) (index : Z) (name value : bytes) : parsedMessage :=
  match changeLoop (Headers m) 0 index name value with
  | Some hs => mkParsed hs (Body m)
  | None => if value <>b [] then addHeader m name value else m
  end.
End Change.

End Message.
Import Message.

(** ** Lines *)

Lemma split_lines_app l s : LF ∉ l -> split_lines (l ++ LF :: s) = (l ++ [LF]) :: split_lines s.
Proof.
  induction l as [|c l IH]; cbn [split_lines app]; intros Hl.
  - by rewrite bool_decide_eq_true_2.
  - rewrite not_elem_of_cons in Hl. destruct Hl as [Hc Hl].
    rewrite bool_decide_eq_false_2 by congruence. by rewrite IH.
Qed.

Lemma concat_split_lines s : concat (split_lines s) = s.
Proof.
  induction s as [|c s IH]; simpl; [done|]. case_bool_decide; subst; simpl; [by rewrite IH|].
  destruct (split_lines s) as [|l ls]; simpl in *; by rewrite <- IH.
Qed.

(** Lines as the reader cuts them: no LF but a final one. *)
Definition is_line (l : bytes) : Prop := exists k, (LF ∉ k) /\ (l = k ++ [LF] \/ l = k /\ k <> []).

Lemma split_lines_are_lines s : Forall is_line (split_lines s).
Proof.
  induction s as [|c s IH]; simpl; [constructor|]. case_bool_decide as Hc.
  { constructor; [|done]. exists []. split; [set_solver|by left]. }
  destruct (split_lines s) as [|l ls]; simpl.
  - constructor; [|done]. exists [c]. split; [set_solver|]. right. done.
  - apply Forall_cons in IH as [(k & Hk & Hl) Hls]. constructor; [|done].
    exists (c :: k). split; [set_solver|]. destruct Hl as [->|[-> ?]]; [by left|by right].
Qed.

(** A line's content: no LF, and no CR at the end that trimming would take. *)
Definition clean (l : bytes) : Prop := (LF ∉ l) /\ TrimRight l [CR; LF] = l.

Lemma TrimRight_app_in l k cs : Forall (.∈ cs) k -> TrimRight (l ++ k) cs = TrimRight l cs.
Proof.
  intros Hk%Forall_rev. unfold TrimRight, drop_while_end. f_equal. rewrite rev_app_distr.
  induction Hk as [|x t Hx _ IH]; simpl; [done|]. by rewrite bool_decide_eq_true_2.
Qed.

Lemma TrimRight_decompose l cs :
  exists k, l = TrimRight l cs ++ k /\ Forall (.∈ cs) k /\ TrimRight (TrimRight l cs) cs = TrimRight l cs.
Proof.
  unfold TrimRight, drop_while_end.
  destruct (drop_while_spec (λ c, bool_decide (c ∈ cs)) (rev l)) as (k & E & Hk & Hh).
  exists (rev k). split; [|split].
  - apply (f_equal (@rev _)) in E. by rewrite rev_involutive, rev_app_distr in E.
  - apply Forall_rev. eapply Forall_impl; [done|]. intros x Hx. simpl in Hx. by bools.
  - rewrite rev_involutive. destruct (drop_while _ _) as [|x t]; simpl in *; [done|].
    by rewrite Hh.
Qed.

Lemma TrimRight_last l x cs : x ∉ cs -> TrimRight (l ++ [x]) cs = l ++ [x].
Proof.
  intros Hx. unfold TrimRight, drop_while_end. rewrite rev_app_distr. simpl.
  rewrite bool_decide_eq_false_2 by done. simpl. by rewrite rev_involutive.
Qed.

(** Trimming looks only at the end: a clean, non-empty end protects what
    precedes it. *)
Lemma TrimRight_clean_app l k cs : k <> [] -> TrimRight k cs = k -> TrimRight (l ++ k) cs = l ++ k.
Proof.
  intros Hne Hk. destruct (exists_last Hne) as (k' & x & ->). rewrite app_assoc.
  apply TrimRight_last. intros Hx.
  rewrite TrimRight_app_in in Hk by (by constructor).
  destruct (TrimRight_decompose k' cs) as (t & E & _ & _). rewrite E in Hk at 2.
  apply (f_equal (@length _)) in Hk. rewrite !length_app in Hk. simpl in Hk. lia.
Qed.

Lemma trimmed_of_line l : is_line l -> clean (TrimRight l [CR; LF]).
Proof.
  intros (k & Hk & Hl). assert (E : TrimRight l [CR; LF] = TrimRight k [CR; LF]).
  { destruct Hl as [->|[-> _]]; [|done]. apply TrimRight_app_in. repeat constructor. }
  rewrite E. destruct (TrimRight_decompose k [CR; LF]) as (t & Ek & _ & Ht).
  split; [|done]. rewrite Ek in Hk. set_solver.
Qed.

(** ** Well-formed headers *)

(** A value: a first line and the continuation lines of its folding. *)
Definition wf_value (v : bytes) : Prop :=
  exists v0 cs, v = v0 ++ concat ((λ c, CRLF ++ c) <$> cs) /\ clean v0 /\
    Forall (λ c, clean c /\ starts_blank c = true) cs.

(** A field that prints to lines that parse back to it. Only the first field of
    a message may start with a blank: elsewhere it would read as a folding. *)
Definition wf_field (first : bool) (f : headerField) : Prop :=
  (COLON ∉ Name f) /\ (LF ∉ Name f) /\ (first = false -> starts_blank (Name f) = false) /\
  wf_value (Value f).

Definition wf_headers (hs : list headerField) : Prop :=
  match hs with
  | [] => True
  | h :: t => wf_field true h /\ Forall (wf_field false) t
  end.

Lemma wf_field_weaken f : wf_field false f -> wf_field true f.
Proof. intros (? & ? & ? & ?). repeat split; auto. Qed.

Lemma clean_header_line n v : clean v -> TrimRight (n ++ [COLON; SP] ++ v) [CR; LF] = n ++ [COLON; SP] ++ v.
Proof.
  intros [_ Hv]. apply TrimRight_clean_app; [done|].
  destruct v as [|x v]; [done|]. by apply TrimRight_clean_app.
Qed.

Lemma parse_header_step n v s acc :
  (COLON ∉ n) -> (LF ∉ n) -> clean v -> (acc <> [] -> starts_blank n = false) ->
  parseLoop (split_lines (n ++ [COLON; SP] ++ v ++ CRLF ++ s)) acc =
  parseLoop (split_lines s) (mkField n v :: acc).
Proof.
  intros Hc Hl Hv Hb.
  replace (n ++ [COLON; SP] ++ v ++ CRLF ++ s)
    with ((n ++ [COLON; SP] ++ v ++ [CR]) ++ LF :: s) by (by rewrite <- !app_assoc).
  rewrite split_lines_app.
  2:{ destruct Hv as [Hv _]. rewrite !elem_of_app, !elem_of_cons, elem_of_nil.
      intros [?|[[E|[E|[]]]|[?|[E|[]]]]]; done. }
  cbn [parseLoop].
  assert (Et : TrimRight ((n ++ [COLON; SP] ++ v ++ [CR]) ++ [LF]) [CR; LF] = n ++ [COLON; SP] ++ v).
  { replace ((n ++ [COLON; SP] ++ v ++ [CR]) ++ [LF]) with ((n ++ [COLON; SP] ++ v) ++ [CR; LF])
      by (by rewrite <- !app_assoc).
    rewrite TrimRight_app_in by (repeat constructor). by apply clean_header_line. }
  rewrite Et. rewrite bool_decide_eq_false_2 by (by destruct n).
  assert (Hcut : Cut (n ++ [COLON; SP] ++ v) COLON = (n, SP :: v, true)) by (by apply Cut_at).
  assert (Hp : TrimPrefix (SP :: v) [SP] = v) by apply (TrimPrefix_app [SP] v).
  rewrite Hcut. cbn [negb]. rewrite Hp.
  destruct acc as [|f acc]; [by case_match|].
  specialize (Hb ltac:(done)). destruct n as [|c n]; [done|]. simpl in Hb. simpl.
  by rewrite Hb.
Qed.

Lemma parse_cont_step c s f acc :
  clean c -> starts_blank c = true ->
  parseLoop (split_lines (c ++ CRLF ++ s)) (f :: acc) =
  parseLoop (split_lines s) (mkField (Name f) (Value f ++ CRLF ++ c) :: acc).
Proof.
  intros [Hl Ht] Hb.
  replace (c ++ CRLF ++ s) with ((c ++ [CR]) ++ LF :: s) by (by rewrite <- !app_assoc).
  rewrite split_lines_app by (rewrite elem_of_app, list_elem_of_singleton; intros [?|?]; done).
  cbn [parseLoop].
  assert (Et : TrimRight ((c ++ [CR]) ++ [LF]) [CR; LF] = c).
  { rewrite <- app_assoc. rewrite TrimRight_app_in by (repeat constructor). done. }
  rewrite Et. destruct c as [|x c]; [done|].
  rewrite bool_decide_eq_false_2 by done. simpl in Hb. simpl. by rewrite Hb.
Qed.

Lemma parse_conts cs s f acc :
  Forall (λ c, clean c /\ starts_blank c = true) cs ->
  parseLoop (split_lines (concat ((λ c, c ++ CRLF) <$> cs) ++ s)) (f :: acc) =
  parseLoop (split_lines s) (mkField (Name f) (Value f ++ concat ((λ c, CRLF ++ c) <$> cs)) :: acc).
Proof.
  intros Hcs. revert f. induction Hcs as [|c cs [Hc Hb] _ IH]; intros f; cbn [fmap list_fmap concat].
  - rewrite app_nil_r. by destruct f.
  - rewrite <- !app_assoc, parse_cont_step, IH by done. cbn [Name Value].
    by rewrite <- !app_assoc.
Qed.

(** Folding can be read from either end: [CRLF c] repeated then CRLF, or CRLF
    then [c CRLF] repeated. *)
Lemma fold_shift (cs : list bytes) :
  concat ((λ c, CRLF ++ c) <$> cs) ++ CRLF = CRLF ++ concat ((λ c, c ++ CRLF) <$> cs).
Proof.
  induction cs as [|c cs IH]; [done|]. cbn [fmap list_fmap concat].
  rewrite <- !app_assoc. cbn [fmap list_fmap] in IH. by rewrite IH.
Qed.

Lemma parse_field first f s acc :
  wf_field first f -> (first = true -> acc = []) ->
  parseLoop (split_lines (fieldBytes f ++ s)) acc = parseLoop (split_lines s) (f :: acc).
Proof.
  intros (Hc & Hl & Hb & v0 & cs & Ev & Hv & Hcs) Hfirst. unfold fieldBytes. rewrite Ev.
  replace ((Name f ++ [COLON; SP] ++ (v0 ++ concat ((λ c, CRLF ++ c) <$> cs)) ++ CRLF) ++ s)
    with (Name f ++ [COLON; SP] ++ v0 ++ CRLF ++ (concat ((λ c, c ++ CRLF) <$> cs) ++ s)).
  2:{ rewrite <- !app_assoc. do 3 f_equal. rewrite !app_assoc, fold_shift. by rewrite <- !app_assoc. }
  rewrite parse_header_step; [|done..|by destruct first; [intros []; apply Hfirst|auto]].
  rewrite parse_conts by done. cbn [Name Value]. rewrite <- Ev. by destruct f.
Qed.

Lemma parse_blank body acc :
  parseLoop (split_lines (CRLF ++ body)) acc = mkParsed (rev acc) body.
Proof.
  change (CRLF ++ body) with ([CR] ++ LF :: body).
  rewrite split_lines_app by (rewrite list_elem_of_singleton; done).
  cbn [parseLoop]. by rewrite concat_split_lines.
Qed.

Lemma parse_fields hs s acc :
  (match acc with [] => wf_headers hs | _ => Forall (wf_field false) hs end) ->
  parseLoop (split_lines (concat (fieldBytes <$> hs) ++ s)) acc = parseLoop (split_lines s) (rev hs ++ acc).
Proof.
  revert acc. induction hs as [|h hs IH]; intros acc Hwf; [done|].
  cbn [fmap list_fmap concat rev]. rewrite <- !app_assoc. cbn [app].
  destruct acc as [|a acc].
  - destruct Hwf as [Hh Ht]. rewrite (parse_field true) by done. by rewrite IH.
  - apply Forall_cons in Hwf as [Hh Ht]. rewrite (parse_field false) by done. by rewrite IH.
Qed.

Lemma parse_Bytes m : wf_headers (Headers m) -> parseMessage (Bytes m) = Ok m.
Proof.
  intros Hwf. unfold parseMessage, Bytes, headerWrites. f_equal.
  rewrite concat_app, <- app_assoc. rewrite parse_fields by done.
  cbn [concat]. rewrite app_nil_r, parse_blank, rev_app_distr, rev_involutive. by destruct m.
Qed.

(** ** Parsing produces well-formed headers *)

Lemma clean_suffix a b : clean (a ++ b) -> clean b.
Proof.
  intros [Hl Ht]. split; [set_solver|]. destruct (decide (b = [])) as [->|Hne]; [done|].
  destruct (exists_last Hne) as (k & x & ->).
  destruct (decide (x ∈ [CR; LF])) as [Hx|Hx]; [|by apply TrimRight_last].
  rewrite app_assoc, TrimRight_app_in in Ht by (by constructor).
  destruct (TrimRight_decompose (a ++ k) [CR; LF]) as (t & E & _ & _). rewrite E in Ht at 2.
  apply (f_equal (@length _)) in Ht. rewrite !length_app in Ht. simpl in Ht. lia.
Qed.

Lemma starts_blank_trim l cs : TrimRight l cs <> [] -> starts_blank (TrimRight l cs) = starts_blank l.
Proof.
  destruct (TrimRight_decompose l cs) as (k & E & _ & _). intros Hne.
  destruct (TrimRight l cs) as [|c t]; [done|]. by rewrite E.
Qed.

Lemma TrimPrefix_suffix v p : exists k, v = k ++ TrimPrefix v p.
Proof.
  unfold TrimPrefix. destruct (HasPrefix v p) eqn:E; [|by exists []].
  apply HasPrefix_spec in E as [t ->]. exists p. by rewrite drop_app_length.
Qed.

Lemma wf_headers_snoc hs f :
  wf_headers (hs ++ [f]) <-> wf_headers hs /\ wf_field (bool_decide (hs = [])) f.
Proof.
  destruct hs as [|h hs]; simpl.
  - split; [intros [? _]; done|]. intros [_ ?]. done.
  - rewrite Forall_app, Forall_singleton. tauto.
Qed.

Lemma wf_value_snoc v c : wf_value v -> clean c -> starts_blank c = true -> wf_value (v ++ CRLF ++ c).
Proof.
  intros (v0 & cs & -> & Hv & Hcs) Hc Hb. exists v0, (cs ++ [c]). split; [|split; [done|]].
  - rewrite fmap_app, concat_app. cbn [fmap list_fmap concat]. by rewrite app_nil_r, <- !app_assoc.
  - apply Forall_app. by rewrite Forall_singleton.
Qed.

Lemma clean_wf_value v : clean v -> wf_value v.
Proof. intros Hv. exists v, []. split; [by rewrite app_nil_r|done]. Qed.

Lemma parseLoop_wf lines acc :
  Forall is_line lines -> wf_headers (rev acc) -> wf_headers (Headers (parseLoop lines acc)).
Proof.
  intros Hls. revert acc. induction Hls as [|line rest Hline _ IH]; intros acc Hacc; [done|].
  cbn [parseLoop]. apply trimmed_of_line in Hline as Ht.
  case_bool_decide as Hn; [done|].
  assert (Hb := starts_blank_trim line [CR; LF] Hn).
  set (trimmed := TrimRight line [CR; LF]) in *. clearbody trimmed.
  assert (Hnew : starts_blank line = false \/ acc = [] ->
    wf_headers (Headers (let '(name, value, found) := Cut trimmed COLON in
      if negb found then mkParsed (rev acc) (line ++ concat rest)
      else parseLoop rest (mkField name (TrimPrefix value [SP]) :: acc)))).
  { intros Hor. destruct (Cut trimmed COLON) as [[name val] found] eqn:E. destruct found; [|done].
    apply Cut_found in E as [-> Hcol]. cbn [negb]. apply IH. cbn [rev].
    apply wf_headers_snoc. split; [done|]. repeat split; cbn [Name Value].
    - done.
    - destruct Ht as [Ht _]. set_solver.
    - intros Hfirst. bools. destruct Hor as [Hor| ->]; [|done]. rewrite <- Hb in Hor.
      by destruct name.
    - apply clean_wf_value. destruct (TrimPrefix_suffix val [SP]) as [k Ek].
      rewrite Ek in Ht. rewrite app_comm_cons, app_assoc in Ht. by apply clean_suffix in Ht. }
  destruct (starts_blank line) eqn:Esb; [|by apply Hnew; left].
  destruct acc as [|f acc]; [by apply Hnew; right|]. clear Hnew.
  apply IH. cbn [rev] in *. apply wf_headers_snoc in Hacc as [Hacc (H1 & H2 & H3 & H4)].
  apply wf_headers_snoc. split; [done|]. repeat split; cbn [Name Value]; [done..|].
  by apply wf_value_snoc.
Qed.

Lemma parseMessage_wf data m : parseMessage data = Ok m -> wf_headers (Headers m).
Proof. intros [= <-]. by apply parseLoop_wf; [apply split_lines_are_lines|]. Qed.

(** ** A header block and what follows it *)

Lemma split_lines_block k b : split_lines ((k ++ [LF]) ++ b) = split_lines (k ++ [LF]) ++ split_lines b.
Proof.
  induction k as [|c k IH]; [cbn; by rewrite bool_decide_eq_true_2|]. cbn [app split_lines] in *.
  case_bool_decide; [by rewrite IH|]. rewrite IH.
  destruct (split_lines (k ++ [LF])) as [|l ls] eqn:E; [|done].
  pose proof (concat_split_lines (k ++ [LF])) as Ec. rewrite E in Ec. symmetry in Ec. by apply app_nil in Ec as [_ ?].
Qed.

(** What follows the blank line that ends the headers is body. *)
Lemma parseLoop_app ls rest : forall acc, Exists (λ l, TrimRight l [CR; LF] = []) ls ->
  parseLoop (ls ++ rest) acc =
    mkParsed (Headers (parseLoop ls acc)) (Body (parseLoop ls acc) ++ concat rest).
Proof.
  induction ls as [|line ls IH]; intros acc Hex; [by apply Exists_nil in Hex|].
  cbn [app parseLoop]. case_bool_decide as Hn; [by rewrite concat_app|].
  apply Exists_cons in Hex as [?|Hex]; [done|].
  assert (Hcut : (let '(name, value, found) := Cut (TrimRight line [CR; LF]) COLON in
      if negb found then mkParsed (rev acc) (line ++ concat (ls ++ rest))
      else parseLoop (ls ++ rest) (mkField name (TrimPrefix value [SP]) :: acc)) =
    let p := (let '(name, value, found) := Cut (TrimRight line [CR; LF]) COLON in
      if negb found then mkParsed (rev acc) (line ++ concat ls)
      else parseLoop ls (mkField name (TrimPrefix value [SP]) :: acc)) in mkParsed (Headers p) (Body p ++ concat rest)).
  { destruct (Cut _ _) as [[name value] []]; cbn [negb]; [by apply IH|]. cbn. by rewrite concat_app, app_assoc. }
  destruct (starts_blank line); [destruct acc as [|last acc]|]; [done|by apply IH|done].
Qed.

Lemma parseMessage_block k sep rest p :
  sep = CRLF ++ CRLF \/ sep = [LF; LF] -> parseMessage (k ++ sep) = Ok p ->
  parseMessage ((k ++ sep) ++ rest) = Ok (mkParsed (Headers p) (Body p ++ rest)).
Proof.
  intros Hsep [= <-]. unfold parseMessage. f_equal.
  assert (Hk : exists k', k ++ sep = k' ++ [LF] /\ Exists (λ l, TrimRight l [CR; LF] = []) (split_lines (k ++ sep))).
  { destruct Hsep as [->| ->].
    - exists (k ++ CRLF ++ [CR]). split; [by rewrite <- !app_assoc|].
      replace (k ++ CRLF ++ CRLF) with (((k ++ [CR]) ++ [LF]) ++ CRLF) by by rewrite <- !app_assoc.
      rewrite split_lines_block. apply Exists_app. right. apply Exists_exists. exists CRLF. split; [by left|done].
    - exists (k ++ [LF]). split; [by rewrite <- app_assoc|].
      replace (k ++ [LF; LF]) with ((k ++ [LF]) ++ [LF]) by by rewrite <- app_assoc.
      rewrite split_lines_block. apply Exists_app. right. apply Exists_exists. exists [LF]. split; [by left|done]. }
  destruct Hk as (k' & Ek & Hex). rewrite Ek in *. rewrite split_lines_block, parseLoop_app by done.
  by rewrite concat_split_lines.
Qed.

(** ** Properties *)

Section Reference.
Context `{Unicode}.

(** The positions of the fields with a given name, in order. *)
Fixpoint named_at (i : nat) (hs : list headerField) (name : bytes) : list nat :=
  match hs with
  | [] => []
  | h :: hs' => if EqualFold (Name h) name then i :: named_at (S i) hs' name else named_at (S i) hs' name
  end.

(** What SMFIR_CHGHEADER means: edit the [index]-th field of that name, or add
    one when there is none. *)
Definition changeHeader_spec (m : parsedMessage) (index : Z) (name value : bytes) : parsedMessage :=
  match (if (1 <=? index)%Z then named_at 0 (Headers m) name !! Z.to_nat (index - 1) else None) with
  | Some i =>
      if value =b [] then mkParsed (delete i (Headers m)) (Body m)
      else mkParsed (alter (λ h, mkField (Name h) value) i (Headers m)) (Body m)
  | None => if value =b [] then m else addHeader m name value
  end.

Lemma named_at_S i hs name : named_at (S i) hs name = S <$> named_at i hs name.
Proof.
  revert i. induction hs as [|h hs IH]; intros i; simpl; [done|].
  case_match; [|apply IH]. by rewrite IH.
Qed.

Lemma changeLoop_spec hs seen index name value :
  changeLoop hs seen index name value =
  (if (seen + 1 <=? index)%Z then
     (λ i, if value =b [] then delete i hs else alter (λ h, mkField (Name h) value) i hs)
       <$> (named_at 0 hs name !! Z.to_nat (index - seen - 1))
   else None).
Proof.
  revert seen. induction hs as [|h hs IH]; intros seen; simpl; [by case_match|].
  rewrite named_at_S. destruct (EqualFold (Name h) name); simpl.
  - destruct (seen + 1 =? index)%Z eqn:E; simpl; bools.
    + rewrite (proj2 (Z.leb_le _ _)) by lia. replace (Z.to_nat (index - seen - 1)) with 0%nat by lia.
      simpl. by case_bool_decide.
    + rewrite IH. destruct (seen + 1 + 1 <=? index)%Z eqn:E2; bools.
      * rewrite (proj2 (Z.leb_le _ _)) by lia.
        replace (Z.to_nat (index - seen - 1)) with (S (Z.to_nat (index - (seen + 1) - 1))) by lia.
        simpl. rewrite list_lookup_fmap. destruct (_ !! _); simpl; [|done]. by case_bool_decide.
      * destruct (seen + 1 <=? index)%Z eqn:E3; bools; [lia|done].
  - rewrite IH. destruct (seen + 1 <=? index)%Z; [|done]. rewrite list_lookup_fmap. destruct (_ !! _); simpl; [|done].
    by case_bool_decide.
Qed.
End Reference.

(** C33: printing and parsing. Whatever bytes arrive, what was parsed of them
    prints to bytes that parse back to the same fields, in order, folded values
    included, and the same body. For a message put together otherwise (a filter
    supplies names and values that nothing checks) this holds exactly when its
    header is well formed: no name has a colon or a line feed, no name but the
    first starts with a blank, and a value has line breaks only as foldings. *)
Theorem message_round_trips_exactly (m : parsedMessage) :
  (parseMessage (Bytes m) = Ok m <-> wf_headers (Headers m)) /\
  (forall data, parseMessage data = Ok m -> parseMessage (Bytes m) = Ok m).
Proof.
  split; [split; [apply parseMessage_wf|apply parse_Bytes]|].
  intros data Hm. by apply parse_Bytes, (parseMessage_wf data).
Qed.

(** A header a filter adds whose value holds a line break is written as it is,
    and reads back as two fields. *)
Theorem line_break_in_value_adds_a_field :
  let m := addHeader (mkParsed [mkField (lit "From") (lit "a@x.test")] (lit "body")) (lit "X-Note") (lit "ok" ++ CRLF ++ lit "Bcc: b@y.test") in
  Headers <$> (match parseMessage (Bytes m) with Ok p => Some p | Err _ => None end) =
    Some [mkField (lit "From") (lit "a@x.test"); mkField (lit "X-Note") (lit "ok"); mkField (lit "Bcc") (lit "b@y.test")].
Proof. vm_compute. reflexivity. Qed.

(** [changeHeader] edits exactly the header the milter protocol designates:
    the [index]-th one whose name matches up to case (deleted when the new value
    is empty), every other field untouched; with no such header a non-empty
    value is appended and an empty one changes nothing. *)
Theorem changeHeader_edits_the_indexth `{Unicode} (m : parsedMessage) (index : Z) (name value : bytes) :
  changeHeader m index name value = changeHeader_spec m index name value.
Proof.
  unfold changeHeader, changeHeader_spec. rewrite changeLoop_spec.
  replace (index - 0 - 1)%Z with (index - 1)%Z by lia. change (0 + 1)%Z with 1%Z.
  destruct (1 <=? index)%Z; [destruct (_ !! _)|]; simpl; by repeat case_bool_decide.
Qed.

(** ** Witnesses *)

Definition demo_message : parsedMessage :=
  mkParsed [mkField (lit "From") (lit "a@x.test"); mkField (lit "Subject") (lit "two" ++ CRLF ++ lit " lines")]
    (lit "body").

Lemma demo_message_wf : wf_headers (Headers demo_message).
Proof.
  assert (Hc : forall v, bool_decide (LF ∉ v) = true -> TrimRight v [CR; LF] = v -> clean v).
  { intros v Hv Ht. split; [by apply bool_decide_eq_true in Hv|done]. }
  split; [|apply Forall_cons; split; [|constructor]];
    (split; [by apply (bool_decide_unpack _); vm_compute|]);
    (split; [by apply (bool_decide_unpack _); vm_compute|]); (split; [done|]).
  - exists (lit "a@x.test"), []. split; [done|]. split; [by apply Hc; vm_compute|constructor].
  - exists (lit "two"), [lit " lines"]. split; [done|]. split; [by apply Hc; vm_compute|].
    apply Forall_cons. split; [|constructor]. split; [by apply Hc; vm_compute|done].
Qed.

Lemma print_parse_witness :
  parseMessage (lit "From: a@x.test" ++ CRLF ++ lit "Subject: two" ++ CRLF ++ lit " lines" ++ CRLF ++ CRLF ++ lit "body")
  = Ok demo_message.
Proof. apply (proj1 (message_round_trips_exactly demo_message)). exact demo_message_wf. Defined.
