(* ===== verification/Metrics.v ===== *)
(** * Metrics: the dataplane's instrumentation

    Models [src/internal/gateway/metrics.go]: the counters and gauges as maps
    from label values to numbers, one operation per recording method, and the
    bearer check in front of the endpoint; its HTTP server is in [Process]. A nil [*Metrics] records nothing: the
    operations act on [option Metrics]. Prometheus counters are float64; the
    model counts in [Z], which agrees below 2^53. *)

From S2P Require Import Prelude Unicode GoStrings.

Module Metrics.

(** Message outcomes. *)
Definition ResultRelayed : bytes := lit "relayed".
Definition ResultRejected : bytes := lit "rejected".
Definition ResultDiscarded : bytes := lit "discarded".
Definition ResultDeferred : bytes := lit "deferred".

(** Milter verdicts. *)
Definition decisionAccept : bytes := lit "accept".
Definition decisionReject : bytes := lit "reject".
Definition decisionDiscard : bytes := lit "discard".
Definition decisionUnavailable : bytes := lit "unavailable".

(** Rate limiting outcomes. *)
Definition rateLimitAllowed : bytes := lit "allowed".
Definition rateLimitDenied : bytes := lit "denied".
Definition rateLimitError : bytes := lit "error".

(** DKIM outcomes. *)
Definition dkimSigned : bytes := lit "signed".
Definition dkimRefused : bytes := lit "refused".
Definition dkimFailed : bytes := lit "failed".

Definition unknownAccount : bytes := lit "<unknown>".

Record Metrics := mkMetrics {
  messages : gmap (bytes * bytes) Z;
  messagesSpooled : gmap bytes Z;
  messageBytes : gmap bytes Z;
  authFailures : gmap bytes Z;
  milterDecisions : gmap (bytes * bytes) Z;
  dkimSignatures : gmap (bytes * bytes) Z;
  rateLimit : gmap (bytes * bytes) Z;
  upstreamDelivery : Z;  (* observations of the histogram *)
  configReloads : gmap bytes Z;
  accounts : Z;
  accountsRejected : Z
}.

Definition NewMetrics : Metrics := mkMetrics ∅ ∅ ∅ ∅ ∅ ∅ ∅ 0 ∅ 0 0.

(** [WithLabelValues(k).Add(n)]: the series is created at zero when missing. *)
Definition add_to {K} `{Countable K} (k : K) (n : Z) (m : gmap K Z) : gmap K Z :=
  <[k := (default 0 (m !! k) + n)%Z]> m.

Definition inc {K} `{Countable K} (k : K) (m : gmap K Z) : gmap K Z := add_to k 1 m.

Definition messageHandled (account result : bytes) (o : option Metrics) : option Metrics :=
  (λ m, mkMetrics (inc (account, result) (messages m)) (messagesSpooled m) (messageBytes m)
    (authFailures m) (milterDecisions m) (dkimSignatures m) (rateLimit m) (upstreamDelivery m)
    (configReloads m) (accounts m) (accountsRejected m)) <$> o.

Definition messageSpooled (account : bytes) (o : option Metrics) : option Metrics :=
  (λ m, mkMetrics (messages m) (inc account (messagesSpooled m)) (messageBytes m)
    (authFailures m) (milterDecisions m) (dkimSignatures m) (rateLimit m) (upstreamDelivery m)
    (configReloads m) (accounts m) (accountsRejected m)) <$> o.

Definition messageRelayed (account : bytes) (n : Z) (o : option Metrics) : option Metrics :=
  (λ m, mkMetrics (inc (account, ResultRelayed) (messages m)) (messagesSpooled m)
    (add_to account n (messageBytes m))
    (authFailures m) (milterDecisions m) (dkimSignatures m) (rateLimit m) (upstreamDelivery m)
    (configReloads m) (accounts m) (accountsRejected m)) <$> o.

Definition authFailed (account : bytes) (o : option Metrics) : option Metrics :=
  (λ m, mkMetrics (messages m) (messagesSpooled m) (messageBytes m)
    (inc account (authFailures m)) (milterDecisions m) (dkimSignatures m) (rateLimit m)
    (upstreamDelivery m) (configReloads m) (accounts m) (accountsRejected m)) <$> o.

Definition milterDecided (milter decision : bytes) (o : option Metrics) : option Metrics :=
  (λ m, mkMetrics (messages m) (messagesSpooled m) (messageBytes m) (authFailures m)
    (inc (milter, decision) (milterDecisions m)) (dkimSignatures m) (rateLimit m)
    (upstreamDelivery m) (configReloads m) (accounts m) (accountsRejected m)) <$> o.

Definition dkimResult (domain result : bytes) (o : option Metrics) : option Metrics :=
  (λ m, mkMetrics (messages m) (messagesSpooled m) (messageBytes m) (authFailures m)
    (milterDecisions m) (inc (domain, result) (dkimSignatures m)) (rateLimit m)
    (upstreamDelivery m) (configReloads m) (accounts m) (accountsRejected m)) <$> o.

Definition rateLimitDecided (account decision : bytes) (o : option Metrics) : option Metrics :=
  (λ m, mkMetrics (messages m) (messagesSpooled m) (messageBytes m) (authFailures m)
    (milterDecisions m) (dkimSignatures m) (inc (account, decision) (rateLimit m))
    (upstreamDelivery m) (configReloads m) (accounts m) (accountsRejected m)) <$> o.

Definition upstreamDelivered (o : option Metrics) : option Metrics :=
  (λ m, mkMetrics (messages m) (messagesSpooled m) (messageBytes m) (authFailures m)
    (milterDecisions m) (dkimSignatures m) (rateLimit m)
    (upstreamDelivery m + 1)%Z (configReloads m) (accounts m) (accountsRejected m)) <$> o.

(** A refused reload counts itself and leaves the gauges describing what is
    being served. *)
Definition configReloaded (result : bytes) (served rejected : Z) (o : option Metrics)
    : option Metrics :=
  (λ m,
    let reloads := inc result (configReloads m) in
    let '(a, r) := if result <>b lit "success" then (accounts m, accountsRejected m)
                   else (served, rejected) in
    mkMetrics (messages m) (messagesSpooled m) (messageBytes m) (authFailures m)
      (milterDecisions m) (dkimSignatures m) (rateLimit m) (upstreamDelivery m)
      reloads a r) <$> o.

Section Bearer.
Context `{Unicode}.

(** [requireBearer]: is the request served? [authorization] is the request's
    Authorization header, empty when absent; [token] is [None] for a nil
    function. *)
Definition requireBearer (token : option bytes) (authorization : bytes) : bool :=
  let want := default [] token in
  if want =b [] then true
  else
    let '(scheme, got, found) := Cut authorization SP in
    let got := if negb found || negb (EqualFold scheme (lit "Bearer")) then [] else got in
    got =b want.
End Bearer.

End Metrics.

(** ** Properties *)

(** With a token configured the metrics endpoint serves a request exactly
    when it carries that token under the Bearer scheme, in any case; a bare
    token, another scheme or no header at all is refused. *)
Theorem requireBearer_exact `{Unicode} (token authorization : bytes) :
  token <> [] ->
  Metrics.requireBearer (Some token) authorization = true <->
  exists scheme, (SP ∉ scheme) /\ EqualFold scheme (lit "Bearer") = true /\
    authorization = scheme ++ SP :: token.
Proof.
  intros Ht. unfold Metrics.requireBearer. simpl default.
  rewrite bool_decide_eq_false_2 by done.
  destruct (Cut authorization SP) as [[scheme got] [|]] eqn:E; cbn [negb orb].
  - apply Cut_found in E as [-> Hs]. destruct (EqualFold scheme _) eqn:Ef; cbn [negb].
    + rewrite bool_decide_eq_true. split; [intros ->; eauto|].
      intros (scheme' & Hs' & _ & E2%(f_equal (λ s, Cut s SP))). simpl in E2.
      rewrite !Cut_at in E2 by done. congruence.
    + rewrite bool_decide_eq_true. split; [congruence|].
      intros (scheme' & Hs' & Hf & E2%(f_equal (λ s, Cut s SP))). simpl in E2.
      rewrite !Cut_at in E2 by done. congruence.
  - apply Cut_not_found in E as (_ & _ & Hn). rewrite bool_decide_eq_true.
    split; [congruence|]. intros (scheme' & _ & _ & ->). set_solver.
Qed.

Lemma requireBearer_exact_witness :
  Metrics.requireBearer (Some (lit "s3cret")) (lit "bearer s3cret") = true /\
  lit "s3cret" <> [].
Proof.
  split; [|done]. apply (requireBearer_exact (lit "s3cret") (lit "bearer s3cret")); [done|].
  exists (lit "bearer"). split; [by vm_compute; set_solver|]. split; by vm_compute.
Defined.
