(* ===== verification/World.v ===== *)
(** * World: effects

    The program's effects (files, the clock, milters, the upstream server, the
    quota store) as a state monad over a [World]. What the outside answers is
    not computed here: each outside party is a class of functions of the call's
    position ([tick]) and arguments, so a theorem that quantifies over the
    instance holds for every behaviour, failures included. What the program has
    made visible outside is recorded in the world: the commands sent upstream,
    the increments the quota store confirmed, the connections closed. *)

From S2P Require Import Prelude Unicode GoStrings Metrics.

(** What the upstream server has agreed to, in order: the commands it answered
    favourably, the body it was sent, and whether it accepted the message. *)
Inductive upEvent :=
| UpDial (addr : bytes)
| UpStartTLS
| UpHello (name : bytes)
| UpAuth (username password : bytes)
| UpMail (from : bytes)
| UpRcpt (to : bytes)
| UpData
| UpBody (body : bytes)
| UpAccepted.

Record World := mkWorld {
  tick : nat;                      (* calls to the outside made so far *)
  sent : list upEvent;             (* oldest first *)
  metrics : option Metrics.Metrics;
  counted : list (bytes * Z);      (* confirmed quota increments *)
  nextClient : nat;                (* quota store connections opened so far *)
  closedClients : gset nat
}.

(** A computation that may call the outside. *)
Definition IO (A : Type) : Type := World -> A * World.

Definition ret {A} (a : A) : IO A := λ w, (a, w).
Definition bind {A B} (c : IO A) (k : A -> IO B) : IO B := λ w, let '(a, w') := c w in k a w'.

Declare Scope io_scope.
Delimit Scope io_scope with io.
Notation "'let!' x ':=' c 'in' k" := (bind c (λ x, k))
  (at level 10, x pattern, c at level 100, k at level 200) : io_scope.
Notation "c ';;' k" := (bind c (λ _, k)) (at level 100, k at level 200) : io_scope.
#[global] Open Scope io_scope.

(** The number of the next call to the outside. *)
Definition next : IO nat :=
  λ w, (tick w, mkWorld (S (tick w)) (sent w) (metrics w) (counted w) (nextClient w) (closedClients w)).

Definition say (e : upEvent) : IO unit :=
  λ w, (tt, mkWorld (tick w) (sent w ++ [e]) (metrics w) (counted w) (nextClient w) (closedClients w)).

Definition record (f : option Metrics.Metrics -> option Metrics.Metrics) : IO unit :=
  λ w, (tt, mkWorld (tick w) (sent w) (f (metrics w)) (counted w) (nextClient w) (closedClients w)).

Definition count (key : bytes) (by_ : Z) : IO unit :=
  λ w, (tt, mkWorld (tick w) (sent w) (metrics w) (counted w ++ [(key, by_)]) (nextClient w) (closedClients w)).

Definition openClient : IO nat :=
  λ w, (nextClient w, mkWorld (tick w) (sent w) (metrics w) (counted w) (S (nextClient w)) (closedClients w)).

Definition closeClient (c : nat) : IO unit :=
  λ w, (tt, mkWorld (tick w) (sent w) (metrics w) (counted w) (nextClient w) ({[c]} ∪ closedClients w)).

Definition get {A} (f : World -> A) : IO A := λ w, (f w, w).

(** ** The operating system *)

Inductive syscall :=
| SysCreateTemp (dir : bytes)
| SysRemove
| SysWrite (p : bytes)
| SysSeek (offset : Z)
| SysTruncate
| SysRead
| SysClose.

(** A call succeeds, or fails after transferring some bytes. *)
Inductive outcome :=
| SysOk
| SysFail (transferred : nat) (err : goerror).

Class Kernel := {
  sys : nat -> syscall -> outcome;
  clock : nat -> Z  (* Unix seconds *)
}.

Definition syscall_ `{Kernel} (c : syscall) : IO outcome :=
  let! t := next in ret (sys t c).

Definition now `{Kernel} : IO Z := let! t := next in ret (clock t).

(** The kernel of an uneventful run. *)
Definition kernel_ok : Kernel := {| sys := λ _ _, SysOk; clock := λ _, 0%Z |}.

Definition world0 : World := mkWorld 0 [] (Some Metrics.NewMetrics) [] 0 ∅.

(** ** Reasoning *)

(** Run a computation symbolically. *)
Ltac run_io := unfold bind, ret, get, record, say, count, next, openClient, closeClient,
  syscall_, now in *; simpl in *.

(** A computation that neither speaks upstream nor counts: it may consume
    ticks, record metrics, open or close connections. *)
Definition quiet {A} (c : IO A) : Prop :=
  forall w, sent (c w).2 = sent w /\ counted (c w).2 = counted w.

Lemma quiet_ret {A} (a : A) : quiet (ret a).
Proof. done. Qed.

Lemma quiet_bind {A B} (c : IO A) (k : A -> IO B) :
  quiet c -> (forall a, quiet (k a)) -> quiet (bind c k).
Proof.
  intros Hc Hk w. unfold bind. specialize (Hc w). destruct (c w) as [a w'] eqn:E. simpl in *.
  destruct (Hk a w') as [-> ->]. done.
Qed.

Lemma quiet_next : quiet next.
Proof. done. Qed.
Lemma quiet_record f : quiet (record f).
Proof. done. Qed.
Lemma quiet_get {A} (f : World -> A) : quiet (get f).
Proof. done. Qed.
Lemma quiet_syscall `{Kernel} c : quiet (syscall_ c).
Proof. done. Qed.
Lemma quiet_now `{Kernel} : quiet now.
Proof. done. Qed.
Lemma quiet_openClient : quiet openClient.
Proof. done. Qed.
Lemma quiet_closeClient c : quiet (closeClient c).
Proof. done. Qed.

#[export] Hint Resolve quiet_ret quiet_next quiet_record quiet_get quiet_syscall quiet_now
  quiet_openClient quiet_closeClient : mailout.

(** Prove [quiet] of a computation by following its structure. *)
Ltac quiet_tac :=
  repeat first
    [ solve [auto with mailout]
    | apply quiet_bind; [|intros]
    | progress intros
    | case_match ].

(** Time goes forward: each call to the outside has a moment of its own. *)
Definition forward {A} (c : IO A) : Prop := forall w, (tick w <= tick (c w).2)%nat.

Lemma forward_ret {A} (a : A) : forward (ret a).
Proof. by intros w. Qed.
Lemma forward_bind {A B} (c : IO A) (k : A -> IO B) :
  forward c -> (forall a, forward (k a)) -> forward (bind c k).
Proof.
  intros Hc Hk w. unfold bind. specialize (Hc w). destruct (c w) as [a w']. cbn in *. specialize (Hk a w'). lia.
Qed.
Lemma forward_next : forward next.
Proof. intros w. cbn. lia. Qed.
Lemma forward_syscall `{Kernel} c : forward (syscall_ c).
Proof. intros w. cbn. lia. Qed.
#[export] Hint Resolve forward_ret forward_next forward_syscall : mailout.

Ltac forward_tac :=
  repeat first
    [ solve [auto with mailout]
    | apply forward_bind; [|intros]
    | progress intros
    | case_match ].

(** A computation whose result satisfies a property whatever the outside does. *)
Definition yields {A} (P : A -> Prop) (c : IO A) : Prop := forall w, P (c w).1.

Lemma yields_ret {A} (P : A -> Prop) a : P a -> yields P (ret a).
Proof. by intros ? ?. Qed.

Lemma yields_bind {A B} (P : B -> Prop) (c : IO A) (k : A -> IO B) :
  (forall a, yields P (k a)) -> yields P (bind c k).
Proof. intros Hk w. unfold bind. destruct (c w) as [a w']. apply Hk. Qed.

(** Prove [yields] by following the structure of a computation. *)
Ltac yields_tac :=
  repeat first
    [ apply yields_ret
    | apply yields_bind; intros
    | case_match ].
