(* ===== verification/Spool.v ===== *)
(** * Spool: where a message body lives during its transaction

    Models [src/internal/gateway/spool.go]: a body kept in memory up to a
    threshold and moved to an unlinked file past it. The file is modelled with
    its offset, because the program reads and writes through the same
    descriptor. Every system call can fail, and a failing write may have
    transferred part of its data. *)

From S2P Require Import Prelude Unicode GoStrings Metrics World.

#[local] Open Scope Z_scope.

Module Spool.

(** An open file: its content and the descriptor's offset. *)
Record file := mkFile { fdata : bytes; fpos : Z }.

Record spool := mkSpool {
  dir : bytes;
  threshold : Z;
  buf : bytes;
  sfile : option file;
  n : Z
}.

(** [&spool{dir: dir, threshold: threshold}]. *)
Definition newSpool (dir : bytes) (threshold : Z) : spool := mkSpool dir threshold [] None 0.

Definition spoolFilePrefix : bytes := lit "mailout-body-".

(** [os.TempDir] with no TMPDIR set. *)
Definition TempDir : bytes := lit "/tmp".

Definition spoolDir (s : spool) : bytes := if dir s =b [] then TempDir else dir s.

Definition sibling (s : spool) : spool := newSpool (dir s) (threshold s).
Definition spooled (s : spool) : bool := match sfile s with Some _ => true | None => false end.
Definition Len (s : spool) : Z := n s.

(** [os.File.Write]: bytes go at the offset, which advances. *)
Definition file_write (f : file) (p : bytes) : file :=
  mkFile (ztake (fpos f) (fdata f) ++ p ++ zdrop (fpos f + zlen p) (fdata f)) (fpos f + zlen p).
Arguments file_write : simpl never.

Section Ops.
Context `{Kernel}.

(** Move what is buffered to a fresh, already unlinked file. *)
Definition overflow (s : spool) : IO (option goerror * spool) :=
  let! o := syscall_ (SysCreateTemp (dir s)) in
  match o with
  | SysFail _ e => ret (Some (EWrap (lit "spool to " ++ spoolDir s) e), s)
  | SysOk =>
      let! o := syscall_ SysRemove in
      match o with
      | SysFail _ e => syscall_ SysClose ;; ret (Some (EWrap (lit "unlink spool file") e), s)
      | SysOk =>
          let! o := syscall_ (SysWrite (buf s)) in
          match o with
          | SysFail _ e => syscall_ SysClose ;; ret (Some (EWrap (lit "move body to spool") e), s)
          | SysOk => ret (None, mkSpool (dir s) (threshold s) [] (Some (mkFile (buf s) (zlen (buf s)))) (n s))
          end
      end
  end.

(** The second half of [Write]: append to the file or to the buffer. *)
Definition append (s : spool) (p : bytes) : IO (Z * option goerror * spool) :=
  match sfile s with
  | Some f =>
      let! o := syscall_ (SysWrite p) in
      match o with
      | SysOk => ret (zlen p, None, mkSpool (dir s) (threshold s) (buf s) (Some (file_write f p)) (n s + zlen p))
      | SysFail k e =>
          let q := take k p in
          ret (zlen q, Some e, mkSpool (dir s) (threshold s) (buf s) (Some (file_write f q)) (n s + zlen q))
      end
  | None => ret (zlen p, None, mkSpool (dir s) (threshold s) (buf s ++ p) None (n s + zlen p))
  end.

Definition Write (s : spool) (p : bytes) : IO (Z * option goerror * spool) :=
  match sfile s with
  | None =>
      if (threshold s <? n s + zlen p) then
        let! (err, s') := overflow s in
        match err with
        | Some e => ret (0, Some e, s')
        | None => append s' p
        end
      else append s p
  | Some _ => append s p
  end.

(** A reader over a spool: a slice of the buffer, or the file from its current
    offset. *)
Inductive reader := RBuf (b : bytes) | RFile.

Definition seek (s : spool) (offset : Z) : spool :=
  mkSpool (dir s) (threshold s) (buf s)
    ((λ f, mkFile (fdata f) offset) <$> sfile s) (n s).

Definition Reader (s : spool) : IO (result reader * spool) :=
  match sfile s with
  | None => ret (Ok (RBuf (buf s)), s)
  | Some _ =>
      let! o := syscall_ (SysSeek 0) in
      match o with
      | SysFail _ e => ret (Err (EWrap (lit "rewind spool") e), s)
      | SysOk => ret (Ok RFile, seek s 0)
      end
  end.

(** [offset] is non-negative at every call. *)
Definition ReaderAt (s : spool) (offset : Z) : IO (result reader * spool) :=
  let offset := if (n s <? offset) then n s else offset in
  match sfile s with
  | None => ret (Ok (RBuf (zdrop offset (buf s))), s)
  | Some _ =>
      let! o := syscall_ (SysSeek offset) in
      match o with
      | SysFail _ e => ret (Err (EWrap (lit "seek spool") e), s)
      | SysOk => ret (Ok RFile, seek s offset)
      end
  end.

(** [io.ReadAll], or [io.ReadAll(io.LimitReader(r, limit))]: what is read, the
    error reading stopped at if any, and the spool with its offset advanced. *)
Definition readUpTo (s : spool) (r : reader) (limit : option Z) : IO (bytes * option goerror * spool) :=
  let cut (b : bytes) := match limit with Some l => ztake l b | None => b end in
  match r, sfile s with
  | RBuf b, _ => ret (cut b, None, s)
  | RFile, None => ret ([], Some (EText (lit "file already closed")), s)
  | RFile, Some f =>
      let rest := cut (zdrop (fpos f) (fdata f)) in
      let! o := syscall_ SysRead in
      match o with
      | SysOk => ret (rest, None, seek s (fpos f + zlen rest))
      | SysFail k e => ret (take k rest, Some e, seek s (fpos f + zlen (take k rest)))
      end
  end.

Definition Bytes (s : spool) : IO (result bytes * spool) :=
  match sfile s with
  | None => ret (Ok (buf s), s)
  | Some _ =>
      let! (r, s) := Reader s in
      match r with
      | Err e => ret (Err e, s)
      | Ok r =>
          let! (b, err, s) := readUpTo s r None in
          ret (match err with Some e => Err e | None => Ok b end, s)
      end
  end.

Definition maxHeaderBytes : Z := 1024 * 1024.

(** The header block and whether its end was found within [maxHeaderBytes]. *)
Definition findBlock (block : bytes) : bytes * bool :=
  match Index block (CRLF ++ CRLF) with
  | Some i => (take (i + 4) block, true)
  | None =>
      match Index block [LF; LF] with
      | Some i => (take (i + 2) block, true)
      | None => (block, false)
      end
  end.

Definition headerBlock (s : spool) : IO (result (bytes * bool) * spool) :=
  let! (r, s) := Reader s in
  match r with
  | Err e => ret (Err e, s)
  | Ok r =>
      let! (block, err, s) := readUpTo s r (Some maxHeaderBytes) in
      match err with
      | Some e => ret (Err e, s)
      | None => ret (Ok (findBlock block), s)
      end
  end.

(** Replace the body, keeping the same storage decision. *)
Definition Reset (s : spool) (data : bytes) : IO (option goerror * spool) :=
  match sfile s with
  | Some _ =>
      let! o := syscall_ SysTruncate in
      match o with
      | SysFail _ e => ret (Some (EWrap (lit "truncate spool") e), s)
      | SysOk =>
          let s := mkSpool (dir s) (threshold s) (buf s) ((λ f, mkFile [] (fpos f)) <$> sfile s) (n s) in
          let! o := syscall_ (SysSeek 0) in
          match o with
          | SysFail _ e => ret (Some (EWrap (lit "rewind spool") e), s)
          | SysOk =>
              let s := seek s 0 in
              let! (_, err, s) := Write (mkSpool (dir s) (threshold s) (buf s) (sfile s) 0) data in
              ret (err, s)
          end
      end
  | None =>
      let! (_, err, s) := Write (mkSpool (dir s) (threshold s) [] None 0) data in
      ret (err, s)
  end.

Definition Close (s : spool) : IO (option goerror * spool) :=
  let s := mkSpool (dir s) (threshold s) [] (sfile s) (n s) in
  match sfile s with
  | None => ret (None, s)
  | Some _ =>
      let! o := syscall_ SysClose in
      ret (match o with SysOk => None | SysFail _ e => Some e end,
           mkSpool (dir s) (threshold s) [] None (n s))
  end.

(** ** [io.Copy] into a spool *)

(** The writes of [io.Copy], one per chunk read, up to the first error. *)
Fixpoint copyChunks (dst : spool) (chunks : list bytes) : IO (option goerror * spool) :=
  match chunks with
  | [] => ret (None, dst)
  | p :: ps =>
      let! (_, err, dst) := Write dst p in
      match err with
      | Some e => ret (Some e, dst)
      | None => copyChunks dst ps
      end
  end.

(** [io.Copy] reads a file 32 KiB at a time. *)
Fixpoint chunksOf (fuel : nat) (b : bytes) : list bytes :=
  match fuel, b with
  | S fuel, _ :: _ => ztake 32768 b :: chunksOf fuel (zdrop 32768 b)
  | _, _ => []
  end.

Definition chunks (b : bytes) : list bytes := chunksOf (length b) b.

(** [io.Copy(dst, r)] where [r] reads [src]. *)
Definition copySpool (dst src : spool) (r : reader) : IO (option goerror * spool * spool) :=
  match r with
  | RBuf [] => ret (None, dst, src)
  | RBuf b =>
      let! (_, err, dst) := Write dst b in ret (err, dst, src)
  | RFile =>
      let! (b, rerr, src) := readUpTo src RFile None in
      let! (werr, dst) := copyChunks dst (chunks b) in
      ret (match werr with Some e => Some e | None => rerr end, dst, src)
  end.

(** [probeSpool]: a file can be created in the directory and removed. *)
Definition probeSpool (d : bytes) : IO (option goerror) :=
  let! o := syscall_ (SysCreateTemp d) in
  match o with
  | SysFail _ e =>
      ret (Some (EWrap (lit "spool directory " ++ (if d =b [] then TempDir else d) ++
                        lit " is not writable") e))
  | SysOk =>
      syscall_ SysClose ;;
      let! o := syscall_ SysRemove in
      ret (match o with SysOk => None | SysFail _ e => Some e end)
  end.

End Ops.

(** ** Sweeping the spool directory at startup *)

Record dirEntry := mkEntry { entryName : bytes; isDir : bool }.

(** What [SweepSpool] leaves in the directory; [removable] says whether
    [os.Remove] of a name succeeds. *)
Definition SweepSpool (removable : bytes -> bool) (listing : list dirEntry) : list dirEntry :=
  List.filter (λ e,
    if isDir e || negb (HasPrefix (entryName e) spoolFilePrefix) then true
    else negb (removable (entryName e))) listing.

End Spool.
Import Spool.

(** ** The abstract body *)

(** A spool stands for the bytes written to it, wherever they are stored. *)
Definition contents (s : spool) : bytes :=
  match sfile s with Some f => fdata f | None => buf s end.

(** While it is being written: the length is right, the heap holds at most the
    threshold, and a spooled body is entirely in the file, at its end. *)
Definition spool_inv (s : spool) : Prop :=
  n s = zlen (contents s) /\
  match sfile s with
  | Some f => buf s = [] /\ fpos f = zlen (fdata f)
  | None => zlen (buf s) <= Z.max 0 (threshold s)
  end.

(** Once written, readers move the offset, but neither the content nor where it
    is stored. *)
Definition same_body (s s' : spool) : Prop :=
  contents s' = contents s /\ n s' = n s /\ dir s' = dir s /\ threshold s' = threshold s /\
  spooled s' = spooled s.

Lemma same_body_refl s : same_body s s.
Proof. done. Qed.

Lemma same_body_trans s1 s2 s3 : same_body s1 s2 -> same_body s2 s3 -> same_body s1 s3.
Proof. unfold same_body. intuition congruence. Qed.

#[export] Hint Resolve same_body_refl same_body_trans : mailout.

Lemma same_body_seek s k : same_body s (seek s k).
Proof. unfold same_body, contents, spooled, seek. by destruct (sfile s). Qed.
#[export] Hint Resolve same_body_seek : mailout.

(** A kernel whose calls all succeed. *)
Definition reliable (K : Kernel) : Prop := forall t c, @sys K t c = SysOk.

Lemma kernel_ok_reliable : reliable kernel_ok.
Proof. done. Qed.

Section Facts.
Context `{K : Kernel}.

Lemma file_write_append f p :
  fpos f = zlen (fdata f) -> file_write f p = mkFile (fdata f ++ p) (zlen (fdata f ++ p)).
Proof.
  intros E. unfold file_write. rewrite E, zlen_app. f_equal.
  rewrite ztake_ge by lia. pose proof (zlen_nonneg p).
  rewrite zdrop_ge by lia. by rewrite app_nil_r.
Qed.

Lemma append_spec s p w :
  spool_inv s -> (sfile s = None -> zlen (buf s ++ p) <= Z.max 0 (threshold s)) ->
  exists wr err s' w' q, append s p w = (wr, err, s', w') /\
    spool_inv s' /\ dir s' = dir s /\ threshold s' = threshold s /\
    q `prefix_of` p /\ wr = zlen q /\ contents s' = contents s ++ q /\
    (err = None -> q = p) /\ (reliable K -> err = None).
Proof.
  intros [Hn Hi] Hth. unfold append, contents in *. destruct (sfile s) as [f|] eqn:Ef.
  - destruct Hi as [Hb Hp]. run_io. destruct (sys (tick w) (SysWrite p)) as [|k e] eqn:Es.
    + rewrite (file_write_append f p) by done.
      do 4 eexists. exists p. split; [done|]. unfold spool_inv, contents. simpl.
      rewrite Hn, zlen_app. by repeat split.
    + rewrite (file_write_append f (take k p)) by done.
      do 4 eexists. exists (take k p). split; [done|]. unfold spool_inv, contents. simpl.
      rewrite Hn, zlen_app.
      split_and!; try done; [apply prefix_take|].
      intros Hr. by rewrite Hr in Es.
  - run_io. do 4 eexists. exists p. split; [done|]. unfold spool_inv, contents. simpl.
    rewrite Hn. split_and!; try done; [by rewrite zlen_app|by apply Hth].
Qed.

(** Writing appends what it reports written, all of it unless it fails, and
    keeps the invariant in every case. *)
Lemma Write_spec s p w :
  spool_inv s ->
  exists wr err s' w' q, Write s p w = (wr, err, s', w') /\
    spool_inv s' /\ dir s' = dir s /\ threshold s' = threshold s /\
    q `prefix_of` p /\ wr = zlen q /\ contents s' = contents s ++ q /\
    (err = None -> q = p) /\ (reliable K -> err = None).
Proof.
  intros Hinv. unfold Write. destruct (sfile s) as [f|] eqn:Ef.
  { apply append_spec; [done|congruence]. }
  assert (Hinv' := Hinv). destruct Hinv' as [Hn Hi]. rewrite Ef in Hi. unfold contents in Hn. rewrite Ef in Hn.
  destruct (threshold s <? n s + zlen p) eqn:Eth; bools.
  2:{ apply append_spec; [done|]. intros _. rewrite zlen_app. lia. }
  assert (Hfail : forall (e : goerror) (w1 : World), (reliable K -> False) ->
    exists wr err s' (w' : World) q, (0, Some e, s, w1) = (wr, err, s', w') /\
    spool_inv s' /\ dir s' = dir s /\ threshold s' = threshold s /\
    q `prefix_of` p /\ wr = zlen q /\ contents s' = contents s ++ q /\
    (err = None -> q = p) /\ (reliable K -> err = None)).
  { intros e w1 Hr. do 4 eexists. exists []. rewrite app_nil_r.
    split_and!; try done; try apply prefix_nil; intros; exfalso; auto. }
  unfold overflow. run_io.
  destruct (sys (tick w) _) eqn:E1; [|apply Hfail; intros Hr; by rewrite Hr in E1].
  run_io. destruct (sys _ SysRemove) eqn:E2; [|apply Hfail; intros Hr; by rewrite Hr in E2].
  run_io. destruct (sys _ (SysWrite (buf s))) eqn:E3; [|apply Hfail; intros Hr; by rewrite Hr in E3].
  run_io. edestruct append_spec as (wr & err & s' & w' & q & -> & Hs); cycle 2.
  { exists wr, err, s', w', q. split; [done|]. simpl in Hs.
    unfold contents at 2 in Hs. simpl in Hs. unfold contents at 2. by rewrite Ef. }
  - unfold spool_inv, contents. simpl. done.
  - simpl. done.
Qed.

Lemma newSpool_inv d th : spool_inv (newSpool d th).
Proof. split; [done|]. unfold zlen. simpl. lia. Qed.

Lemma copyChunks_spec ps s w :
  spool_inv s ->
  exists err s' w' q, copyChunks s ps w = (err, s', w') /\
    spool_inv s' /\ dir s' = dir s /\ threshold s' = threshold s /\
    q `prefix_of` concat ps /\ contents s' = contents s ++ q /\
    (err = None -> q = concat ps) /\ (reliable K -> err = None).
Proof.
  revert s w. induction ps as [|p ps IH]; intros s w Hs; simpl.
  { do 3 eexists. exists []. rewrite app_nil_r. split; [done|]. by split_and!. }
  unfold bind. destruct (Write_spec s p w Hs) as
    (wr & err & s1 & w1 & q & -> & Hs1 & Hd & Ht & Hq & _ & Hc & Hok & Hr).
  destruct err as [e|].
  - do 3 eexists. exists q. split; [done|]. split_and!; try done.
    by apply prefix_app_r.
  - destruct (IH s1 w1 Hs1) as (err & s2 & w2 & q2 & -> & Hs2 & Hd2 & Ht2 & Hq2 & Hc2 & Hok2 & Hr2).
    rewrite (Hok eq_refl) in *. do 3 eexists. exists (p ++ q2). split; [done|].
    split_and!; [done|congruence|congruence|by apply prefix_app|by rewrite Hc2, Hc, app_assoc| |done].
    intros E. by rewrite (Hok2 E).
Qed.

Lemma concat_chunksOf fuel b : (length b <= fuel)%nat -> concat (chunksOf fuel b) = b.
Proof.
  revert b. induction fuel as [|fuel IH]; intros [|c b] Hb; cbn [chunksOf concat length] in *;
    try done; [lia|].
  rewrite IH; [apply ztake_zdrop|]. change (zdrop 32768 (c :: b)) with (zdrop 32767 b).
  pose proof (f_equal (@length _) (ztake_zdrop 32767 b)) as E. rewrite length_app in E. lia.
Qed.

Lemma concat_chunks b : concat (chunks b) = b.
Proof. by apply concat_chunksOf. Qed.

(** Reading back: every reader delivers the content from where it starts, or an
    error, and leaves the body as it was. *)
Lemma readUpTo_spec s r limit w :
  exists b err s' w', readUpTo s r limit w = (b, err, s', w') /\ same_body s s' /\
    (reliable K -> (r = RFile -> is_Some (sfile s)) -> err = None) /\
    (err = None ->
     let all := match r, sfile s with
                | RBuf b, _ => b
                | RFile, Some f => zdrop (fpos f) (fdata f)
                | RFile, None => []
                end in
     b = match limit with Some l => ztake l all | None => all end).
Proof.
  unfold readUpTo. destruct r as [b|]; [by do 4 eexists|].
  destruct (sfile s) as [f|] eqn:Ef; run_io.
  - destruct (sys (tick w) SysRead) as [|k e] eqn:Es; do 4 eexists; split; try done;
      (split; [auto with mailout|]); split; try done.
    intros Hr. by rewrite Hr in Es.
  - do 4 eexists. split; [done|]. split; [done|]. split; [|done].
    intros _ Hx. by destruct (Hx eq_refl).
Qed.

Lemma Reader_spec s w :
  exists r s' w', Reader s w = (r, s', w') /\ same_body s s' /\
    (reliable K -> exists rd, r = Ok rd) /\
    match r with
    | Ok (RBuf b) => b = contents s /\ sfile s' = None
    | Ok RFile => exists f, sfile s' = Some f /\ fdata f = contents s /\ fpos f = 0
    | Err _ => True
    end.
Proof.
  unfold Reader, contents. destruct (sfile s) as [f|] eqn:Ef; run_io.
  - destruct (sys (tick w) (SysSeek 0)) as [|k e] eqn:Es; do 3 eexists; split; try done.
    + split; [auto with mailout|]. split; [eauto|]. unfold seek. rewrite Ef. simpl. eauto.
    + split; [done|]. split; [|done]. intros Hr. by rewrite Hr in Es.
  - do 3 eexists. split; [done|]. split; [done|]. split; [eauto|]. done.
Qed.

Lemma zdrop_all {A} (l : list A) : zdrop 0 l = l.
Proof. by apply zdrop_nonpos. Qed.

Lemma headerBlock_spec s w :
  exists r s' w', headerBlock s w = (r, s', w') /\ same_body s s' /\
    (reliable K -> r = Ok (findBlock (ztake maxHeaderBytes (contents s)))) /\
    (sfile s = None -> r = Ok (findBlock (ztake maxHeaderBytes (contents s)))) /\
    (forall p, r = Ok p -> p = findBlock (ztake maxHeaderBytes (contents s))).
Proof.
  unfold headerBlock, bind. destruct (Reader_spec s w) as (r & s1 & w1 & E1 & Hs1 & Hr & Hm).
  rewrite E1. destruct r as [rd|e].
  2:{ do 3 eexists. split; [done|]. split; [done|]. split; [|split; [|done]].
      - intros Hrel. by destruct (Hr Hrel).
      - intros Ef. unfold Reader in E1. rewrite Ef in E1. by injection E1. }
  destruct (readUpTo_spec s1 rd (Some maxHeaderBytes) w1) as (b & err & s2 & w2 & E2 & Hs2 & Hok & Hb).
  rewrite E2. assert (Hcont : err = None -> b = ztake maxHeaderBytes (contents s)).
  { intros E. rewrite (Hb E). simpl. destruct rd as [b'|].
    - by destruct Hm as [-> _].
    - destruct Hm as (f & -> & <- & ->). by rewrite zdrop_all. }
  destruct err as [e|].
  - do 3 eexists. split; [done|]. split; [eauto with mailout|]. split; [|split; [|done]].
    + intros Hrel. exfalso. assert (Some e = None); [|done]. apply Hok; [done|].
      intros ->. destruct Hm as (f & -> & _). done.
    + intros Ef. unfold Reader in E1. rewrite Ef in E1. injection E1 as <- <- <-.
      unfold readUpTo in E2. by injection E2.
  - do 3 eexists. split; [done|]. split; [eauto with mailout|].
    rewrite (Hcont eq_refl). split; [done|]. split; [done|]. intros p [= <-]. done.
Qed.

(** The length recorded is the length of the body: true of every spool that was
    written through [Write], and kept by every reader. *)
Definition sized (s : spool) : Prop := n s = zlen (contents s).

Lemma inv_sized s : spool_inv s -> sized s.
Proof. by intros [? _]. Qed.

Lemma sized_same s s' : same_body s s' -> sized s -> sized s'.
Proof. unfold sized. intros (Hc & Hn & _) Hs. congruence. Qed.

(** What a reader of [s] will deliver. *)
Definition delivers (s : spool) (r : reader) (b : bytes) : Prop :=
  match r with
  | RBuf b' => b' = b
  | RFile => exists f, sfile s = Some f /\ zdrop (fpos f) (fdata f) = b
  end.

Lemma Reader_delivers s w :
  exists r s' w', Reader s w = (r, s', w') /\ same_body s s' /\
    (reliable K -> exists rd, r = Ok rd) /\
    (forall rd, r = Ok rd -> delivers s' rd (contents s)).
Proof.
  destruct (Reader_spec s w) as (r & s' & w' & E & Hs & Hr & Hm).
  exists r, s', w'. split_and!; try done. intros rd ->. destruct rd; [by destruct Hm as [-> _]|].
  destruct Hm as (f & Ef & Hd & Hp). exists f. split; [done|]. by rewrite Hp, Hd, zdrop_all.
Qed.

Lemma ReaderAt_delivers s offset w :
  sized s -> 0 <= offset ->
  exists r s' w', ReaderAt s offset w = (r, s', w') /\ same_body s s' /\
    (reliable K -> exists rd, r = Ok rd) /\
    (forall rd, r = Ok rd -> delivers s' rd (zdrop offset (contents s))).
Proof.
  intros Hs Ho. unfold ReaderAt.
  assert (Hd : zdrop (if n s <? offset then n s else offset) (contents s) = zdrop offset (contents s)).
  { destruct (n s <? offset) eqn:E; [|done]. bools. rewrite Hs in *. rewrite !zdrop_ge by lia. done. }
  revert Hd. generalize (if n s <? offset then n s else offset). intros off Hd.
  unfold contents in *. destruct (sfile s) as [f|] eqn:Ef; run_io.
  - destruct (sys (tick w) (SysSeek off)) as [|k e] eqn:Es; do 3 eexists; split; try done.
    + split; [auto with mailout|]. split; [eauto|]. intros rd [= <-]. simpl. rewrite Ef. simpl. eauto.
    + split; [done|]. split; [|done]. intros Hr. by rewrite Hr in Es.
  - do 3 eexists. split; [done|]. split; [done|]. split; [eauto|]. by intros rd [= <-].
Qed.

(** [io.Copy] appends what its source delivers. *)
Lemma copySpool_spec dst src r b w :
  spool_inv dst -> delivers src r b ->
  exists err dst' src' w', copySpool dst src r w = (err, dst', src', w') /\
    same_body src src' /\ spool_inv dst' /\ dir dst' = dir dst /\ threshold dst' = threshold dst /\
    (err = None -> contents dst' = contents dst ++ b) /\ (reliable K -> err = None).
Proof.
  intros Hdst Hr. unfold copySpool. destruct r as [b'|].
  - simpl in Hr. subst b'. destruct b as [|c b].
    { do 4 eexists. split; [done|]. rewrite app_nil_r. by split_and!. }
    unfold bind. destruct (Write_spec dst (c :: b) w Hdst) as
      (wr & err & d1 & w1 & q & -> & Hd1 & Hd & Ht & _ & _ & Hc & Hok & Hrel).
    do 4 eexists. split; [done|]. split_and!; try done. intros E. by rewrite Hc, (Hok E).
  - destruct Hr as (f & Ef & Hb). unfold bind.
    destruct (readUpTo_spec src RFile None w) as (b0 & rerr & s1 & w1 & -> & Hs1 & Hr1 & Hb1).
    destruct (copyChunks_spec (chunks b0) dst w1 Hdst) as
      (werr & d1 & w2 & q & -> & Hd1 & Hd & Ht & _ & Hc & Hok & Hrel).
    do 4 eexists. split; [done|]. split_and!; try done.
    + destruct werr; [done|]. intros ->. specialize (Hb1 eq_refl). rewrite Ef in Hb1. simpl in Hb1.
      by rewrite Hc, (Hok eq_refl), concat_chunks, Hb1, Hb.
    + intros Hrr. rewrite (Hrel Hrr). apply Hr1; [done|]. intros _. by rewrite Ef.
Qed.

(** Nothing a spool does is visible upstream or to the quota store. *)
Lemma quiet_overflow s : quiet (overflow s).
Proof. unfold overflow. quiet_tac. Qed.
Lemma quiet_append s p : quiet (append s p).
Proof. unfold append. quiet_tac. Qed.
#[local] Hint Resolve quiet_overflow quiet_append : mailout.
Lemma quiet_Write s p : quiet (Write s p).
Proof. unfold Write. quiet_tac. Qed.
Lemma quiet_Reader s : quiet (Reader s).
Proof. unfold Reader. quiet_tac. Qed.
Lemma quiet_ReaderAt s o : quiet (ReaderAt s o).
Proof. unfold ReaderAt. quiet_tac. Qed.
Lemma quiet_readUpTo s r l : quiet (readUpTo s r l).
Proof. unfold readUpTo. quiet_tac. Qed.
Lemma quiet_Close s : quiet (Close s).
Proof. unfold Close. quiet_tac. Qed.
#[local] Hint Resolve quiet_Write quiet_Reader quiet_readUpTo : mailout.
Lemma quiet_headerBlock s : quiet (headerBlock s).
Proof. unfold headerBlock. quiet_tac. Qed.
Lemma quiet_copyChunks ps s : quiet (copyChunks s ps).
Proof. revert s. induction ps as [|p ps IH]; intros s; cbn [copyChunks]; quiet_tac. Qed.
#[local] Hint Resolve quiet_copyChunks : mailout.
Lemma quiet_copySpool dst src r : quiet (copySpool dst src r).
Proof. unfold copySpool. quiet_tac. Qed.
Lemma quiet_probeSpool d : quiet (probeSpool d).
Proof. unfold probeSpool. quiet_tac. Qed.

(** Nor does it go back in time. *)
Lemma forward_overflow s : forward (overflow s).
Proof. unfold overflow. forward_tac. Qed.
Lemma forward_append s p : forward (append s p).
Proof. unfold append. forward_tac. Qed.
#[local] Hint Resolve forward_overflow forward_append : mailout.
Lemma forward_Write s p : forward (Write s p).
Proof. unfold Write. forward_tac. Qed.
Lemma forward_Reader s : forward (Reader s).
Proof. unfold Reader. forward_tac. Qed.
Lemma forward_ReaderAt s o : forward (ReaderAt s o).
Proof. unfold ReaderAt. forward_tac. Qed.
Lemma forward_readUpTo s r l : forward (readUpTo s r l).
Proof. unfold readUpTo. forward_tac. Qed.
Lemma forward_Close s : forward (Close s).
Proof. unfold Close. forward_tac. Qed.
#[local] Hint Resolve forward_Write forward_Reader forward_readUpTo : mailout.
Lemma forward_headerBlock s : forward (headerBlock s).
Proof. unfold headerBlock. forward_tac. Qed.
Lemma forward_copyChunks ps s : forward (copyChunks s ps).
Proof. revert s. induction ps as [|p ps IH]; intros s; cbn [copyChunks]; forward_tac. Qed.
#[local] Hint Resolve forward_copyChunks : mailout.
Lemma forward_copySpool dst src r : forward (copySpool dst src r).
Proof. unfold copySpool. forward_tac. Qed.

End Facts.

#[export] Hint Resolve quiet_Write quiet_Reader quiet_ReaderAt quiet_readUpTo quiet_Close
  quiet_headerBlock quiet_copyChunks quiet_copySpool quiet_probeSpool : mailout.
#[export] Hint Resolve forward_Write forward_Reader forward_ReaderAt forward_readUpTo forward_Close
  forward_headerBlock forward_copyChunks forward_copySpool : mailout.


(** [findBlock] on a buffer: the shortest prefix ending in a blank line, CRLF
    ones taking precedence; failing both, everything. *)
Definition block_of (all b : bytes) (terminated : bool) : Prop :=
  if terminated then
    exists sep k rest, (sep = CRLF ++ CRLF \/ sep = [LF; LF]) /\
      all = k ++ sep ++ rest /\ b = k ++ sep /\
      forall k' rest', all = k' ++ sep ++ rest' -> (length k <= length k')%nat
  else b = all /\ (forall k rest, all <> k ++ CRLF ++ CRLF ++ rest) /\
       (forall k rest, all <> k ++ [LF; LF] ++ rest).

Lemma take_occurrence (all sub : bytes) i :
  sub <> [] -> all = take i all ++ sub ++ drop (i + length sub) all ->
  take (i + length sub) all = take i all ++ sub.
Proof.
  intros Hsub E. assert (Hi : (i <= length all)%nat).
  { destruct (decide (i <= length all)%nat) as [|Hgt]; [done|].
    apply (f_equal (@length _)) in E. rewrite !length_app, length_take in E.
    rewrite length_drop in E.
    destruct sub; [done|]. simpl in *. lia. }
  rewrite E at 1. rewrite app_assoc. rewrite take_app_length'; [done|].
  rewrite length_app, length_take. lia.
Qed.

Lemma findBlock_spec all : let '(b, t) := findBlock all in block_of all b t.
Proof.
  unfold findBlock. destruct (Index all (CRLF ++ CRLF)) as [i|] eqn:E1.
  { apply Index_Some_first in E1 as [E F]. exists (CRLF ++ CRLF), (take i all), (drop (i + 4) all).
    split; [by left|]. split; [done|]. split; [by apply (take_occurrence all (CRLF ++ CRLF))|].
    intros k' rest' Hk. specialize (F k' rest' Hk). rewrite length_take. lia. }
  assert (N1 := Index_None_no _ _ E1). destruct (Index all [LF; LF]) as [i|] eqn:E2.
  { apply Index_Some_first in E2 as [E F]. exists [LF; LF], (take i all), (drop (i + 2) all).
    split; [by right|]. split; [done|]. split; [by apply (take_occurrence all [LF; LF])|].
    intros k' rest' Hk. specialize (F k' rest' Hk). rewrite length_take. lia. }
  assert (N2 := Index_None_no _ _ E2). done.
Qed.

(** ** Properties *)

(** C36: the memory a body takes is bounded by configuration, not by the client:
    whatever is written to a fresh spool and whichever system calls fail, the
    heap never holds more than the threshold; the recorded length is the length
    of what was kept, which is a prefix of what was written, and all of it when
    no error was reported. *)
Theorem spool_heap_bounded (K : Kernel) (d : bytes) (th : Z) (ps : list bytes) (w : World) :
  let '(err, s, _) := copyChunks (newSpool d th) ps w in
  zlen (buf s) <= Z.max 0 th /\
  Len s = zlen (contents s) /\
  contents s `prefix_of` concat ps /\
  (err = None -> contents s = concat ps).
Proof.
  destruct (copyChunks_spec ps (newSpool d th) w (newSpool_inv d th)) as
    (err & s & w' & q & -> & [Hn Hi] & _ & Ht & Hq & Hc & Hok & _).
  simpl in *. change (contents (newSpool d th)) with (@nil ascii) in Hc. simpl in Hc.
  split_and!.
  - destruct (sfile s) as [f|]; [|by rewrite <- Ht].
    destruct Hi as [-> _]. unfold zlen. simpl. lia.
  - done.
  - by rewrite Hc.
  - intros E. by rewrite Hc, (Hok E).
Qed.

(** C35: where the body is stored makes no difference to what is read back: on a
    system whose calls succeed, what was written comes back byte for byte,
    whatever the threshold. *)
Theorem spool_storage_transparent (K : Kernel) (d : bytes) (th : Z) (ps : list bytes) (w : World) :
  reliable K ->
  exists s w1 s' w2,
    copyChunks (newSpool d th) ps w = (None, s, w1) /\
    Spool.Bytes s w1 = (Ok (concat ps), s', w2).
Proof.
  intros Hrel.
  destruct (copyChunks_spec ps (newSpool d th) w (newSpool_inv d th)) as
    (err & s & w1 & q & E & _ & _ & _ & _ & Hc & Hok & Hr).
  rewrite (Hr Hrel) in *. rewrite (Hok eq_refl) in Hc.
  change (contents (newSpool d th)) with (@nil ascii) in Hc. simpl in Hc.
  exists s, w1. unfold Spool.Bytes. destruct (sfile s) as [f|] eqn:Ef.
  2:{ do 2 eexists. split; [done|]. unfold contents in Hc. rewrite Ef in Hc. by rewrite Hc. }
  unfold bind. destruct (Reader_spec s w1) as (r & s1 & w2 & -> & Hs1 & Hr1 & Hm).
  destruct (Hr1 Hrel) as [rd ->].
  destruct (readUpTo_spec s1 rd None w2) as (b & err' & s2 & w3 & -> & _ & Hok2 & Hb).
  assert (Herr : err' = None).
  { apply Hok2; [done|]. intros ->. destruct Hm as (f' & -> & _). done. }
  subst err'. specialize (Hb eq_refl). simpl in Hb. do 2 eexists. split; [done|].
  unfold ret. do 3 f_equal. rewrite Hb, <- Hc. destruct rd as [b'|].
  - by destruct Hm as [-> _].
  - destruct Hm as (f' & -> & -> & ->). apply zdrop_all.
Qed.

Lemma spool_storage_transparent_witness :
  reliable kernel_ok /\
  exists s w1 s' w2,
    @copyChunks kernel_ok (newSpool [] 4) [lit "abc"; lit "defg"] world0 = (None, s, w1) /\
    @Spool.Bytes kernel_ok s w1 = (Ok (lit "abcdefg"), s', w2).
Proof.
  split; [apply kernel_ok_reliable|].
  apply (spool_storage_transparent kernel_ok [] 4 [lit "abc"; lit "defg"] world0).
  apply kernel_ok_reliable.
Defined.

(** The header block is found where it ends: the answer is the shortest
    prefix of the body's first megabyte that ends in a blank line (CRLF first,
    bare LF failing that), flagged as terminated; with no blank line in that
    megabyte the whole of it comes back flagged as not terminated. The body
    itself is left as it was. *)
Theorem headerBlock_finds_the_blank_line (K : Kernel) (s s' : spool) (w w' : World) (b : bytes) (t : bool) :
  headerBlock s w = (Ok (b, t), s', w') ->
  block_of (ztake maxHeaderBytes (contents s)) b t /\
  b `prefix_of` contents s /\ zlen b <= maxHeaderBytes /\
  contents s' = contents s.
Proof.
  intros E. destruct (headerBlock_spec s w) as (r & s1 & w1 & E1 & Hs1 & _ & _ & Hp).
  rewrite E in E1. injection E1 as <- <- <-. specialize (Hp _ eq_refl).
  set (all := ztake maxHeaderBytes (contents s)) in *.
  assert (Hb := findBlock_spec all). rewrite <- Hp in Hb.
  assert (Hall : b `prefix_of` all).
  { destruct t; simpl in Hb.
    - destruct Hb as (sep & k & rest & _ & -> & -> & _). rewrite app_assoc. by apply prefix_app_r.
    - by destruct Hb as [-> _]. }
  assert (Hpre : all `prefix_of` contents s)
    by (exists (zdrop maxHeaderBytes (contents s)); unfold all; by rewrite ztake_zdrop).
  split_and!; [done|by etrans| |apply Hs1].
  apply prefix_length in Hall.
  assert (zlen all <= maxHeaderBytes) by (unfold all; rewrite zlen_ztake; unfold maxHeaderBytes; lia).
  unfold zlen in *. lia.
Qed.

Lemma headerBlock_witness :
  exists s' w', @headerBlock kernel_ok (mkSpool [] 100 (lit "A: b" ++ CRLF ++ CRLF ++ lit "body") None 12) world0
    = (Ok (lit "A: b" ++ CRLF ++ CRLF, true), s', w') /\
    contents s' = lit "A: b" ++ CRLF ++ CRLF ++ lit "body".
Proof.
  do 2 eexists. split; [vm_compute; reflexivity|].
  eapply (headerBlock_finds_the_blank_line kernel_ok
    (mkSpool [] 100 (lit "A: b" ++ CRLF ++ CRLF ++ lit "body") None 12) _ world0 _
    (lit "A: b" ++ CRLF ++ CRLF) true).
  vm_compute. reflexivity.
Defined.

(** The sweep at startup removes only its own leftovers: a directory entry
    that disappears was a regular file carrying the spool prefix. *)
Theorem SweepSpool_removes_only_spool_files (removable : bytes -> bool) (listing : list dirEntry) (e : dirEntry) :
  e ∈ listing ->
  e ∈ SweepSpool removable listing \/
  (isDir e = false /\ exists t, entryName e = spoolFilePrefix ++ t).
Proof.
  intros He. unfold SweepSpool. rewrite elem_of_bfilter.
  destruct (isDir e) eqn:Ed; simpl; [by left|].
  destruct (HasPrefix (entryName e) spoolFilePrefix) eqn:Ep; simpl; [|by left].
  right. split; [done|]. exact (proj1 (HasPrefix_spec _ _) Ep).
Qed.

Lemma SweepSpool_witness :
  mkEntry (lit "other.txt") false ∈ [mkEntry (lit "mailout-body-1") false; mkEntry (lit "other.txt") false] /\
  (mkEntry (lit "other.txt") false ∈
     SweepSpool (λ _, true) [mkEntry (lit "mailout-body-1") false; mkEntry (lit "other.txt") false] \/
   (false = false /\ exists t, lit "other.txt" = spoolFilePrefix ++ t)).
Proof.
  assert (Hin : mkEntry (lit "other.txt") false
    ∈ [mkEntry (lit "mailout-body-1") false; mkEntry (lit "other.txt") false]) by (right; left).
  split; [exact Hin|].
  exact (SweepSpool_removes_only_spool_files (λ _, true) _ _ Hin).
Defined.
