(* ===== verification/Passwords.v ===== *)
(** * Passwords: generation and hashing

    Models the first half of [src/internal/gateway/auth.go]: the bcrypt cost
    band, [HashPassword] and [GeneratePassword]. bcrypt itself and the system's
    random source are parameters. *)

From S2P Require Import Prelude.
#[local] Open Scope Z_scope.

(** golang.org/x/crypto/bcrypt. [bcrypt_Cost] is [None] for a malformed hash;
    [bcrypt_Compare] is the nil error. The first argument of [bcrypt_Generate]
    stands for the salt it draws. *)
Class Bcrypt := {
  bcrypt_Cost : bytes -> option Z;
  bcrypt_Compare : bytes -> bytes -> bool;
  bcrypt_Generate : nat -> bytes -> Z -> result bytes
}.

(** What the package documents: the hash [GenerateFromPassword] returns carries
    the cost asked for and matches the password it was made from, and the empty
    string is too short to be a hash. *)
Class BcryptSound (B : Bcrypt) := {
  generate_cost salt pw cost h : bcrypt_Generate salt pw cost = Ok h -> bcrypt_Cost h = Some cost;
  generate_match salt pw cost h : bcrypt_Generate salt pw cost = Ok h -> bcrypt_Compare h pw = true;
  cost_empty : bcrypt_Cost [] = None
}.

(** crypto/rand: [rand_Read t n] fills a buffer of [n] bytes, or fails. *)
Class Random := {
  rand_Read : nat -> nat -> result bytes;
  rand_full t n b : rand_Read t n = Ok b -> length b = n
}.

Module Passwords.

Definition BcryptCost : Z := 12.
Definition MinBcryptCost : Z := 10.
Definition MaxBcryptCost : Z := 14.
Definition PasswordBytes : nat := 24.

(** ** base64.RawURLEncoding *)

Definition urlAlphabet : bytes :=
  lit "ABCDEFGHIJKLMNOPQRSTUVWXYZabcdefghijklmnopqrstuvwxyz0123456789-_".

Definition sextet (z : Z) : ascii := nth (Z.to_nat z) urlAlphabet (chr 0).

(** Three bytes make four characters; a shorter tail is not padded. *)
Fixpoint RawURLEncode (b : bytes) : bytes :=
  match b with
  | [] => []
  | [x] => [sextet (byteZ x / 4); sextet (byteZ x mod 4 * 16)]
  | [x; y] =>
      [sextet (byteZ x / 4); sextet (byteZ x mod 4 * 16 + byteZ y / 16); sextet (byteZ y mod 16 * 4)]
  | x :: y :: z :: b' =>
      sextet (byteZ x / 4) :: sextet (byteZ x mod 4 * 16 + byteZ y / 16)
        :: sextet (byteZ y mod 16 * 4 + byteZ z / 64) :: sextet (byteZ z mod 64) :: RawURLEncode b'
  end.

Section Ops.
Context `{Bcrypt}.

(** Parseable, and of a cost inside the band. *)
Definition UsableHash (hash : bytes) : bool :=
  match bcrypt_Cost hash with
  | Some cost => (MinBcryptCost <=? cost) && (cost <=? MaxBcryptCost)
  | None => false
  end.

Definition HashPassword (salt : nat) (password : bytes) : result bytes :=
  match bcrypt_Generate salt password BcryptCost with
  | Err e => Err (EWrap (lit "hash password") e)
  | Ok h => Ok h
  end.

Definition GeneratePassword `{Random} (t : nat) : result bytes :=
  match rand_Read t PasswordBytes with
  | Err e => Err (EWrap (lit "generate password") e)
  | Ok buf => Ok (RawURLEncode buf)
  end.
End Ops.

(** ** Facts *)

Lemma sextet_inj a b : 0 <= a < 64 -> 0 <= b < 64 -> sextet a = sextet b -> a = b.
Proof.
  intros Ha Hb E. unfold sextet in E.
  apply (proj1 (List.NoDup_nth urlAlphabet (chr 0))) in E; [lia| |simpl; lia|simpl; lia].
  apply NoDup_ListNoDup. by apply (bool_decide_unpack _); vm_compute.
Qed.

Lemma sextet_safe a : 0 <= a < 64 -> sextet a ∈ urlAlphabet.
Proof. intros Ha. apply list_elem_of_In, nth_In. simpl. lia. Qed.

(** Three bytes at a time. *)
Lemma triples_ind (P : bytes -> Prop) :
  P [] -> (forall x, P [x]) -> (forall x y, P [x; y]) ->
  (forall x y z b, P b -> P (x :: y :: z :: b)) -> forall b, P b.
Proof.
  intros H0 H1 H2 H3. fix IH 1. intros [|x [|y [|z b]]].
  - apply H0.
  - apply H1.
  - apply H2.
  - apply H3, IH.
Qed.

Ltac byte_bounds :=
  repeat match goal with
  | |- context [byteZ ?x] =>
      lazymatch goal with
      | _ : 0 <= byteZ x < 256 |- _ => fail
      | _ => pose proof (byteZ_range x)
      end
  | _ : context [byteZ ?x] |- _ =>
      lazymatch goal with
      | _ : 0 <= byteZ x < 256 |- _ => fail
      | _ => pose proof (byteZ_range x)
      end
  end.

Ltac sextets := byte_bounds; Z.to_euclidean_division_equations; lia.

Lemma RawURLEncode_safe b : Forall (.∈ urlAlphabet) (RawURLEncode b).
Proof.
  induction b as [| | |x y z b IH] using triples_ind; cbn [RawURLEncode];
    repeat apply Forall_cons_2; try done; apply sextet_safe; sextets.
Qed.

Lemma RawURLEncode_length b :
  length (RawURLEncode b) = ((length b * 4 + 2) / 3)%nat.
Proof.
  induction b as [| | |x y z b IH] using triples_ind; try done.
  cbn [RawURLEncode length]. rewrite IH.
  replace (S (S (S (length b))) * 4 + 2)%nat with (length b * 4 + 2 + 4 * 3)%nat by lia.
  rewrite Nat.div_add by done. lia.
Qed.

Lemma RawURLEncode_inj b c : length b = length c -> RawURLEncode b = RawURLEncode c -> b = c.
Proof.
  revert c. induction b as [| | |x y z b IH] using triples_ind;
    intros [|x' [|y' [|z' c]]] Hlen E; try done; cbn [RawURLEncode] in E; simplify_list_eq;
    repeat match goal with
    | E : sextet _ = sextet _ |- _ => apply sextet_inj in E; [|sextets|sextets]
    end;
    f_equal; repeat first [done | apply byteZ_inj; sextets | progress f_equal];
    apply IH; [simpl in Hlen; lia|done].
Qed.

End Passwords.

(** ** Properties *)

Section Properties.
Context `{B : Bcrypt} `{R : Random}.

(** A generated password is 32 URL-safe characters and loses no entropy:
    two passwords are equal only when the 24 random bytes drawn were equal. *)
Theorem GeneratePassword_url_safe_and_injective (t t' : nat) (p p' : bytes) :
  Passwords.GeneratePassword t = Ok p -> Passwords.GeneratePassword t' = Ok p' ->
  length p = 32%nat /\ Forall (.∈ Passwords.urlAlphabet) p /\
  (p = p' -> rand_Read t Passwords.PasswordBytes = rand_Read t' Passwords.PasswordBytes).
Proof.
  unfold Passwords.GeneratePassword. intros E E'.
  destruct (rand_Read t _) as [b|] eqn:Hb, (rand_Read t' _) as [b'|] eqn:Hb'; simplify_eq.
  pose proof (rand_full _ _ _ Hb) as Hl. pose proof (rand_full _ _ _ Hb') as Hl'.
  split; [|split].
  - by rewrite Passwords.RawURLEncode_length, Hl.
  - apply Passwords.RawURLEncode_safe.
  - intros Ep. f_equal. apply Passwords.RawURLEncode_inj; congruence.
Qed.

(** What the operator provisions can be served: the hash of a password it
    hashes is inside the cost band the gateway accepts, and authenticates that
    password. *)
Theorem HashPassword_is_usable `{!BcryptSound B} (salt : nat) (password h : bytes) :
  Passwords.HashPassword salt password = Ok h ->
  Passwords.UsableHash h = true /\ bcrypt_Compare h password = true.
Proof.
  unfold Passwords.HashPassword, Passwords.UsableHash. intros E. case_match eqn:Eg; [|done].
  injection E as <-. rewrite (generate_cost _ _ _ _ Eg), (generate_match _ _ _ _ Eg).
  by vm_compute.
Qed.
End Properties.

(** A stand-in for bcrypt that keeps the cost and the password in the hash: the
    assumptions made of bcrypt can hold. *)
Definition toy_bcrypt : Bcrypt := {|
  bcrypt_Cost h := match h with c :: _ => Some (byteZ c) | [] => None end;
  bcrypt_Compare h p := match h with _ :: q => q =b p | [] => false end;
  bcrypt_Generate _ p cost :=
    if (4 <=? cost) && (cost <=? 31) then Ok (chr cost :: p) else Err (EText (lit "cost"))
|}.

#[export] Instance toy_bcrypt_sound : BcryptSound toy_bcrypt.
Proof.
  split; [intros salt pw cost h; simpl; case_match; intros; simplify_eq; bools..|done].
  - by rewrite byteZ_chr by lia.
  - by rewrite bool_decide_eq_true_2.
Qed.

(** A random source that fills its buffer with the draw's number. *)
Definition toy_random : Random.
Proof.
  refine {| rand_Read t n := Ok (replicate n (chr (Z.of_nat t))) |}.
  intros t n b [= <-]. apply length_replicate.
Defined.

Lemma GeneratePassword_witness :
  let pw := @Passwords.GeneratePassword toy_random in
  pw 1%nat = Ok (lit "AQEBAQEBAQEBAQEBAQEBAQEBAQEBAQEB") /\
  length (lit "AQEBAQEBAQEBAQEBAQEBAQEBAQEBAQEB") = 32%nat.
Proof.
  split; [vm_compute; reflexivity|].
  apply (GeneratePassword_url_safe_and_injective (R := toy_random) 1 1
    (lit "AQEBAQEBAQEBAQEBAQEBAQEBAQEBAQEB") (lit "AQEBAQEBAQEBAQEBAQEBAQEBAQEBAQEB"));
    vm_compute; reflexivity.
Defined.

Lemma HashPassword_witness :
  @Passwords.HashPassword toy_bcrypt 0 (lit "pw") = Ok (chr 12 :: lit "pw") /\
  @Passwords.UsableHash toy_bcrypt (chr 12 :: lit "pw") = true.
Proof.
  split; [vm_compute; reflexivity|].
  apply (HashPassword_is_usable (B := toy_bcrypt) 0 (lit "pw") (chr 12 :: lit "pw")).
  vm_compute. reflexivity.
Defined.
