(* ===== verification/Config.v ===== *)
(** * Config: the snapshot the dataplane serves

    Models [src/internal/gateway/config.go] with the configuration types it
    refers to in [milter.go], [dkim.go] and [ratelimit.go]: defaults,
    validation and the partition of accounts. Durations are [Z] nanoseconds; their text form is in
    [Duration].
    A refusal of [Validate] is a list of structured problems, one constructor
    per message, so that nothing depends on the [%q] rendering of the text. *)

From S2P Require Import Prelude Unicode GoStrings Passwords.
#[local] Open Scope Z_scope.

Module Config.

(** ** Data *)

Definition TLSModeSTARTTLS : bytes := lit "starttls".
Definition TLSModeImplicit : bytes := lit "implicit".
Definition TLSModeNone : bytes := lit "none".

Record Listener := mkListener { l_Name : bytes; l_Addr : bytes; l_Mode : bytes }.

Record CertificateRef := mkCertificateRef {
  cr_Name : bytes; CertFile : bytes; KeyFile : bytes; CertPEM : bytes; KeyPEM : bytes
}.

Record TLSConfig := mkTLSConfig {
  Certificates : list CertificateRef;
  DefaultCertificate : bytes
}.

Record Upstream := mkUpstream {
  Host : bytes;
  Port : Z;
  u_TLS : bytes;
  u_InsecureSkipVerify : bool;
  u_RootCAPEM : bytes;
  u_Username : bytes;
  u_Password : bytes;
  u_Timeout : Z
}.

Record Account := mkAccount {
  Username : bytes;
  PasswordHash : bytes;
  Disabled : bool;
  AllowedSenders : list bytes;
  SkipHeaderFromCheck : bool
}.

Record Milter := mkMilter {
  m_Name : bytes; m_Address : bytes; FailOpen : bool; m_Timeout : Z
}.

Record DKIMKey := mkDKIMKey {
  Domain : bytes;
  Selector : bytes;
  PrivateKeyPEM : bytes;
  PrivateKeyFile : bytes;
  HeaderKeys : list bytes
}.

Record RateLimitStore := mkStore {
  Addresses : list bytes;
  MasterName : bytes;
  DB : Z;
  s_Username : bytes;
  s_Password : bytes;
  SentinelUsername : bytes;
  SentinelPassword : bytes;
  s_TLS : bool;
  s_InsecureSkipVerify : bool;
  s_RootCAPEM : bytes;
  s_Timeout : Z
}.

Record RateLimit := mkRateLimit {
  Store : RateLimitStore;
  MessagesPerMinute : Z;
  RecipientsPerMinute : Z
}.

Record Limits := mkLimits {
  MaxMessageBytes : Z;
  MaxRecipients : Z;
  ReadTimeout : Z;
  WriteTimeout : Z;
  MaxLineLength : Z;
  MaxConnections : Z;
  SpoolDir : bytes;
  SpoolThreshold : Z
}.

Record Config := mkConfig {
  Hostname : bytes;
  Listeners : list Listener;
  TLS : TLSConfig;
  upstream : Upstream;
  Accounts : list Account;
  Milters : list Milter;
  DKIM : list DKIMKey;
  rateLimit : option RateLimit;
  limits : Limits;
  Token : bytes  (* Metrics.Token *)
}.

Definition second : Z := 1000000000.
Definition defaultMaxMessageBytes : Z := 25 * 1024 * 1024.
Definition defaultMaxRecipients : Z := 50.
Definition defaultMaxConnections : Z := 64.
Definition defaultMaxLineLength : Z := 8000.
Definition defaultSpoolThreshold : Z := 1024 * 1024.
Definition defaultReadTimeout : Z := 60 * second.
Definition defaultWriteTimeout : Z := 60 * second.
Definition defaultUpstreamTimeout : Z := 60 * second.

(** [Upstream.Address]: [net.JoinHostPort], which brackets an IPv6 literal. *)
Definition Address (u : Upstream) : bytes :=
  if ContainsByte (Host u) (chr 58) then lit "[" ++ Host u ++ lit "]:" ++ itoa (Port u)
  else Host u ++ lit ":" ++ itoa (Port u).

(** ** Usernames *)

Definition MaxUsernameLength : Z := 128.

(** Printable ASCII and not a delimiter. *)
Definition username_byte (b : ascii) : bool :=
  negb ((byteZ b <=? 32) || (126 <? byteZ b) || (b =b chr 58) || (b =b chr 59) ||
        (b =b chr 44) || (b =b chr 34) || (b =b chr 92)).

Definition ValidUsername (username : bytes) : bool :=
  if (username =b []) || (MaxUsernameLength <? zlen username) then false
  else forallb username_byte username.

(** ** Accounts *)

Record RejectedAccount := mkRejected { r_Username : bytes; Reason : bytes }.

(** [fmt.Sprintf("accounts[%d]", i)]. *)
Definition accounts_at (i : Z) : bytes := lit "accounts[" ++ itoa i ++ lit "]".

Section Partition.
Context `{Bcrypt}.

(** The loop of [PartitionAccounts] from index [i]. *)
Fixpoint partitionLoop (i : Z) (seen : gset bytes) (accounts : list Account)
    : list Account * list RejectedAccount :=
  match accounts with
  | [] => ([], [])
  | account :: rest =>
      let reject r :=
        let '(served, rejected) := partitionLoop (i + 1) seen rest in (served, r :: rejected) in
      if Username account =b [] then
        reject (mkRejected (accounts_at i) (lit "username is required"))
      else if bool_decide (Username account ∈ seen) then
        reject (mkRejected (Username account) (lit "duplicate username"))
      else if negb (ValidUsername (Username account)) then
        reject (mkRejected (accounts_at i)
          (lit "username must be at most " ++ itoa MaxUsernameLength ++
           lit " printable ASCII characters without space or delimiter"))
      else if PasswordHash account =b [] then
        reject (mkRejected (Username account) (lit "passwordHash is required"))
      else if negb (Passwords.UsableHash (PasswordHash account)) then
        reject (mkRejected (Username account)
          (lit "passwordHash must be a bcrypt hash of cost " ++ itoa Passwords.MinBcryptCost ++
           lit " to " ++ itoa Passwords.MaxBcryptCost ++
           lit "; a malformed hash answers instantly and a costly one stalls the relay"))
      else
        let '(served, rejected) :=
          partitionLoop (i + 1) ({[Username account]} ∪ seen) rest in
        (account :: served, rejected)
  end.

Definition PartitionAccounts (c : Config) : list Account * list RejectedAccount :=
  partitionLoop 0 ∅ (Accounts c).
End Partition.

(** ** Milter addresses *)

Inductive addressError :=
| UnsupportedScheme (address : bytes)
| AddressRequired.

(** What [net.Dial] expects: the network and the address. *)
Definition ParseAddress (m : Milter) : (bytes * bytes) + addressError :=
  let a := m_Address m in
  if HasPrefix a (lit "tcp://") then inl (lit "tcp", TrimPrefix a (lit "tcp://"))
  else if HasPrefix a (lit "unix://") then inl (lit "unix", TrimPrefix a (lit "unix://"))
  else if Contains a (lit "://") then inr (UnsupportedScheme a)
  else if a =b [] then inr AddressRequired
  else inl (lit "tcp", a).

(** ** Defaults *)

(** [if x == zero { x = d }]. *)
Definition or_default {A} `{EqDecision A} (zero d x : A) : A := if x =b zero then d else x.

Definition defaultLimits (l : Limits) : Limits :=
  mkLimits
    (or_default 0 defaultMaxMessageBytes (MaxMessageBytes l))
    (or_default 0 defaultMaxRecipients (MaxRecipients l))
    (or_default 0 defaultReadTimeout (ReadTimeout l))
    (or_default 0 defaultWriteTimeout (WriteTimeout l))
    (or_default 0 defaultMaxLineLength (MaxLineLength l))
    (or_default 0 defaultMaxConnections (MaxConnections l))
    (SpoolDir l)
    (or_default 0 defaultSpoolThreshold (SpoolThreshold l)).

Definition defaultUpstream (u : Upstream) : Upstream :=
  mkUpstream (Host u)
    (or_default 0 (if u_TLS u =b TLSModeImplicit then 465 else 587) (Port u))
    (u_TLS u) (u_InsecureSkipVerify u) (u_RootCAPEM u) (u_Username u) (u_Password u)
    (or_default 0 defaultUpstreamTimeout (u_Timeout u)).

Definition defaultListener (l : Listener) : Listener :=
  mkListener (or_default [] (l_Addr l) (l_Name l)) (l_Addr l)
    (or_default [] TLSModeSTARTTLS (l_Mode l)).

Definition applyDefaults (c : Config) : Config :=
  mkConfig (or_default [] (lit "mailout") (Hostname c))
    (defaultListener <$> Listeners c) (TLS c) (defaultUpstream (upstream c))
    (Accounts c) (Milters c) (DKIM c) (rateLimit c) (defaultLimits (limits c)) (Token c).

(** ** Validation *)

Inductive problem :=
| NoListener
| ListenerAddrRequired (i : nat)
| ListenerMode (name mode : bytes)
| ListenerDuplicate (name addr : bytes)
| NoCertificate
| CertificateIncomplete (i : nat)
| UpstreamHostRequired
| UpstreamTLSMode (mode : bytes)
| StoreAddressesRequired
| StoreSkipVerifyWithoutTLS
| MilterAddress (i : nat) (name : bytes) (e : addressError).

Definition listener_mode_ok (mode : bytes) : bool :=
  (mode =b TLSModeSTARTTLS) || (mode =b TLSModeImplicit).

(** The loop over the listeners, from index [i]. *)
Fixpoint checkListeners (i : nat) (seen : gset bytes) (ls : list Listener) : list problem :=
  match ls with
  | [] => []
  | l :: ls' =>
      (if l_Addr l =b [] then [ListenerAddrRequired i] else []) ++
      (if listener_mode_ok (l_Mode l) then [] else [ListenerMode (l_Name l) (l_Mode l)]) ++
      (* Port 0 asks the kernel for a free port, so it is never a duplicate. *)
      (if HasSuffix (l_Addr l) (lit ":0") then checkListeners (S i) seen ls'
       else (if bool_decide (l_Addr l ∈ seen) then [ListenerDuplicate (l_Name l) (l_Addr l)] else []) ++
            checkListeners (S i) ({[l_Addr l]} ∪ seen) ls')
  end.

Definition certificate_complete (c : CertificateRef) : bool :=
  (CertFile c <>b []) && (KeyFile c <>b []) || (CertPEM c <>b []) && (KeyPEM c <>b []).

Definition upstream_mode_ok (mode : bytes) : bool :=
  (mode =b TLSModeSTARTTLS) || (mode =b TLSModeImplicit) || (mode =b TLSModeNone).

(** Every problem that would make the snapshot unservable; empty is the nil
    error. *)
Definition Validate (c : Config) : list problem :=
  (if (length (Listeners c) =? 0)%nat then [NoListener] else []) ++
  checkListeners 0 ∅ (Listeners c) ++
  (if (length (Certificates (TLS c)) =? 0)%nat then [NoCertificate] else []) ++
  concat (imap (λ i cert, if certificate_complete cert then [] else [CertificateIncomplete i])
    (Certificates (TLS c))) ++
  (if Host (upstream c) =b [] then [UpstreamHostRequired] else []) ++
  (if upstream_mode_ok (u_TLS (upstream c)) then [] else [UpstreamTLSMode (u_TLS (upstream c))]) ++
  match rateLimit c with
  | Some rl =>
      (if (length (Addresses (Store rl)) =? 0)%nat then [StoreAddressesRequired] else []) ++
      (if s_InsecureSkipVerify (Store rl) && negb (s_TLS (Store rl)) then [StoreSkipVerifyWithoutTLS] else [])
  | None => []
  end ++
  concat (imap (λ i m, match ParseAddress m with
                       | inl _ => []
                       | inr e => [MilterAddress i (m_Name m) e]
                       end) (Milters c)).

End Config.
Export Config.

(** ** Facts *)

Lemma or_default_idem {A} `{EqDecision A} (zero d x : A) :
  or_default zero d (or_default zero d x) = or_default zero d x.
Proof. unfold or_default. repeat case_bool_decide; congruence. Qed.

Lemma or_default_nonzero {A} `{EqDecision A} (zero d x : A) :
  d <> zero -> or_default zero d x <> zero.
Proof. unfold or_default. case_bool_decide; congruence. Qed.

#[export] Hint Rewrite @or_default_idem : mailout.
#[export] Hint Resolve or_default_nonzero : mailout.

Lemma username_byte_spec b : username_byte b = true <->
  33 <= byteZ b <= 126 /\ (b ∉ [chr 58; chr 59; chr 44; chr 34; chr 92]).
Proof.
  unfold username_byte. rewrite negb_true_iff, !orb_false_iff, !bool_decide_eq_false.
  rewrite Z.leb_gt, Z.ltb_ge, !not_elem_of_cons. set_solver by lia.
Qed.

Lemma ValidUsername_bytes u : ValidUsername u = true -> Forall (λ b, username_byte b = true) u.
Proof.
  unfold ValidUsername. case_match; [done|]. intros Hf.
  apply Forall_forall. intros x Hx. apply (proj1 (forallb_forall _ _) Hf). by apply list_elem_of_In.
Qed.

(** A byte that ends no line, carries no control and delimits no counter key. *)
Lemma ValidUsername_clean u b : ValidUsername u = true -> b ∈ u ->
  33 <= byteZ b <= 126 /\ b <> chr 58.
Proof.
  intros Hu Hb. pose proof (ValidUsername_bytes u Hu) as Hall. rewrite Forall_forall in Hall.
  apply Hall, username_byte_spec in Hb as [Hr Hd]. set_solver.
Qed.

Lemma accounts_at_printable i : Forall (λ b, 32 <= byteZ b <= 126) (accounts_at i).
Proof.
  unfold accounts_at. rewrite !Forall_app. split_and!.
  - repeat constructor; vm_compute; done.
  - eapply Forall_impl; [apply itoa_numeral|]. unfold numeral. intros b Hb. lia.
  - repeat constructor; vm_compute; done.
Qed.

Section PartitionFacts.
Context `{Bcrypt}.

(** What an account must be to be served, whatever the others are. *)
Definition well_formed (a : Account) : bool :=
  ValidUsername (Username a) && (PasswordHash a <>b []) && Passwords.UsableHash (PasswordHash a).

(** The first well-formed account of each name outside [seen]. *)
Fixpoint firsts (seen : gset bytes) (l : list Account) : list Account :=
  match l with
  | [] => []
  | a :: l' =>
      if well_formed a && bool_decide (Username a ∉ seen)
      then a :: firsts ({[Username a]} ∪ seen) l'
      else firsts seen l'
  end.

Definition printable_name (r : RejectedAccount) : Prop :=
  Forall (λ b, 32 <= byteZ b <= 126) (r_Username r).

Lemma valid_printable u : ValidUsername u = true -> Forall (λ b, 32 <= byteZ b <= 126) u.
Proof.
  intros Hu. apply Forall_forall. intros b Hb. apply (ValidUsername_clean u) in Hb; [lia|done].
Qed.

Lemma partitionLoop_spec accounts i seen :
  (forall u, u ∈ seen -> ValidUsername u = true) ->
  let '(served, rejected) := partitionLoop i seen accounts in
  served = firsts seen accounts /\
  (length served + length rejected = length accounts)%nat /\
  Forall printable_name rejected.
Proof.
  revert i seen. induction accounts as [|a accounts IH]; intros i seen Hseen; [done|].
  cbn [partitionLoop firsts]. unfold well_formed.
  pose proof (IH (i + 1) seen Hseen) as IHr.
  destruct (partitionLoop (i + 1) seen accounts) as [served rejected].
  destruct IHr as (-> & Hlen & Hp).
  assert (Hrej : forall r, printable_name r ->
    (length (firsts seen accounts) + length (r :: rejected) = length (a :: accounts))%nat /\
    Forall printable_name (r :: rejected)).
  { intros r Hr. split; [simpl; lia|by constructor]. }
  destruct (Username a =b []) eqn:E0.
  { bools. rewrite E0. simpl. split; [done|]. apply Hrej, accounts_at_printable. }
  destruct (bool_decide (Username a ∈ seen)) eqn:E1.
  { bools. rewrite (bool_decide_eq_false_2 (Username a ∉ seen)) by tauto. rewrite andb_false_r.
    split; [done|]. apply Hrej. by apply valid_printable, Hseen. }
  destruct (ValidUsername (Username a)) eqn:E2; simpl.
  2:{ split; [done|]. apply Hrej, accounts_at_printable. }
  assert (Hname : forall reason, printable_name (mkRejected (Username a) reason))
    by (intros; by apply valid_printable).
  destruct (PasswordHash a =b []) eqn:E3; simpl; [by split; [|apply Hrej]|].
  destruct (Passwords.UsableHash (PasswordHash a)) eqn:E4; simpl; [|by split; [|apply Hrej]].
  bools. rewrite bool_decide_eq_true_2 by done.
  pose proof (IH (i + 1) ({[Username a]} ∪ seen)) as IHs.
  destruct (partitionLoop (i + 1) _ accounts) as [served' rejected'].
  destruct IHs as (-> & Hlen' & Hp'); [set_solver|]. split; [done|]. simpl. split; [lia|done].
Qed.

Lemma firsts_elem l seen a :
  a ∈ firsts seen l <->
  exists l1 l2, l = l1 ++ a :: l2 /\ well_formed a = true /\ (Username a ∉ seen) /\
    (forall b, b ∈ l1 -> well_formed b = true -> Username b <> Username a).
Proof.
  revert seen. induction l as [|x l IH]; intros seen; cbn [firsts].
  { split; [by intros ?%elem_of_nil|]. intros (l1 & l2 & E & _). by destruct l1. }
  split.
  - destruct (well_formed x && bool_decide (Username x ∉ seen)) eqn:E.
    + bools. rewrite elem_of_cons, IH. intros [->|(l1 & l2 & -> & Hw & Hn & Hb)].
      * exists [], l. set_solver.
      * exists (x :: l1), l2. split_and!; [done|done|set_solver|].
        intros b [->|Hb']%elem_of_cons ?; [set_solver|by apply Hb].
    + rewrite IH. intros (l1 & l2 & -> & Hw & Hn & Hb). exists (x :: l1), l2.
      split_and!; [done|done|done|]. intros b [->|Hb']%elem_of_cons Hwb; [|by apply Hb].
      rewrite Hwb in E. simpl in E. bools. apply dec_stable in E. congruence.
  - intros ([|y l1] & l2 & E & Hw & Hn & Hb); simplify_eq/=.
    + rewrite Hw, bool_decide_eq_true_2 by done. by left.
    + destruct (well_formed y && bool_decide (Username y ∉ seen)) eqn:E.
      * bools. right. apply IH. exists l1, l2. split_and!; [done|done| |set_solver].
        assert (Username y <> Username a) by (apply Hb; [by left|done]). set_solver.
      * apply IH. exists l1, l2. set_solver.
Qed.

Lemma firsts_fresh l seen a : a ∈ firsts seen l -> Username a ∉ seen.
Proof. intros (l1 & l2 & _ & _ & ? & _)%firsts_elem. done. Qed.

Lemma firsts_well_formed l seen : Forall (λ a, well_formed a = true) (firsts seen l).
Proof. apply Forall_forall. intros a (l1 & l2 & _ & ? & _)%firsts_elem. done. Qed.

Lemma firsts_NoDup l seen : NoDup (Username <$> firsts seen l).
Proof.
  revert seen. induction l as [|a l IH]; intros seen; cbn [firsts]; [constructor|].
  case_match; [|apply IH]. cbn [fmap list_fmap]. constructor; [|apply IH].
  intros (b & Eb & Hb)%list_elem_of_fmap. apply firsts_fresh in Hb. set_solver.
Qed.

Lemma PartitionAccounts_firsts c : (PartitionAccounts c).1 = firsts ∅ (Accounts c).
Proof.
  unfold PartitionAccounts. pose proof (partitionLoop_spec (Accounts c) 0 ∅) as Hp.
  destruct (partitionLoop _ _ _). by destruct Hp as [-> _]; [set_solver|].
Qed.

Lemma served_valid c a : a ∈ (PartitionAccounts c).1 -> ValidUsername (Username a) = true.
Proof.
  rewrite PartitionAccounts_firsts. pose proof (firsts_well_formed (Accounts c) ∅) as Hw.
  rewrite Forall_forall in Hw. intros Hin%Hw. unfold well_formed in Hin. by bools.
Qed.

Lemma served_NoDup c : NoDup (Username <$> (PartitionAccounts c).1).
Proof. rewrite PartitionAccounts_firsts. apply firsts_NoDup. Qed.
End PartitionFacts.

(** ** What validation means *)

(** A listener's fixed address; port 0 asks the kernel for a free one. *)
Definition fixed_addr (l : Listener) : bool := negb (HasSuffix (l_Addr l) (lit ":0")).

Definition listener_ok (l : Listener) : Prop := l_Addr l <> [] /\ listener_mode_ok (l_Mode l) = true.

Definition rate_limit_ok (rl : RateLimit) : Prop :=
  Addresses (Store rl) <> [] /\ (s_InsecureSkipVerify (Store rl) = true -> s_TLS (Store rl) = true).

(** A servable configuration. *)
Record servable (c : Config) : Prop := {
  sv_listener : Listeners c <> [];
  sv_listeners : Forall listener_ok (Listeners c);
  sv_addresses : NoDup (l_Addr <$> List.filter fixed_addr (Listeners c));
  sv_certificate : Certificates (TLS c) <> [];
  sv_certificates : Forall (λ x, certificate_complete x = true) (Certificates (TLS c));
  sv_host : Host (upstream c) <> [];
  sv_mode : upstream_mode_ok (u_TLS (upstream c)) = true;
  sv_rate : match rateLimit c with Some rl => rate_limit_ok rl | None => True end;
  sv_milters : Forall (λ m, exists na, ParseAddress m = inl na) (Milters c)
}.

Lemma guard_nil {A} (b : bool) (x : A) : (if b then [x] else []) = [] <-> b = false.
Proof. by destruct b. Qed.

Lemma guard_nil' {A} (b : bool) (x : A) : (if b then [] else [x]) = [] <-> b = true.
Proof. by destruct b. Qed.

Lemma no_length {A} (l : list A) : (length l =? 0)%nat = false <-> l <> [].
Proof. by destruct l. Qed.

Lemma concat_imap_nil {A B} (f : nat -> A -> list B) l (P : A -> Prop) :
  (forall i x, f i x = [] <-> P x) -> concat (imap f l) = [] <-> Forall P l.
Proof.
  revert f. induction l as [|x l IH]; intros f Hf; [by split|].
  rewrite imap_cons. cbn [concat]. rewrite app_nil, Forall_cons, (Hf 0%nat x).
  by rewrite (IH (f ∘ S)) by (intros; apply Hf).
Qed.

(** No fixed address of [ls] is in [seen]. *)
Definition unseen (seen : gset bytes) (ls : list Listener) : Prop :=
  Forall (λ l, fixed_addr l = true -> l_Addr l ∉ seen) ls.

Lemma unseen_add a seen ls :
  unseen ({[a]} ∪ seen) ls <-> (a ∉ (l_Addr <$> List.filter fixed_addr ls)) /\ unseen seen ls.
Proof.
  unfold unseen. rewrite list_elem_of_fmap. setoid_rewrite elem_of_bfilter.
  rewrite !Forall_forall. split.
  - intros Hu. split; [intros (l & -> & Hf & Hl)|intros l Hl Hf]; specialize (Hu l Hl Hf); set_solver.
  - intros [Hn Hu] l Hl Hf. specialize (Hu l Hl Hf). assert (a <> l_Addr l) by naive_solver.
    set_solver.
Qed.

Lemma checkListeners_nil ls i seen :
  checkListeners i seen ls = [] <->
  Forall listener_ok ls /\ NoDup (l_Addr <$> List.filter fixed_addr ls) /\ unseen seen ls.
Proof.
  revert i seen. induction ls as [|l ls IH]; intros i seen.
  { split; [|done]. intros _. split_and!; constructor. }
  cbn [checkListeners List.filter]. rewrite !app_nil, guard_nil, guard_nil', Forall_cons.
  unfold unseen at 1. rewrite Forall_cons. fold (unseen seen ls).
  assert (Hl : listener_ok l <-> l_Addr l <> [] /\ listener_mode_ok (l_Mode l) = true) by done.
  destruct (HasSuffix (l_Addr l) (lit ":0")) eqn:Es.
  - assert (Hf : fixed_addr l = false) by (unfold fixed_addr; by rewrite Es).
    rewrite IH, bool_decide_eq_false, Hf. assert (false = true -> l_Addr l ∉ seen) by done. tauto.
  - assert (Hf : fixed_addr l = true) by (unfold fixed_addr; by rewrite Es).
    rewrite app_nil, guard_nil, IH, !bool_decide_eq_false, unseen_add, Hf. cbn [fmap list_fmap].
    rewrite NoDup_cons. assert (true = true) by done. tauto.
Qed.

Lemma Validate_servable (c : Config) : Validate c = [] <-> servable c.
Proof.
  unfold Validate. rewrite !app_nil, !guard_nil, !guard_nil', !no_length, checkListeners_nil.
  rewrite (concat_imap_nil _ _ (λ x, certificate_complete x = true)) by (intros; apply guard_nil').
  rewrite (concat_imap_nil _ _ (λ m, exists na, ParseAddress m = inl na)).
  2:{ intros i m. destruct (ParseAddress m); split; [eauto|done|done|]. by intros [? ?]. }
  assert (Hr : match rateLimit c with
    | Some rl => (if (length (Addresses (Store rl)) =? 0)%nat then [StoreAddressesRequired] else []) ++
        (if s_InsecureSkipVerify (Store rl) && negb (s_TLS (Store rl)) then [StoreSkipVerifyWithoutTLS] else [])
    | None => [] end = [] <-> match rateLimit c with Some rl => rate_limit_ok rl | None => True end).
  { destruct (rateLimit c) as [rl|]; [|done].
    rewrite app_nil, !guard_nil, no_length. unfold rate_limit_ok.
    destruct (s_InsecureSkipVerify _), (s_TLS _); naive_solver. }
  rewrite Hr, bool_decide_eq_false. split.
  - intros (? & (? & ? & _) & ? & ? & ? & ? & ? & ?). by constructor.
  - intros []. split_and!; try done. by apply Forall_true.
Qed.

(** Defaults never make a servable configuration unservable. *)
Lemma applyDefaults_servable (c : Config) : servable c -> servable (applyDefaults c).
Proof.
  intros []. constructor; cbn; try done.
  - by destruct (Listeners c).
  - apply Forall_fmap. eapply Forall_impl; [done|]. intros l [Ha Hm]. split; cbn; [done|].
    unfold or_default. by case_bool_decide.
  - assert (Hf : forall ls, l_Addr <$> List.filter fixed_addr (defaultListener <$> ls) =
                  l_Addr <$> List.filter fixed_addr ls); [|by rewrite Hf].
    induction ls as [|l ls IH]; cbn; [done|]. change (fixed_addr (defaultListener l)) with (fixed_addr l).
    destruct (fixed_addr l); cbn; by rewrite ?IH.
Qed.

(** ** Properties *)

(** Validation is exact: it reports no problem precisely for the servable
    configurations (a listener with an address and a TLS mode, no fixed address
    twice, complete certificates, a named upstream with a known mode, a quota
    store to count in and no unverified store without TLS, dialable filters). *)
Theorem Validate_exact (c : Config) : Validate c = [] <-> servable c.
Proof. apply Validate_servable. Qed.

(** Defaulting settles: applying it twice changes nothing more, and after it
    no limit, timeout, port, mode or hostname is left at the zero value that
    would mean "unlimited" or "unset" downstream. *)
Theorem applyDefaults_settles (c : Config) :
  let d := applyDefaults c in
  applyDefaults d = d /\ Hostname d <> [] /\
  MaxMessageBytes (limits d) <> 0 /\ MaxRecipients (limits d) <> 0 /\
  ReadTimeout (limits d) <> 0 /\ WriteTimeout (limits d) <> 0 /\
  MaxLineLength (limits d) <> 0 /\ MaxConnections (limits d) <> 0 /\
  SpoolThreshold (limits d) <> 0 /\ u_Timeout (upstream d) <> 0 /\ Port (upstream d) <> 0 /\
  Forall (λ l, l_Mode l <> []) (Listeners d).
Proof.
  split.
  { unfold applyDefaults, defaultLimits, defaultUpstream. simpl.
    autorewrite with mailout. f_equal. rewrite <- list_fmap_compose. apply list_fmap_ext.
    intros ? l _. unfold defaultListener. simpl. by autorewrite with mailout. }
  simpl. split_and!; try (apply or_default_nonzero; vm_compute; done).
  - apply or_default_nonzero. by case_match.
  - apply Forall_fmap, Forall_true. intros l. by apply or_default_nonzero.
Qed.

Section Accounts.
Context `{Bcrypt}.

End Accounts.
