(* ===== verification/Auth.v ===== *)
(** * Auth: credentials

    Models the second half of [src/internal/gateway/auth.go]: the account store
    and the SASL LOGIN server. [authenticate] also returns the hashes it had
    compared, since how much work a refusal costs is part of its contract. *)

From S2P Require Import Prelude Unicode GoStrings Metrics Passwords Config.
#[local] Open Scope Z_scope.

Module Auth.

Record accountStore := mkStore_ {
  byUsername : gmap bytes Account;
  dummyHash : bytes
}.

Definition dummyPassword : bytes := lit "mailout-timing-equalizer".

(** The map holds, for each name, the last account of that name. *)
Definition index_accounts (accounts : list Account) : gmap bytes Account :=
  foldl (λ m acct, <[Username acct := acct]> m) ∅ accounts.

Section Store.
Context `{Bcrypt}.

(** [None] is the panic when bcrypt cannot hash the timing equalizer. *)
Definition newAccountStore (salt : nat) (accounts : list Account) : option accountStore :=
  match bcrypt_Generate salt dummyPassword Passwords.BcryptCost with
  | Ok h => Some (mkStore_ (index_accounts accounts) h)
  | Err _ => None
  end.

(** The hashes compared, and the account or the reason there is none. *)
Definition authenticate (s : accountStore) (username password : bytes)
    : list bytes * result Account :=
  match byUsername s !! username with
  | None => ([dummyHash s], Err EAuthFailed)
  | Some acct =>
      ([PasswordHash acct],
       if negb (bcrypt_Compare (PasswordHash acct) password) then Err EAuthFailed
       else if Disabled acct then Err EAccountDisabled
       else Ok acct)
  end.
End Store.

Definition label (s : accountStore) (username : bytes) : bytes :=
  match byUsername s !! username with
  | Some _ => username
  | None => Metrics.unknownAccount
  end.

(** ** The LOGIN mechanism *)

Record loginServer := mkLogin { username : bytes; state : Z }.

Definition newLoginServer : loginServer := mkLogin [] 0.

Section Login.
(** The authenticator acts on the state of the session it belongs to. *)
Context {S : Type} (authenticator : bytes -> bytes -> S -> option goerror * S).

(** The challenge, whether the exchange is over, and the error if any. *)
Definition Next (l : loginServer) (response : bytes) (st : S)
    : (bytes * bool * option goerror) * loginServer * S :=
  if state l =? 0 then
    if (0 <? zlen response) then
      ((lit "Password:", false, None), mkLogin response 2, st)
    else ((lit "Username:", false, None), mkLogin (username l) 1, st)
  else if state l =? 1 then
    ((lit "Password:", false, None), mkLogin response 2, st)
  else if state l =? 2 then
    let '(err, st) := authenticator (username l) response st in
    match err with
    | Some e => (([], false, Some e), mkLogin (username l) 3, st)
    | None => (([], true, None), mkLogin (username l) 3, st)
    end
  else (([], false, Some EAuthFailed), l, st).

(** A client's responses in turn: the answers it gets. *)
Fixpoint exchange (l : loginServer) (responses : list bytes) (st : S)
    : list (bytes * bool * option goerror) * loginServer * S :=
  match responses with
  | [] => ([], l, st)
  | r :: rs =>
      let '(answer, l, st) := Next l r st in
      let '(answers, l, st) := exchange l rs st in
      (answer :: answers, l, st)
  end.
End Login.

(** An authenticator that also logs what it was asked. *)
Definition logged {S} (f : bytes -> bytes -> S -> option goerror * S)
    (u p : bytes) (st : S * list (bytes * bytes)) : option goerror * (S * list (bytes * bytes)) :=
  let '(err, s) := f u p st.1 in (err, (s, st.2 ++ [(u, p)])).

(** ** Facts *)

(** With distinct usernames the map is the list. *)
Lemma index_accounts_lookup l u a :
  NoDup (Username <$> l) -> index_accounts l !! u = Some a <-> a ∈ l /\ Username a = u.
Proof.
  unfold index_accounts. induction l as [|x l IH] using rev_ind; intros Hnd.
  { simpl. rewrite lookup_empty. split; [done|]. by intros [?%elem_of_nil _]. }
  rewrite fmap_app, NoDup_app in Hnd. destruct Hnd as (Hnd & Hx & _).
  rewrite foldl_app. simpl. rewrite elem_of_app, list_elem_of_singleton.
  destruct (decide (Username x = u)) as [<-|Hne].
  - rewrite lookup_insert_eq. split; [intros [= ->]; auto|]. intros [[Ha| ->] Hu]; [|done].
    exfalso. apply (Hx (Username a)); [by apply list_elem_of_fmap_2|]. rewrite Hu. simpl. by left.
  - rewrite lookup_insert_ne by done. rewrite IH by done. naive_solver.
Qed.

(** In state 3 and beyond the server only refuses. *)
Lemma exchange_spent {S} (f : bytes -> bytes -> S -> option goerror * S) rs l st :
  state l = 3 ->
  let '(answers, _, st') := exchange f l rs st in
  st' = st /\ Forall (λ a, a = ([], false, Some EAuthFailed)) answers.
Proof.
  revert st. induction rs as [|r rs IH]; intros st Hl; simpl; [done|].
  unfold Next. rewrite Hl. simpl. specialize (IH st Hl).
  destruct (exchange f l rs st) as [[answers l'] st']. destruct IH as [-> IH]. by split; [|constructor].
Qed.

Lemma logged_exchange {S} (f : bytes -> bytes -> S -> option goerror * S) rs l s :
  0 <= state l <= 3 ->
  let '(answers, _, (s', log)) := exchange (logged f) l rs (s, []) in
  (log = [] /\ s' = s /\ Forall (λ a, a.1.2 = false) answers) \/
  exists u p err, log = [(u, p)] /\ f u p s = (err, s') /\
    (forall a, a ∈ answers -> a.1.2 = true -> err = None).
Proof.
  revert l s. induction rs as [|r rs IH]; intros l s Hl; cbn [exchange].
  { by left. }
  assert (Hquiet : forall a l1, a.1.2 = false -> 0 <= state l1 <= 3 ->
    let '(answers, _, (s', log)) := let '(answers, l, st) := exchange (logged f) l1 rs (s, []) in (a :: answers, l, st) in
    (log = [] /\ s' = s /\ Forall (λ a, a.1.2 = false) answers) \/
    exists u p err, log = [(u, p)] /\ f u p s = (err, s') /\
      (forall a, a ∈ answers -> a.1.2 = true -> err = None)).
  { intros a l1 Ha Hl1. specialize (IH l1 s Hl1).
    destruct (exchange (logged f) l1 rs (s, [])) as [[answers l2] [s' log]].
    destruct IH as [(-> & -> & Hf)|(u & p & err & -> & E & Hd)].
    - left. split_and!; [done|done|by constructor].
    - right. exists u, p, err. split_and!; [done|done|].
      intros b [->|Hb]%elem_of_cons Ht; [congruence|by apply (Hd b)]. }
  unfold Next. destruct (state l =? 0) eqn:E0; [destruct (0 <? zlen r); by apply Hquiet|].
  destruct (state l =? 1) eqn:E1; [by apply Hquiet|].
  destruct (state l =? 2) eqn:E2; bools; [|apply Hquiet; simpl; [done|lia]].
  unfold logged at 1. cbn [fst snd]. destruct (f (username l) r s) as [err s1] eqn:Ef.
  pose proof (exchange_spent (logged f) rs (mkLogin (username l) 3) (s1, [(username l, r)]) eq_refl) as Hs.
  destruct err as [e|]; cbn [app];
    destruct (exchange (logged f) (mkLogin (username l) 3) rs _) as [[answers l2] [s' log]];
    destruct Hs as [[= -> ->] Hf]; right; do 3 eexists; (split; [done|]; split; [done|]).
  - intros a Ha Ht. rewrite Forall_forall in Hf.
    apply elem_of_cons in Ha as [->|Ha]; [done|]. by rewrite (Hf a Ha) in Ht.
  - done.
Qed.

End Auth.

(** ** Properties *)

Section Properties.
Context `{B : Bcrypt}.

(** C29: no other way in: credentials are accepted exactly for an enabled
    account of that very username whose stored hash matches the password; the
    session then gets that account and no other. *)
Theorem authenticate_exact (salt : nat) (accounts : list Account) (s : Auth.accountStore)
    (username password : bytes) (a : Account) :
  NoDup (Username <$> accounts) -> Auth.newAccountStore salt accounts = Some s ->
  (Auth.authenticate s username password).2 = Ok a <->
  a ∈ accounts /\ Username a = username /\ Disabled a = false /\
  bcrypt_Compare (PasswordHash a) password = true.
Proof.
  unfold Auth.newAccountStore. intros Hnd Hs. case_match; [|done]. injection Hs as <-.
  unfold Auth.authenticate. simpl.
  assert (Hl : forall b, Auth.index_accounts accounts !! username = Some b <->
    b ∈ accounts /\ Username b = username) by (intros; by apply Auth.index_accounts_lookup).
  destruct (Auth.index_accounts accounts !! username) as [b|]; simpl.
  - destruct (proj1 (Hl b) eq_refl) as [Hb Hu].
    assert (Huniq : a ∈ accounts -> Username a = username -> a = b)
      by (intros Ha Hua; assert (E := proj2 (Hl a) (conj Ha Hua)); congruence).
    destruct (bcrypt_Compare (PasswordHash b) password) eqn:Ec; simpl.
    + destruct (Disabled b) eqn:Ed; split; try done.
      * intros (Ha & Hua & Hda & _). rewrite (Huniq Ha Hua) in Hda. congruence.
      * intros [= <-]. done.
      * intros (Ha & Hua & _). f_equal. symmetry. by apply Huniq.
    + split; [done|]. intros (Ha & Hua & _ & Hca). rewrite (Huniq Ha Hua) in Hca. congruence.
  - split; [done|]. intros (Ha & Hua & _). by assert (E := proj2 (Hl a) (conj Ha Hua)).
Qed.

(** Whatever the username, an authentication attempt costs one bcrypt
    comparison against a hash whose cost is inside the band: an unknown
    username is not answered for free, and no tenant's hash can be costlier
    than the band allows. *)
Theorem authenticate_costs_one_comparison `{!BcryptSound B} (salt : nat) (c : Config)
    (s : Auth.accountStore) (username password : bytes) :
  Auth.newAccountStore salt (PartitionAccounts c).1 = Some s ->
  exists h cost, (Auth.authenticate s username password).1 = [h] /\
    bcrypt_Cost h = Some cost /\
    Passwords.MinBcryptCost <= cost <= Passwords.MaxBcryptCost.
Proof.
  unfold Auth.newAccountStore. intros Hs. case_match eqn:Eg; [|done]. injection Hs as <-.
  unfold Auth.authenticate. simpl.
  destruct (Auth.index_accounts _ !! username) as [b|] eqn:Eb; simpl.
  - apply Auth.index_accounts_lookup in Eb as [Hb _]; [|apply served_NoDup].
    rewrite PartitionAccounts_firsts in Hb.
    pose proof (firsts_well_formed (Accounts c) ∅) as Hw. rewrite Forall_forall in Hw.
    apply Hw in Hb. unfold well_formed, Passwords.UsableHash in Hb. bools.
    destruct (bcrypt_Cost (PasswordHash b)) as [cost|] eqn:Ec; [|done]. bools.
    exists (PasswordHash b), cost. done.
  - do 2 eexists. split; [done|]. split; [by eapply generate_cost|]. by vm_compute.
Qed.

(** The LOGIN exchange verifies at most one password: whatever the client
    sends, and for however long, the authenticator is called at most once, and
    the exchange reports success only if that call did. *)
Theorem login_authenticates_at_most_once {S} (f : bytes -> bytes -> S -> option goerror * S)
    (responses : list bytes) (s : S) :
  let '(answers, _, (s', log)) := Auth.exchange (Auth.logged f) Auth.newLoginServer responses (s, []) in
  (log = [] /\ s' = s /\ Forall (λ a, a.1.2 = false) answers) \/
  exists u p err, log = [(u, p)] /\ f u p s = (err, s') /\
    (forall a, a ∈ answers -> a.1.2 = true -> err = None).
Proof. by apply Auth.logged_exchange. Qed.
End Properties.

(** An account of the toy bcrypt. *)
Definition toy_account (name pw : string) : Account :=
  mkAccount (lit name) (chr 12 :: lit pw) false [] false.

Definition toy_config (accounts : list Account) : Config :=
  mkConfig (lit "mx") [] (mkTLSConfig [] []) (mkUpstream [] 0 [] false [] [] [] 0) accounts [] []
    None (mkLimits 0 0 0 0 0 0 [] 0) [].

Lemma authenticate_exact_witness :
  (Auth.authenticate (H := toy_bcrypt)
     (Auth.mkStore_ (Auth.index_accounts [toy_account "bob" "b"; toy_account "amy" "a"])
        (chr 12 :: Auth.dummyPassword)) (lit "amy") (lit "a")).2 = Ok (toy_account "amy" "a").
Proof.
  apply (authenticate_exact (B := toy_bcrypt) 0 [toy_account "bob" "b"; toy_account "amy" "a"]
    _ (lit "amy") (lit "a")).
  - apply (bool_decide_unpack _). vm_compute. reflexivity.
  - vm_compute. reflexivity.
  - split; [set_solver|]. vm_compute. done.
Defined.

Lemma authenticate_costs_witness :
  exists h cost,
    (Auth.authenticate (H := toy_bcrypt)
       (Auth.mkStore_ (Auth.index_accounts [toy_account "bob" "b"]) (chr 12 :: Auth.dummyPassword))
       (lit "nobody") (lit "x")).1 = [h] /\
    @bcrypt_Cost toy_bcrypt h = Some cost /\
    Passwords.MinBcryptCost <= cost <= Passwords.MaxBcryptCost.
Proof.
  apply (authenticate_costs_one_comparison (B := toy_bcrypt) 0 (toy_config [toy_account "bob" "b"])).
  vm_compute. reflexivity.
Defined.
