(* ===== verification/RateLimit.v ===== *)
(** * RateLimit: quotas counted in a shared store

    Models [src/internal/gateway/ratelimit.go]. The store (Redis or Valkey,
    through go-redis) is a parameter: what the pipeline answers is a function of
    the call, of the connection, of the key and the amount, and of the
    increments confirmed so far. A connection that was closed answers nothing.
    The increments the store confirmed are logged in the world. *)

From S2P Require Import Prelude Unicode GoStrings Metrics World Passwords Config.
#[local] Open Scope Z_scope.

(** [pipe.IncrBy; pipe.ExpireNX; pipe.Exec; incr.Result]: call number, connection,
    confirmed increments, key, amount and timeout. *)
Class QuotaStore := {
  pipeline : nat -> nat -> list (bytes * Z) -> bytes -> Z -> Z -> result Z
}.

(** crypto/x509: does [AppendCertsFromPEM] find a certificate? *)
Class CertPool := { appendCertsFromPEM : bytes -> bool }.

Module RateLimit.

Definition rateLimitWindow : Z := 60 * second.
Definition defaultRateLimitTimeout : Z := 2 * second.

Definition sameStore (a b : RateLimitStore) : bool :=
  (Addresses a =b Addresses b) && (MasterName a =b MasterName b) && (DB a =? DB b) &&
  (s_Username a =b s_Username b) && (s_Password a =b s_Password b) &&
  (SentinelUsername a =b SentinelUsername b) && (SentinelPassword a =b SentinelPassword b) &&
  eqb (s_TLS a) (s_TLS b) && eqb (s_InsecureSkipVerify a) (s_InsecureSkipVerify b) &&
  (s_RootCAPEM a =b s_RootCAPEM b) && (s_Timeout a =? s_Timeout b).

Record limiter := mkLimiter {
  client : nat;       (* the connection *)
  gateway : bytes;
  lim : RateLimit
}.

Definition newLimiter `{CertPool} (cfg : Config) : IO (result (option limiter)) :=
  match rateLimit cfg with
  | None => ret (Ok None)
  | Some rl =>
      let store := Store rl in
      if (length (Addresses store) =? 0)%nat then
        ret (Err (EText (lit "rateLimit.store.addresses is required")))
      else if s_TLS store && (s_RootCAPEM store <>b []) &&
              negb (appendCertsFromPEM (s_RootCAPEM store)) then
        ret (Err (EText (lit "rateLimit.store: no certificate found in rootCAPEM")))
      else
        let! c := openClient in
        ret (Ok (Some (mkLimiter c (Hostname cfg) rl)))
  end.

Definition storeMode (store : RateLimitStore) : bytes :=
  if MasterName store <>b [] then lit "sentinel"
  else if (1 <? length (Addresses store))%nat then lit "cluster"
  else lit "standalone".

(** A limiter is built with a connection, so a limiter that is there has one. *)
Definition empty (l : option limiter) : bool :=
  match l with None => true | Some _ => false end.

Definition close (l : option limiter) : IO unit :=
  match l with None => ret tt | Some l => closeClient (client l) end.

Definition errOverQuota (what : bytes) : SMTPError :=
  mkSMTPError 452 (4, 2, 2) (lit "Too many " ++ what ++ lit " for this account, try again later").

Definition errStoreUnavailable : SMTPError :=
  mkSMTPError 451 (4, 3, 2) (lit "Quota store unavailable, try again later").

(** The counter of an account in a dimension and a window. *)
Definition keyAt (l : limiter) (account dimension : bytes) (window : Z) : bytes :=
  lit "mailout:" ++ gateway l ++ lit ":" ++ account ++ lit ":" ++ dimension ++ lit ":" ++ itoa window.

Section Ops.
Context `{K : Kernel} `{Q : QuotaStore}.

Definition key (l : limiter) (account dimension : bytes) : IO bytes :=
  let! t := now in
  ret (keyAt l account dimension (t ÷ (rateLimitWindow / second))).

Definition increment (l : limiter) (account dimension : bytes) (by_ timeout : Z) : IO (result Z) :=
  let! k := key l account dimension in
  let! t := next in
  let! log := get counted in
  let! closed := get closedClients in
  if bool_decide (client l ∈ closed) then ret (Err (EText (lit "redis: client is closed")))
  else
    match pipeline t (client l) log k by_ timeout with
    | Err e => ret (Err e)
    | Ok n => count k by_ ;; ret (Ok n)
    end.

(** One pass of the loop over the dimensions; [None] goes on to the next. *)
Definition checkDimension (l : limiter) (account dimension : bytes) (limit by_ timeout : Z)
    : IO (option SMTPError) :=
  if (limit <=? 0) || (by_ <=? 0) then ret None
  else
    let! r := increment l account dimension by_ timeout in
    match r with
    | Err _ =>
        record (Metrics.rateLimitDecided account Metrics.rateLimitError) ;;
        ret (Some errStoreUnavailable)
    | Ok n =>
        if (limit <? n) then
          record (Metrics.rateLimitDecided account Metrics.rateLimitDenied) ;;
          ret (Some (errOverQuota dimension))
        else ret None
    end.

(** Count one message and its recipients; [None] is the nil error. *)
Definition check (l : option limiter) (account : bytes) (recipients : Z) : IO (option SMTPError) :=
  match l with
  | None => ret None
  | Some l =>
      let timeout := s_Timeout (Store (lim l)) in
      let timeout := if timeout =? 0 then defaultRateLimitTimeout else timeout in
      let! r := checkDimension l account (lit "messages") (MessagesPerMinute (lim l)) 1 timeout in
      match r with
      | Some e => ret (Some e)
      | None =>
          let! r := checkDimension l account (lit "recipients")
                      (RecipientsPerMinute (lim l)) recipients timeout in
          match r with
          | Some e => ret (Some e)
          | None =>
              record (Metrics.rateLimitDecided account Metrics.rateLimitAllowed) ;; ret None
          end
      end
  end.
End Ops.

(** ** Facts *)

Lemma sameStore_eq a b : sameStore a b = true <-> a = b.
Proof.
  unfold sameStore. rewrite !andb_true_iff, !bool_decide_eq_true, !Z.eqb_eq, !eqb_true_iff.
  destruct a, b; simpl. split; [naive_solver|]. by intros [= -> -> -> -> -> -> -> -> -> -> ->].
Qed.

Definition COLON_ : ascii := chr 58.

Lemma itoa_no_colon z : COLON_ ∉ itoa z.
Proof.
  intros Hin. pose proof (itoa_numeral z) as Hn. rewrite Forall_forall in Hn.
  apply Hn in Hin. revert Hin. unfold numeral. change (byteZ COLON_) with 58. lia.
Qed.

Lemma colon_split (a b x y : bytes) :
  COLON_ ∉ a -> COLON_ ∉ b -> a ++ COLON_ :: x = b ++ COLON_ :: y -> a = b /\ x = y.
Proof.
  intros Ha Hb E%(f_equal (λ s, Cut s COLON_)). simpl in E. rewrite !Cut_at in E by done.
  by injection E.
Qed.

(** The usernames served and the dimensions have no colon, so the fields of a
    key can be read back. *)
Lemma keyAt_inj l l' a a' d d' w w' :
  gateway l = gateway l' ->
  COLON_ ∉ a -> COLON_ ∉ a' -> COLON_ ∉ d -> COLON_ ∉ d' ->
  keyAt l a d w = keyAt l' a' d' w' -> a = a' /\ d = d' /\ w = w'.
Proof.
  unfold keyAt. intros -> Ha Ha' Hd Hd' E. apply app_inv_head, app_inv_head in E.
  change (lit ":") with [COLON_] in E. simpl in E. injection E as E.
  apply colon_split in E as [-> E]; [|done..].
  apply colon_split in E as [-> E]; [|done..]. by apply itoa_inj in E.
Qed.

(** The total confirmed for a key. *)
Fixpoint total (k : bytes) (log : list (bytes * Z)) : Z :=
  match log with
  | [] => 0
  | (k', n) :: log' => (if k' =b k then n else 0) + total k log'
  end.

Lemma total_app k l1 l2 : total k (l1 ++ l2) = total k l1 + total k l2.
Proof. induction l1 as [|[k' n] l1 IH]; simpl; [done|]. rewrite IH. lia. Qed.

Lemma total_nonneg k log : Forall (λ p, 0 <= p.2) log -> 0 <= total k log.
Proof. induction 1 as [|[k' n] log Hn _ IH]; simpl in *; [done|]. case_match; lia. Qed.

End RateLimit.

(** What the store is relied on for: a confirmed increment answers at least what
    was confirmed before plus what was added. More is possible: other replicas
    count too, and an increment whose answer was lost stays counted. *)
Class StoreCounts (Q : QuotaStore) := {
  pipeline_counts t c log k by_ timeout n :
    pipeline t c log k by_ timeout = Ok n -> RateLimit.total k log + by_ <= n
}.

Module Quota.
Import RateLimit.

Section Runs.
Context `{K : Kernel} `{Q : QuotaStore}.

(** A request's outcome: was it accepted, and what did it get counted? *)
Definition checked (l : limiter) (req : bytes * Z) : IO (bool * list (bytes * Z)) :=
  λ w, let '(r, w') := check (Some l) req.1 req.2 w in
    ((match r with None => true | Some _ => false end,
      drop (length (counted w)) (counted w')), w').

Fixpoint runChecks (l : limiter) (reqs : list (bytes * Z)) : IO (list (bool * list (bytes * Z))) :=
  match reqs with
  | [] => ret []
  | req :: reqs' =>
      let! o := checked l req in
      let! os := runChecks l reqs' in
      ret (o :: os)
  end.
End Runs.

(** What the accepted requests got counted for a key. *)
Definition admitted (k : bytes) (os : list (bool * list (bytes * Z))) : Z :=
  foldr Z.add 0 ((λ o : bool * list (bytes * Z), if o.1 then total k o.2 else 0) <$> os).

Definition limitOf (l : limiter) (messages : bool) : Z :=
  if messages then MessagesPerMinute (lim l) else RecipientsPerMinute (lim l).

Definition dimensionName (messages : bool) : bytes :=
  if messages then lit "messages" else lit "recipients".

Section Facts.
Context `{K : Kernel} `{Q : QuotaStore} `{!StoreCounts Q}.
#[local] Set Default Proof Using "Type*".

Lemma dimension_no_colon m : COLON_ ∉ dimensionName m.
Proof. apply (bool_decide_unpack _). by destruct m; vm_compute. Qed.

Lemma checkDimension_spec l a d limit by_ timeout w :
  let '(r, w') := checkDimension l a d limit by_ timeout w in
  closedClients w' = closedClients w /\
  ((counted w' = counted w /\ (r = None -> limit <= 0 \/ by_ <= 0)) \/
   (0 < limit /\ 0 < by_ /\ exists win,
      counted w' = counted w ++ [(keyAt l a d win, by_)] /\
      (r = None -> total (keyAt l a d win) (counted w') <= limit))).
Proof.
  unfold checkDimension. destruct ((limit <=? 0) || (by_ <=? 0)) eqn:E0.
  { simpl. split; [done|]. left. split; [done|]. intros _.
    apply orb_true_iff in E0 as [?|?]; bools; auto. }
  bools. unfold increment, key, now. run_io.
  case_bool_decide; simpl; [split; [done|]; by left|].
  set (k := keyAt _ _ _ _). destruct (pipeline _ _ _ _ _ _) as [n|e] eqn:Ep; simpl.
  - apply pipeline_counts in Ep. destruct (limit <? n) eqn:El; simpl; (split; [done|]); right;
      (split; [done|]; split; [done|]); eexists; split; [done|done|done|].
    intros _. bools. fold k. rewrite total_app. simpl. rewrite bool_decide_eq_true_2 by done. lia.
  - split; [done|]. by left.
Qed.

(** An accepted check leaves both counters within their limits. *)
Lemma check_spec l a n w :
  let '(r, w') := check (Some l) a n w in
  exists d1 d2, counted w' = counted w ++ d1 ++ d2 /\
    (d1 = [] \/ exists win, d1 = [(keyAt l a (dimensionName true) win, 1)] /\
       (r = None -> total (keyAt l a (dimensionName true) win) (counted w ++ d1) <= limitOf l true)) /\
    (d2 = [] \/ exists win, d2 = [(keyAt l a (dimensionName false) win, n)] /\ 0 < n /\
       (r = None -> total (keyAt l a (dimensionName false) win) (counted w') <= limitOf l false)).
Proof.
  unfold check. generalize (if s_Timeout (Store (lim l)) =? 0 then defaultRateLimitTimeout
    else s_Timeout (Store (lim l))) as timeout. intros timeout. unfold bind.
  pose proof (checkDimension_spec l a (lit "messages") (MessagesPerMinute (lim l)) 1 timeout w) as H1.
  destruct (checkDimension l a (lit "messages") _ _ _ w) as [r1 w1]. destruct H1 as [_ H1].
  assert (Hd1 : exists d1, counted w1 = counted w ++ d1 /\
    (d1 = [] \/ exists win, d1 = [(keyAt l a (dimensionName true) win, 1)] /\
      (r1 = None -> total (keyAt l a (dimensionName true) win) (counted w ++ d1) <= limitOf l true))).
  { destruct H1 as [[E _]|(_ & _ & win & E & Hle)].
    - exists []. rewrite app_nil_r. auto.
    - eexists. split; [done|]. right. exists win. split; [done|]. intros Hr. rewrite <- E. by apply Hle. }
  clear H1. destruct Hd1 as (d1 & E1 & Hd1). destruct r1 as [e|].
  { exists d1, []. rewrite app_nil_r. split; [done|]. split; [|by left].
    destruct Hd1 as [?|(win & ? & _)]; [by left|]. right. exists win. by split. }
  pose proof (checkDimension_spec l a (lit "recipients") (RecipientsPerMinute (lim l)) n timeout w1) as H2.
  destruct (checkDimension l a (lit "recipients") _ _ _ w1) as [r2 w2]. destruct H2 as [_ H2].
  assert (Hd2 : exists d2, counted w2 = counted w ++ d1 ++ d2 /\
    (d2 = [] \/ exists win, d2 = [(keyAt l a (dimensionName false) win, n)] /\ 0 < n /\
      (r2 = None -> total (keyAt l a (dimensionName false) win) (counted w2) <= limitOf l false))).
  { setoid_rewrite (assoc_L (++)). rewrite <- E1. destruct H2 as [[E _]|(_ & Hn & win & E & Hle)].
    - exists []. rewrite app_nil_r. auto.
    - eexists. split; [done|]. right. exists win. by split_and!. }
  destruct Hd2 as (d2 & E2 & Hd2).
  destruct r2; run_io; exists d1, d2; (split; [done|]; split; [|done]);
    destruct Hd1 as [?|(win & ? & ?)]; eauto.
Qed.

Lemma admitted_bound l (m : bool) a0 win0 reqs w :
  let k := keyAt l a0 (dimensionName m) win0 in
  COLON_ ∉ a0 -> Forall (λ req : bytes * Z, COLON_ ∉ req.1) reqs ->
  forall acc, 0 <= acc -> acc <= total k (counted w) -> acc <= Z.max 0 (limitOf l m) ->
  acc + admitted k (runChecks l reqs w).1 <= Z.max 0 (limitOf l m).
Proof.
  intros k Ha0. revert w. induction reqs as [|[a n] reqs IH]; intros w Hall acc H0 Htot Hlim.
  { unfold admitted. simpl. lia. }
  apply Forall_cons in Hall as [Ha Hall]. simpl in Ha. cbn [runChecks]. unfold bind, checked at 1.
  cbn [fst snd]. pose proof (check_spec l a n w) as Hc.
  destruct (check (Some l) a n w) as [r w1]. destruct Hc as (d1 & d2 & E & Hd1 & Hd2).
  assert (Hother : forall m' win, m' <> m -> keyAt l a (dimensionName m') win <> k).
  { intros m' win Hm Ek. apply keyAt_inj in Ek as (_ & Ed & _); auto using dimension_no_colon.
    by destruct m, m'. }
  rewrite E, drop_app_length. specialize (IH w1 Hall).
  destruct (runChecks l reqs w1) as [os w2]. unfold admitted, ret in *. cbn [fst snd fmap list_fmap foldr] in *.
  assert (Hk1 : 0 <= total k d1).
  { destruct Hd1 as [->|(win & -> & _)]; simpl; [done|]. case_match; lia. }
  assert (Hk2 : 0 <= total k d2).
  { destruct Hd2 as [->|(win & -> & ? & _)]; simpl; [done|]. case_match; lia. }
  destruct r as [e|]; cbn [fst snd].
  { rewrite Z.add_0_l. apply IH; [done| |done]. rewrite E, !total_app. lia. }
  rewrite total_app, Z.add_assoc. apply IH; [lia|rewrite E, !total_app; lia|].
  destruct m.
  - assert (Hz : total k d2 = 0).
    { destruct Hd2 as [->|(win & -> & _)]; cbn [total]; [done|].
      rewrite bool_decide_eq_false_2 by (by apply Hother). lia. }
    destruct Hd1 as [->|(win & -> & Hle)]; cbn [total]; [lia|]. case_bool_decide as Ek; [|lia].
    specialize (Hle eq_refl). rewrite Ek, total_app in Hle. cbn [total] in Hle.
    rewrite bool_decide_eq_true_2 in Hle by done. lia.
  - assert (Hz : total k d1 = 0).
    { destruct Hd1 as [->|(win & -> & _)]; cbn [total]; [done|].
      rewrite bool_decide_eq_false_2 by (by apply Hother). lia. }
    destruct Hd2 as [->|(win & -> & Hn & Hle)]; cbn [total]; [lia|]. case_bool_decide as Ek; [|lia].
    specialize (Hle eq_refl). rewrite Ek, E, !total_app, Hz in Hle. cbn [total] in Hle.
    rewrite bool_decide_eq_true_2 in Hle by done. lia.
Qed.
End Facts.
End Quota.

(** ** Properties *)

Section Properties.
Import RateLimit Quota.
Context `{K : Kernel} `{Q : QuotaStore}.

(** C19: the quota holds: however the requests of however many accounts follow
    one another, what the accepted ones of one account were counted in one
    window (messages, or recipients) never exceeds the limit, as long as the
    store counts and usernames are the ones the gateway serves. *)
Theorem quota_never_exceeded `{!StoreCounts Q} (l : limiter) (messages : bool) (account : bytes)
    (window : Z) (reqs : list (bytes * Z)) (w : World) :
  counted w = [] -> 0 < limitOf l messages ->
  ValidUsername account = true -> Forall (λ req, ValidUsername req.1 = true) reqs ->
  admitted (keyAt l account (dimensionName messages) window) (runChecks l reqs w).1
    <= limitOf l messages.
Proof.
  intros Hw Hl Ha Hall.
  assert (Hcolon : forall u, ValidUsername u = true -> COLON_ ∉ u)
    by (intros u Hu Hin; by destruct (ValidUsername_clean u _ Hu Hin)).
  pose proof (admitted_bound l messages account window reqs w (Hcolon _ Ha)) as Hb.
  specialize (Hb (Forall_impl _ _ _ Hall (λ req, Hcolon req.1)) 0 (Z.le_refl 0)).
  rewrite Hw, Z.max_r in Hb by lia. simpl in Hb. apply Hb; lia.
Qed.

(** C38: the quota fails closed: a message that has a dimension to be counted in
    is refused with a temporary error when the store does not answer, or when
    the connection was closed by a reload. *)
Theorem check_fails_closed (l : limiter) (account : bytes) (recipients : Z) (w : World) :
  0 < MessagesPerMinute (lim l) \/ (0 < RecipientsPerMinute (lim l) /\ 0 < recipients) ->
  (forall t log k by_ timeout, exists e, pipeline t (client l) log k by_ timeout = Err e) \/
  client l ∈ closedClients w ->
  (check (Some l) account recipients w).1 = Some errStoreUnavailable.
Proof.
  intros Hdim Hdown. unfold check.
  generalize (if s_Timeout (Store (lim l)) =? 0 then defaultRateLimitTimeout
    else s_Timeout (Store (lim l))). intros timeout.
  assert (Hone : forall d limit by_ w', 0 < limit -> 0 < by_ -> closedClients w' = closedClients w ->
    exists w1, checkDimension l account d limit by_ timeout w' = (Some errStoreUnavailable, w1)).
  { intros d limit by_ w' Hl Hb Hc. unfold checkDimension.
    rewrite (proj2 (Z.leb_gt limit 0)), (proj2 (Z.leb_gt by_ 0)) by done. simpl.
    unfold increment, key, now. run_io. rewrite Hc.
    case_bool_decide; simpl; [by eexists|]. destruct Hdown as [Hdown|]; [|done].
    match goal with |- context [pipeline ?t ?c ?lg ?k ?b ?to] => destruct (Hdown t lg k b to) as [e' ->] end.
    by eexists. }
  unfold bind. destruct (decide (0 < MessagesPerMinute (lim l))) as [Hm|Hm].
  { destruct (Hone (lit "messages") _ 1 w Hm) as [w1 ->]; done. }
  destruct Hdim as [?|[Hr Hn]]; [done|].
  unfold checkDimension at 1. rewrite (proj2 (Z.leb_le _ 0)) by lia. cbn [orb ret].
  unfold ret at 1. destruct (Hone (lit "recipients") _ recipients w Hr Hn eq_refl) as [w1 ->]. done.
Qed.
End Properties.

(** A store that counts: what was confirmed before, plus what is added. *)
Definition counting_store : QuotaStore :=
  {| pipeline _ _ log k by_ _ := Ok (RateLimit.total k log + by_) |}.

#[export] Instance counting_store_counts : StoreCounts counting_store.
Proof. split. simpl. intros. simplify_eq. lia. Qed.

(** A store that is down. *)
Definition dead_store : QuotaStore := {| pipeline _ _ _ _ _ _ := Err (EText (lit "timeout")) |}.

Definition toy_store : RateLimitStore :=
  mkStore [lit "valkey:6379"] [] 0 [] [] [] [] false false [] 0.

Definition toy_limiter : RateLimit.limiter :=
  RateLimit.mkLimiter 0 (lit "mx") (mkRateLimit toy_store 2 0).

(** Three messages in one window against a limit of two: two are admitted. *)
Lemma quota_never_exceeded_witness :
  let os := (@Quota.runChecks kernel_ok counting_store toy_limiter
               [(lit "app", 1); (lit "app", 1); (lit "app", 1)] world0).1 in
  fst <$> os = [true; true; false] /\
  Quota.admitted (RateLimit.keyAt toy_limiter (lit "app") (lit "messages") 0) os <= 2.
Proof.
  split; [vm_compute; reflexivity|].
  apply (@quota_never_exceeded kernel_ok counting_store _ toy_limiter true (lit "app") 0); try done.
  repeat constructor.
Defined.

Lemma check_fails_closed_witness :
  (@RateLimit.check kernel_ok dead_store (Some toy_limiter) (lit "app") 1 world0).1
  = Some RateLimit.errStoreUnavailable.
Proof.
  apply (@check_fails_closed kernel_ok dead_store toy_limiter (lit "app") 1 world0).
  - left. done.
  - left. intros. by eexists.
Defined.
