(* ===== verification/TlsStore.v ===== *)
(** * TlsStore: which certificate answers which name

    Models [src/internal/gateway/tlsstore.go]. Reading a file, pairing a
    certificate with its key and parsing it are parameters; the names a
    certificate answers to and the choice by SNI are the program's. *)

From S2P Require Import Prelude Unicode GoStrings Passwords Config.

(** What the program uses of a parsed certificate. *)
Record leafCert := mkLeaf { DNSNames : list bytes; CommonName : bytes }.
Record Certificate := mkCertificate { der : bytes; Leaf : leafCert }.

Class Pki := {
  ReadFile : bytes -> result bytes;                (* os.ReadFile *)
  X509KeyPair : bytes -> bytes -> result bytes;    (* the leaf's DER *)
  ParseCertificate : bytes -> result leafCert
}.

Module TlsStore.

Definition DOT : ascii := chr 46.

Record certStore := mkCerts {
  byName : gmap bytes Certificate;
  wildcards : gmap bytes Certificate;
  defaultCrt : Certificate
}.

Definition dnsNamesOf (leaf : leafCert) : list bytes :=
  if (0 <? length (DNSNames leaf))%nat then DNSNames leaf
  else if CommonName leaf <>b [] then [CommonName leaf]
  else [].

Section Ops.
Context `{Pki} `{Unicode}.

Definition loadKeyPair (ref : CertificateRef) : result bytes :=
  let pair c k :=
    match X509KeyPair c k with
    | Err e => Err (EWrap (lit "invalid keypair") e)
    | Ok cert => Ok cert
    end in
  if CertFile ref <>b [] then
    match ReadFile (CertFile ref) with
    | Err e => Err (EWrap (lit "read certFile") e)
    | Ok certPEM =>
        match ReadFile (KeyFile ref) with
        | Err e => Err (EWrap (lit "read keyFile") e)
        | Ok keyPEM => pair certPEM keyPEM
        end
    end
  else pair (CertPEM ref) (KeyPEM ref).

(** [certificate %s]. *)
Definition certName (i : Z) (ref : CertificateRef) : bytes :=
  lit "certificate " ++
  (if cr_Name ref =b [] then lit "certificates[" ++ itoa i ++ lit "]" else cr_Name ref).

Definition load (i : Z) (ref : CertificateRef) : result Certificate :=
  match loadKeyPair ref with
  | Err e => Err (EWrap (certName i ref) e)
  | Ok d =>
      match ParseCertificate d with
      | Err e => Err (EWrap (certName i ref ++ lit ": parse leaf") e)
      | Ok leaf => Ok (mkCertificate d leaf)
      end
  end.

(** One name of a certificate: a wildcard is filed under its parent. *)
Definition addName (cert : Certificate) (m : gmap bytes Certificate * gmap bytes Certificate)
    (dnsName : bytes) : gmap bytes Certificate * gmap bytes Certificate :=
  match CutPrefix dnsName (lit "*.") with
  | Some suffix => (m.1, <[ToLower suffix := cert]> m.2)
  | None => (<[ToLower dnsName := cert]> m.1, m.2)
  end.

(** The loop of [newCertStore]; [dflt] is nil before the first certificate. *)
Fixpoint certLoop (want : bytes) (i : Z) (m : gmap bytes Certificate * gmap bytes Certificate)
    (dflt : option Certificate) (refs : list CertificateRef)
    : result (gmap bytes Certificate * gmap bytes Certificate * option Certificate) :=
  match refs with
  | [] => Ok (m, dflt)
  | ref :: refs' =>
      match load i ref with
      | Err e => Err e
      | Ok cert =>
          let m := foldl (addName cert) m (dnsNamesOf (Leaf cert)) in
          let dflt := if (i =? 0)%Z then Some cert else dflt in
          let dflt := if (want <>b []) && (cr_Name ref =b want) then Some cert else dflt in
          certLoop want (i + 1)%Z m dflt refs'
      end
  end.

Definition newCertStore (cfg : TLSConfig) : result certStore :=
  if (length (Certificates cfg) =? 0)%nat then Err (EText (lit "no certificate configured"))
  else
    match certLoop (DefaultCertificate cfg) 0 (∅, ∅) None (Certificates cfg) with
    | Err e => Err e
    | Ok (m, Some dflt) => Ok (mkCerts m.1 m.2 dflt)
    | Ok (m, None) => Err (EText (lit "no certificate configured"))  (* not reached *)
    end.

(** [getCertificate]: an exact name, else a wildcard of the parent, else the
    default. It always answers. *)
Definition getCertificate (s : certStore) (serverName : bytes) : Certificate :=
  let name := ToLower (TrimSuffix serverName [DOT]) in
  match byName s !! name with
  | Some cert => cert
  | None =>
      let '(_, parent, found) := Cut name DOT in
      match (if found then wildcards s !! parent else None) with
      | Some cert => cert
      | None => defaultCrt s
      end
  end.

(** ** What the store stands for *)

(** The names of a certificate: exact ones, and the parents of wildcards. *)
Definition exactNames (c : Certificate) : list bytes :=
  ToLower <$> List.filter (λ n, negb (HasPrefix n (lit "*."))) (dnsNamesOf (Leaf c)).

Definition wildNames (c : Certificate) : list bytes :=
  (λ n, ToLower (TrimPrefix n (lit "*."))) <$>
    List.filter (λ n, HasPrefix n (lit "*.")) (dnsNamesOf (Leaf c)).

(** The last certificate of a list with a property. *)
Definition last_with (f : Certificate -> bool) (cs : list Certificate) : option Certificate :=
  last (List.filter f cs).

Definition chosen_default (want : bytes) (l : list (CertificateRef * Certificate)) : option Certificate :=
  match last (List.filter (λ p, (want <>b []) && (cr_Name p.1 =b want)) l) with
  | Some p => Some p.2
  | None => head (snd <$> l)
  end.

Lemma last_filter_snoc {A} (f : A -> bool) l x :
  last (List.filter f (l ++ [x])) = if f x then Some x else last (List.filter f l).
Proof.
  rewrite List.filter_app. simpl. destruct (f x); [|by rewrite app_nil_r]. by rewrite last_snoc.
Qed.

Lemma CutPrefix_HasPrefix s p :
  CutPrefix s p = if HasPrefix s p then Some (TrimPrefix s p) else None.
Proof. unfold CutPrefix, TrimPrefix. by destruct (HasPrefix s p). Qed.

Lemma addNames_lookup cert names m k :
  (foldl (addName cert) m names).1 !! k =
    (if bool_decide (k ∈ ToLower <$> List.filter (λ n, negb (HasPrefix n (lit "*."))) names)
     then Some cert else m.1 !! k) /\
  (foldl (addName cert) m names).2 !! k =
    (if bool_decide (k ∈ (λ n, ToLower (TrimPrefix n (lit "*."))) <$> List.filter (λ n, HasPrefix n (lit "*.")) names)
     then Some cert else m.2 !! k).
Proof.
  revert m. induction names as [|n names IH]; intros m; cbn [foldl List.filter]; [done|].
  destruct (IH (addName cert m n)) as [-> ->]. clear IH. unfold addName. rewrite CutPrefix_HasPrefix.
  destruct (HasPrefix n (lit "*.")); cbn [negb fst snd fmap list_fmap]; split; try done.
  all: rewrite (bool_decide_ext (k ∈ _ :: _) _ (elem_of_cons _ _ _)), bool_decide_or.
  all: case_bool_decide as E1; case_bool_decide as E2; cbn [orb]; try done.
  all: first [by subst; rewrite lookup_insert_eq | by rewrite lookup_insert_ne by congruence].
Qed.

(** The loop, having read [done] so far. *)
Lemma certLoop_spec want refs i m dflt done_ :
  i = zlen done_ ->
  (forall k, m.1 !! k = last_with (λ c, bool_decide (k ∈ exactNames c)) (snd <$> done_)) ->
  (forall k, m.2 !! k = last_with (λ c, bool_decide (k ∈ wildNames c)) (snd <$> done_)) ->
  dflt = chosen_default want done_ ->
  match certLoop want i m dflt refs with
  | Err _ => True
  | Ok (m', dflt') =>
      exists loaded, fst <$> loaded = refs /\
        (forall k, m'.1 !! k = last_with (λ c, bool_decide (k ∈ exactNames c)) (snd <$> done_ ++ loaded)) /\
        (forall k, m'.2 !! k = last_with (λ c, bool_decide (k ∈ wildNames c)) (snd <$> done_ ++ loaded)) /\
        dflt' = chosen_default want (done_ ++ loaded) /\
        Forall (λ p, exists j, load j p.1 = Ok p.2) loaded
  end.
Proof.
  revert i m dflt done_. induction refs as [|ref refs IH]; intros i m dflt done_ Hi H1 H2 Hd.
  { exists []. by rewrite app_nil_r. }
  cbn [certLoop]. destruct (load i ref) as [cert|] eqn:El; [|done].
  set (m1 := foldl _ m _). set (d1 := if (want <>b []) && _ then _ else _).
  specialize (IH (i + 1)%Z m1 d1 (done_ ++ [(ref, cert)])).
  destruct (certLoop want (i + 1) m1 d1 refs) as [[m' dflt']|]; [|done].
  destruct IH as (loaded & Hf & Hx & Hw & Hdf & Hl).
  - rewrite Hi. autorewrite with mailout. unfold zlen. simpl. lia.
  - intros k. unfold m1. rewrite (proj1 (addNames_lookup _ _ _ k)), fmap_app. simpl.
    unfold last_with. rewrite last_filter_snoc. by rewrite H1.
  - intros k. unfold m1. rewrite (proj2 (addNames_lookup _ _ _ k)), fmap_app. simpl.
    unfold last_with. rewrite last_filter_snoc. by rewrite H2.
  - unfold d1, chosen_default. rewrite last_filter_snoc. cbn [fst snd].
    destruct ((want <>b []) && (cr_Name ref =b want)); [done|].
    subst dflt. unfold chosen_default. rewrite Hi. destruct done_ as [|p done_]; [done|].
    rewrite (proj2 (Z.eqb_neq _ _)) by (rewrite zlen_cons; pose proof (zlen_nonneg done_); lia).
    done.
  - exists ((ref, cert) :: loaded). rewrite <- app_assoc in *. simpl in *.
    split; [by rewrite <- Hf|]. split_and!; try done. constructor; [by exists i|done].
Qed.

Lemma newCertStore_spec cfg s :
  newCertStore cfg = Ok s ->
  exists loaded, fst <$> loaded = Certificates cfg /\
    (forall k, byName s !! k = last_with (λ c, bool_decide (k ∈ exactNames c)) (snd <$> loaded)) /\
    (forall k, wildcards s !! k = last_with (λ c, bool_decide (k ∈ wildNames c)) (snd <$> loaded)) /\
    Some (defaultCrt s) = chosen_default (DefaultCertificate cfg) loaded /\
    Forall (λ p, exists j, load j p.1 = Ok p.2) loaded.
Proof.
  unfold newCertStore. case_match; [done|].
  pose proof (certLoop_spec (DefaultCertificate cfg) (Certificates cfg) 0 (∅, ∅) None []) as Hc.
  destruct (certLoop _ _ _ _ _) as [[m [dflt|]]|]; [|done..]. intros [= <-].
  destruct Hc as (loaded & ? & ? & ? & ? & ?); [done..|].
  exists loaded. split_and!; done.
Qed.
End Ops.
End TlsStore.

(** ** Properties *)

Section Properties.
Import TlsStore.
Context `{Pki} `{Unicode}.

(** The handshake always gets a certificate, and the right one: the last
    configured certificate carrying the requested name exactly; failing that,
    the last one carrying the wildcard of its parent domain; failing that, the
    declared default, or the first certificate. Names are compared without case
    and without a trailing dot. *)
Theorem getCertificate_prefers_exact_then_wildcard (cfg : TLSConfig) (s : certStore) (sni : bytes) :
  newCertStore cfg = Ok s ->
  exists loaded,
    fst <$> loaded = Certificates cfg /\ Forall (λ p, exists j, load j p.1 = Ok p.2) loaded /\
    let certs := snd <$> loaded in
    let name := ToLower (TrimSuffix sni [DOT]) in
    Some (getCertificate s sni) =
      match last_with (λ c, bool_decide (name ∈ exactNames c)) certs with
      | Some c => Some c
      | None =>
          match (if bool_decide (DOT ∈ name)
                 then last_with (λ c, bool_decide ((Cut name DOT).1.2 ∈ wildNames c)) certs
                 else None) with
          | Some c => Some c
          | None => chosen_default (DefaultCertificate cfg) loaded
          end
      end.
Proof.
  intros (loaded & Hf & Hx & Hw & Hd & Hl)%newCertStore_spec. exists loaded.
  split; [done|]. split; [done|]. cbv zeta. unfold getCertificate.
  rewrite <- Hx, <- Hd. case_match; [done|].
  destruct (Cut (ToLower (TrimSuffix sni [DOT])) DOT) as [[before parent] found] eqn:Ec.
  cbn [fst snd]. rewrite <- Hw. destruct found.
  - apply Cut_found in Ec as [-> _]. rewrite bool_decide_eq_true_2 by set_solver. by case_match.
  - apply Cut_not_found in Ec as (_ & _ & Hn). by rewrite bool_decide_eq_false_2 by done.
Qed.
End Properties.

(** A certificate file whose content is the list of its names, one per line. *)
Definition toy_pki : Pki := {|
  ReadFile p := Ok p;
  X509KeyPair c _ := Ok c;
  ParseCertificate d := Ok (mkLeaf [d] [])
|}.

Definition toy_tls : TLSConfig :=
  mkTLSConfig [mkCertificateRef (lit "a") [] [] (lit "Mail.example.com") (lit "k");
               mkCertificateRef (lit "b") [] [] (lit "*.example.com") (lit "k");
               mkCertificateRef (lit "c") [] [] (lit "other.test") (lit "k")] (lit "c").

Definition toy_chain (name : string) : Certificate := mkCertificate (lit name) (mkLeaf [lit name] []).

Definition toy_certs : TlsStore.certStore :=
  match @TlsStore.newCertStore toy_pki unicode14 toy_tls with
  | Ok s => s
  | Err _ => TlsStore.mkCerts ∅ ∅ (toy_chain "")
  end.

Lemma getCertificate_witness :
  @TlsStore.newCertStore toy_pki unicode14 toy_tls = Ok toy_certs /\
  TlsStore.getCertificate toy_certs (lit "mail.EXAMPLE.com.") = toy_chain "Mail.example.com" /\
  TlsStore.getCertificate toy_certs (lit "smtp.example.com") = toy_chain "*.example.com" /\
  TlsStore.getCertificate toy_certs (lit "localhost") = toy_chain "other.test" /\
  exists loaded : list (CertificateRef * Certificate), fst <$> loaded = Certificates toy_tls.
Proof.
  assert (Hs : @TlsStore.newCertStore toy_pki unicode14 toy_tls = Ok toy_certs)
    by (vm_compute; reflexivity).
  split; [exact Hs|]. split; [vm_compute; reflexivity|].
  split; [vm_compute; reflexivity|]. split; [vm_compute; reflexivity|].
  destruct (@getCertificate_prefers_exact_then_wildcard toy_pki unicode14 toy_tls toy_certs
    (lit "localhost") Hs) as (loaded & Hf & _). exists loaded. exact Hf.
Defined.
