(* ===== verification/Milter.v ===== *)
(** * Milter: the filters a message goes through

    Models [src/internal/gateway/milter.go] and the [Message] of [relay.go].
    The filters themselves, behind the go-milter client, are a parameter: what
    a filter answers is a function of the call and of everything it is told.
    The message is mutated in place by the source; here it is threaded. *)

From S2P Require Import Prelude Unicode GoStrings GoIP Message Metrics World Spool Passwords Config.
Import Spool.
#[local] Open Scope Z_scope.

(** go-milter's verdicts and modification requests. *)
Inductive actionType :=
| ActionAccept | ActionContinue | ActionDiscard | ActionReject | ActionTempFail
| ActionSkip | ActionRejectWithCode.

#[export] Instance actionType_eq_dec : EqDecision actionType.
Proof. solve_decision. Defined.

Record Action := mkAction { Type_ : actionType; SMTPCode : Z; SMTPReply : bytes }.

Inductive ModifyAction :=
| ActionAddHeader (name value : bytes)
| ActionInsertHeader (index : Z) (name value : bytes)
| ActionChangeHeader (index : Z) (name value : bytes)
| ActionReplaceBody (body : bytes)
| ActionChangeFrom (from : bytes)
| ActionAddRcpt (rcpt : bytes)
| ActionDelRcpt (rcpt : bytes)
| ActionQuarantine (reason : bytes)
| ActionOther.

(** What a filter is told before the body. *)
Inductive milterCommand :=
| MConn (hostname : bytes) (inet6 : bool) (port : Z) (ip : bytes)
| MHelo (hostname : bytes)
| MMail (from : bytes)
| MRcpt (rcpt : bytes)
| MDataStart
| MHeaderField (name value : bytes)
| MHeaderEnd.

(** The filters, and what the client library decides: [StopProcessing] tells a
    refusal from the other verdicts. *)
Class MilterPeer := {
  openSession : nat -> bytes * bytes -> list (bytes * bytes) -> option goerror;
  command : nat -> bytes * bytes -> milterCommand -> option Action * option goerror;
  bodyReadFrom : nat -> bytes * bytes -> bytes -> list ModifyAction * option Action * option goerror;
  StopProcessing : Action -> bool
}.

Module Milter.

(** One submission being relayed. *)
Record Message := mkMessage {
  From : bytes;
  To : list bytes;
  Body : spool;
  Account : bytes
}.

Definition setFrom (m : Message) (f : bytes) := mkMessage f (To m) (Body m) (Account m).
Definition setTo (m : Message) (t : list bytes) := mkMessage (From m) t (Body m) (Account m).
Definition setBody (m : Message) (b : spool) := mkMessage (From m) (To m) b (Account m).

Record sessionInfo := mkInfo {
  si_Hostname : bytes;
  RemoteIP : bytes;
  RemotePort : Z;
  TLSVersion : bytes;
  TLSCipher : bytes;
  AuthUser : bytes;
  MTAName : bytes
}.

Record milterFilter := mkFilter { cfg : Milter; peer : bytes * bytes; timeout : Z }.
Definition milterChain : Type := list milterFilter.

Definition defaultMilterTimeout : Z := 30 * second.

(** The loop of [newMilterChain], from index [i]: an unnamed filter is named by
    its position. The error is the name of the filter and its address error. *)
Fixpoint chainFrom (i : Z) (ms : list Milter) : milterChain + (bytes * addressError) :=
  match ms with
  | [] => inl []
  | mc :: ms' =>
      let name := if m_Name mc =b [] then lit "milters[" ++ itoa i ++ lit "]" else m_Name mc in
      match ParseAddress mc with
      | inr e => inr (name, e)
      | inl na =>
          let t := if m_Timeout mc =? 0 then defaultMilterTimeout else m_Timeout mc in
          match chainFrom (i + 1) ms' with
          | inr e => inr e
          | inl rest => inl (mkFilter (mkMilter name (m_Address mc) (FailOpen mc) (m_Timeout mc)) na t :: rest)
          end
      end
  end.

Definition newMilterChain (c : Config) : milterChain + (bytes * addressError) :=
  chainFrom 0 (Milters c).

Definition empty (c : milterChain) : bool := (length c =? 0)%nat.

(** ** Verdicts *)

Definition smtpErrorFromAction (act : Action) : SMTPError :=
  let code := if SMTPCode act <? 400 then 550 else SMTPCode act in
  let message := TrimSpace (SMTPReply act) in
  let message := if message =b [] then lit "Rejected by filter" else message in
  let message :=
    match SplitN2 message SP with
    | [first; second] => if (length first =? 3)%nat then second else message
    | _ => message
    end in
  let enhanced := if code <? 500 then (4, 7, 1) else (5, 7, 1) in
  mkSMTPError code enhanced message.

Section Ops.
Context `{K : Kernel} `{M : MilterPeer} `{U : Unicode}.

(** [None] is nil: go on. *)
Definition check (answer : option Action * option goerror) : option goerror :=
  match answer with
  | (_, Some err) => Some err
  | (None, None) => None
  | (Some act, None) =>
      if StopProcessing act then Some (ESmtp (smtpErrorFromAction act))
      else if Type_ act =b ActionDiscard then Some EDiscard
      else None
  end.

Definition unbracket (addr : bytes) : bytes := TrimSuffix (TrimPrefix addr (lit "<")) (lit ">").

Definition removeRecipient (list : list bytes) (addr : bytes) : Datatypes.list bytes :=
  List.filter (λ r, negb (EqualFold r addr)) list.

(** ** Modifications *)

(** [_ = s.Close()]. *)
Definition discard (s : spool) : IO unit := let! (_, _) := Spool.Close s in ret tt.

(** The error, the message, and the replacement with its offset moved. *)
Definition rewriteBody (msg : Message) (parsed : Message.parsedMessage) (headerLen : Z)
    (replacement : option spool) : IO (option goerror * Message * option spool) :=
  let out := sibling (Body msg) in
  let! (err, out) := copyChunks out (Message.headerWrites parsed) in
  match err with
  | Some e => discard out ;; ret (Some e, msg, replacement)
  | None =>
      let! (source, src) :=
        match replacement with
        | Some r => Reader r
        | None => ReaderAt (Body msg) headerLen
        end in
      let back (s : spool) :=
        match replacement with
        | Some _ => (msg, Some s)
        | None => (setBody msg s, None)
        end in
      match source with
      | Err e => discard out ;; ret (Some e, (back src).1, (back src).2)
      | Ok r =>
          let! (err, out, src) := copySpool out src r in
          let '(msg, replacement) := back src in
          match err with
          | Some e => discard out ;; ret (Some e, msg, replacement)
          | None => discard (Body msg) ;; ret (None, setBody msg out, replacement)
          end
      end
  end.

(** The state of the loop over the requested modifications. *)
Record mods := mkMods {
  msg : Message;
  parsed : Message.parsedMessage;
  headersChanged : bool;
  replacement : option spool
}.

Definition quarantined (f : milterFilter) : SMTPError :=
  mkSMTPError 554 (5, 7, 1) (lit "Message quarantined by " ++ m_Name (cfg f)).

Definition applyOne (f : milterFilter) (st : mods) (act : ModifyAction) : IO (option goerror * mods) :=
  let headers p := ret (None, mkMods (msg st) p true (replacement st)) in
  let envelope m := ret (None, mkMods m (parsed st) (headersChanged st) (replacement st)) in
  match act with
  | ActionAddHeader name value => headers (Message.addHeader (parsed st) name value)
  | ActionInsertHeader i name value => headers (Message.insertHeader (parsed st) i name value)
  | ActionChangeHeader i name value => headers (Message.changeHeader (parsed st) i name value)
  | ActionReplaceBody b =>
      let r := match replacement st with Some r => r | None => sibling (Body (msg st)) end in
      let! (_, err, r) := Write r b in
      ret (err, mkMods (msg st) (parsed st) (headersChanged st) (Some r))
  | ActionChangeFrom from => envelope (setFrom (msg st) (unbracket from))
  | ActionAddRcpt rcpt => envelope (setTo (msg st) (To (msg st) ++ [unbracket rcpt]))
  | ActionDelRcpt rcpt => envelope (setTo (msg st) (removeRecipient (To (msg st)) (unbracket rcpt)))
  | ActionQuarantine _ => ret (Some (ESmtp (quarantined f)), st)
  | ActionOther => ret (None, st)
  end.

Fixpoint applyActs (f : milterFilter) (st : mods) (acts : list ModifyAction) : IO (option goerror * mods) :=
  match acts with
  | [] => ret (None, st)
  | act :: acts' =>
      let! (err, st) := applyOne f st act in
      match err with
      | Some e => ret (Some e, st)
      | None => applyActs f st acts'
      end
  end.

Definition allRemoved : SMTPError :=
  mkSMTPError 554 (5, 7, 1) (lit "All recipients removed by filters").

Definition applyModifications (f : milterFilter) (m : Message) (p : Message.parsedMessage)
    (headerLen : Z) (acts : list ModifyAction) : IO (option goerror * Message) :=
  let! (err, st) := applyActs f (mkMods m p false None) acts in
  let! (err, m, r) :=
    match err with
    | Some e => ret (Some e, msg st, replacement st)
    | None =>
        let! (err, m, r) :=
          if headersChanged st || (match replacement st with Some _ => true | None => false end)
          then rewriteBody (msg st) (parsed st) headerLen (replacement st)
          else ret (None, msg st, replacement st) in
        match err with
        | Some e => ret (Some e, m, r)
        | None =>
            ret (if (length (To m) =? 0)%nat then Some (ESmtp allRemoved) else None, m, r)
        end
    end in
  (* the deferred close of the replacement *)
  match r with Some r => discard r | None => ret tt end ;;
  ret (err, m).

(** ** One filter *)

Definition macrosFor (m : Message) (info : sessionInfo) : list (bytes * bytes) :=
  [(lit "j", MTAName info); (lit "{daemon_name}", lit "mailout"); (lit "{if_name}", MTAName info)] ++
  (if AuthUser info <>b [] then [(lit "{auth_authen}", AuthUser info); (lit "{auth_type}", lit "PLAIN")] else []) ++
  (if TLSVersion info <>b [] then [(lit "{tls_version}", TLSVersion info); (lit "{cipher}", TLSCipher info)] else []) ++
  [(lit "{mail_addr}", From m)].

(** Commands in turn, up to the first that does not let the message go on. *)
Fixpoint tell (f : milterFilter) (cmds : list milterCommand) : IO (option goerror) :=
  match cmds with
  | [] => ret None
  | c :: cmds' =>
      let! t := next in
      match check (command t (peer f) c) with
      | Some e => ret (Some e)
      | None => tell f cmds'
      end
  end.

(** [family]: an address that is not IPv4 either way it can be written. *)
Definition isIPv6 (remoteIP : bytes) : bool :=
  match ParseIP remoteIP with
  | Some ip => To4 ip =b None
  | None => false
  end.

Definition envelopeCommands (m : Message) (info : sessionInfo) : list milterCommand :=
  [MConn (si_Hostname info) (isIPv6 (RemoteIP info)) (RemotePort info) (RemoteIP info);
   MHelo (si_Hostname info); MMail (From m)] ++ (MRcpt <$> To m) ++ [MDataStart].

(** What the filter is shown as headers, and where its body starts. *)
Definition shownHeaders (header : bytes) (terminated : bool) : Message.parsedMessage * bytes :=
  if terminated then
    match Message.parseMessage header with
    | Ok p => (p, header)
    | Err _ => (Message.mkParsed [] [], header)  (* parseMessage never fails *)
    end
  else (Message.mkParsed [] [], []).

Definition runOne (f : milterFilter) (m : Message) (info : sessionInfo) : IO (option goerror * Message) :=
  let! t := next in
  match openSession t (peer f) (macrosFor m info) with
  | Some e => ret (Some (EWrap (lit "open milter session") e), m)
  | None =>
      let! err := tell f (envelopeCommands m info) in
      match err with
      | Some e => ret (Some e, m)
      | None =>
          let! (r, b) := headerBlock (Body m) in
          let m := setBody m b in
          match r with
          | Err e => ret (Some e, m)
          | Ok (block, terminated) =>
              let '(p, header) := shownHeaders block terminated in
              let! err := tell f (((λ h, MHeaderField (Message.Name h) (Message.Value h)) <$> Message.Headers p)
                                  ++ [MHeaderEnd]) in
              match err with
              | Some e => ret (Some e, m)
              | None =>
                  let! (r, b) := ReaderAt (Body m) (zlen header) in
                  let m := setBody m b in
                  match r with
                  | Err e => ret (Some e, m)
                  | Ok body =>
                      let! (content, rerr, b) := readUpTo (Body m) body None in
                      let m := setBody m b in
                      match rerr with
                      | Some e => ret (Some (EWrap (lit "send body") e), m)
                      | None =>
                          let! t := next in
                          let '(acts, act, err) := bodyReadFrom t (peer f) content in
                          match err with
                          | Some e => ret (Some (EWrap (lit "send body") e), m)
                          | None =>
                              match check (act, None) with
                              | Some e => ret (Some e, m)
                              | None => applyModifications f m p (zlen header) acts
                              end
                          end
                      end
                  end
              end
          end
      end
  end.

(** ** The chain *)

Definition errUnavailable (f : milterFilter) : SMTPError :=
  mkSMTPError 451 (4, 7, 1) (lit "Filter " ++ m_Name (cfg f) ++ lit " unavailable, try again later").

(** What [run] makes of one filter's answer: go on, or stop with an error. *)
Definition verdict (f : milterFilter) (err : option goerror) : IO (option goerror) :=
  let name := m_Name (cfg f) in
  match err with
  | None => record (Metrics.milterDecided name Metrics.decisionAccept) ;; ret None
  | Some e =>
      match as_smtp e with
      | Some s => record (Metrics.milterDecided name Metrics.decisionReject) ;; ret (Some (ESmtp s))
      | None =>
          if is_discard e then
            record (Metrics.milterDecided name Metrics.decisionDiscard) ;; ret (Some e)
          else
            record (Metrics.milterDecided name Metrics.decisionUnavailable) ;;
            ret (if FailOpen (cfg f) then None else Some (ESmtp (errUnavailable f)))
      end
  end.

Fixpoint run (c : milterChain) (m : Message) (info : sessionInfo) : IO (option goerror * Message) :=
  match c with
  | [] => ret (None, m)
  | f :: c' =>
      let! (err, m) := runOne f m info in
      let! stop := verdict f err in
      match stop with
      | Some e => ret (Some e, m)
      | None => run c' m info
      end
  end.
End Ops.
End Milter.

(** ** What a filter's requests mean *)

Module Requests.
Import Milter.

Section Meaning.
Context `{U : Unicode}.

Definition editHeaders (p : Message.parsedMessage) (act : ModifyAction) : Message.parsedMessage :=
  match act with
  | ActionAddHeader name value => Message.addHeader p name value
  | ActionInsertHeader i name value => Message.insertHeader p i name value
  | ActionChangeHeader i name value => Message.changeHeader p i name value
  | _ => p
  end.

Definition editFrom (from : bytes) (act : ModifyAction) : bytes :=
  match act with ActionChangeFrom f => unbracket f | _ => from end.

Definition editTo (to : list bytes) (act : ModifyAction) : list bytes :=
  match act with
  | ActionAddRcpt r => to ++ [unbracket r]
  | ActionDelRcpt r => removeRecipient to (unbracket r)
  | _ => to
  end.
End Meaning.

Definition touchesHeaders (act : ModifyAction) : bool :=
  match act with
  | ActionAddHeader _ _ | ActionInsertHeader _ _ _ | ActionChangeHeader _ _ _ => true
  | _ => false
  end.

Definition isQuarantine (act : ModifyAction) : bool :=
  match act with ActionQuarantine _ => true | _ => false end.

(** The chunks of a replacement body. *)
Definition bodyChunks (acts : list ModifyAction) : list bytes :=
  omap (λ act, match act with ActionReplaceBody b => Some b | _ => None end) acts.

Definition repContents (o : option spool) : bytes :=
  match o with Some r => contents r | None => [] end.

Definition repInv (o : option spool) : Prop :=
  match o with Some r => spool_inv r | None => True end.

Section Facts.
Context `{K : Kernel} `{M : MilterPeer} `{U : Unicode}.

Lemma quiet_discard s : quiet (discard s).
Proof. unfold discard. quiet_tac. Qed.
#[local] Hint Resolve quiet_discard : mailout.

Lemma discard_run s w : exists w', discard s w = (tt, w').
Proof. unfold discard, bind. destruct (Close s w) as [[? ?] w']. by eexists. Qed.

Lemma quiet_rewriteBody m p h r : quiet (rewriteBody m p h r).
Proof. unfold rewriteBody. quiet_tac. Qed.

Lemma quiet_applyOne f st act : quiet (applyOne f st act).
Proof. unfold applyOne. quiet_tac. Qed.
#[local] Hint Resolve quiet_rewriteBody quiet_applyOne : mailout.

Lemma quiet_applyActs f st acts : quiet (applyActs f st acts).
Proof. revert st. induction acts; intros st; cbn [applyActs]; quiet_tac. Qed.
#[local] Hint Resolve quiet_applyActs : mailout.

Lemma quiet_applyModifications f m p h acts : quiet (applyModifications f m p h acts).
Proof. unfold applyModifications. quiet_tac. Qed.

Lemma quiet_tell f cmds : quiet (tell f cmds).
Proof. induction cmds; cbn [tell]; quiet_tac. Qed.
#[local] Hint Resolve quiet_applyModifications quiet_tell : mailout.

Lemma quiet_runOne f m info : quiet (runOne f m info).
Proof. unfold runOne. quiet_tac. Qed.

Lemma quiet_verdict f e : quiet (verdict f e).
Proof. unfold verdict. quiet_tac. Qed.
#[local] Hint Resolve quiet_runOne quiet_verdict : mailout.

Lemma quiet_run c m info : quiet (run c m info).
Proof. revert m. induction c; intros m; cbn [run]; quiet_tac. Qed.

Lemma forward_discard s : forward (discard s).
Proof. unfold discard. forward_tac. Qed.
#[local] Hint Resolve forward_discard : mailout.
Lemma forward_rewriteBody m p h r : forward (rewriteBody m p h r).
Proof. unfold rewriteBody. forward_tac. Qed.
Lemma forward_applyOne f st act : forward (applyOne f st act).
Proof. unfold applyOne. forward_tac. Qed.
#[local] Hint Resolve forward_rewriteBody forward_applyOne : mailout.
Lemma forward_applyActs f st acts : forward (applyActs f st acts).
Proof. revert st. induction acts; intros st; cbn [applyActs]; forward_tac. Qed.
#[local] Hint Resolve forward_applyActs : mailout.
Lemma forward_applyModifications f m p h acts : forward (applyModifications f m p h acts).
Proof. unfold applyModifications. forward_tac. Qed.

(** A rewritten message is the headers followed by the replacement, or by the
    body that followed the header block; a failure leaves the body as it was. *)
Lemma rewriteBody_spec m p h r w :
  sized (Body m) -> 0 <= h ->
  exists err m' r' w', rewriteBody m p h r w = (err, m', r', w') /\
    From m' = From m /\ To m' = To m /\ Account m' = Account m /\ sized (Body m') /\
    (err <> None -> contents (Body m') = contents (Body m)) /\
    (err = None -> contents (Body m') = concat (Message.headerWrites p) ++
       match r with Some r => contents r | None => zdrop h (contents (Body m)) end) /\
    (reliable K -> err = None).
Proof.
  intros Hs Hh. unfold rewriteBody, bind.
  destruct (copyChunks_spec (Message.headerWrites p) (sibling (Body m)) w (newSpool_inv _ _)) as
    (err & out & w1 & q & -> & Hinv & _ & _ & _ & Hc & Hok & Hr).
  change (contents (sibling (Body m))) with (@nil ascii) in Hc. simpl in Hc.
  destruct err as [e|].
  { destruct (discard_run out w1) as [w2 ->]. do 4 eexists. split; [done|]. split_and!; try done. }
  rewrite (Hok eq_refl) in Hc. clear Hok Hr q.
  assert (Hsrc : exists source src w2,
    (match r with Some r => Reader r | None => ReaderAt (Body m) h end) w1 = (source, src, w2) /\
    same_body (match r with Some r => r | None => Body m end) src /\
    (reliable K -> exists rd, source = Ok rd) /\
    (forall rd, source = Ok rd -> delivers src rd
       (match r with Some r => contents r | None => zdrop h (contents (Body m)) end))).
  { destruct r as [r|]; [apply Reader_delivers|by apply ReaderAt_delivers]. }
  destruct Hsrc as (source & src & w2 & -> & Hsame & Hrel & Hdel).
  assert (Hback : forall s', same_body (match r with Some r => r | None => Body m end) s' ->
    let m' := (match r with Some _ => (m, Some s') | None => (setBody m s', None) end).1 in
    From m' = From m /\ To m' = To m /\ Account m' = Account m /\ sized (Body m') /\
    contents (Body m') = contents (Body m)).
  { intros s' Hs'. destruct r as [r|]; simpl; [done|].
    split_and!; try done; [by eapply sized_same|by apply Hs']. }
  destruct source as [rd|e].
  2:{ destruct (discard_run out w2) as [w3 ->]. do 4 eexists. split; [done|].
      destruct (Hback src Hsame) as (? & ? & ? & ? & ?). split_and!; try done.
      intros Hrl. by destruct (Hrel Hrl). }
  destruct (copySpool_spec out src rd _ w2 Hinv (Hdel rd eq_refl)) as
    (err & out' & src' & w3 & -> & Hsame' & Hinv' & _ & _ & Hcopy & Hrc).
  destruct (Hback src' (same_body_trans _ _ _ Hsame Hsame')) as (? & ? & ? & ? & ?).
  destruct (match r with Some _ => (m, Some src') | None => (setBody m src', None) end) as [m' r'].
  simpl in *. destruct err as [e|].
  - destruct (discard_run out' w3) as [w4 ->]. do 4 eexists. split; [done|]. split_and!; try done.
  - destruct (discard_run (Body m') w3) as [w4 ->]. do 4 eexists. split; [done|]. simpl.
    split_and!; try done; [by apply inv_sized|]. intros _. by rewrite (Hcopy eq_refl), Hc.
Qed.
(** One request changes what it names and nothing else. *)
Lemma applyOne_spec f st act w :
  repInv (replacement st) ->
  exists err st' w', applyOne f st act w = (err, st', w') /\
    Body (msg st') = Body (msg st) /\ Account (msg st') = Account (msg st) /\
    repInv (replacement st') /\
    (reliable K -> isQuarantine act = false -> err = None) /\
    (isQuarantine act = true -> err = Some (ESmtp (quarantined f))) /\
    (err = None ->
       From (msg st') = editFrom (From (msg st)) act /\ To (msg st') = editTo (To (msg st)) act /\
       parsed st' = editHeaders (parsed st) act /\
       headersChanged st' = headersChanged st || touchesHeaders act /\
       repContents (replacement st') = repContents (replacement st) ++ concat (bodyChunks [act]) /\
       (replacement st' = None <-> replacement st = None /\ bodyChunks [act] = [])).
Proof.
  intros Hr. destruct act as [| | |b| | | | |]; unfold applyOne.
  4:{ unfold bind. set (r := match replacement st with Some r => r | None => _ end).
      assert (Hr0 : spool_inv r) by (unfold r; destruct (replacement st); [done|apply newSpool_inv]).
      assert (Hc0 : contents r = repContents (replacement st)) by (unfold r; by destruct (replacement st)).
      destruct (Write_spec r b w Hr0) as (wr & err & r' & w' & q & -> & Hi & _ & _ & _ & _ & Hc & Hok & Hrel).
      do 3 eexists. split; [done|]. simpl. split_and!; try done; [by intros Hrl _; apply Hrel|].
      intros Herr. rewrite orb_false_r, app_nil_r, Hc, (Hok Herr), Hc0. split_and!; try done.
      split; [done|]. by intros [_ ?]. }
  all: do 3 eexists; split; [done|]; simpl;
    rewrite ?orb_true_r, ?orb_false_r, ?app_nil_r; split_and!; try done.
  all: intros _; split_and!; try done; tauto.
Qed.

Lemma bodyChunks_cons act acts : bodyChunks (act :: acts) = bodyChunks [act] ++ bodyChunks acts.
Proof. by destruct act. Qed.

Lemma applyActs_spec f acts st w :
  repInv (replacement st) ->
  exists err st' w', applyActs f st acts w = (err, st', w') /\
    Body (msg st') = Body (msg st) /\ Account (msg st') = Account (msg st) /\
    (reliable K -> existsb isQuarantine acts = false -> err = None) /\
    (err = None ->
       From (msg st') = foldl editFrom (From (msg st)) acts /\
       To (msg st') = foldl editTo (To (msg st)) acts /\
       parsed st' = foldl editHeaders (parsed st) acts /\
       headersChanged st' = headersChanged st || existsb touchesHeaders acts /\
       existsb isQuarantine acts = false /\
       repContents (replacement st') = repContents (replacement st) ++ concat (bodyChunks acts) /\
       (replacement st' = None <-> replacement st = None /\ bodyChunks acts = [])).
Proof.
  revert st w. induction acts as [|act acts IH]; intros st w Hr.
  { do 3 eexists. split; [done|]. simpl. rewrite orb_false_r, app_nil_r. split_and!; try done.
    intros _. split_and!; try done. tauto. }
  cbn [applyActs]. unfold bind.
  destruct (applyOne_spec f st act w Hr) as (err & st1 & w1 & -> & Hb & Ha & Hr1 & Hrel & Hq & Hok).
  destruct err as [e|].
  { do 3 eexists. split; [done|]. split_and!; try done. intros Hrl Hnq. simpl in Hnq. bools. by apply Hrel. }
  destruct (Hok eq_refl) as (Hf & Ht & Hp & Hh & Hc & Hn). clear Hok.
  destruct (IH st1 w1 Hr1) as (err & st2 & w2 & -> & Hb2 & Ha2 & Hrel2 & Hok2).
  do 3 eexists. split; [done|]. cbn [foldl existsb].
  split_and!; [congruence|congruence| |].
  - intros Hrl Hnq. bools. by apply Hrel2.
  - intros Herr. destruct (Hok2 Herr) as (? & ? & ? & Hh2 & Hq2 & Hc2 & Hn2).
    rewrite (bodyChunks_cons act acts), concat_app, app_nil, Hc2, Hc, Hh2, Hh, Hn2, Hn, Hq2, <- Hf, <- Ht, <- Hp.
    split_and!; try done; [by rewrite orb_assoc| |by rewrite app_assoc|tauto].
    destruct (isQuarantine act) eqn:Eq; [|done]. by specialize (Hq eq_refl).
Qed.

(** A filter's requests, all of them or a refusal. *)
Lemma applyModifications_spec f m p h acts w :
  sized (Body m) -> 0 <= h ->
  exists err m' w', applyModifications f m p h acts w = (err, m', w') /\
    Account m' = Account m /\ sized (Body m') /\
    (reliable K -> existsb isQuarantine acts = false -> foldl editTo (To m) acts <> [] -> err = None) /\
    (err = None ->
       From m' = foldl editFrom (From m) acts /\ To m' = foldl editTo (To m) acts /\ To m' <> [] /\
       existsb isQuarantine acts = false /\
       contents (Body m') =
         if existsb touchesHeaders acts || negb (bool_decide (bodyChunks acts = []))
         then concat (Message.headerWrites (foldl editHeaders p acts)) ++
              (if bool_decide (bodyChunks acts = []) then zdrop h (contents (Body m))
               else concat (bodyChunks acts))
         else contents (Body m)).
Proof.
  intros Hs Hh. unfold applyModifications, bind.
  destruct (applyActs_spec f acts (mkMods m p false None) w I) as
    (err & st & w1 & -> & Hb & Ha & Hrel & Hok). simpl in *.
  assert (Hclose : forall (r : option spool) e m' w0, exists w',
    (let '(_, w'') := (match r with Some r => discard r | None => ret tt end) w0 in ret (e, m') w'')
    = ((e : option goerror, m' : Message), w')).
  { intros [r|] e m' w0; [|by eexists]. destruct (discard_run r w0) as [w' ->]. by eexists. }
  assert (Hsized : sized (Body (msg st))) by congruence.
  destruct err as [e|].
  { unfold ret at 1. cbn [fst snd]. destruct (Hclose (replacement st) (Some e) (msg st) w1) as [w2 ->].
    do 3 eexists. split; [done|]. split_and!; try done. intros Hrl Hnq _. by specialize (Hrel Hrl Hnq). }
  destruct (Hok eq_refl) as (Hf & Ht & Hp & Hhc & Hq & Hc & Hn). clear Hok Hrel.
  assert (Hiff : (match replacement st with Some _ => true | None => false end)
    = negb (bool_decide (bodyChunks acts = []))).
  { destruct (replacement st); case_bool_decide as E; try done; naive_solver. }
  rewrite Hhc, Hiff. destruct (existsb touchesHeaders acts || negb (bool_decide (bodyChunks acts = []))).
  - destruct (rewriteBody_spec (msg st) (parsed st) h (replacement st) w1 Hsized Hh) as
      (err & m' & r' & w2 & -> & Hf' & Ht' & Ha' & Hs' & _ & Hcont & Hrel).
    destruct err as [e|].
    { unfold ret at 1. destruct (Hclose r' (Some e) m' w2) as [w3 ->]. do 3 eexists. split; [done|].
      split_and!; try done; [congruence|]. intros Hrl _ _. by specialize (Hrel Hrl). }
    unfold ret at 1. destruct (Hclose r' (if (length (To m') =? 0)%nat then Some (ESmtp allRemoved) else None) m' w2) as [w3 ->].
    do 3 eexists. split; [done|].
    rewrite Ht', Ht. split_and!; [congruence|done|by destruct (foldl editTo (To m) acts)|].
    intros Hne. split_and!; [congruence|done|by destruct (foldl editTo (To m) acts)|done|].
    rewrite (Hcont eq_refl), Hp, Hb. f_equal. destruct (replacement st) as [r|]; simpl in *.
    + by rewrite Hc; case_bool_decide.
    + by case_bool_decide.
  - unfold ret in Hclose |- *. destruct (Hclose (replacement st)
      (if (length (To (msg st)) =? 0)%nat then Some (ESmtp allRemoved) else None) (msg st) w1) as [w3 ->].
    do 3 eexists. split; [done|]. rewrite Ht.
    split_and!; [done|done|by destruct (foldl editTo (To m) acts)|].
    intros Hne. split_and!; [done|done|by destruct (foldl editTo (To m) acts)|done|by rewrite Hb].
Qed.
(** What a filter was shown of a body: the headers, and the length of the block
    they came from. *)
Definition shown (b : bytes) : Message.parsedMessage * bytes :=
  let '(block, terminated) := findBlock (ztake maxHeaderBytes b) in shownHeaders block terminated.

(** The message a filter is asked about: its headers, and as its body all that
    follows them, up to the last byte. Without an end of the header block in the
    first mebibyte, all of it is body. *)
Definition entered (b : bytes) : Message.parsedMessage :=
  if (findBlock (ztake maxHeaderBytes b)).2 then
    match Message.parseMessage b with Ok q => q | Err _ => Message.mkParsed [] b end
  else Message.mkParsed [] b.

(** The two ways the header block is delimited agree: [parseMessage] finds nothing
    but fields in the block [headerBlock] cuts off. *)
Definition one_reading (b : bytes) : Prop := Message.Body (shown b).1 = [].

Lemma entered_shown b p header :
  shown b = (p, header) ->
  entered b = Message.mkParsed (Message.Headers p) (Message.Body p ++ zdrop (zlen header) b).
Proof.
  unfold shown, entered. pose proof (findBlock_spec (ztake maxHeaderBytes b)) as Hb.
  destruct (findBlock (ztake maxHeaderBytes b)) as [block [|]]; cbn [snd shownHeaders].
  - destruct Hb as (sep & k & rest & Hsep & Eall & -> & _).
    destruct (Message.parseMessage (k ++ sep)) as [p'|] eqn:Ep; [|done]. intros [= <- <-].
    assert (Eb : b = (k ++ sep) ++ zdrop (zlen (k ++ sep)) b).
    { pose proof (ztake_zdrop maxHeaderBytes b) as Ez. rewrite Eall, app_assoc, <- app_assoc in Ez.
      rewrite <- Ez. by rewrite zdrop_app_exact. }
    rewrite Eb at 1. by rewrite (parseMessage_block _ _ _ _ Hsep Ep).
  - intros [= <- <-]. cbn [Message.Headers Message.Body app]. by rewrite zdrop_nonpos.
Qed.

(** What [acts] make of a message. *)
Definition edit (q : Message.parsedMessage) (acts : list ModifyAction) : Message.parsedMessage :=
  Message.mkParsed (Message.Headers (foldl editHeaders q acts))
    (if bool_decide (bodyChunks acts = []) then Message.Body q else concat (bodyChunks acts)).

(** [m'] is [m] with the requests applied: envelope and, if the filter asked for
    a change of the headers or of the body, the message; otherwise the bytes are
    those that were stored. *)
Definition edited (m m' : Message) (acts : list ModifyAction) : Prop :=
  From m' = foldl editFrom (From m) acts /\ To m' = foldl editTo (To m) acts /\ To m' <> [] /\
  existsb isQuarantine acts = false /\
  contents (Body m') =
    if existsb touchesHeaders acts || negb (bool_decide (bodyChunks acts = []))
    then Message.Bytes (edit (entered (contents (Body m))) acts)
    else contents (Body m).

Lemma editHeaders_body p q act : Message.Headers p = Message.Headers q ->
  Message.Headers (editHeaders p act) = Message.Headers (editHeaders q act).
Proof.
  intros E. destruct act; cbn; unfold Message.insertHeader, Message.changeHeader; rewrite ?E; try done.
  destruct (Message.changeLoop _ _ _ _ _); [done|]. case_bool_decide; cbn; by rewrite ?E.
Qed.

Lemma editHeaders_fold acts : forall p q, Message.Headers p = Message.Headers q ->
  Message.Headers (foldl editHeaders p acts) = Message.Headers (foldl editHeaders q acts).
Proof. induction acts as [|act acts IH]; intros p q E; [done|]. by apply IH, editHeaders_body. Qed.

(** What the filter was told, each command at a moment of the run, and accepted. *)
Definition told (f : milterFilter) (w w' : World) (cmds : list milterCommand) : Prop :=
  Forall (λ c, exists t, (tick w <= t < tick w')%nat /\ check (command t (peer f) c) = None) cmds.

Definition headerCommands (q : Message.parsedMessage) : list milterCommand :=
  ((λ h, MHeaderField (Message.Name h) (Message.Value h)) <$> Message.Headers q) ++ [MHeaderEnd].

Lemma tell_run f cmds : forall w, exists err w', tell f cmds w = (err, w') /\ (tick w <= tick w')%nat /\
  (err = None -> told f w w' cmds).
Proof.
  induction cmds as [|c cmds IH]; intros w; cbn [tell]; [do 2 eexists; split; [done|]; split; [done|constructor]|].
  unfold bind, next at 1. destruct (check _) eqn:Ec.
  { do 2 eexists. split; [done|]. split; [cbn; lia|done]. }
  match goal with |- context [tell f cmds ?w0] => destruct (IH w0) as (err & w' & E & Ht & Hok) end.
  cbn in Ht. exists err, w'. split; [exact E|]. split; [lia|]. intros He. constructor; [exists (tick w); split; [lia|done]|].
  eapply Forall_impl; [exact (Hok He)|]. intros c' (t & ? & ?). cbn in *. exists t. split; [lia|done].
Qed.

Lemma told_weaken f w1 w1' w2 w2' cmds : (tick w2 <= tick w1)%nat -> (tick w1' <= tick w2')%nat ->
  told f w1 w1' cmds -> told f w2 w2' cmds.
Proof. intros ? ? H. eapply Forall_impl; [exact H|]. intros c (t & ? & ?). exists t. split; [lia|done]. Qed.

(** A filter that lets the message go on has been told everything, and left the
    message with its requests applied. *)
Lemma runOne_spec f m info w :
  sized (Body m) ->
  exists err m' w', runOne f m info w = (err, m', w') /\
    Account m' = Account m /\ sized (Body m') /\
    (err = None -> one_reading (contents (Body m)) -> exists t acts act,
       (tick w <= t < tick w')%nat /\
       told f w w' (envelopeCommands m info ++ headerCommands (entered (contents (Body m)))) /\
       bodyReadFrom t (peer f) (Message.Body (entered (contents (Body m)))) = (acts, act, None) /\
       check (act, None) = None /\ edited m m' acts).
Proof.
  intros Hs. unfold runOne, bind. unfold next at 1. cbn [fst snd].
  destruct (openSession _ _ _); [by do 3 eexists|].
  edestruct (tell_run f (envelopeCommands m info)) as (err & w1 & -> & Ht1 & Htold1). cbn in Ht1.
  destruct err; [by do 3 eexists|].
  pose proof (forward_headerBlock (Body m) w1) as Ht2.
  destruct (headerBlock_spec (Body m) w1) as (r & b1 & w2 & E2 & Hb1 & _ & _ & Hr). rewrite E2 in *. cbn in Ht2.
  destruct r as [[block terminated]|e].
  2:{ do 3 eexists. split; [done|]. split_and!; [done|by eapply sized_same|done]. }
  assert (Hshown : shownHeaders block terminated = shown (contents (Body m))).
  { unfold shown. by rewrite <- (Hr _ eq_refl). }
  destruct (shownHeaders block terminated) as [p header].
  assert (Hs1 : sized b1) by (by eapply sized_same).
  edestruct (tell_run f (headerCommands p)) as (err & w3 & Et & Ht3 & Htold3).
  unfold headerCommands in Et. rewrite Et.
  destruct err; [do 3 eexists; split; [done|]; split_and!; done|]. cbn [setBody Body].
  pose proof (forward_ReaderAt b1 (zlen header) w3) as Ht4.
  destruct (ReaderAt_delivers b1 (zlen header) w3 Hs1 (zlen_nonneg _)) as
    (r & b2 & w4 & E4 & Hb2 & _ & Hdel). rewrite E4 in *. cbn in Ht4.
  assert (Hs2 : sized b2) by (by eapply sized_same).
  destruct r as [rd|e]; [|do 3 eexists; split; [done|]; split_and!; done]. cbn [setBody Body].
  pose proof (forward_readUpTo b2 rd None w4) as Ht5.
  destruct (readUpTo_spec b2 rd None w4) as (content & rerr & b3 & w5 & E5 & Hb3 & _ & Hread). rewrite E5 in *. cbn in Ht5.
  assert (Hs3 : sized b3) by (by eapply sized_same).
  destruct rerr; [do 3 eexists; split; [done|]; split_and!; done|].
  assert (Hcontent : content = zdrop (zlen header) (contents (Body m))).
  { rewrite <- (proj1 Hb1), (Hread eq_refl). specialize (Hdel rd eq_refl). destruct rd as [b|]; cbn in *; [done|].
    destruct Hdel as (fl & -> & ?). by cbn. }
  unfold next. destruct (bodyReadFrom (tick w5) (peer f) content) as [[acts act] err] eqn:Eb.
  destruct err; [do 3 eexists; split; [done|]; split_and!; done|].
  destruct (check (act, None)) eqn:Ec; [do 3 eexists; split; [done|]; split_and!; done|].
  match goal with |- context [applyModifications f ?m1 p ?h acts ?w1] =>
    pose proof (forward_applyModifications f m1 p h acts w1) as Ht6;
    destruct (applyModifications_spec f m1 p h acts w1) as (err & m' & w7 & E7 & Ha & Hs' & _ & Hok);
      [done|auto with mailout|] end.
  rewrite E7 in *. cbn in Ht6.
  do 3 eexists. split; [done|]. split; [done|]. split; [done|]. intros -> Hone.
  unfold one_reading in Hone. rewrite <- Hshown in Hone. cbn in Hone.
  assert (He : entered (contents (Body m)) = Message.mkParsed (Message.Headers p) content).
  { rewrite (entered_shown _ p header) by done. by rewrite Hone, Hcontent. }
  exists (tick w5), acts, act. split; [lia|]. split; [|split; [by rewrite He|split; [done|]]].
  { apply Forall_app. split; [eapply told_weaken; [| |exact (Htold1 eq_refl)]; cbn; lia|].
    rewrite He. eapply told_weaken; [| |exact (Htold3 eq_refl)]; cbn; lia. }
  destruct (Hok eq_refl) as (Hf & Ht & Hne & Hq & Hc).
  unfold edited. split_and!; try done. rewrite Hc. cbn [setBody Body].
  assert (E : contents b3 = contents (Body m))
    by (destruct Hb1 as [? _], Hb2 as [? _], Hb3 as [? _]; congruence).
  rewrite E, He, <- Hcontent. case_match; [|done]. unfold Message.Bytes, Message.headerWrites, edit.
  cbn [Message.Headers Message.Body]. by rewrite (editHeaders_fold acts p (Message.mkParsed (Message.Headers p) content)).
Qed.

(** A failure that is neither a refusal nor a request to discard. *)
Definition malfunction (err : option goerror) : Prop :=
  exists e, err = Some e /\ as_smtp e = None /\ is_discard e = false.

Lemma verdict_spec f err w :
  exists w', verdict f err w =
    (match err with
     | None => None
     | Some e =>
         match as_smtp e with
         | Some s => Some (ESmtp s)
         | None => if is_discard e then Some e
                   else if FailOpen (cfg f) then None else Some (ESmtp (errUnavailable f))
         end
     end, w').
Proof.
  unfold verdict. destruct err as [e|]; run_io; [|by eexists].
  destruct (as_smtp e); [by eexists|]. destruct (is_discard e); by eexists.
Qed.

(** The chain's answer: an SMTP status or a discard, or every filter let the
    message go on or is allowed to fail open. *)
Lemma run_spec c m info w :
  sized (Body m) ->
  exists r m' w', run c m info w = (r, m', w') /\ sized (Body m') /\ Account m' = Account m /\
    (forall e, r = Some e -> (exists s, e = ESmtp s) \/ is_discard e = true) /\
    (r = None -> forall f, f ∈ c -> exists m1 w1 err m2 w2,
       sized (Body m1) /\ runOne f m1 info w1 = (err, m2, w2) /\
       (err = None \/ FailOpen (cfg f) = true /\ malfunction err)).
Proof.
  revert m w. induction c as [|f c IH]; intros m w Hs; cbn [run].
  { do 3 eexists. split; [done|]. split_and!; try done. by intros _ f ?%elem_of_nil. }
  unfold bind. destruct (runOne_spec f m info w Hs) as (err & m1 & w1 & E & Ha & Hs1 & _).
  rewrite E. destruct (verdict_spec f err w1) as [w2 ->].
  assert (Hstop : forall e, ((exists s, e = ESmtp s) \/ is_discard e = true) ->
    exists r m' w', (Some e, m1, w2) = (r, m', w' : World) /\ sized (Body m') /\ Account m' = Account m /\
    (forall e, r = Some e -> (exists s, e = ESmtp s) \/ is_discard e = true) /\
    (r = None -> forall f0, f0 ∈ f :: c -> exists m1 w1 err m2 w2,
       sized (Body m1) /\ runOne f0 m1 info w1 = (err, m2, w2) /\
       (err = None \/ FailOpen (cfg f0) = true /\ malfunction err))).
  { intros e He. do 3 eexists. split; [done|]. split_and!; try done. by intros e' [= <-]. }
  assert (Hgo : (err = None \/ FailOpen (cfg f) = true /\ malfunction err) ->
    exists r m' w', run c m1 info w2 = (r, m', w') /\ sized (Body m') /\ Account m' = Account m /\
    (forall e, r = Some e -> (exists s, e = ESmtp s) \/ is_discard e = true) /\
    (r = None -> forall f0, f0 ∈ f :: c -> exists m1 w1 err m2 w2,
       sized (Body m1) /\ runOne f0 m1 info w1 = (err, m2, w2) /\
       (err = None \/ FailOpen (cfg f0) = true /\ malfunction err))).
  { intros Hok. destruct (IH m1 w2 Hs1) as (r & m' & w' & E' & Hs' & Ha' & He & Hn).
    exists r, m', w'. split; [done|]. split_and!; [done|congruence|done|].
    intros Hr f0 [->|Hf0]%elem_of_cons; [|by apply Hn]. exists m, w, err, m1, w1. done. }
  destruct err as [e|]; [|by apply Hgo; left].
  destruct (as_smtp e) as [s|] eqn:Es; [apply Hstop; eauto|].
  destruct (is_discard e) eqn:Ed; [apply Hstop; by right|].
  destruct (FailOpen (cfg f)) eqn:Eo; [|apply Hstop; left; eauto].
  apply Hgo. right. split; [done|]. by exists e.
Qed.
End Facts.
End Requests.

#[export] Hint Resolve Requests.quiet_run Requests.quiet_discard : mailout.

(** ** Properties *)

Section Properties.
Import Milter Requests.
Context `{K : Kernel} `{M : MilterPeer} `{U : Unicode}.

(** C22: a filter gets exactly what it asked for: when it lets a message go on, it
    has been told, and has accepted, the sender, the recipients and each header
    of this message, it was asked about this message's body, and the sender, the
    recipients, the headers and the body that leave it are the ones that entered
    with its answer's requests applied in order, none left out, at least one
    recipient remaining and no quarantine ignored; with no header or body request
    the stored message is untouched. The headers are the fields [parseMessage]
    reads, the body all that follows them. This is for a message whose header
    block has one reading: when [headerBlock] cuts at a later blank line than the
    one [parseMessage] stops at, what is between the two is lost to a filter that
    changes a header (see [header_rewrite_can_lose_bytes]). *)
Theorem filter_requests_applied_exactly (f : milterFilter) (m m' : Message) (info : sessionInfo)
    (w w' : World) :
  sized (Body m) -> one_reading (contents (Body m)) -> runOne f m info w = (None, m', w') ->
  exists t acts act, (tick w <= t < tick w')%nat /\
    told f w w' (envelopeCommands m info ++ headerCommands (entered (contents (Body m)))) /\
    bodyReadFrom t (peer f) (Message.Body (entered (contents (Body m)))) = (acts, act, None) /\
    check (act, None) = None /\ edited m m' acts.
Proof.
  intros Hs Hone E. destruct (runOne_spec f m info w Hs) as (err & m1 & w1 & E1 & _ & _ & Hok).
  rewrite E1 in E. injection E as -> -> ->. by apply Hok.
Qed.

(** C31: filters fail closed: a message does not get past a filter that cannot
    be reached unless that filter was declared fail-open; the client is told
    with an SMTP status (or another filter discarded the message). *)
Theorem unreachable_filter_blocks (c : milterChain) (f : milterFilter) (m : Message)
    (info : sessionInfo) (w : World) :
  sized (Body m) -> f ∈ c -> FailOpen (cfg f) = false ->
  (forall t macros, openSession t (peer f) macros <> None) ->
  exists e, (run c m info w).1.1 = Some e /\ ((exists s, e = ESmtp s) \/ is_discard e = true).
Proof.
  intros Hs Hf Ho Hdown.
  destruct (run_spec c m info w Hs) as (r & m' & w' & -> & _ & _ & He & Hn). simpl.
  destruct r as [e|]; [by exists e; split; [|apply He]|].
  destruct (Hn eq_refl f Hf) as (m1 & w1 & err & m2 & w2 & _ & E & [->|[? _]]); [|congruence].
  exfalso. revert E. unfold runOne, bind, next.
  specialize (Hdown (tick w1) (macrosFor m1 info)). by destruct (openSession _ _ _).
Qed.

(** A refusal is final, fail-open or not: when a filter that works normally
    answers the body with a verdict to stop, the message does not go through. *)
Theorem refusing_filter_blocks (c : milterChain) (f : milterFilter) (m : Message)
    (info : sessionInfo) (w : World) (act : Action) :
  reliable K -> sized (Body m) -> f ∈ c ->
  (forall t macros, openSession t (peer f) macros = None) ->
  (forall t cmd, command t (peer f) cmd = (None, None)) ->
  StopProcessing act = true ->
  (forall t content, exists acts, bodyReadFrom t (peer f) content = (acts, Some act, None)) ->
  exists e, (run c m info w).1.1 = Some e /\ ((exists s, e = ESmtp s) \/ is_discard e = true).
Proof.
  intros Hrel Hs Hf Hopen Hcmd Hstop Hbody.
  destruct (run_spec c m info w Hs) as (r & m' & w' & -> & _ & _ & He & Hn). simpl.
  destruct r as [e|]; [by exists e; split; [|apply He]|].
  destruct (Hn eq_refl f Hf) as (m1 & w1 & err & m2 & w2 & Hs1 & E & Herr). exfalso.
  assert (Htell : forall cmds w0, exists w', tell f cmds w0 = (None, w')).
  { induction cmds as [|x cmds IH]; intros w0; [by eexists|]. cbn [tell]. unfold bind, next.
    rewrite Hcmd. simpl. apply IH. }
  assert (Hno : exists s m2 w2, runOne f m1 info w1 = (Some (ESmtp s), m2, w2)).
  { unfold runOne, bind. unfold next at 1. rewrite Hopen.
    edestruct Htell as [w3 ->]. destruct (headerBlock_spec (Body m1) w3) as (r & b1 & w4 & -> & Hb1 & Hr & _).
    rewrite (Hr Hrel). destruct (findBlock _) as [block terminated].
    destruct (shownHeaders block terminated) as [p header]. edestruct Htell as [w5 ->].
    cbn [setBody Body]. assert (Hsz : sized b1) by (by eapply sized_same).
    destruct (ReaderAt_delivers b1 (zlen header) w5 Hsz (zlen_nonneg _)) as (r2 & b2 & w6 & -> & _ & Hr2 & Hd2).
    destruct (Hr2 Hrel) as [rd ->]. cbn [setBody Body].
    destruct (readUpTo_spec b2 rd None w6) as (content & rerr & b3 & w7 & -> & _ & Hr3 & _).
    rewrite Hr3; [|done|intros ->; by destruct (Hd2 _ eq_refl) as (f0 & -> & _)].
    unfold next. destruct (Hbody (tick w7) content) as [acts ->]. cbn [check]. rewrite Hstop.
    by do 3 eexists. }
  destruct Hno as (s & m3 & w3 & E'). rewrite E' in E. injection E as <- <- <-.
  destruct Herr as [?|[_ (e & [= <-] & ? & _)]]; done.
Qed.

(** A header added by a filter disturbs nothing: the message reads back as
    the headers the filter was shown with the new one at their end, followed by
    the body, byte for byte. *)
Theorem added_header_keeps_the_rest (m m' : Message) (name value : bytes) :
  let q := entered (contents (Body m)) in
  edited m m' [ActionAddHeader name value] ->
  wf_field (bool_decide (Message.Headers q = [])) (Message.mkField name value) ->
  Message.parseMessage (contents (Body m')) =
    Ok (Message.mkParsed (Message.Headers q ++ [Message.mkField name value]) (Message.Body q)).
Proof.
  intros q He Hwf. destruct He as (_ & _ & _ & _ & Hc). simpl in Hc. fold q in Hc.
  rewrite Hc. apply parse_Bytes. simpl. apply wf_headers_snoc. split; [|done].
  unfold q, entered. destruct (findBlock _).2; [|done].
  destruct (Message.parseMessage _) eqn:Ep; [|done]. exact (parseMessage_wf _ _ Ep).
Qed.
End Properties.

(** ** Concrete filters *)

(** A filter that lets everything through, adding one header. *)
Definition tagging_peer : MilterPeer := {|
  openSession _ _ _ := None;
  command _ _ _ := (None, None);
  bodyReadFrom _ _ _ := ([ActionAddHeader (lit "X-Tag") (lit "yes")], None, None);
  StopProcessing a := bool_decide (Type_ a = ActionReject)
|}.

Definition dead_peer : MilterPeer := {|
  openSession _ _ _ := Some (EText (lit "connection refused"));
  command _ _ _ := (None, None);
  bodyReadFrom _ _ _ := ([], None, None);
  StopProcessing a := false
|}.

Definition rejecting_peer : MilterPeer := {|
  openSession _ _ _ := None;
  command _ _ _ := (None, None);
  bodyReadFrom _ _ _ := ([], Some (mkAction ActionReject 550 (lit "550 5.7.1 virus")), None);
  StopProcessing a := bool_decide (Type_ a = ActionReject)
|}.

Definition toy_filter (open : bool) : Milter.milterFilter :=
  Milter.mkFilter (mkMilter (lit "av") (lit "tcp://av:1") open 0) (lit "tcp", lit "av:1") (30 * second).

Definition body_of (b : bytes) : spool := mkSpool [] 1000 b None (zlen b).

Definition toy_message (b : bytes) : Milter.Message :=
  Milter.mkMessage (lit "a@x.test") [lit "b@y.test"] (body_of b) (lit "app").

Definition toy_info : Milter.sessionInfo :=
  Milter.mkInfo (lit "client") (lit "10.0.0.1") 25 [] [] (lit "app") (lit "mx").

Definition toy_body : bytes := lit "From: a@x.test" ++ CRLF ++ CRLF ++ lit "hello" ++ CRLF.

Definition tagged_body : bytes :=
  lit "From: a@x.test" ++ CRLF ++ lit "X-Tag: yes" ++ CRLF ++ CRLF ++ lit "hello" ++ CRLF.

Definition toy_result (P : MilterPeer) (m : Milter.Message) : option goerror * Milter.Message * World :=
  @Milter.runOne kernel_ok P unicode14 (toy_filter false) m toy_info world0.

Lemma filter_requests_witness :
  contents (Milter.Body (toy_result tagging_peer (toy_message toy_body)).1.2) = tagged_body /\
  exists t acts act,
    @bodyReadFrom tagging_peer t (lit "tcp", lit "av:1") (lit "hello" ++ CRLF) = (acts, act, None) /\
    @Requests.edited unicode14 (toy_message toy_body) (toy_result tagging_peer (toy_message toy_body)).1.2 acts.
Proof.
  split; [vm_compute; reflexivity|].
  destruct (@filter_requests_applied_exactly kernel_ok tagging_peer unicode14 (toy_filter false)
    (toy_message toy_body) (toy_result tagging_peer (toy_message toy_body)).1.2 toy_info world0
    (toy_result tagging_peer (toy_message toy_body)).2) as (t & acts & act & _ & _ & Hb & _ & He).
  - reflexivity.
  - vm_compute. reflexivity.
  - vm_compute. reflexivity.
  - exists t, acts, act. split; [exact Hb|exact He].
Defined.

Lemma unreachable_filter_witness :
  exists e, (@Milter.run kernel_ok dead_peer unicode14 [toy_filter false] (toy_message toy_body) toy_info world0).1.1
    = Some e /\ ((exists s, e = ESmtp s) \/ is_discard e = true).
Proof.
  apply (@unreachable_filter_blocks kernel_ok dead_peer unicode14 [toy_filter false] (toy_filter false)
    (toy_message toy_body) toy_info world0).
  - reflexivity.
  - left.
  - reflexivity.
  - intros. discriminate.
Defined.

Lemma refusing_filter_witness :
  exists e, (@Milter.run kernel_ok rejecting_peer unicode14 [toy_filter true] (toy_message toy_body) toy_info world0).1.1
    = Some e /\ ((exists s, e = ESmtp s) \/ is_discard e = true).
Proof.
  apply (@refusing_filter_blocks kernel_ok rejecting_peer unicode14 [toy_filter true] (toy_filter true)
    (toy_message toy_body) toy_info world0 (mkAction ActionReject 550 (lit "550 5.7.1 virus"))).
  - apply kernel_ok_reliable.
  - reflexivity.
  - left.
  - reflexivity.
  - reflexivity.
  - reflexivity.
  - intros. by exists [].
Defined.

Lemma added_header_witness :
  Message.parseMessage tagged_body =
    Ok (Message.mkParsed [Message.mkField (lit "From") (lit "a@x.test"); Message.mkField (lit "X-Tag") (lit "yes")]
      (lit "hello" ++ CRLF)).
Proof.
  apply (@added_header_keeps_the_rest unicode14 (toy_message toy_body)
    (toy_result tagging_peer (toy_message toy_body)).1.2 (lit "X-Tag") (lit "yes")).
  - vm_compute. done.
  - split; [apply (bool_decide_unpack _); vm_compute; reflexivity|].
    split; [apply (bool_decide_unpack _); vm_compute; reflexivity|]. split; [reflexivity|].
    exists (lit "yes"), []. split; [reflexivity|]. split; [|constructor].
    split; [apply (bool_decide_unpack _); vm_compute; reflexivity|vm_compute; reflexivity].
Defined.

(** The two readings of "end of the header block" can disagree, and then
    bytes are lost: a message whose blank line is a bare LF pair, with a CRLF
    pair further down, loses what is between the two when a filter adds a
    header, although the filter asked for nothing of the sort. *)
Theorem header_rewrite_can_lose_bytes :
  contents (Milter.Body (toy_result tagging_peer
    (toy_message (lit "From: a@x.test" ++ [LF; LF] ++ lit "lost" ++ CRLF ++ CRLF ++ lit "kept"))).1.2)
  = lit "From: a@x.test" ++ CRLF ++ lit "X-Tag: yes" ++ CRLF ++ CRLF ++ lit "kept".
Proof. vm_compute. reflexivity. Qed.
