(* ===== verification/Dkim.v ===== *)
(** * Dkim: signing outgoing messages

    Models [src/internal/gateway/dkim.go]. Decoding keys (crypto/x509,
    encoding/pem) and computing a signature (go-msgauth) are parameters; which
    key is used, for whom, and what becomes of the message are the program's. *)

From S2P Require Import Prelude Unicode GoStrings Policy Message Metrics.
From S2P Require Import World Spool Passwords Config TlsStore Milter.
Import Spool.
#[local] Open Scope Z_scope.

(** A decoded private key, with the size of its modulus when it is RSA. *)
Inductive privateKey :=
| RSAKey (bits : Z) (id : bytes)
| Ed25519Key (id : bytes)
| OtherKey (id : bytes).

(** [dkim.SignOptions]. *)
Record signOptions := mkSignOptions {
  so_Domain : bytes; so_Selector : bytes; so_Signer : privateKey; so_HeaderKeys : list bytes
}.

Class DkimLib := {
  pemDecode : bytes -> option bytes;
  ParsePKCS8PrivateKey : bytes -> option privateKey;
  ParsePKCS1PrivateKey : bytes -> option (Z * bytes);  (* an RSA key *)
  dkimSignature : nat -> signOptions -> bytes -> result bytes
}.

Module Dkim.

Definition minRSABits : Z := 2048.

(** The declared headers, and nothing oversigned. *)
Definition headerKeysFor (declared : list bytes) : list bytes := declared.

Record loadedDKIMKey := mkLoaded {
  domain : bytes; selector : bytes; signer : privateKey; headerKeys : list bytes
}.

(** [byDomain]. *)
Abbreviation dkimSigner := (gmap bytes loadedDKIMKey).

Definition checkRSASize (bits : Z) (id : bytes) : result privateKey :=
  if bits <? minRSABits then
    Err (EText (lit "RSA DKIM key is " ++ itoa bits ++ lit " bits, want at least " ++ itoa minRSABits ++
      lit ": a key this size can be factored, and a factored key signs mail for your domain"))
  else Ok (RSAKey bits id).

Section Ops.
Context `{K : Kernel} `{D : DkimLib} `{P : Pki} `{U : Unicode}.

Definition parsePrivateKey (block : bytes) : result privateKey :=
  match ParsePKCS8PrivateKey block with
  | Some (RSAKey bits id) => checkRSASize bits id
  | Some (Ed25519Key id) => Ok (Ed25519Key id)
  | Some (OtherKey _) => Err (EText (lit "unsupported key type, want RSA or Ed25519"))
  | None =>
      match ParsePKCS1PrivateKey block with
      | Some (bits, id) => checkRSASize bits id
      | None => Err (EText (lit "key is neither PKCS#8 nor PKCS#1"))
      end
  end.

Definition loadDKIMPrivateKey (k : DKIMKey) : result privateKey :=
  match (if PrivateKeyFile k <>b [] then
           match ReadFile (PrivateKeyFile k) with
           | Err e => Err (EWrap (lit "read privateKeyFile") e)
           | Ok raw => Ok raw
           end
         else Ok (PrivateKeyPEM k)) with
  | Err e => Err e
  | Ok raw =>
      if (length raw =? 0)%nat then Err (EText (lit "privateKeyPEM or privateKeyFile is required"))
      else
        match pemDecode raw with
        | None => Err (EText (lit "no PEM block found"))
        | Some block => parsePrivateKey block
        end
  end.

(** The loop of [newDKIMSigner], from index [i]. *)
Fixpoint loadKeys (i : Z) (s : dkimSigner) (keys : list DKIMKey) : result dkimSigner :=
  match keys with
  | [] => Ok s
  | k :: keys' =>
      if (Domain k =b []) || (Selector k =b []) then
        Err (EText (lit "dkim[" ++ itoa i ++ lit "]: domain and selector are required"))
      else
        match loadDKIMPrivateKey k with
        | Err e => Err (EWrap (lit "dkim " ++ Selector k ++ lit "/" ++ Domain k) e)
        | Ok key =>
            let d := ToLower (Domain k) in
            match s !! d with
            | Some _ => Err (EText (lit "dkim: two keys for domain " ++ d))
            | None =>
                loadKeys (i + 1) (<[d := mkLoaded d (Selector k) key (headerKeysFor (HeaderKeys k))]> s) keys'
            end
        end
  end.

Definition newDKIMSigner (keys : list DKIMKey) : result dkimSigner := loadKeys 0 ∅ keys.

Definition empty (s : dkimSigner) : bool := (size s =? 0)%nat.

(** The domain of an address, past a display name and angle brackets. *)
Definition domainOf (address : bytes) : bytes :=
  let addr :=
    match LastIndexByte address LT with
    | Some start =>
        match Index (drop start address) [GT] with
        | Some end_ => if (0 <? end_)%nat then take (end_ - 1) (drop (start + 1) address) else address
        | None => address
        end
    | None => address
    end in
  let '(_, d, found) := Cut addr AT in
  if negb found then [] else ToLower (TrimSpace d).

Definition firstFrom (hs : list Message.headerField) : option bytes :=
  Message.Value <$> head (List.filter (λ h, EqualFold (Message.Name h) (lit "From")) hs).

(** The key of the envelope sender's domain, or of the From header's. The body
    comes back with its offset moved. *)
Definition keyFor (s : dkimSigner) (m : Milter.Message) : IO (option loadedDKIMKey * spool) :=
  match s !! domainOf (Milter.From m) with
  | Some key => ret (Some key, Milter.Body m)
  | None =>
      let! (r, b) := headerBlock (Milter.Body m) in
      match r with
      | Err _ => ret (None, b)
      | Ok (header, _) =>
          match Message.parseMessage header with
          | Err _ => ret (None, b)
          | Ok parsed =>
              match firstFrom (Message.Headers parsed) with
              | Some value => ret (s !! domainOf value, b)
              | None => ret (None, b)
              end
          end
      end
  end.

(** [dkim.Sign(signed, source, opts)]: the signature field, then the message as
    read, written to the destination. *)
Definition Sign (signed src : spool) (r : reader) (opts : signOptions)
    : IO (option goerror * spool * spool) :=
  let! (b, rerr, src) := readUpTo src r None in
  match rerr with
  | Some e => ret (Some e, signed, src)
  | None =>
      let! t := next in
      match dkimSignature t opts b with
      | Err e => ret (Some e, signed, src)
      | Ok field =>
          let! (err, signed) := copyChunks signed [field; b] in
          ret (err, signed, src)
      end
  end.

Definition sign (s : dkimSigner) (m : Milter.Message) (policy : Policy.senderPolicy)
    : IO (option goerror * Milter.Message) :=
  let! (key, b) := keyFor s m in
  let m := Milter.setBody m b in
  match key with
  | None => ret (None, m)
  | Some key =>
      if negb (Policy.canSign policy (domain key)) then
        record (Metrics.dkimResult (domain key) Metrics.dkimRefused) ;; ret (None, m)
      else
        let opts := mkSignOptions (domain key) (selector key) (signer key) (headerKeys key) in
        let! (source, b) := Reader (Milter.Body m) in
        let m := Milter.setBody m b in
        match source with
        | Err e => record (Metrics.dkimResult (domain key) Metrics.dkimFailed) ;; ret (Some e, m)
        | Ok r =>
            let! (err, signed, b) := Sign (sibling (Milter.Body m)) (Milter.Body m) r opts in
            let m := Milter.setBody m b in
            match err with
            | Some e =>
                Milter.discard signed ;;
                record (Metrics.dkimResult (domain key) Metrics.dkimFailed) ;;
                ret (Some (EWrap (lit "sign for " ++ domain key) e), m)
            | None =>
                Milter.discard (Milter.Body m) ;;
                record (Metrics.dkimResult (domain key) Metrics.dkimSigned) ;;
                ret (None, Milter.setBody m signed)
            end
        end
  end.
End Ops.

(** ** Facts *)

Section Facts.
Context `{K : Kernel} `{D : DkimLib} `{P : Pki} `{U : Unicode}.

Lemma quiet_keyFor s m : quiet (keyFor s m).
Proof. unfold keyFor. quiet_tac. Qed.
Lemma quiet_Sign s1 s2 r o : quiet (Sign s1 s2 r o).
Proof. unfold Sign. quiet_tac. Qed.
#[local] Hint Resolve quiet_keyFor quiet_Sign : mailout.
Lemma quiet_sign s m p : quiet (sign s m p).
Proof. unfold sign. quiet_tac. Qed.

(** A key strong enough to sign with. *)
Definition strong (k : privateKey) : Prop :=
  match k with RSAKey bits _ => minRSABits <= bits | Ed25519Key _ => True | OtherKey _ => False end.

Lemma parsePrivateKey_strong block k : parsePrivateKey block = Ok k -> strong k.
Proof.
  unfold parsePrivateKey, checkRSASize. intros E.
  repeat case_match; simplify_eq; simpl; bools; done.
Qed.

(** The signer's table: each key under its own lower-cased domain, strong. *)
Definition signer_ok (s : dkimSigner) : Prop :=
  forall d key, s !! d = Some key -> domain key = d /\ d <> [] /\ strong (signer key).

Lemma loadKeys_ok keys i s s' : signer_ok s -> loadKeys i s keys = Ok s' -> signer_ok s'.
Proof.
  revert i s. induction keys as [|k keys IH]; intros i s Hs; cbn [loadKeys].
  { by intros [= <-]. }
  destruct ((Domain k =b []) || (Selector k =b [])) eqn:E0; [done|].
  destruct (loadDKIMPrivateKey k) as [key|] eqn:Ek; [|done].
  destruct (s !! ToLower (Domain k)); [done|]. apply IH. intros d key'.
  destruct (decide (ToLower (Domain k) = d)) as [<-|Hne].
  - rewrite lookup_insert_eq. intros [= <-]. simpl. split; [done|]. bools.
    split; [by rewrite ToLower_nil|]. unfold loadDKIMPrivateKey in Ek.
    repeat case_match; simplify_eq; by eapply parsePrivateKey_strong.
  - rewrite lookup_insert_ne by done. apply Hs.
Qed.

Lemma newDKIMSigner_ok keys s : newDKIMSigner keys = Ok s -> signer_ok s.
Proof. apply loadKeys_ok. by intros d key. Qed.

(** The key of the sender's domain: the envelope's, or that of the first From
    header of the header block. *)
Definition picked (s : dkimSigner) (m : Milter.Message) (k : loadedDKIMKey) : Prop :=
  s !! domainOf (Milter.From m) = Some k \/
  exists p value, Message.parseMessage (findBlock (ztake maxHeaderBytes (contents (Milter.Body m)))).1 = Ok p /\
    firstFrom (Message.Headers p) = Some value /\ s !! domainOf value = Some k.

Lemma keyFor_spec s m w :
  exists key b w', keyFor s m w = (key, b, w') /\ same_body (Milter.Body m) b /\
    (forall k, key = Some k -> picked s m k).
Proof.
  unfold keyFor. destruct (s !! domainOf (Milter.From m)) as [k|] eqn:E0.
  { do 3 eexists. split; [done|]. split; [done|]. intros k' [= <-]. by left. }
  unfold bind. destruct (headerBlock_spec (Milter.Body m) w) as (r & b & w' & -> & Hb & _ & _ & Hr).
  destruct r as [[header t]|e]; [|exists None, b, w'; done].
  destruct (Message.parseMessage header) as [p|] eqn:Ep; [|exists None, b, w'; done].
  destruct (firstFrom (Message.Headers p)) as [value|] eqn:Ef; [|exists None, b, w'; done].
  do 3 eexists. split; [done|]. split; [done|]. intros k Hk. right. exists p, value.
  by rewrite <- (Hr _ eq_refl).
Qed.

(** Signing leaves the message alone or puts one field in front of it, under a
    key the policy vouches for. *)
Lemma sign_spec s m policy w :
  exists err m' w', sign s m policy w = (err, m', w') /\
    Milter.From m' = Milter.From m /\ Milter.To m' = Milter.To m /\ Milter.Account m' = Milter.Account m /\
    (contents (Milter.Body m') = contents (Milter.Body m) \/
     err = None /\ exists key t field,
       picked s m key /\ Policy.canSign policy (domain key) = true /\
       dkimSignature t (mkSignOptions (domain key) (selector key) (signer key) (headerKeys key))
         (contents (Milter.Body m)) = Ok field /\
       contents (Milter.Body m') = field ++ contents (Milter.Body m)).
Proof.
  unfold sign, bind. destruct (keyFor_spec s m w) as (key & b & w1 & -> & Hb & Hk).
  destruct key as [key|].
  2:{ do 3 eexists. split; [done|]. split_and!; try done. left. apply Hb. }
  destruct (Policy.canSign policy (domain key)) eqn:Es; cbn [negb].
  2:{ do 3 eexists. split; [done|]. split_and!; try done. left. apply Hb. }
  cbn [Milter.setBody Milter.Body].
  destruct (Reader_delivers b w1) as (r & b1 & w2 & -> & Hb1 & _ & Hd).
  assert (Hc1 : contents b1 = contents (Milter.Body m)) by (destruct Hb as [? _], Hb1 as [? _]; congruence).
  destruct r as [rd|e].
  2:{ do 3 eexists. split; [done|]. split_and!; try done. by left. }
  specialize (Hd rd eq_refl). unfold Sign, bind. cbn [Milter.setBody Milter.Body].
  destruct (readUpTo_spec b1 rd None w2) as (c & rerr & b2 & w3 & -> & Hb2 & _ & Hread).
  assert (Hc2 : contents b2 = contents (Milter.Body m)) by (destruct Hb2 as [? _]; congruence).
  assert (Hfail : forall e sp w0, exists err m' w',
    (let '(_, w') := Milter.discard sp w0 in
     let '(_, w'0) := record (Metrics.dkimResult (domain key) Metrics.dkimFailed) w' in
     ret (Some (EWrap (lit "sign for " ++ domain key) e),
       Milter.setBody (Milter.setBody (Milter.setBody m b) b1) b2) w'0) = (err, m', w') /\
    Milter.From m' = Milter.From m /\ Milter.To m' = Milter.To m /\ Milter.Account m' = Milter.Account m /\
    (contents (Milter.Body m') = contents (Milter.Body m) \/
     err = None /\ exists key t field,
       picked s m key /\ Policy.canSign policy (domain key) = true /\
       dkimSignature t (mkSignOptions (domain key) (selector key) (signer key) (headerKeys key))
         (contents (Milter.Body m)) = Ok field /\
       contents (Milter.Body m') = field ++ contents (Milter.Body m))).
  { intros e sp w0. destruct (Requests.discard_run sp w0) as [w' ->]. do 3 eexists. split; [done|].
    split_and!; try done. by left. }
  destruct rerr as [e|]; [unfold ret at 1; apply Hfail|]. unfold next at 1.
  destruct (dkimSignature _ _ c) as [field|e] eqn:Esig; [|unfold ret at 1; apply Hfail].
  match goal with |- context [copyChunks ?sp ?l ?w0] =>
    destruct (copyChunks_spec l sp w0 (newSpool_inv _ _)) as
      (err & sg & w4 & q & -> & _ & _ & _ & _ & Hc & Hok & _) end.
  destruct err as [e|]; [unfold ret at 1; apply Hfail|].
  unfold ret at 1. edestruct Requests.discard_run as [w5 ->]. do 3 eexists. split; [done|]. split_and!; try done.
  right. split; [done|].
  assert (Ec : c = contents (Milter.Body m)).
  { rewrite (Hread eq_refl). destruct rd as [b'|]; simpl in Hd.
    - destruct Hb as [<- _]. done.
    - destruct Hd as (f & -> & Hf). destruct Hb as [<- _]. done. }
  rewrite Ec in *. exists key, (tick w3), field.
  split; [by apply Hk|]. split; [done|]. split; [done|]. cbn [Milter.setBody Milter.Body].
  rewrite Hc, (Hok eq_refl). simpl. by rewrite app_nil_r.
Qed.
End Facts.
End Dkim.

#[export] Hint Resolve Dkim.quiet_sign : mailout.

(** ** Properties *)

Section Properties.
Import Dkim.
Context `{K : Kernel} `{D : DkimLib} `{P : Pki} `{U : Unicode}.

(** C18: one tenant cannot vouch for another: if signing changed a message, it
    put one signature in front of it, untouched otherwise, with the key of the
    sender's own domain (envelope, else From header), a key of at least 2048
    bits when RSA, and some entry of the account's senders is in that domain. *)
Theorem signature_only_for_granted_domain (keys : list DKIMKey) (s : dkimSigner)
    (senders : list bytes) (m m' : Milter.Message) (err : option goerror) (w w' : World) :
  newDKIMSigner keys = Ok s ->
  sign s m (Policy.newSenderPolicy senders) w = (err, m', w') ->
  contents (Milter.Body m') <> contents (Milter.Body m) ->
  exists key t field, picked s m key /\ strong (signer key) /\
    (exists e g, e ∈ senders /\ parse_entry e = Some g /\ grant_domain g = normalize (domain key)) /\
    dkimSignature t (mkSignOptions (domain key) (selector key) (signer key) (headerKeys key))
      (contents (Milter.Body m)) = Ok field /\
    contents (Milter.Body m') = field ++ contents (Milter.Body m) /\
    Milter.From m' = Milter.From m /\ Milter.To m' = Milter.To m.
Proof.
  intros Hs E Hne.
  destruct (sign_spec s m (Policy.newSenderPolicy senders) w) as
    (err1 & m1 & w1 & E1 & Hf & Ht & _ & Hc). rewrite E in E1. injection E1 as <- <- <-.
  destruct Hc as [?|[_ (key & t & field & Hp & Hcs & Hsig & Hc)]]; [done|].
  exists key, t, field. split; [done|]. split.
  { assert (Hd : exists d, s !! d = Some key) by (destruct Hp as [?|(? & ? & _ & _ & ?)]; eauto).
    destruct Hd as [d Hd]. by apply (newDKIMSigner_ok keys s Hs) in Hd as (_ & _ & ?). }
  split; [|done]. apply canSign_carries in Hcs as (g & (e & He & Hp') & Hg). by exists e, g.
Qed.
End Properties.

Definition toy_dkim : DkimLib := {|
  pemDecode b := Some b;
  ParsePKCS8PrivateKey b := Some (RSAKey 2048 b);
  ParsePKCS1PrivateKey _ := None;
  dkimSignature _ o _ := Ok (lit "DKIM-Signature: d=" ++ so_Domain o ++ CRLF)
|}.

Definition toy_dkim_keys : list DKIMKey := [mkDKIMKey (lit "X.test") (lit "mail") (lit "pem") [] []].

Definition toy_signer : gmap bytes Dkim.loadedDKIMKey :=
  {[ lit "x.test" := Dkim.mkLoaded (lit "x.test") (lit "mail") (RSAKey 2048 (lit "pem")) [] ]}.

Definition toy_signed (senders : list bytes) : option goerror * Milter.Message * World :=
  @Dkim.sign kernel_ok toy_dkim unicode14 toy_signer (toy_message toy_body)
    (Policy.newSenderPolicy senders) world0.

Lemma signature_witness :
  contents (Milter.Body (toy_signed [lit "*@other.test"]).1.2) = toy_body /\
  contents (Milter.Body (toy_signed [lit "a@x.test"]).1.2) =
    lit "DKIM-Signature: d=x.test" ++ CRLF ++ toy_body /\
  exists e g, e ∈ [lit "a@x.test"] /\ parse_entry e = Some g /\ grant_domain g = normalize (lit "x.test").
Proof.
  split; [vm_compute; reflexivity|]. split; [vm_compute; reflexivity|].
  destruct (@signature_only_for_granted_domain kernel_ok toy_dkim toy_pki unicode14 toy_dkim_keys toy_signer
    [lit "a@x.test"] (toy_message toy_body) (toy_signed [lit "a@x.test"]).1.2 None world0
    (toy_signed [lit "a@x.test"]).2) as (key & t & field & Hp & _ & Hg & _).
  - vm_compute. reflexivity.
  - vm_compute. reflexivity.
  - vm_compute. discriminate.
  - assert (Hd : Dkim.domain key = lit "x.test"); [|rewrite <- Hd; exact Hg].
    destruct Hp as [Hp|(p & value & Hp & Hv & Hk)]; [vm_compute in Hp; by injection Hp as <-|].
    injection Hp as <-. vm_compute in Hv. injection Hv as <-. vm_compute in Hk. by injection Hk as <-.
Defined.
