(* ===== verification/DkimGen.v ===== *)
(** * DkimGen: new signing keys

    Models [src/internal/gateway/dkimgen.go]: the key pair generated, its PEM
    form and the DNS record that publishes it. Key generation and the DER and
    PEM encodings are parameters with what their packages document; base64 is
    modelled. *)

From S2P Require Import Prelude Unicode GoStrings Message World Spool Passwords Config TlsStore Milter Dkim.
Import Passwords.
#[local] Open Scope Z_scope.
#[local] Set Default Proof Using "Type*".

(** crypto/rsa, crypto/ed25519, crypto/x509 and encoding/pem. The first
    argument of a generator numbers the draws of randomness. *)
Class KeyGen := {
  rsa_GenerateKey : nat -> Z -> result privateKey;
  ed25519_GenerateKey : nat -> result (bytes * privateKey);   (* the public half, 32 bytes *)
  MarshalPKCS8PrivateKey : privateKey -> result bytes;
  MarshalPKIXPublicKey : privateKey -> result bytes;          (* of the key's public half *)
  pem_EncodeToMemory : bytes -> bytes -> bytes                (* the block's type and bytes *)
}.

(** What these packages document: a generated key has the kind and the size
    asked for, and what is marshalled or encoded parses back. *)
Class KeyGenSound (G : KeyGen) (D : DkimLib) := {
  rsa_kind t bits k : rsa_GenerateKey t bits = Ok k -> exists id, k = RSAKey bits id;
  ed25519_kind t pub k : ed25519_GenerateKey t = Ok (pub, k) -> exists id, k = Ed25519Key id;
  pkcs8_parse k der : MarshalPKCS8PrivateKey k = Ok der -> ParsePKCS8PrivateKey der = Some k;
  pem_parse type der : pemDecode (pem_EncodeToMemory type der) = Some der;
  pem_nonempty type der : pem_EncodeToMemory type der <> []
}.

Module DkimGen.

(** ** base64.StdEncoding *)

Definition stdAlphabet : bytes :=
  lit "ABCDEFGHIJKLMNOPQRSTUVWXYZabcdefghijklmnopqrstuvwxyz0123456789+/".
Definition PAD : ascii := chr 61.

Definition digit64 (z : Z) : ascii := nth (Z.to_nat z) stdAlphabet (chr 0).

Fixpoint StdEncode (b : bytes) : bytes :=
  match b with
  | [] => []
  | [x] => [digit64 (byteZ x / 4); digit64 (byteZ x mod 4 * 16); PAD; PAD]
  | [x; y] =>
      [digit64 (byteZ x / 4); digit64 (byteZ x mod 4 * 16 + byteZ y / 16); digit64 (byteZ y mod 16 * 4); PAD]
  | x :: y :: z :: b' =>
      digit64 (byteZ x / 4) :: digit64 (byteZ x mod 4 * 16 + byteZ y / 16)
        :: digit64 (byteZ y mod 16 * 4 + byteZ z / 64) :: digit64 (byteZ z mod 64) :: StdEncode b'
  end.

Record GeneratedDKIMKey := mkGenerated {
  g_PrivateKeyPEM : bytes;
  DNSRecordName : bytes;
  DNSRecordValue : bytes
}.

Section Ops.
Context `{KeyGen}.

(** The record and the file of a key whose halves are marshalled. *)
Definition generated (privDER pubDER keyType domain selector : bytes) : GeneratedDKIMKey :=
  mkGenerated (pem_EncodeToMemory (lit "PRIVATE KEY") privDER)
    (selector ++ lit "._domainkey." ++ domain)
    (lit "v=DKIM1; k=" ++ keyType ++ lit "; p=" ++ StdEncode pubDER).

Definition GenerateDKIMKey (t : nat) (algorithm domain selector : bytes) : result GeneratedDKIMKey :=
  if (algorithm =b []) || (algorithm =b lit "rsa") then
    match rsa_GenerateKey t 2048 with
    | Err e => Err (EWrap (lit "generate RSA key") e)
    | Ok key =>
        match MarshalPKCS8PrivateKey key with
        | Err e => Err e
        | Ok privDER =>
            match MarshalPKIXPublicKey key with
            | Err e => Err e
            | Ok pubDER => Ok (generated privDER pubDER (lit "rsa") domain selector)
            end
        end
    end
  else if algorithm =b lit "ed25519" then
    match ed25519_GenerateKey t with
    | Err e => Err (EWrap (lit "generate Ed25519 key") e)
    | Ok (pub, priv) =>
        match MarshalPKCS8PrivateKey priv with
        | Err e => Err e
        | Ok privDER => Ok (generated privDER pub (lit "ed25519") domain selector)
        end
    end
  else Err (EText (lit "unknown algorithm " ++ algorithm ++ lit ", want rsa or ed25519")).
End Ops.

(** ** Decoding, as a verifier does *)

Definition value64 (c : ascii) : option Z :=
  match list_find (λ d, d = c) stdAlphabet with Some (i, _) => Some (Z.of_nat i) | None => None end.

Fixpoint StdDecode (s : bytes) : option bytes :=
  match s with
  | [] => Some []
  | c1 :: c2 :: c3 :: c4 :: rest =>
      match value64 c1, value64 c2 with
      | Some a, Some b =>
          if (c3 =b PAD) && (c4 =b PAD) && (rest =b []) then Some [chr (a * 4 + b / 16)]
          else
            match value64 c3 with
            | None => None
            | Some c =>
                if (c4 =b PAD) && (rest =b []) then Some [chr (a * 4 + b / 16); chr (b mod 16 * 16 + c / 4)]
                else
                  match value64 c4, StdDecode rest with
                  | Some d, Some out =>
                      Some (chr (a * 4 + b / 16) :: chr (b mod 16 * 16 + c / 4) :: chr (c mod 4 * 64 + d) :: out)
                  | _, _ => None
                  end
            end
      | _, _ => None
      end
  | _ => None
  end.
End DkimGen.
Import DkimGen.

Lemma digit64_ok z : 0 <= z < 64 -> value64 (digit64 z) = Some z /\ digit64 z <> PAD.
Proof.
  intros Hz. assert (Hall : Forall (λ n, value64 (digit64 (Z.of_nat n)) = Some (Z.of_nat n) /\ digit64 (Z.of_nat n) <> PAD)
    (seq 0 64)) by (apply (bool_decide_unpack _); by vm_compute).
  rewrite Forall_forall in Hall. rewrite <- (Z2Nat.id z) by lia. apply Hall, elem_of_seq. lia.
Qed.

Lemma value_digit z : 0 <= z < 64 -> value64 (digit64 z) = Some z.
Proof. apply digit64_ok. Qed.

Lemma digit_pad z : 0 <= z < 64 -> bool_decide (digit64 z = PAD) = false.
Proof. intros Hz. apply bool_decide_eq_false_2. by apply digit64_ok. Qed.

Lemma chr_back x z : byteZ x = z -> chr z = x.
Proof. intros <-. apply chr_byteZ. Qed.

Lemma StdDecode_Encode b : StdDecode (StdEncode b) = Some b.
Proof.
  induction b as [|x|x y|x y z b IH] using triples_ind; [done|..]; cbn [StdEncode StdDecode];
    repeat (rewrite value_digit by sextets); rewrite ?digit_pad by sextets.
  - cbn. do 2 f_equal. apply chr_back. sextets.
  - cbn. repeat f_equal; apply chr_back; sextets.
  - cbn [andb]. rewrite IH. repeat f_equal; apply chr_back; sextets.
Qed.

(** ** Properties *)

Section Properties.
Context `{G : KeyGen} `{D : DkimLib} `{P : Pki} `{!KeyGenSound G D}.

(** C39: a generated key can be put to use: its PEM form is one the gateway's
    signer loads, as the very key that was generated, of at least the size the
    signer asks for; and a verifier that decodes the published record finds the
    public half of that key. *)
Theorem generated_key_round_trips (t : nat) (algorithm domain selector : bytes) (k : GeneratedDKIMKey) :
  GenerateDKIMKey t algorithm domain selector = Ok k ->
  exists key keyType pub,
    Dkim.loadDKIMPrivateKey (mkDKIMKey domain selector (g_PrivateKeyPEM k) [] []) = Ok key /\ Dkim.strong key /\
    DNSRecordName k = selector ++ lit "._domainkey." ++ domain /\
    (exists p, DNSRecordValue k = lit "v=DKIM1; k=" ++ keyType ++ lit "; p=" ++ p /\ StdDecode p = Some pub) /\
    ((keyType = lit "rsa" /\ rsa_GenerateKey t 2048 = Ok key /\ MarshalPKIXPublicKey key = Ok pub) \/
     (keyType = lit "ed25519" /\ ed25519_GenerateKey t = Ok (pub, key))).
Proof.
  assert (Hload : forall key privDER, MarshalPKCS8PrivateKey key = Ok privDER -> Dkim.strong key ->
    Dkim.loadDKIMPrivateKey (mkDKIMKey domain selector (pem_EncodeToMemory (lit "PRIVATE KEY") privDER) [] []) = Ok key).
  { intros key privDER Hm Hs. unfold Dkim.loadDKIMPrivateKey. cbn [PrivateKeyFile PrivateKeyPEM].
    rewrite bool_decide_eq_true_2 by done. cbn [negb].
    pose proof (pem_nonempty (lit "PRIVATE KEY") privDER) as Hne.
    destruct (pem_EncodeToMemory _ _) as [|c l] eqn:Ee; [done|]. cbn [length Nat.eqb]. rewrite <- Ee, pem_parse.
    unfold Dkim.parsePrivateKey. rewrite (pkcs8_parse _ _ Hm). destruct key as [bits id|id|id]; try done.
    unfold Dkim.checkRSASize. cbn in Hs. by rewrite (proj2 (Z.ltb_ge _ _) Hs). }
  unfold GenerateDKIMKey. destruct (_ || _).
  - destruct (rsa_GenerateKey t 2048) as [key|] eqn:Eg; [|done].
    destruct (MarshalPKCS8PrivateKey key) as [privDER|] eqn:Em; [|done].
    destruct (MarshalPKIXPublicKey key) as [pub|] eqn:Ep; [|done]. intros [= <-].
    destruct (rsa_kind _ _ _ Eg) as [id ->]. assert (Hs : Dkim.strong (RSAKey 2048 id)) by done.
    exists (RSAKey 2048 id), (lit "rsa"), pub. split_and!; [by apply Hload|done|done| |by left].
    eexists. split; [reflexivity|apply StdDecode_Encode].
  - destruct (_ =b _); [|done]. destruct (ed25519_GenerateKey t) as [[pub key]|] eqn:Eg; [|done].
    destruct (MarshalPKCS8PrivateKey key) as [privDER|] eqn:Em; [|done]. intros [= <-].
    destruct (ed25519_kind _ _ _ Eg) as [id ->].
    exists (Ed25519Key id), (lit "ed25519"), pub. split_and!; [by apply Hload|done|done| |by right].
    eexists. split; [reflexivity|apply StdDecode_Encode].
Qed.
End Properties.

(** ** Witness *)

(** Keys encoded as a tag and their identity. *)
Definition tagged_dkim : DkimLib := {|
  pemDecode b := match b with _ :: d => Some d | [] => None end;
  ParsePKCS8PrivateKey b :=
    match b with c :: id => Some (if c =b chr 1 then RSAKey 2048 id else Ed25519Key id) | [] => None end;
  ParsePKCS1PrivateKey _ := None;
  dkimSignature _ _ _ := Ok []
|}.

Definition tagged_keygen : KeyGen := {|
  rsa_GenerateKey _ bits := Ok (RSAKey bits (lit "r"));
  ed25519_GenerateKey _ := Ok (lit "pub", Ed25519Key (lit "e"));
  MarshalPKCS8PrivateKey k :=
    match k with
    | RSAKey bits id => if bits =? 2048 then Ok (chr 1 :: id) else Err (EText (lit "size"))
    | Ed25519Key id => Ok (chr 2 :: id)
    | OtherKey _ => Err (EText (lit "kind"))
    end;
  MarshalPKIXPublicKey _ := Ok (lit "pkix");
  pem_EncodeToMemory _ der := chr 45 :: der
|}.

Lemma tagged_sound : KeyGenSound tagged_keygen tagged_dkim.
Proof.
  split; cbn; intros; simplify_eq; eauto.
  destruct k as [bits id|id|id]; [|by simplify_eq|done].
  destruct (Z.eqb_spec bits 2048); [by simplify_eq|done].
Qed.
#[local] Existing Instance tagged_sound.

Lemma generated_key_witness : exists k key keyType pub,
  @GenerateDKIMKey tagged_keygen 0 (lit "ed25519") (lit "x.test") (lit "mail") = Ok k /\
  @Dkim.loadDKIMPrivateKey tagged_dkim toy_pki (mkDKIMKey (lit "x.test") (lit "mail") (g_PrivateKeyPEM k) [] []) = Ok key /\
  Dkim.strong key /\ DNSRecordValue k = lit "v=DKIM1; k=" ++ keyType ++ lit "; p=" ++ lit "cHVi" /\
  StdDecode (lit "cHVi") = Some pub.
Proof.
  destruct (@GenerateDKIMKey tagged_keygen 0 (lit "ed25519") (lit "x.test") (lit "mail")) as [k|] eqn:E; [|discriminate].
  destruct (@generated_key_round_trips tagged_keygen tagged_dkim toy_pki tagged_sound 0 (lit "ed25519") (lit "x.test")
    (lit "mail") k E) as (key & keyType & pub & Hl & Hs & _).
  exists k, key, (lit "ed25519"), (lit "pub"). split; [done|]. split; [exact Hl|]. split; [exact Hs|].
  injection E as <-. split; by vm_compute.
Defined.
