(* ===== verification/Relay.v ===== *)
(** * Relay: delivery to the upstream server

    Models [src/internal/gateway/relay.go]. The upstream server, behind the
    go-smtp client, is a parameter: it answers each command favourably or with
    an error, and may fail while the body is being written. What it agreed to is
    logged in the world. *)

From S2P Require Import Prelude Unicode GoStrings Metrics World Spool Passwords Config RateLimit Milter.
Import Spool.
#[local] Open Scope Z_scope.

(** [reply] is the answer to a command: [UpAccepted] stands for the end of the
    data, when the message is taken or refused. [writeBody] is where writing the
    body fails, if it does. *)
Class UpstreamPeer := {
  reply : nat -> upEvent -> option goerror;
  writeBody : nat -> bytes -> option (nat * goerror)
}.

Module Relay.

Record relayer := mkRelayer {
  upstream : Upstream;
  heloName : bytes;
  rootCAs : option bytes  (* the only CA trusted, when one is set *)
}.

Definition newRelayer `{CertPool} (cfg : Config) : result relayer :=
  let pem := u_RootCAPEM (Config.upstream cfg) in
  if pem <>b [] then
    if negb (appendCertsFromPEM pem) then Err (EText (lit "upstream.rootCAPEM: no certificate found"))
    else Ok (mkRelayer (Config.upstream cfg) (Hostname cfg) (Some pem))
  else Ok (mkRelayer (Config.upstream cfg) (Hostname cfg) None).

(** A dial failure is temporary. *)
Definition upstreamUnavailable : SMTPError :=
  mkSMTPError 421 (4, 4, 1) (lit "Upstream server unavailable").

(** The upstream's own status, or a temporary failure. *)
Definition wrapUpstream (stage : bytes) (err : goerror) : SMTPError :=
  match as_smtp err with
  | Some s => s
  | None => mkSMTPError 451 (4, 4, 2) (lit "Upstream failure during " ++ stage)
  end.

Section Ops.
Context `{K : Kernel} `{R : UpstreamPeer}.

(** One command; logged when the upstream agrees to it. *)
Definition talk (ev : upEvent) : IO (option goerror) :=
  let! t := next in
  match reply t ev with
  | Some e => ret (Some e)
  | None => say ev ;; ret None
  end.

(** A command whose refusal ends the delivery. *)
Definition stage (name : bytes) (ev : upEvent) : IO (option goerror) :=
  let! r := talk ev in
  ret (match r with Some e => Some (ESmtp (wrapUpstream name e)) | None => None end).

(** Steps in turn, up to the first that fails. *)
Fixpoint stages (l : list (bytes * upEvent)) : IO (option goerror) :=
  match l with
  | [] => ret None
  | (name, ev) :: l' =>
      let! r := stage name ev in
      match r with
      | Some e => ret (Some e)
      | None => stages l'
      end
  end.

Definition dial (r : relayer) : IO (option goerror) :=
  let! d := talk (UpDial (Address (upstream r))) in
  match d with
  | Some _ => ret (Some (ESmtp upstreamUnavailable))
  | None =>
      if u_TLS (upstream r) =b TLSModeImplicit then ret None
      else if u_TLS (upstream r) =b TLSModeSTARTTLS then stage (lit "STARTTLS") UpStartTLS
      else ret None
  end.

(** The commands before the body. *)
Definition preamble (r : relayer) (m : Milter.Message) : list (bytes * upEvent) :=
  [(lit "EHLO", UpHello (heloName r))] ++
  (if u_Username (upstream r) <>b []
   then [(lit "AUTH", UpAuth (u_Username (upstream r)) (u_Password (upstream r)))] else []) ++
  [(lit "MAIL FROM", UpMail (Milter.From m))] ++
  ((λ rcpt, (lit "RCPT TO", UpRcpt rcpt)) <$> Milter.To m) ++
  [(lit "DATA", UpData)].

(** [io.Copy(w, body)]: what reached the upstream, and the error if any. *)
Definition copyBody (s : spool) (r : reader) : IO (option goerror * spool) :=
  let! (b, rerr, s) := readUpTo s r None in
  let! t := next in
  match writeBody t b with
  | Some (k, e) => say (UpBody (take k b)) ;; ret (Some e, s)
  | None => say (UpBody b) ;; ret (rerr, s)
  end.

(** The error, and the message with the offset of its body moved. Closing the
    data writer ends the message, whatever was written. *)
Definition send (r : relayer) (m : Milter.Message) : IO (option goerror * Milter.Message) :=
  let! d := dial r in
  match d with
  | Some e => ret (Some e, m)
  | None =>
      let! p := stages (preamble r m) in
      match p with
      | Some e => ret (Some e, m)
      | None =>
          let! (source, b) := Reader (Milter.Body m) in
          let m := Milter.setBody m b in
          match source with
          | Err e =>
              say (UpBody []) ;;
              let! _ := talk UpAccepted in ret (Some e, m)
          | Ok rd =>
              let! (err, b) := copyBody (Milter.Body m) rd in
              let m := Milter.setBody m b in
              match err with
              | Some e =>
                  let! _ := talk UpAccepted in
                  ret (Some (ESmtp (wrapUpstream (lit "DATA write") e)), m)
              | None =>
                  let! c := stage (lit "DATA close") UpAccepted in
                  ret (c, m)
              end
          end
      end
  end.
End Ops.

(** ** Facts *)

Section Facts.
Context `{K : Kernel} `{R : UpstreamPeer}.

Lemma talk_spec ev w :
  exists r w', talk ev w = (r, w') /\ counted w' = counted w /\
    (r = None -> sent w' = sent w ++ [ev]) /\ (r <> None -> sent w' = sent w) /\
    (forall e, r = Some e -> exists t, reply t ev = Some e).
Proof.
  unfold talk. run_io. destruct (reply (tick w) ev) as [e|] eqn:E; do 2 eexists; split; try done;
    split_and!; try done. intros e' [= <-]. eauto.
Qed.

Lemma stage_spec name ev w :
  exists r w', stage name ev w = (r, w') /\ counted w' = counted w /\
    (r = None -> sent w' = sent w ++ [ev]) /\ (r <> None -> sent w' = sent w) /\
    (forall e, r = Some e -> exists t e0, reply t ev = Some e0 /\ e = ESmtp (wrapUpstream name e0)).
Proof.
  unfold stage, bind. destruct (talk_spec ev w) as (r & w' & -> & Hc & Hn & Hs & He).
  destruct r as [e|]; do 2 eexists; split; try done; split_and!; try done; [by intros _; apply Hs|].
  intros e' [= <-]. destruct (He e eq_refl) as [t Ht]. eauto.
Qed.

(** [s] is one the upstream answered to one of these commands. *)
Definition answered (evs : list upEvent) (e : goerror) : Prop :=
  exists name t ev e0, ev ∈ evs /\ reply t ev = Some e0 /\ e = ESmtp (wrapUpstream name e0).

Lemma answered_mono evs evs' e : (forall ev, ev ∈ evs -> ev ∈ evs') -> answered evs e -> answered evs' e.
Proof. intros Hsub (nm & t & ev & e0 & Hin & ?). exists nm, t, ev, e0. auto. Qed.

Lemma stages_spec l w :
  exists r w', stages l w = (r, w') /\ counted w' = counted w /\
    (r = None -> sent w' = sent w ++ (snd <$> l)) /\
    (r <> None -> exists k, k `prefix_of` (snd <$> l) /\ sent w' = sent w ++ k) /\
    (forall e, r = Some e -> answered (snd <$> l) e).
Proof.
  revert w. induction l as [|[name ev] l IH]; intros w; cbn [stages].
  { do 2 eexists. split; [done|]. simpl. rewrite app_nil_r. done. }
  unfold bind. destruct (stage_spec name ev w) as (r & w1 & -> & Hc & Hn & Hs & He).
  destruct r as [e|].
  { do 2 eexists. split; [done|]. split_and!; try done.
    - intros _. exists []. rewrite app_nil_r. split; [apply prefix_nil|by apply Hs].
    - intros e' [= <-]. destruct (He e eq_refl) as (t & e0 & ? & ->). exists name, t, ev, e0. set_solver. }
  destruct (IH w1) as (r & w2 & -> & Hc2 & Hn2 & Hs2 & He2). rewrite (Hn eq_refl) in *.
  do 2 eexists. split; [done|]. split_and!; [congruence| | |].
  - intros E. rewrite (Hn2 E), <- app_assoc. done.
  - intros E. destruct (Hs2 E) as (k & Hk & ->). exists (ev :: k). rewrite <- app_assoc.
    split; [|done]. by apply prefix_cons.
  - intros e E. destruct (He2 e E) as (nm & t & ev' & e0 & ? & ?). exists nm, t, ev', e0. set_solver.
Qed.

(** The dialogue up to the body. *)
Definition dialEvents (r : relayer) : list upEvent :=
  [UpDial (Address (upstream r))] ++
  (if (u_TLS (upstream r) <>b TLSModeImplicit) && (u_TLS (upstream r) =b TLSModeSTARTTLS)
   then [UpStartTLS] else []).

Lemma dial_spec r w :
  exists e w', dial r w = (e, w') /\ counted w' = counted w /\
    (e = None -> sent w' = sent w ++ dialEvents r) /\
    (e <> None -> exists k, k `prefix_of` dialEvents r /\ sent w' = sent w ++ k) /\
    (forall e', e = Some e' -> e' = ESmtp upstreamUnavailable \/ answered (dialEvents r) e').
Proof.
  unfold dial, dialEvents, bind.
  destruct (talk_spec (UpDial (Address (upstream r))) w) as (d & w1 & -> & Hc & Hn & Hs & _).
  destruct d as [e|].
  { do 2 eexists. split; [done|]. split_and!; try done.
    - intros _. exists []. rewrite app_nil_r. split; [apply prefix_nil|by apply Hs].
    - intros e' [= <-]. by left. }
  rewrite (Hn eq_refl) in *. clear Hs.
  destruct (u_TLS (upstream r) =b TLSModeImplicit); cbn [negb andb].
  { do 2 eexists. split; [done|]. rewrite app_nil_r. split_and!; try done; by intros. }
  destruct (u_TLS (upstream r) =b TLSModeSTARTTLS).
  2:{ do 2 eexists. split; [done|]. rewrite app_nil_r. split_and!; try done; by intros. }
  destruct (stage_spec (lit "STARTTLS") UpStartTLS w1) as (e & w2 & -> & Hc2 & Hn2 & Hs2 & He2).
  rewrite (Hn eq_refl) in *. do 2 eexists. split; [done|]. split_and!; [congruence| | |].
  - intros E. by rewrite (Hn2 E), <- app_assoc.
  - intros E. exists [UpDial (Address (upstream r))]. split; [|by apply Hs2].
    by apply prefix_cons, prefix_nil.
  - intros e' E. right. destruct (He2 e' E) as (t & e0 & ? & ->). exists (lit "STARTTLS"), t, UpStartTLS, e0. set_solver.
Qed.

(** What the upstream has to agree to for a message to be delivered. *)
Definition dialogue (r : relayer) (m : Milter.Message) : list upEvent :=
  dialEvents r ++ (snd <$> preamble r m) ++ [UpBody (contents (Milter.Body m)); UpAccepted].

Lemma copyBody_spec s rd b w :
  delivers s rd b ->
  exists err s' w', copyBody s rd w = (err, s', w') /\ same_body s s' /\ counted w' = counted w /\
    (exists part, sent w' = sent w ++ [UpBody part] /\ (err = None -> part = b)) /\
    (reliable K -> forall e, err = Some e -> exists t b k, writeBody t b = Some (k, e)).
Proof.
  intros Hd. unfold copyBody, bind.
  destruct (readUpTo_spec s rd None w) as (b0 & rerr & s1 & w1 & E & Hs & Hr & Hb).
  assert (Hq := quiet_readUpTo s rd None w). rewrite E in *. destruct Hq as [Hq1 Hq2]. cbn [snd] in Hq1, Hq2.
  assert (Hok : rerr = None -> b0 = b).
  { intros E1. rewrite (Hb E1). destruct rd; simpl in Hd; [by rewrite Hd|]. by destruct Hd as (f & -> & ->). }
  unfold next. destruct (writeBody (tick w1) b0) as [[k e]|] eqn:Ew; run_io; do 3 eexists;
    (split; [done|]; split; [done|]); simpl; rewrite Hq1, Hq2; (split; [done|]); split.
  - by exists (take k b0).
  - intros _ e' [= <-]. eauto.
  - exists b0. split; [done|exact Hok].
  - intros Hrel e' He. exfalso. rewrite Hr in He; [done|done|].
    intros ->. destruct Hd as (f & -> & _). done.
Qed.

Lemma send_spec r m w :
  exists err m' w', send r m w = (err, m', w') /\ counted w' = counted w /\
    same_body (Milter.Body m) (Milter.Body m') /\
    (err = None -> sent w' = sent w ++ dialogue r m) /\
    (reliable K -> forall e, err = Some e ->
       e = ESmtp upstreamUnavailable \/ answered (dialogue r m) e \/
       exists t b k e0, writeBody t b = Some (k, e0) /\ e = ESmtp (wrapUpstream (lit "DATA write") e0)).
Proof.
  unfold send, bind, dialogue. destruct (dial_spec r w) as (d & w1 & -> & Hc1 & Hn1 & _ & He1).
  destruct d as [e|].
  { do 3 eexists. split; [done|]. split_and!; try done. intros _ e' [= <-].
    destruct (He1 e eq_refl) as [?|Ha]; [auto|]. right. left.
    apply (answered_mono (dialEvents r)); [|done]. intros ev. rewrite !elem_of_app. tauto. }
  destruct (stages_spec (preamble r m) w1) as (p & w2 & -> & Hc2 & Hn2 & _ & He2).
  destruct p as [e|].
  { do 3 eexists. split; [done|]. split_and!; try done; [congruence|]. intros _ e' [= <-].
    right. left. apply (answered_mono (snd <$> preamble r m)); [|by apply He2].
    intros ev. rewrite !elem_of_app. tauto. }
  destruct (Reader_delivers (Milter.Body m) w2) as (source & b & w3 & E & Hb & Hr & Hd).
  assert (Hq := quiet_Reader (Milter.Body m) w2). rewrite E in *. destruct Hq as [Hq1 Hq2].
  cbn [snd] in Hq1, Hq2. destruct source as [rd|e].
  2:{ unfold say at 1. destruct (talk_spec UpAccepted (mkWorld (tick w3) (sent w3 ++ [UpBody []]) (metrics w3)
        (counted w3) (nextClient w3) (closedClients w3))) as (x & w4 & -> & Hc4 & _).
      do 3 eexists. split; [done|]. split_and!; try done; [simpl in Hc4; congruence|].
      intros Hrel. by destruct (Hr Hrel). }
  cbn [Milter.setBody Milter.Body].
  destruct (copyBody_spec b rd _ w3 (Hd rd eq_refl)) as
    (err & b2 & w4 & -> & Hb2 & Hc4 & (part & Hs4 & Hpart) & He4).
  assert (Hbody : same_body (Milter.Body m) b2) by eauto with mailout.
  destruct err as [e|].
  { destruct (talk_spec UpAccepted w4) as (x & w5 & -> & Hc5 & _).
    do 3 eexists. split; [done|]. split_and!; try done; [congruence|].
    intros Hrel e' [= <-]. right. right. destruct (He4 Hrel e eq_refl) as (t & b0 & k & Hw). eauto 10. }
  destruct (stage_spec (lit "DATA close") UpAccepted w4) as (c & w5 & -> & Hc5 & Hn5 & _ & He5).
  do 3 eexists. split; [done|]. split_and!; [congruence|done| |].
  - intros ->. rewrite (Hn5 eq_refl), Hs4, (Hpart eq_refl), Hq1, (Hn2 eq_refl), (Hn1 eq_refl).
    by rewrite <- !app_assoc.
  - intros _ e' Hc. destruct (He5 e' Hc) as (t & e0 & ? & ->). right. left.
    exists (lit "DATA close"), t, UpAccepted, e0. split; [|done].
    rewrite !elem_of_app. right. right. right. left.
Qed.
End Facts.
End Relay.

(** ** Properties *)

Section Properties.
Import Relay.
Context `{K : Kernel} `{R : UpstreamPeer}.

(** Delivery is synchronous and exact: no error means the upstream agreed,
    in this order, to the connection (with STARTTLS where configured), to the
    greeting, to the credentials if any, to the sender, to every recipient and
    to the data, was sent the body byte for byte, and accepted the message. *)
Theorem send_ok_means_accepted (r : relayer) (m m' : Milter.Message) (w w' : World) :
  send r m w = (None, m', w') ->
  sent w' = sent w ++ dialEvents r ++ (snd <$> preamble r m) ++
              [UpBody (contents (Milter.Body m)); UpAccepted].
Proof.
  intros E. destruct (send_spec r m w) as (err & m1 & w1 & E1 & _ & _ & Hn & _).
  rewrite E in E1. injection E1 as <- <- <-. by apply Hn.
Qed.

(** The client learns what the upstream said: on a system whose calls
    succeed every failed delivery is reported as an SMTP status, either the
    upstream's own, unchanged, or a temporary one, so that the client retries
    rather than losing the mail. *)
Theorem send_error_is_upstream_or_temporary (r : relayer) (m m' : Milter.Message) (e : goerror)
    (w w' : World) :
  reliable K -> send r m w = (Some e, m', w') ->
  exists s, e = ESmtp s /\
    (400 <= Code s < 500 \/
     exists t e0, as_smtp e0 = Some s /\
       ((exists ev, reply t ev = Some e0) \/ (exists b k, writeBody t b = Some (k, e0)))).
Proof.
  intros Hrel E. destruct (send_spec r m w) as (err & m1 & w1 & E1 & _ & _ & _ & He).
  rewrite E in E1. injection E1 as <- <- <-.
  assert (Hwrap : forall name t e0,
    (exists ev, reply t ev = Some e0) \/ (exists b k, writeBody t b = Some (k, e0)) ->
    exists s, ESmtp (wrapUpstream name e0) = ESmtp s /\
    (400 <= Code s < 500 \/ exists t e0, as_smtp e0 = Some s /\
       ((exists ev, reply t ev = Some e0) \/ (exists b k, writeBody t b = Some (k, e0))))).
  { intros name t e0 Hsrc. eexists. split; [done|]. unfold wrapUpstream.
    destruct (as_smtp e0) as [s|] eqn:Es; [right; eauto|left; simpl; lia]. }
  destruct (He Hrel e eq_refl) as [->|[(nm & t & ev & e0 & _ & Ht & ->)|(t & b & k & e0 & Ht & ->)]];
    [|apply (Hwrap nm t e0); eauto|apply (Hwrap _ t e0); eauto].
  eexists. split; [done|]. left. simpl. lia.
Qed.
End Properties.

(** An upstream that takes everything. *)
Definition willing_upstream : UpstreamPeer := {| reply _ _ := None; writeBody _ _ := None |}.

(** One that refuses the recipients. *)
Definition refusing_upstream : UpstreamPeer := {|
  reply _ ev := match ev with
                | UpRcpt _ => Some (EWrap (lit "rcpt") (ESmtp (mkSMTPError 550 (5, 1, 1) (lit "no such user"))))
                | _ => None
                end;
  writeBody _ _ := None
|}.

Definition toy_relayer : Relay.relayer :=
  Relay.mkRelayer (mkUpstream (lit "smtp.test") 587 TLSModeSTARTTLS false [] [] [] 0) (lit "mx") None.

Definition toy_send (K : Kernel) (R : UpstreamPeer) : option goerror * Milter.Message * World :=
  @Relay.send K R toy_relayer (toy_message toy_body) world0.

Lemma send_ok_witness :
  sent (toy_send kernel_ok willing_upstream).2 =
    [UpDial (lit "smtp.test:587"); UpStartTLS; UpHello (lit "mx"); UpMail (lit "a@x.test");
     UpRcpt (lit "b@y.test"); UpData; UpBody toy_body; UpAccepted].
Proof.
  apply (@send_ok_means_accepted kernel_ok willing_upstream toy_relayer (toy_message toy_body)
    (toy_send kernel_ok willing_upstream).1.2 world0). vm_compute. reflexivity.
Defined.

Lemma send_error_witness :
  (toy_send kernel_ok refusing_upstream).1.1 = Some (ESmtp (mkSMTPError 550 (5, 1, 1) (lit "no such user"))) /\
  exists s, ESmtp (mkSMTPError 550 (5, 1, 1) (lit "no such user")) = ESmtp s /\
    (400 <= Code s < 500 \/
     exists t e0, as_smtp e0 = Some s /\
       ((exists ev, @reply refusing_upstream t ev = Some e0) \/
        (exists b k, @writeBody refusing_upstream t b = Some (k, e0)))).
Proof.
  split; [vm_compute; reflexivity|].
  apply (@send_error_is_upstream_or_temporary kernel_ok refusing_upstream toy_relayer (toy_message toy_body)
    (toy_send kernel_ok refusing_upstream).1.2 _ world0 (toy_send kernel_ok refusing_upstream).2).
  - apply kernel_ok_reliable.
  - vm_compute. reflexivity.
Defined.

(** A disk whose reads fail after eight bytes. *)
Definition kernel_bad_disk : Kernel := {|
  sys _ c := match c with SysRead => SysFail 8 (EText (lit "input/output error")) | _ => SysOk end;
  clock _ := 0
|}.

(** A spool that fails while it is being read is not an aborted delivery:
    the data is closed all the same, so the upstream accepts a truncated
    message while the client is told to try again. *)
Theorem failed_read_delivers_truncated_message :
  let m := Milter.mkMessage (lit "a@x.test") [lit "b@y.test"]
             (mkSpool [] 4 [] (Some (mkFile toy_body 0)) (zlen toy_body)) (lit "app") in
  let '(err, _, w) := @Relay.send kernel_bad_disk willing_upstream toy_relayer m world0 in
  err = Some (ESmtp (mkSMTPError 451 (4, 4, 2) (lit "Upstream failure during DATA write"))) /\
  drop 6 (sent w) = [UpBody (take 8 toy_body); UpAccepted].
Proof. vm_compute. done. Qed.
