(* ===== verification/HeaderCheck.v ===== *)
(** * HeaderCheck: the headers a session writes and the one it checks

    Models, from [src/internal/gateway/server.go]: [headerSafe] and the
    Received header put in front of every message; [checkHeaderFrom], which
    applies the sender policy to the From header; and the SMTP errors they and
    the session answer with. *)

From S2P Require Import Prelude Unicode GoStrings GoTime Policy Message.
From S2P Require Import Metrics World Spool Passwords Config Milter.
Import Spool Utf8 Utf8Facts.
#[local] Open Scope Z_scope.

Module HeaderCheck.

(** ** Errors of the session *)

Definition errCredentialsRevoked : SMTPError :=
  mkSMTPError 421 (4, 7, 0) (lit "Credentials are no longer valid").
Definition errSpoolFailed : SMTPError :=
  mkSMTPError 451 (4, 3, 0) (lit "Unable to buffer the message, try again later").
Definition errTooManyAuthFailures : SMTPError :=
  mkSMTPError 421 (4, 7, 0) (lit "Too many authentication failures").
Definition errAuthBusy : SMTPError :=
  mkSMTPError 451 (4, 3, 2) (lit "Too busy to verify credentials, try again later").
Definition errMalformedHeaders (why : bytes) : SMTPError :=
  mkSMTPError 550 (5, 6, 0) (lit "Malformed message headers: " ++ why).
Definition errSenderNotAllowed (address : bytes) : SMTPError :=
  mkSMTPError 550 (5, 7, 1) (lit "Sender " ++ address ++ lit " is not allowed for this account").

(** ** The Received header *)

Definition headerSafeLimit : Z := 128.

Definition safeRune (r : Z) : Z := if (r <? 32) || (r =? 127) then 63 else r.

Definition headerSafe (value : bytes) : bytes :=
  Map safeRune (if headerSafeLimit <? zlen value then ztake headerSafeLimit value else value).

(** The two folded lines are indented with a tab. *)
Definition receivedHeader (hostname remoteAddr mtaName username : bytes) (t : Z) : bytes :=
  lit "Received: from " ++ headerSafe hostname ++ lit " (" ++ headerSafe remoteAddr ++ lit ")" ++ CRLF ++
  [TAB] ++ lit "by " ++ headerSafe mtaName ++ lit " (mailout) with ESMTPSA id " ++ headerSafe username ++
  lit ";" ++ CRLF ++ [TAB] ++ RFC1123Z t ++ CRLF.

(** ** The From header *)

Section Check.
Context `{K : Kernel} `{U : Unicode}.

(** The loop over the parsed fields: the values of the From fields, or the
    refusal of a name with a blank before its colon. *)
Fixpoint fromValues (hs : list Message.headerField) : list bytes + SMTPError :=
  match hs with
  | [] => inl []
  | field :: hs' =>
      if Message.Name field <>b TrimRight (Message.Name field) [SP; TAB] then
        inr (errMalformedHeaders (lit "whitespace before a header's colon"))
      else
        match fromValues hs' with
        | inr e => inr e
        | inl found =>
            if EqualFold (Message.Name field) (lit "From") then inl (Message.Value field :: found)
            else inl found
        end
  end.

(** [None] is the nil error; the body comes back with its offset moved. *)
Definition checkHeaderFrom (body : spool) (policy : Policy.senderPolicy) : IO (option SMTPError * spool) :=
  let! (r, body) := headerBlock body in
  ret (match r with
       | Err _ => Some errSpoolFailed
       | Ok (header, terminated) =>
           if negb terminated then Some (errMalformedHeaders (lit "no end of header block found"))
           else
             match Message.parseMessage header with
             | Err _ => Some (errMalformedHeaders (lit "unparsable header block"))
             | Ok parsed =>
                 match fromValues (Message.Headers parsed) with
                 | inr e => Some e
                 | inl [value] =>
                     if negb (Policy.allows policy value) then Some (errSenderNotAllowed (TrimSpace value))
                     else None
                 | inl [] => Some (errMalformedHeaders (lit "no From header"))
                 | inl _ => Some (errMalformedHeaders (lit "more than one From header"))
                 end
             end
       end, body).
End Check.

(** ** Facts *)

(** Nothing in [b] ends a line or is a control character. *)
Definition harmless (b : bytes) : Prop := Forall (λ c, 32 <= byteZ c /\ byteZ c <> 127) b.

Lemma plain_harmless b : Forall plain b -> harmless b.
Proof. intros Hb. eapply Forall_impl; [exact Hb|]. unfold plain. intros c Hc. lia. Qed.

Lemma harmless_app a b : harmless (a ++ b) <-> harmless a /\ harmless b.
Proof. apply Forall_app. Qed.

Lemma safeRune_valid r : valid_rune r = true -> valid_rune (safeRune r) = true.
Proof. intros Hr. unfold safeRune. by case_match. Qed.

Lemma headerSafe_harmless v : harmless (headerSafe v).
Proof.
  unfold headerSafe, Map. set (u := if headerSafeLimit <? zlen v then ztake headerSafeLimit v else v). apply Forall_forall. intros c Hc.
  destruct (decide (byteZ c < 128)) as [Hlt|]; [|lia].
  apply encodeRunes_in in Hc; [|done|].
  - apply list_elem_of_fmap in Hc as (r & E & Hr). rewrite E. unfold safeRune.
    destruct ((r <? 32) || (r =? 127)) eqn:Es; [lia|]. bools. lia.
  - apply Forall_fmap. eapply Forall_impl; [apply runes_valid|]. intros r. apply safeRune_valid.
Qed.

Lemma runes_length s : (length (runes s) <= length s)%nat.
Proof.
  unfold runes. induction s as [[|b s] IH] using list_length_ind; [done|].
  destruct (segs_cons b s) as (r & k & s' & -> & -> & _). rewrite !length_fmap in *.
  assert (Hs : (length (fst <$> segs s') <= length s')%nat) by (apply IH; simpl; rewrite length_app; lia).
  rewrite length_fmap in Hs. simpl. rewrite length_app. lia.
Qed.

Lemma headerSafe_bounded v : zlen (headerSafe v) <= 4 * headerSafeLimit.
Proof.
  unfold headerSafe, Map. set (u := if headerSafeLimit <? zlen v then ztake headerSafeLimit v else v).
  assert (Hu : zlen u <= headerSafeLimit).
  { unfold u. destruct (headerSafeLimit <? zlen v) eqn:E; bools; [|done].
    rewrite zlen_ztake by (by vm_compute). lia. }
  assert (Henc : forall rs, zlen (encodeRunes rs) <= 4 * zlen rs).
  { induction rs as [|r rs IH]; unfold encodeRunes in *; [done|]. cbn [fmap list_fmap concat].
    rewrite zlen_app, zlen_cons. pose proof (encodeRune_length r). unfold zlen in *. lia. }
  pose proof (Henc (safeRune <$> runes u)) as He. pose proof (runes_length u).
  unfold zlen in *. rewrite length_fmap in He. lia.
Qed.

Lemma harmless_clean b : harmless b -> clean b.
Proof.
  intros Hb. unfold harmless in Hb. rewrite Forall_forall in Hb. split.
  { intros Hin%Hb. change (byteZ LF) with 10 in Hin. lia. }
  destruct (decide (b = [])) as [->|Hne]; [done|]. destruct (exists_last Hne) as (k & x & ->).
  apply TrimRight_last. intros Hx. assert (Hin : x ∈ k ++ [x]) by set_solver. apply Hb in Hin.
  apply elem_of_cons in Hx as [->|Hx]; [change (byteZ CR) with 13 in Hin; lia|].
  apply list_elem_of_singleton in Hx as ->. change (byteZ LF) with 10 in Hin. lia.
Qed.

Lemma tab_clean b : harmless b -> b <> [] -> clean (TAB :: b).
Proof.
  intros Hb Hne. destruct (harmless_clean b Hb) as [Hl Ht]. split.
  - apply not_elem_of_cons. split; [done|done].
  - by apply (TrimRight_clean_app [TAB] b).
Qed.

(** The value of the Received field: one line and two folded ones. *)
Definition receivedValue (hostname remoteAddr mtaName username : bytes) (t : Z) : bytes :=
  (lit "from " ++ headerSafe hostname ++ lit " (" ++ headerSafe remoteAddr ++ lit ")") ++
  concat ((λ c, CRLF ++ c) <$>
    [TAB :: lit "by " ++ headerSafe mtaName ++ lit " (mailout) with ESMTPSA id " ++ headerSafe username ++ lit ";";
     TAB :: RFC1123Z t]).

Lemma lit_harmless s : forallb (λ b, bool_decide (plain b)) (lit s) = true -> harmless (lit s).
Proof. intros. by apply plain_harmless, plain_lit. Qed.

Lemma RFC1123Z_nonempty t : RFC1123Z t <> [].
Proof.
  unfold RFC1123Z. destruct (civil _) as [[y m] d]. intros E%(f_equal (@length _)).
  rewrite !length_app in E. simpl in E. lia.
Qed.

Lemma received_wf h r m u t :
  wf_field true (Message.mkField (lit "Received") (receivedValue h r m u t)).
Proof.
  split; [by apply (bool_decide_unpack _); vm_compute|].
  split; [by apply (bool_decide_unpack _); vm_compute|]. split; [done|].
  eexists _, _. split; [reflexivity|]. split.
  - apply harmless_clean. rewrite !harmless_app.
    split_and!; first [apply headerSafe_harmless | by apply lit_harmless; vm_compute].
  - repeat constructor.
    1-2: apply tab_clean; [|done]; rewrite !harmless_app;
      split_and!; first [apply headerSafe_harmless | by apply lit_harmless; vm_compute].
    1-2: apply tab_clean; [apply plain_harmless, RFC1123Z_plain|apply RFC1123Z_nonempty].
Qed.

Lemma received_field h r m u t :
  receivedHeader h r m u t = Message.fieldBytes (Message.mkField (lit "Received") (receivedValue h r m u t)).
Proof.
  unfold receivedHeader, receivedValue, Message.fieldBytes. cbn [Message.Name Message.Value fmap list_fmap concat].
  rewrite <- !app_assoc. cbn [app]. rewrite <- !app_assoc. reflexivity.
Qed.

Section FromFacts.
Context `{U : Unicode}.

Definition isFrom (f : Message.headerField) : bool := EqualFold (Message.Name f) (lit "From").

Lemma fromValues_spec hs found :
  fromValues hs = inl found <->
  found = Message.Value <$> List.filter isFrom hs /\
  Forall (λ f, TrimRight (Message.Name f) [SP; TAB] = Message.Name f) hs.
Proof.
  revert found. induction hs as [|f hs IH]; intros found; cbn [fromValues].
  { split; [intros [= <-]; by split|]. by intros [-> _]. }
  cbn [List.filter]. unfold isFrom at 1. rewrite Forall_cons.
  destruct (Message.Name f =b TrimRight (Message.Name f) [SP; TAB]) eqn:Et; cbn [negb]; bools.
  2:{ split; [done|]. intros [_ [? _]]. congruence. }
  destruct (fromValues hs) as [l|e].
  - destruct (proj1 (IH l) eq_refl) as [-> Hall].
    destruct (EqualFold (Message.Name f) (lit "From")); cbn [fmap list_fmap]; naive_solver.
  - split; [done|]. intros [E [_ Hall]].
    by assert (X := proj2 (IH (Message.Value <$> List.filter isFrom hs)) (conj eq_refl Hall)).
Qed.

(** The lines of a header block that begin a field: the first, and those that do
    not start with a blank. *)
Definition field_lines (ls : list bytes) : list bytes :=
  match ls with
  | [] => []
  | l :: rest => l :: List.filter (λ l, negb (Message.starts_blank l)) rest
  end.

Definition is_from (name : bytes) : bool := EqualFold (TrimRight name [SP; TAB]) (lit "From").

(** A line with From before its first colon, in any case, blanks before the colon
    or not. *)
Definition from_line (l : bytes) : bool :=
  let '(name, _, found) := Cut (TrimRight l [CR; LF]) COLON in found && is_from name.

Definition froms (hs : list Message.headerField) : nat := length (List.filter (is_from ∘ Message.Name) hs).

Lemma froms_snoc hs f : froms (hs ++ [f]) = (froms hs + if is_from (Message.Name f) then 1 else 0)%nat.
Proof.
  unfold froms. rewrite List.filter_app, length_app. cbn [List.filter]. unfold compose.
  by destruct (is_from (Message.Name f)).
Qed.

Lemma Forall_line_concat ls : Forall is_line ls -> concat ls = [] -> ls = [].
Proof.
  destruct 1 as [|l ls (k & _ & Hl) _]; [done|]. cbn. intros [E _]%app_nil.
  destruct Hl as [->|[-> ?]]; [by apply app_nil in E as [_ ?]|done].
Qed.

(** When a block holds nothing but fields, each From line is a From field. *)
Lemma parseLoop_froms ls : forall acc, Forall is_line ls -> acc <> [] ->
  Message.Body (Message.parseLoop ls acc) = [] ->
  froms (Message.Headers (Message.parseLoop ls acc)) =
    (froms (rev acc) + length (List.filter from_line (List.filter (λ l, negb (Message.starts_blank l)) ls)))%nat.
Proof.
  induction ls as [|line ls IH]; intros acc Hls Hacc; cbn [Message.parseLoop];
    [intros _; cbn [Message.Headers List.filter length]; lia|].
  apply Forall_cons in Hls as [Hline Hls].
  assert (Hskip : TrimRight line [CR; LF] = [] -> from_line line = false) by (unfold from_line; by intros ->).
  assert (Hone : forall b l, length (List.filter from_line (List.filter (λ l, negb (Message.starts_blank l)) (l :: b))) =
    ((if negb (Message.starts_blank l) && from_line l then 1 else 0) +
     length (List.filter from_line (List.filter (λ l, negb (Message.starts_blank l)) b)))%nat).
  { intros b l. cbn. destruct (Message.starts_blank l); cbn; [done|]. by destruct (from_line l). }
  rewrite Hone. case_bool_decide as Hn.
  { cbn [Message.Headers Message.Body]. intros ->%Forall_line_concat; [|done].
    rewrite (Hskip Hn), andb_false_r. cbn [List.filter length]. lia. }
  destruct (Message.starts_blank line) eqn:Esb; cbn [negb andb].
  - destruct acc as [|last acc]; [done|]. intros Hb. rewrite IH by done. cbn [rev]. by rewrite !froms_snoc.
  - unfold from_line. destruct (Cut (TrimRight line [CR; LF]) COLON) as [[name value] [|]]; cbn [negb andb].
    + intros Hb. destruct acc as [|last acc]; [done|]. rewrite IH by done. cbn [rev].
      rewrite !froms_snoc. cbn [Message.Name]. fold from_line. destruct (is_from name); cbn; lia.
    + cbn. intros [E _]%app_nil. destruct Hline as (k & _ & [->|[-> ?]]); [by apply app_nil in E as [_ ?]|done].
Qed.

Lemma parseMessage_froms block parsed :
  Message.parseMessage block = Ok parsed -> Message.Body parsed = [] ->
  froms (Message.Headers parsed) = length (List.filter from_line (field_lines (Message.split_lines block))).
Proof.
  intros [= <-]. pose proof (split_lines_are_lines block) as Hls.
  destruct (Message.split_lines block) as [|line ls]; [done|]. apply Forall_cons in Hls as [Hline Hls].
  assert (Hone : length (List.filter from_line (field_lines (line :: ls))) =
    ((if from_line line then 1 else 0) +
     length (List.filter from_line (List.filter (λ l, negb (Message.starts_blank l)) ls)))%nat).
  { cbn. by destruct (from_line line). }
  rewrite Hone. cbn [Message.parseLoop]. case_bool_decide as Hn.
  { cbn. intros ->%Forall_line_concat; [|done]. unfold from_line. by rewrite Hn. }
  assert (Hcut : forall p, p = (let '(name, value, found) := Cut (TrimRight line [CR; LF]) COLON in
      if negb found then Message.mkParsed (rev []) (line ++ concat ls)
      else Message.parseLoop ls [Message.mkField name (TrimPrefix value [SP])]) -> Message.Body p = [] ->
    froms (Message.Headers p) = ((if from_line line then 1 else 0) +
     length (List.filter from_line (List.filter (λ l, negb (Message.starts_blank l)) ls)))%nat).
  { unfold from_line at 1. destruct (Cut (TrimRight line [CR; LF]) COLON) as [[name value] [|]]; cbn [negb andb]; intros p ->.
    - intros Hb. rewrite parseLoop_froms by done. cbn [rev]. by rewrite froms_snoc.
    - cbn. intros [E _]%app_nil. destruct Hline as (k & _ & [->|[-> ?]]); [by apply app_nil in E as [_ ?]|done]. }
  destruct (Message.starts_blank line); by apply Hcut.
Qed.

Lemma isFrom_froms hs : Forall (λ f, TrimRight (Message.Name f) [SP; TAB] = Message.Name f) hs ->
  froms hs = length (List.filter isFrom hs).
Proof.
  induction 1 as [|f hs Hf _ IH]; [done|]. unfold froms in *. cbn. unfold is_from at 1, isFrom at 1. rewrite Hf.
  destruct (EqualFold _ _); cbn; by rewrite IH.
Qed.

Lemma fromValues_code hs e : fromValues hs = inr e -> Code e = 550.
Proof.
  revert e. induction hs as [|f hs IH]; intros e; cbn; [done|]. case_match; [by intros [= <-]|].
  destruct (fromValues hs) as [l|e0]; [by case_match|]. intros [= <-]. by apply IH.
Qed.
End FromFacts.
End HeaderCheck.

#[export] Hint Resolve quiet_headerBlock : mailout.

Lemma quiet_checkHeaderFrom `{Kernel} `{Unicode} b p : quiet (HeaderCheck.checkHeaderFrom b p).
Proof. unfold HeaderCheck.checkHeaderFrom. quiet_tac. Qed.
#[export] Hint Resolve quiet_checkHeaderFrom : mailout.

(** ** Properties *)

Section Properties.
Import HeaderCheck.
Context `{K : Kernel} `{U : Unicode}.

(** The Received header cannot be broken out of: whatever the client's EHLO
    name, the peer address, the hostname and the username are, it reads back as
    one field named Received, of bounded size, and the headers that follow are
    read as if they had come alone. *)
Theorem received_header_is_one_field (hostname remote mta username rest : bytes) (t : Z) :
  Message.parseMessage (receivedHeader hostname remote mta username t ++ rest) =
    Ok (Message.parseLoop (Message.split_lines rest)
          [Message.mkField (lit "Received") (receivedValue hostname remote mta username t)]) /\
  zlen (headerSafe hostname) <= 512 /\ zlen (headerSafe remote) <= 512 /\
  zlen (headerSafe mta) <= 512 /\ zlen (headerSafe username) <= 512.
Proof.
  split; [|split_and!; apply headerSafe_bounded].
  unfold Message.parseMessage. f_equal. rewrite received_field.
  by apply (parse_field true); [apply received_wf|].
Qed.

(** C20: the From check, on a message whose header block holds nothing but fields,
    lets it through only when the block ends within the first megabyte, no field
    name has a blank before its colon, exactly one line of the block begins a
    From field, whatever the case of its name, and the policy allows the address
    of that field; when the spool's system calls succeed it lets every such
    message through, and refuses any other with 550. In a block with a line that
    is neither a field nor a folding, what follows that line is not looked at (see
    [junk_line_hides_second_From]). *)
Theorem checkHeaderFrom_exact (body : spool) (policy : Policy.senderPolicy) (w : World)
    (block : bytes) (terminated : bool) (parsed : Message.parsedMessage) :
  findBlock (ztake maxHeaderBytes (contents body)) = (block, terminated) ->
  Message.parseMessage block = Ok parsed -> (terminated = true -> Message.Body parsed = []) ->
  let passes :=
    terminated = true /\
    Forall (λ f, TrimRight (Message.Name f) [SP; TAB] = Message.Name f) (Message.Headers parsed) /\
    length (List.filter from_line (field_lines (Message.split_lines block))) = 1%nat /\
    exists value, (Message.Value <$> List.filter isFrom (Message.Headers parsed)) = [value] /\
      Policy.allows policy value = true in
  ((checkHeaderFrom body policy w).1.1 = None -> passes) /\
  (reliable K -> passes -> (checkHeaderFrom body policy w).1.1 = None) /\
  (reliable K -> forall e, (checkHeaderFrom body policy w).1.1 = Some e -> Code e = 550).
Proof.
  intros Hblock Ep Hbody passes. unfold checkHeaderFrom, bind.
  destruct (headerBlock_spec body w) as (r & b & w1 & -> & _ & Hrel & _ & Hr). rewrite Hblock in *.
  unfold ret. cbn [fst snd]. split_and!.
  - destruct r as [[bl t]|e]; [|done]. injection (Hr _ eq_refl) as -> ->. destruct terminated; [|done]. cbn [negb].
    rewrite Ep. destruct (fromValues (Message.Headers parsed)) as [[|v [|]]|] eqn:Ef; try done.
    apply fromValues_spec in Ef as [Ef Hall]. destruct (Policy.allows policy v) eqn:Ea; [|done]. intros _.
    unfold passes. split_and!; [done|done| |by exists v].
    rewrite <- (parseMessage_froms _ _ Ep) by auto. rewrite isFrom_froms by done.
    by rewrite <- (length_fmap Message.Value), <- Ef.
  - intros HK (-> & Hall & _ & v & Hv & Ha). rewrite (Hrel HK). cbn [negb]. rewrite Ep.
    assert (Ef : fromValues (Message.Headers parsed) = inl [v]) by (by apply fromValues_spec).
    by rewrite Ef, Ha.
  - intros HK e. rewrite (Hrel HK). destruct terminated; cbn [negb]; [|by intros [= <-]]. rewrite Ep.
    destruct (fromValues (Message.Headers parsed)) as [[|v [|v' vs]]|e'] eqn:Ef.
    + intros [= <-]. reflexivity.
    + destruct (Policy.allows policy v); cbn [negb]; [discriminate|]. intros [= <-]. reflexivity.
    + intros [= <-]. reflexivity.
    + intros [= <-]. by eapply fromValues_code.
Qed.
End Properties.

Definition toy_check (policy : list bytes) (b : bytes) : option SMTPError :=
  (@HeaderCheck.checkHeaderFrom kernel_ok unicode14 (body_of b) (Policy.newSenderPolicy policy) world0).1.1.

Lemma checkHeaderFrom_witness :
  toy_check [lit "*@x.test"] toy_body = None /\
  toy_check [lit "*@y.test"] toy_body <> None.
Proof.
  split; [|vm_compute; discriminate].
  refine (proj1 (proj2 (@checkHeaderFrom_exact kernel_ok unicode14 (body_of toy_body)
    (Policy.newSenderPolicy [lit "*@x.test"]) world0 (lit "From: a@x.test" ++ CRLF ++ CRLF) true
    (Message.mkParsed [Message.mkField (lit "From") (lit "a@x.test")] []) _ _ _)) kernel_ok_reliable _).
  - vm_compute. reflexivity.
  - vm_compute. reflexivity.
  - reflexivity.
  - split; [reflexivity|]. split; [repeat constructor|]. split; [vm_compute; reflexivity|].
    exists (lit "a@x.test"). split; vm_compute; reflexivity.
Defined.

(** "exactly one From" is only about the fields read before the first line
    that has no colon: a second From header after such a line is not seen, and
    the message goes out with both. *)
Theorem junk_line_hides_second_From :
  toy_check [lit "*@x.test"]
    (lit "From: a@x.test" ++ CRLF ++ lit "not a header line" ++ CRLF ++
     lit "From: ceo@bank.test" ++ CRLF ++ CRLF ++ lit "hello") = None /\
  toy_check [lit "*@x.test"]
    (lit "From: a@x.test" ++ CRLF ++ lit "From: ceo@bank.test" ++ CRLF ++ CRLF ++ lit "hello") <> None.
Proof. vm_compute. done. Qed.
