(* ===== verification/Server.v ===== *)
(** * Server: snapshots, reloads and sessions

    Models [src/internal/gateway/server.go]: the snapshot built from a
    configuration, its replacement at runtime, and the SMTP session that go-smtp
    drives ([Auth], [Mail], [Rcpt], [Data], [Reset]). The server's current
    snapshot is shared by every session and read at the start of a transaction;
    a session keeps the one it last read. Listening sockets and goroutines are
    in [Process]; logging is left out; the verification semaphore is a parameter that
    grants a slot or times out, and [Contention] has the connections that share
    it. Closing a spool has no effect anyone observes, so the
    deferred close of the body is left out of [Data]. *)

From S2P Require Import Prelude Unicode GoStrings GoTime Policy Message Metrics World Spool.
From S2P Require Import Passwords Config Auth RateLimit TlsStore Milter Dkim Relay HeaderCheck.
Import Spool HeaderCheck.
#[local] Open Scope Z_scope.

(** go-smtp's own errors, and whether a verification slot is obtained in time. *)
Class SmtpLib := {
  ErrAuthFailed : SMTPError;
  ErrAuthRequired : SMTPError;
  ErrAuthUnknownMechanism : SMTPError;
  acquireSlot : nat -> bool
}.

Module Server.

Record accountPolicy := mkAccountPolicy {
  ap_milters : Milter.milterChain;
  senders : Policy.senderPolicy;
  skipHeaderFromCheck : bool
}.

Record snapshot := mkSnapshot {
  config : Config;
  rejected : list RejectedAccount;
  accounts : Auth.accountStore;
  certs : TlsStore.certStore;
  relay : Relay.relayer;
  milters : Milter.milterChain;
  dkim : Dkim.dkimSigner;
  limiter : option RateLimit.limiter;
  policies : gmap bytes accountPolicy
}.

(** Why a configuration is refused. *)
Inductive snapshotError :=
| InvalidConfig (problems : list problem)
| InvalidMilter (name : bytes) (e : addressError)
| Failed (e : goerror)
| Panic.  (* bcrypt cannot hash the timing equalizer *)

(** [newSpoolFactory(cfg.Limits)]. *)
Definition newSpool (snap : snapshot) : spool :=
  Spool.newSpool (SpoolDir (limits (config snap))) (SpoolThreshold (limits (config snap))).

Section Policies.
Context `{U : Unicode}.

Definition policyOf (chain : Milter.milterChain) (acct : Account) : accountPolicy :=
  mkAccountPolicy chain (Policy.newSenderPolicy (AllowedSenders acct)) (SkipHeaderFromCheck acct).

Definition newPolicies (chain : Milter.milterChain) (served : list Account) : gmap bytes accountPolicy :=
  foldl (λ m acct, <[Username acct := policyOf chain acct]> m) ∅ served.

(** An account absent from the snapshot gets a policy that allows nothing. *)
Definition policyFor (s : snapshot) (username : bytes) : accountPolicy :=
  match policies s !! username with
  | Some policy => policy
  | None => mkAccountPolicy (milters s) (Policy.newSenderPolicy []) false
  end.
End Policies.

(** The previous limiter, when the new configuration describes the same store. *)
Definition reusableLimiter (prev : option snapshot) (cfg : Config) : option RateLimit.limiter :=
  match prev, rateLimit cfg with
  | Some p, Some rl =>
      match limiter p with
      | Some l =>
          if RateLimit.sameStore (Store (RateLimit.lim l)) (Store rl)
          then Some (RateLimit.mkLimiter (RateLimit.client l) (Hostname cfg) rl)
          else None
      | None => None
      end
  | _, _ => None
  end.

Section Snapshots.
Context `{K : Kernel} `{B : Bcrypt} `{P : Pki} `{C : CertPool} `{D : DkimLib} `{U : Unicode}.

Definition newSnapshot (cfg : Config) (prev : option snapshot) : IO (snapshot + snapshotError) :=
  let cfg := applyDefaults cfg in
  match Validate cfg with
  | (_ :: _) as problems => ret (inr (InvalidConfig problems))
  | [] =>
  match TlsStore.newCertStore (TLS cfg) with
  | Err e => ret (inr (Failed e))
  | Ok certs =>
  match Relay.newRelayer cfg with
  | Err e => ret (inr (Failed e))
  | Ok relay =>
  match Milter.newMilterChain cfg with
  | inr (name, e) => ret (inr (InvalidMilter name e))
  | inl chain =>
  match Dkim.newDKIMSigner (DKIM cfg) with
  | Err e => ret (inr (Failed e))
  | Ok signer =>
      let! lim := match reusableLimiter prev cfg with
                  | Some l => ret (Ok (Some l))
                  | None => RateLimit.newLimiter cfg
                  end in
      match lim with
      | Err e => ret (inr (Failed e))
      | Ok lim =>
          let '(served, rejected) := PartitionAccounts cfg in
          let! probe := probeSpool (SpoolDir (limits cfg)) in
          match probe with
          | Some e => ret (inr (Failed e))
          | None =>
              let! salt := next in
              match Auth.newAccountStore salt served with
              | None => ret (inr Panic)
              | Some store =>
                  ret (inl (mkSnapshot cfg rejected store certs relay chain signer lim
                              (newPolicies chain served)))
              end
          end
      end
  end end end end end.

Definition limiterClient (s : snapshot) : option nat := RateLimit.client <$> limiter s.

(** The server's state: its current snapshot; nil before the first load. *)
Definition Reload (current : option snapshot) (cfg : Config) : IO (option snapshotError * option snapshot) :=
  let! r := newSnapshot cfg current in
  match r with
  | inr e =>
      record (Metrics.configReloaded (lit "failure") 0 0) ;;
      ret (Some e, current)
  | inl snap =>
      match current with
      | Some previous =>
          match limiter previous with
          | Some l =>
              if bool_decide (Some (RateLimit.client l) = limiterClient snap) then ret tt
              else RateLimit.close (Some l)
          | None => ret tt
          end
      | None => ret tt
      end ;;
      record (Metrics.configReloaded (lit "success")
        (Z.of_nat (size (Auth.byUsername (accounts snap)))) (zlen (rejected snap))) ;;
      ret (None, Some snap)
  end.

Definition NewServer (cfg : Config) : IO (snapshot + snapshotError) :=
  let! (err, current) := Reload None cfg in
  match err, current with
  | None, Some snap => ret (inl snap)
  | Some e, _ => ret (inr e)
  | None, None => ret (inr Panic)  (* not reached: a successful reload stores a snapshot *)
  end.
End Snapshots.

Definition MetricsToken (current : option snapshot) : bytes :=
  match current with None => [] | Some snap => Token (config snap) end.

(** [Close]: the listeners, then the quota store connection. *)
Definition Close (current : snapshot) : IO unit := RateLimit.close (limiter current).

(** What go-smtp is told of a listener. *)
Record smtpServer := mkSmtpServer {
  ss_Domain : bytes; ss_MaxLineLength : Z; ss_MaxMessageBytes : Z; ss_MaxRecipients : Z;
  ss_ReadTimeout : Z; ss_WriteTimeout : Z; AllowInsecureAuth : bool
}.

Definition newSMTPServer (current : snapshot) : smtpServer :=
  let l := limits (config current) in
  mkSmtpServer (Hostname (config current)) (MaxLineLength l) (MaxMessageBytes l) (MaxRecipients l)
    (ReadTimeout l) (WriteTimeout l) false.

(** The certificate callback reads the snapshot in service at handshake time. *)
Definition tlsGetCertificate `{Unicode} (current : snapshot) (sni : bytes) : Certificate :=
  TlsStore.getCertificate (certs current) sni.

(** ** Sessions *)

(** The connection: the EHLO name, the peer's address as text and as a TCP
    address, and the TLS version and cipher once negotiated. *)
Record Conn := mkConn {
  c_Hostname : bytes;
  c_RemoteAddr : option bytes;
  c_TCPAddr : option (bytes * Z);
  c_TLS : option (bytes * bytes)
}.

Record session := mkSession {
  conn : Conn;
  snap : snapshot;
  account : option Account;
  from : bytes;
  to : list bytes;
  authFailures : Z;
  closed : bool  (* conn.Close was called *)
}.

Definition newSession (c : Conn) (current : snapshot) : session :=
  mkSession c current None [] [] 0 false.

Definition maxAuthFailures : Z := 3.

Definition remoteAddr (s : session) : bytes := default (lit "unknown") (c_RemoteAddr (conn s)).

Definition sessionInfo (s : session) : Milter.sessionInfo :=
  let '(ip, port) := default ([], 0) (c_TCPAddr (conn s)) in
  let '(v, c) := default ([], []) (c_TLS (conn s)) in
  Milter.mkInfo (c_Hostname (conn s)) ip (port mod 65536) v c
    (match account s with Some a => Username a | None => [] end) (Hostname (config (snap s))).

(** The SASL server of a mechanism. *)
Inductive saslServer := Plain | Login (l : Auth.loginServer).

Definition setClosed (s : session) : session :=
  mkSession (conn s) (snap s) (account s) (from s) (to s) (authFailures s) true.

Definition resultFor (err : goerror) (fallback : bytes) : bytes :=
  match as_smtp err with
  | Some s => if 500 <=? Code s then Metrics.ResultRejected else Metrics.ResultDeferred
  | None => fallback
  end.

Definition filterResult (err : goerror) : bytes := resultFor err Metrics.ResultRejected.
Definition relayResult (err : goerror) : bytes := resultFor err Metrics.ResultDeferred.

Definition noValidRecipients : SMTPError := mkSMTPError 554 (5, 5, 1) (lit "No valid recipients").
Definition unableToSign : SMTPError :=
  mkSMTPError 451 (4, 3, 0) (lit "Unable to sign the message, try again later").

Section Sessions.
Context `{K : Kernel} `{B : Bcrypt} `{D : DkimLib} `{U : Unicode} `{Q : QuotaStore}
  `{M : MilterPeer} `{R : UpstreamPeer} `{L : SmtpLib}.

Definition AuthMechanisms : list bytes := [lit "PLAIN"; lit "LOGIN"].

Definition Auth_ (mech : bytes) : saslServer + SMTPError :=
  if mech =b lit "PLAIN" then inl Plain
  else if mech =b lit "LOGIN" then inl (Login Auth.newLoginServer)
  else inr ErrAuthUnknownMechanism.

(** The hashes compared, the error if any, and the session. *)
Definition authenticate (s : session) (username password : bytes)
    : IO (list bytes * option goerror * session) :=
  if maxAuthFailures <=? authFailures s then
    ret ([], Some (ESmtp errTooManyAuthFailures), setClosed s)
  else
    let! t := next in
    if negb (acquireSlot t) then ret ([], Some (ESmtp errAuthBusy), s)
    else
      let '(compared, r) := Auth.authenticate (accounts (snap s)) username password in
      match r with
      | Err _ =>
          record (Metrics.authFailed (Auth.label (accounts (snap s)) username)) ;;
          ret (compared, Some (ESmtp ErrAuthFailed),
               mkSession (conn s) (snap s) (account s) (from s) (to s) (authFailures s + 1) (closed s))
      | Ok acct =>
          ret (compared, None,
               mkSession (conn s) (snap s) (Some acct) (from s) (to s) (authFailures s) (closed s))
      end.

(** Re-check the account against the configuration in service; [acct] is the
    session's. Authorized: the account and the session as updated; revoked: the
    connection is closed. *)
Definition stillAuthorized (current : snapshot) (s : session) (acct : Account)
    : (Account * session) + (goerror * session) :=
  match Auth.byUsername (accounts current) !! Username acct with
  | Some a =>
      if Disabled a then inr (ESmtp errCredentialsRevoked, setClosed s)
      else inl (a, mkSession (conn s) current (Some a) (from s) (to s) (authFailures s) (closed s))
  | None => inr (ESmtp errCredentialsRevoked, setClosed s)
  end.

Definition Mail (current : snapshot) (s : session) (from_ : bytes) : IO (option goerror * session) :=
  match account s with
  | None => ret (Some (ESmtp ErrAuthRequired), s)
  | Some acct =>
      match stillAuthorized current s acct with
      | inr (e, s) => ret (Some e, s)
      | inl (acct, s) =>
          let policy := policyFor (snap s) (Username acct) in
          if negb (Policy.allows (senders policy) from_) then
            record (Metrics.messageHandled (Username acct) Metrics.ResultRejected) ;;
            ret (Some (ESmtp (errSenderNotAllowed from_)), s)
          else
            ret (None, mkSession (conn s) (snap s) (account s) from_ [] (authFailures s) (closed s))
      end
  end.

Definition Rcpt (s : session) (rcpt : bytes) : option goerror * session :=
  match account s with
  | None => (Some (ESmtp ErrAuthRequired), s)
  | Some _ =>
      (None, mkSession (conn s) (snap s) (account s) (from s) (to s ++ [rcpt]) (authFailures s) (closed s))
  end.

Definition Reset (s : session) : session :=
  mkSession (conn s) (snap s) (account s) [] [] (authFailures s) (closed s).

(** Relay a message that passed the filters and the signer. *)
Definition deliver (snap : snapshot) (m : Milter.Message) : IO (option goerror) :=
  let! (err, m) := Relay.send (relay snap) m in
  record Metrics.upstreamDelivered ;;
  match err with
  | Some e =>
      record (Metrics.messageHandled (Milter.Account m) (relayResult e)) ;; ret (Some e)
  | None =>
      record (Metrics.messageRelayed (Milter.Account m) (Len (Milter.Body m))) ;; ret None
  end.

(** Sign, then relay. *)
Definition signAndDeliver (snap : snapshot) (policy : accountPolicy) (m : Milter.Message)
    : IO (option goerror) :=
  let! (err, m) := if negb (Dkim.empty (dkim snap)) then Dkim.sign (dkim snap) m (senders policy)
                   else ret (None, m) in
  match err with
  | Some _ =>
      record (Metrics.messageHandled (Milter.Account m) Metrics.ResultDeferred) ;;
      ret (Some (ESmtp unableToSign))
  | None => deliver snap m
  end.

(** From header, filters, signature, upstream. *)
Definition process (s : session) (policy : accountPolicy) (m : Milter.Message) : IO (option goerror) :=
  let! (err, body) := if negb (skipHeaderFromCheck policy)
                      then checkHeaderFrom (Milter.Body m) (senders policy)
                      else ret (None, Milter.Body m) in
  let m := Milter.setBody m body in
  match err with
  | Some e =>
      record (Metrics.messageHandled (Milter.Account m) Metrics.ResultRejected) ;;
      ret (Some (ESmtp e))
  | None =>
      let! (err, m) := if negb (Milter.empty (ap_milters policy))
                       then Milter.run (ap_milters policy) m (sessionInfo s)
                       else ret (None, m) in
      match err with
      | Some e =>
          if is_discard e then
            record (Metrics.messageHandled (Milter.Account m) Metrics.ResultDiscarded) ;; ret None
          else
            record (Metrics.messageHandled (Milter.Account m) (filterResult e)) ;; ret (Some e)
      | None => signAndDeliver (snap s) policy m
      end
  end.

(** [r] is what go-smtp hands over: the chunks read, and the error reading ended
    with if it was not the end of the data. *)
Definition Data (current : snapshot) (s : session) (r : list bytes * option goerror)
    : IO (option goerror * session) :=
  match account s with
  | None => ret (Some (ESmtp ErrAuthRequired), s)
  | Some acct =>
      if (length (to s) =? 0)%nat then ret (Some (ESmtp noValidRecipients), s)
      else
        match stillAuthorized current s acct with
        | inr (e, s) => ret (Some e, s)
        | inl (acct, s) =>
            let name := Username acct in
            let! over := RateLimit.check (limiter (snap s)) name (zlen (to s)) in
            match over with
            | Some e =>
                record (Metrics.messageHandled name Metrics.ResultDeferred) ;;
                ret (Some (ESmtp e), s)
            | None =>
                let! t := now in
                let! (_, err, body) :=
                  Write (newSpool (snap s))
                    (receivedHeader (c_Hostname (conn s)) (remoteAddr s)
                       (Hostname (config (snap s))) name t) in
                match err with
                | Some _ => ret (Some (ESmtp errSpoolFailed), s)
                | None =>
                    let! (werr, body) := copyChunks body r.1 in
                    match (match werr with Some e => Some e | None => r.2 end) with
                    | Some e => ret (Some e, s)
                    | None =>
                        (if spooled body then record (Metrics.messageSpooled name) else ret tt) ;;
                        let m := Milter.mkMessage (from s) (to s) body name in
                        let! err := process s (policyFor (snap s) name) m in
                        ret (err, s)
                    end
                end
            end
        end
  end.
End Sessions.

(** ** Facts *)

Section SnapshotFacts.
Context `{K : Kernel} `{B : Bcrypt} `{P : Pki} `{C : CertPool} `{D : DkimLib} `{U : Unicode}.

Lemma newPolicies_lookup chain served u :
  newPolicies chain served !! u = policyOf chain <$> (Auth.index_accounts served !! u).
Proof.
  unfold newPolicies, Auth.index_accounts. induction served as [|a served IH] using rev_ind.
  { simpl. by rewrite !lookup_empty. }
  rewrite !foldl_app. simpl. destruct (decide (Username a = u)) as [<-|Hne].
  - by rewrite !lookup_insert_eq.
  - by rewrite !lookup_insert_ne.
Qed.

(** What every snapshot in service satisfies. *)
Record snapshot_ok (s : snapshot) : Prop := {
  ok_servable : servable (config s);
  ok_accounts : forall u a, Auth.byUsername (accounts s) !! u = Some a <->
    a ∈ (PartitionAccounts (config s)).1 /\ Username a = u;
  ok_policies : forall u, policies s !! u = policyOf (milters s) <$> (Auth.byUsername (accounts s) !! u);
  ok_milters : Milter.newMilterChain (config s) = inl (milters s);
  ok_dkim : Dkim.newDKIMSigner (DKIM (config s)) = Ok (dkim s);
  ok_relay : Relay.upstream (relay s) = upstream (config s) /\ Relay.heloName (relay s) = Hostname (config s);
  ok_limiter : match limiter s with
    | Some l => rateLimit (config s) = Some (RateLimit.lim l) /\ RateLimit.gateway l = Hostname (config s)
    | None => rateLimit (config s) = None
    end
}.

Definition opened (l : option RateLimit.limiter) (w w' : World) : Prop :=
  closedClients w' = closedClients w /\ (nextClient w <= nextClient w')%nat /\
  match l with
  | Some l => (nextClient w <= RateLimit.client l < nextClient w')%nat
  | None => True
  end.

Lemma newLimiter_spec cfg w :
  let '(r, w') := RateLimit.newLimiter cfg w in
  sent w' = sent w /\ counted w' = counted w /\
  match r with
  | Ok l =>
      opened l w w' /\
      match l with
      | Some l => rateLimit cfg = Some (RateLimit.lim l) /\ RateLimit.gateway l = Hostname cfg
      | None => rateLimit cfg = None
      end
  | Err _ => opened None w w'
  end.
Proof.
  unfold RateLimit.newLimiter, opened. destruct (rateLimit cfg) as [rl|]; [|done].
  repeat case_match; run_io; simplify_eq/=; split_and!; try done; lia.
Qed.

Lemma reusableLimiter_spec prev cfg l :
  reusableLimiter prev cfg = Some l ->
  exists p l0, prev = Some p /\ limiter p = Some l0 /\ RateLimit.client l = RateLimit.client l0 /\
    rateLimit cfg = Some (RateLimit.lim l) /\ RateLimit.gateway l = Hostname cfg /\
    Store (RateLimit.lim l) = Store (RateLimit.lim l0).
Proof.
  unfold reusableLimiter. intros E. destruct prev as [p|]; [|done].
  destruct (rateLimit cfg) as [rl|]; [|done]. destruct (limiter p) as [l0|] eqn:El; [|done].
  destruct (RateLimit.sameStore _ _) eqn:Es; [|done]. apply RateLimit.sameStore_eq in Es.
  injection E as <-. exists p, l0. done.
Qed.

Lemma quiet_newLimiter cfg : quiet (RateLimit.newLimiter cfg).
Proof. unfold RateLimit.newLimiter. quiet_tac. Qed.
#[local] Hint Resolve quiet_newLimiter : mailout.

Lemma quiet_newSnapshot cfg prev : quiet (newSnapshot cfg prev).
Proof. unfold newSnapshot. quiet_tac. Qed.
#[local] Hint Resolve quiet_newSnapshot : mailout.

Lemma quiet_Reload current cfg : quiet (Reload current cfg).
Proof. unfold Reload, RateLimit.close. quiet_tac. Qed.

Lemma probeSpool_clients d w :
  closedClients (probeSpool d w).2 = closedClients w /\ nextClient (probeSpool d w).2 = nextClient w.
Proof. unfold probeSpool. run_io. repeat (case_match; simpl); done. Qed.

(** A snapshot, once built, is sound, and its quota connection is the previous
    snapshot's or a new one; a refusal closes nothing. *)
Lemma newSnapshot_spec cfg prev w :
  let '(r, w') := newSnapshot cfg prev w in
  closedClients w' = closedClients w /\ (nextClient w <= nextClient w')%nat /\
  match r with
  | inl s =>
      snapshot_ok s /\ config s = applyDefaults cfg /\
      match limiter s with
      | Some l =>
          (exists p l0, prev = Some p /\ limiter p = Some l0 /\ RateLimit.client l = RateLimit.client l0) \/
          (nextClient w <= RateLimit.client l < nextClient w')%nat
      | None => True
      end
  | inr _ => True
  end.
Proof.
  unfold newSnapshot. set (c := applyDefaults cfg).
  destruct (Validate c) as [|pb pbs] eqn:Ev; [|done].
  destruct (TlsStore.newCertStore (TLS c)) as [cs|]; [|done].
  destruct (Relay.newRelayer c) as [rl|] eqn:Er; [|done].
  destruct (Milter.newMilterChain c) as [chain|[? ?]] eqn:Em; [|done].
  destruct (Dkim.newDKIMSigner (DKIM c)) as [sg|] eqn:Ed; [|done]. unfold bind at 1.
  assert (Hlim : let '(r, w1) := (match reusableLimiter prev c with
      | Some l => ret (Ok (Some l)) | None => RateLimit.newLimiter c end) w in
    closedClients w1 = closedClients w /\ (nextClient w <= nextClient w1)%nat /\
    match r with
    | Ok (Some l) =>
        (rateLimit c = Some (RateLimit.lim l) /\ RateLimit.gateway l = Hostname c) /\
        ((exists p l0, prev = Some p /\ limiter p = Some l0 /\ RateLimit.client l = RateLimit.client l0) \/
         (nextClient w <= RateLimit.client l < nextClient w1)%nat)
    | Ok None => rateLimit c = None
    | Err _ => True
    end).
  { destruct (reusableLimiter prev c) as [l|] eqn:El.
    - apply reusableLimiter_spec in El as (p & l0 & ? & ? & ? & ? & ? & _).
      unfold ret. split_and!; try done. left. eauto.
    - pose proof (newLimiter_spec c w) as Hl. destruct (RateLimit.newLimiter c w) as [[[l|]|e] w1];
        destruct Hl as (_ & _ & Hl); unfold opened in Hl; [|tauto|tauto].
      destruct Hl as ((Hc & Hn & Hk) & Hr). split; [exact Hc|]. split; [exact Hn|].
      split; [exact Hr|]. by right. }
  destruct ((match reusableLimiter prev c with
      | Some l => ret (Ok (Some l)) | None => RateLimit.newLimiter c end) w) as [lim w1].
  destruct Hlim as (Hc1 & Hn1 & Hl). destruct lim as [lim|e]; [|done].
  destruct (PartitionAccounts c) as [served rej] eqn:Ep. unfold bind at 1.
  destruct (probeSpool_clients (SpoolDir (limits c)) w1) as [Hc2 Hn2].
  destruct (probeSpool (SpoolDir (limits c)) w1) as [[e|] w2]; cbn [snd] in *.
  { simpl. rewrite Hc2, Hn2. done. }
  unfold bind, next. destruct (Auth.newAccountStore (tick w2) served) as [store|] eqn:Es.
  2:{ simpl. rewrite Hc2, Hn2. done. }
  unfold ret. cbn [closedClients nextClient limiter config]. rewrite Hc2, Hn2.
  split; [done|]. split; [done|].
  unfold Auth.newAccountStore in Es. destruct (bcrypt_Generate _ _ _) as [h|]; [|done]. injection Es as <-.
  assert (Hserved : (PartitionAccounts c).1 = served) by (by rewrite Ep).
  split; [|split; [done|by destruct lim as [l|]; [destruct Hl|]]].
  constructor; simpl.
  - by apply Validate_servable.
  - intros u a. rewrite Hserved. apply Auth.index_accounts_lookup. rewrite <- Hserved. apply served_NoDup.
  - intros u. apply newPolicies_lookup.
  - done.
  - done.
  - unfold Relay.newRelayer in Er. repeat case_match; by simplify_eq/=.
  - destruct lim as [l|]; [by destruct Hl|done].
Qed.

(** Which quota connection a new snapshot uses: the previous one for the same
    store, else one opened for it. *)
Lemma newSnapshot_limiter cfg prev w s w' :
  newSnapshot cfg prev w = (inl s, w') ->
  match reusableLimiter prev (config s) with
  | Some l => limiter s = Some l /\ nextClient w' = nextClient w
  | None =>
      limiterClient s = (λ _, nextClient w) <$> rateLimit (config s) /\
      nextClient w' = match rateLimit (config s) with Some _ => S (nextClient w) | None => nextClient w end
  end.
Proof.
  unfold newSnapshot. set (c := applyDefaults cfg). intros E.
  destruct (Validate c); [|done]. destruct (TlsStore.newCertStore (TLS c)); [|done].
  destruct (Relay.newRelayer c); [|done]. destruct (Milter.newMilterChain c) as [|[? ?]]; [|done].
  destruct (Dkim.newDKIMSigner (DKIM c)); [|done]. unfold bind at 1 in E.
  destruct ((match reusableLimiter prev c with
      | Some l => ret (Ok (Some l)) | None => RateLimit.newLimiter c end) w) as [[lim|e] w1] eqn:El; [|done].
  destruct (PartitionAccounts c) as [served rej]. unfold bind at 1 in E.
  destruct (probeSpool_clients (SpoolDir (limits c)) w1) as [_ Hn].
  destruct (probeSpool (SpoolDir (limits c)) w1) as [[e|] w2]; cbn [snd] in *; [done|].
  unfold bind, next in E. destruct (Auth.newAccountStore (tick w2) served); [|done].
  injection E as <- <-. cbn [config limiter nextClient]. rewrite Hn.
  destruct (reusableLimiter prev c); [by injection El as <- <-|].
  unfold RateLimit.newLimiter, ret, bind, openClient, limiterClient in *. cbn [limiter].
  destruct (rateLimit c); [|by injection El as <- <-].
  repeat (destruct (_ =? _)%nat || destruct (_ && _)); try done. by injection El as <- <-.
Qed.
End SnapshotFacts.
End Server.
