(* ===== verification/Sessions.v ===== *)
(** * Sessions: what the server guarantees

    The theorems about [src/internal/gateway/server.go], on the model of
    [Server]: reloads, authentication, the envelope, and what a 250 after DATA
    means. The session is also given as a state machine, one step per callback
    go-smtp makes and one for a reload, with an invariant by induction on runs. *)

From S2P Require Import Prelude Unicode GoStrings GoTime Policy Message Metrics World Spool Passwords.
From S2P Require Import Config Auth RateLimit TlsStore Milter Dkim Relay HeaderCheck Server.
Import Spool HeaderCheck Server.
#[local] Open Scope Z_scope.

Module Sessions.

Section Facts.
Context `{K : Kernel} `{B : Bcrypt} `{D : DkimLib} `{U : Unicode} `{Q : QuotaStore}
  `{M : MilterPeer} `{R : UpstreamPeer} `{L : SmtpLib}.

(** The same message, its body read from another offset. *)
Definition same_msg (m m' : Milter.Message) : Prop :=
  Milter.From m' = Milter.From m /\ Milter.To m' = Milter.To m /\
  Milter.Account m' = Milter.Account m /\ same_body (Milter.Body m) (Milter.Body m').

(** [m1] is what the chain made of [m]. *)
Definition filtered (chain : Milter.milterChain) (info : Milter.sessionInfo) (m m1 : Milter.Message) : Prop :=
  (chain = [] /\ m1 = m) \/ exists w1 w2, Milter.run chain m info w1 = (None, m1, w2).

(** A filter of the chain asked for [m] to be dropped. *)
Definition discarded (chain : Milter.milterChain) (info : Milter.sessionInfo) (m : Milter.Message) : Prop :=
  exists w1 e m1 w2, Milter.run chain m info w1 = (Some e, m1, w2) /\ is_discard e = true.

(** [m2] is [m1], or [m1] under a signature the policy vouches for. *)
Definition signed (s : Dkim.dkimSigner) (policy : Policy.senderPolicy) (m1 m2 : Milter.Message) : Prop :=
  Milter.From m2 = Milter.From m1 /\ Milter.To m2 = Milter.To m1 /\
  (contents (Milter.Body m2) = contents (Milter.Body m1) \/
   exists key t field, Dkim.picked s m1 key /\ Policy.canSign policy (Dkim.domain key) = true /\
     dkimSignature t (mkSignOptions (Dkim.domain key) (Dkim.selector key) (Dkim.signer key) (Dkim.headerKeys key))
       (contents (Milter.Body m1)) = Ok field /\
     contents (Milter.Body m2) = field ++ contents (Milter.Body m1)).

(** What a favourable answer to a message means. *)
Definition disposed (s : session) (policy : accountPolicy) (m0 : Milter.Message) (w w' : World) : Prop :=
  (skipHeaderFromCheck policy = true \/
   exists w1, (checkHeaderFrom (Milter.Body m0) (senders policy) w1).1.1 = None) /\
  exists m, same_msg m0 m /\
  ((discarded (ap_milters policy) (sessionInfo s) m /\ sent w' = sent w) \/
   exists m1 m2, filtered (ap_milters policy) (sessionInfo s) m m1 /\
     signed (dkim (snap s)) (senders policy) m1 m2 /\
     sent w' = sent w ++ Relay.dialogue (relay (snap s)) m2).

Lemma chain_empty c : Milter.empty c = true <-> c = [].
Proof. unfold Milter.empty. by destruct c. Qed.

Lemma deliver_spec snap m w w' :
  deliver snap m w = (None, w') -> sent w' = sent w ++ Relay.dialogue (relay snap) m.
Proof.
  unfold deliver, bind. destruct (Relay.send_spec (relay snap) m w) as (err & m' & w1 & -> & _ & _ & Hn & _).
  unfold record, ret. destruct err as [e|]; [done|]. intros [= <-]. by apply Hn.
Qed.

Lemma signAndDeliver_spec snap policy m w w' :
  signAndDeliver snap policy m w = (None, w') ->
  exists m2, signed (dkim snap) (senders policy) m m2 /\
    sent w' = sent w ++ Relay.dialogue (relay snap) m2.
Proof.
  unfold signAndDeliver, bind. destruct (negb (Dkim.empty (dkim snap))).
  - destruct (Dkim.sign_spec (dkim snap) m (senders policy) w) as (err & m2 & w1 & E & Hf & Ht & _ & Hc).
    assert (Hq := Dkim.quiet_sign (dkim snap) m (senders policy) w). rewrite E in *.
    destruct Hq as [Hq _]. cbn [snd] in Hq. destruct err as [e|]; [done|].
    intros Hd%deliver_spec. exists m2. split; [|by rewrite Hd, Hq].
    split; [done|]. split; [done|]. destruct Hc as [?|[_ ?]]; [by left|by right].
  - intros Hd%deliver_spec. exists m. split; [|done]. split; [done|]. split; [done|]. by left.
Qed.

Lemma process_spec s policy m w w' :
  process s policy m w = (None, w') -> disposed s policy m w w'.
Proof.
  unfold process, bind, disposed.
  assert (Hchk : exists err body w1, (if negb (skipHeaderFromCheck policy)
      then checkHeaderFrom (Milter.Body m) (senders policy) else ret (None, Milter.Body m)) w = (err, body, w1) /\
    same_body (Milter.Body m) body /\ sent w1 = sent w /\
    (err = None -> skipHeaderFromCheck policy = true \/
       exists w1, (checkHeaderFrom (Milter.Body m) (senders policy) w1).1.1 = None)).
  { destruct (skipHeaderFromCheck policy); cbn [negb].
    { do 3 eexists. split; [done|]. split_and!; try done. by left. }
    destruct (checkHeaderFrom (Milter.Body m) (senders policy) w) as [[err body] w1] eqn:E.
    do 3 eexists. split; [done|].
    assert (Hq := quiet_checkHeaderFrom (Milter.Body m) (senders policy) w). rewrite E in Hq.
    split_and!; [|by apply Hq|intros ->; right; exists w; by rewrite E].
    unfold checkHeaderFrom, bind in E.
    destruct (headerBlock_spec (Milter.Body m) w) as (r & b & w2 & E2 & Hb & _). rewrite E2 in E.
    unfold ret in E. apply (f_equal (λ p, p.1.2)) in E. cbn [fst snd] in E. by rewrite <- E. }
  destruct Hchk as (err & body & w1 & -> & Hb & Hs1 & Hok).
  destruct err as [e|]; [done|]. specialize (Hok eq_refl). intros Hp. split; [done|].
  exists (Milter.setBody m body). split; [done|].
  destruct (Milter.empty (ap_milters policy)) eqn:Ee; cbn [negb] in Hp.
  - apply chain_empty in Ee. apply signAndDeliver_spec in Hp as (m2 & Hsig & Hsent).
    right. exists (Milter.setBody m body), m2. split; [by left|]. split; [done|]. by rewrite Hsent, Hs1.
  - destruct (Milter.run (ap_milters policy) (Milter.setBody m body) (sessionInfo s) w1) as [[err m1] w2] eqn:Er.
    assert (Hq := Requests.quiet_run (ap_milters policy) (Milter.setBody m body) (sessionInfo s) w1).
    rewrite Er in Hq. destruct Hq as [Hq _]. cbn [snd] in Hq. destruct err as [e|].
    + destruct (is_discard e) eqn:Ed; [|done]. left. unfold record, ret in Hp. injection Hp as <-.
      cbn [sent]. split; [by exists w1, e, m1, w2|]. congruence.
    + apply signAndDeliver_spec in Hp as (m2 & Hsig & Hsent). right. exists m1, m2.
      split; [right; eauto|]. split; [done|]. by rewrite Hsent, Hq, Hs1.
Qed.

Lemma checkDimension_sent l a d limit by_ timeout w :
  sent (RateLimit.checkDimension l a d limit by_ timeout w).2 = sent w.
Proof.
  unfold RateLimit.checkDimension, RateLimit.increment, RateLimit.key. run_io.
  repeat (case_match; simplify_eq/=; try done).
Qed.

Lemma check_sent l a n w : sent (RateLimit.check l a n w).2 = sent w.
Proof.
  unfold RateLimit.check. destruct l as [l|]; [|done]. unfold bind.
  match goal with |- context [RateLimit.checkDimension l a ?d ?lm ?b ?to w] =>
    pose proof (checkDimension_sent l a d lm b to w) as H1;
    destruct (RateLimit.checkDimension l a d lm b to w) as [[e|] w1] end; [done|].
  match goal with |- context [RateLimit.checkDimension l a ?d ?lm ?b ?to w1] =>
    pose proof (checkDimension_sent l a d lm b to w1) as H2;
    destruct (RateLimit.checkDimension l a d lm b to w1) as [[e|] w2] end; run_io; congruence.
Qed.

Lemma stillAuthorized_spec current s acct :
  match stillAuthorized current s acct with
  | inl (a, s') =>
      Auth.byUsername (accounts current) !! Username acct = Some a /\ Disabled a = false /\
      s' = mkSession (conn s) current (Some a) (from s) (to s) (authFailures s) (closed s)
  | inr (e, s') => e = ESmtp errCredentialsRevoked /\ s' = setClosed s
  end.
Proof. unfold stillAuthorized. repeat case_match; simplify_eq; done. Qed.

(** DATA answered with 250. *)
Lemma Data_spec current s r w s' w' :
  Data current s r w = (None, s', w') ->
  exists acct a t m0, account s = Some acct /\
    Auth.byUsername (accounts current) !! Username acct = Some a /\ Disabled a = false /\
    r.2 = None /\ to s <> [] /\
    Milter.From m0 = from s /\ Milter.To m0 = to s /\ Milter.Account m0 = Username a /\
    contents (Milter.Body m0) =
      receivedHeader (c_Hostname (conn s)) (remoteAddr s) (Hostname (config current)) (Username a) t
      ++ concat r.1 /\
    snap s' = current /\
    disposed s' (policyFor current (Username a)) m0 w w'.
Proof.
  unfold Data. destruct (account s) as [acct|]; [|done].
  destruct (length (to s) =? 0)%nat eqn:Eto; [done|].
  pose proof (stillAuthorized_spec current s acct) as Hsa.
  destruct (stillAuthorized current s acct) as [[a s1]|[e s1]]; [|by destruct Hsa as [-> _]].
  destruct Hsa as (Ha & Hd & ->). unfold bind at 1. cbn [snap limiter to].
  pose proof (check_sent (limiter current) (Username a) (zlen (to s)) w) as Hs1.
  destruct (RateLimit.check _ _ _ w) as [[e|] w1]; [done|]. cbn [snd] in Hs1.
  unfold bind at 1, now at 1. unfold bind at 1, next at 1, ret at 1. unfold bind at 1.
  match goal with |- context [Write ?sp ?h ?w0] => set (hdr := h); set (w2 := w0);
    destruct (Write_spec sp hdr w2 (newSpool_inv _ _)) as
      (wr & err & b1 & w3 & q & E3 & Hinv & _ & _ & _ & _ & Hc & Hok & _);
    assert (Hq := quiet_Write sp hdr w2); rewrite E3 in Hq |- *; destruct Hq as [Hq3 _]; cbn [snd] in Hq3 end.
  destruct err as [e|]; [done|]. rewrite (Hok eq_refl) in Hc. unfold bind at 1.
  destruct (copyChunks_spec r.1 b1 w3 Hinv) as (werr & b2 & w4 & q2 & E4 & _ & _ & _ & _ & Hc2 & Hok2 & _).
  assert (Hq := quiet_copyChunks r.1 b1 w3). rewrite E4 in Hq |- *. destruct Hq as [Hq4 _]. cbn [snd] in Hq4.
  destruct werr as [e|]; [done|]. destruct r.2 as [e|]; [done|].
  rewrite (Hok2 eq_refl) in Hc2. unfold bind.
  assert (Hsp : forall w0, exists w5, (if spooled b2 then record (Metrics.messageSpooled (Username a)) else ret tt) w0
    = (tt, w5) /\ sent w5 = sent w0) by (intros w0; destruct (spooled b2); by eexists).
  destruct (Hsp w4) as (w5 & -> & Hs5).
  destruct (process _ _ _ w5) as [err w6] eqn:Ep. intros [= -> <- <-].
  apply process_spec in Ep. exists acct, a, (clock (tick w1)).
  eexists (Milter.mkMessage (from s) (to s) b2 (Username a)). split_and!; try done.
  - intros Et. by rewrite Et in Eto.
  - cbn [Milter.Body]. rewrite Hc2, Hc. reflexivity.
  - destruct Ep as (Hh & m & Hsame & Hout). split; [done|]. exists m. split; [done|].
    assert (Hs : sent w5 = sent w) by (subst w2; simpl in *; congruence).
    by rewrite Hs in Hout.
Qed.

(** ** Attempts to authenticate *)

(** The answers to a connection's attempts, in order. *)
Fixpoint attempts (s : session) (l : list (bytes * bytes)) : IO (list (list bytes * option goerror) * session) :=
  match l with
  | [] => ret ([], s)
  | (u, p) :: l' =>
      let! (compared, err, s) := authenticate s u p in
      let! (rest, s) := attempts s l' in
      ret ((compared, err) :: rest, s)
  end.

(** A password was verified, and refused. *)
Definition refused (o : list bytes * option goerror) : bool :=
  match o with (_ :: _, Some _) => true | _ => false end.

Lemma authenticate_spec s u p w :
  let '(compared, err, s', _) := authenticate s u p w in
  snap s' = snap s /\ (length compared <= 1)%nat /\
  (if refused (compared, err)
   then authFailures s < maxAuthFailures /\ authFailures s' = authFailures s + 1
   else authFailures s' = authFailures s) /\
  (maxAuthFailures <= authFailures s ->
     compared = [] /\ err = Some (ESmtp errTooManyAuthFailures) /\ closed s' = true).
Proof.
  unfold authenticate. destruct (maxAuthFailures <=? authFailures s) eqn:E; bools.
  { simpl. split_and!; try done; lia. }
  unfold bind at 1, next at 1. destruct (acquireSlot (tick w)); cbn [negb].
  2:{ simpl. split_and!; try done; lia. }
  unfold Auth.authenticate. destruct (Auth.byUsername (accounts (snap s)) !! u) as [a|].
  - destruct (bcrypt_Compare (PasswordHash a) p); cbn [negb]; [destruct (Disabled a)|]; run_io;
      split_and!; try done; lia.
  - run_io. split_and!; try done; lia.
Qed.

(** A name the session's configuration does not know, or has disabled, gets no
    account. *)
Lemma disabled_cannot_authenticate s u p w :
  (forall a, Auth.byUsername (accounts (snap s)) !! u = Some a -> Disabled a = true) ->
  (authenticate s u p w).1.1.2 <> None.
Proof.
  intros Hd. unfold authenticate. destruct (maxAuthFailures <=? authFailures s); [done|].
  unfold bind at 1, next at 1. destruct (acquireSlot (tick w)); cbn [negb]; [|done].
  unfold Auth.authenticate. destruct (Auth.byUsername (accounts (snap s)) !! u) as [a|].
  - rewrite (Hd a) by done. destruct (bcrypt_Compare (PasswordHash a) p); cbn [negb]; by run_io.
  - by run_io.
Qed.

Lemma attempts_spec l s w :
  0 <= authFailures s ->
  let '(os, s', _) := attempts s l w in
  authFailures s + Z.of_nat (length (List.filter refused os)) <= Z.max (authFailures s) maxAuthFailures /\
  authFailures s <= authFailures s'.
Proof.
  revert s w. induction l as [|[u p] l IH]; intros s w Hs; cbn [attempts].
  { simpl. lia. }
  unfold bind at 1. pose proof (authenticate_spec s u p w) as Ha.
  destruct (authenticate s u p w) as [[[compared err] s1] w1]. destruct Ha as (_ & _ & Hr & _).
  unfold bind at 1. assert (Hs1 : 0 <= authFailures s1) by (case_match; lia).
  specialize (IH s1 w1 Hs1). destruct (attempts s1 l w1) as [[os s2] w2]. unfold ret.
  cbn [List.filter]. destruct (refused (compared, err)); cbn [length]; lia.
Qed.

(** ** The session as a state machine *)

Record state := mkState { st_server : snapshot; st_session : session; st_world : World }.
End Facts.

Section Machine.
Context `{K : Kernel} `{B : Bcrypt} `{P : Pki} `{C : CertPool} `{D : DkimLib} `{U : Unicode} `{Q : QuotaStore}
  `{M : MilterPeer} `{R : UpstreamPeer} `{L : SmtpLib}.

(** One callback of the session, or a reload of the server. *)
Inductive step : state -> state -> Prop :=
| step_authenticate srv s w u p o s' w' :
    authenticate s u p w = (o, s', w') -> step (mkState srv s w) (mkState srv s' w')
| step_mail srv s w f err s' w' :
    Mail srv s f w = (err, s', w') -> step (mkState srv s w) (mkState srv s' w')
| step_rcpt srv s w r err s' :
    Rcpt s r = (err, s') -> step (mkState srv s w) (mkState srv s' w)
| step_data srv s w r err s' w' :
    Data srv s r w = (err, s', w') -> step (mkState srv s w) (mkState srv s' w')
| step_reset srv s w :
    step (mkState srv s w) (mkState srv (Reset s) w)
| step_reload srv s w cfg err srv' w' :
    Reload (Some srv) cfg w = (err, Some srv', w') -> step (mkState srv s w) (mkState srv' s w').

Lemma quiet_authenticate s u p : quiet (authenticate s u p).
Proof. unfold authenticate. quiet_tac. Qed.

Lemma quiet_Mail srv s f : quiet (Mail srv s f).
Proof. unfold Mail. quiet_tac. Qed.

(** A session that is not authenticated sends nothing, and once it is it stays
    so. *)
Definition unauthenticated (st : state) : Prop := account (st_session st) = None.

Lemma authenticate_account s u p :
  yields (λ o, account o.2 = None -> account s = None) (authenticate s u p).
Proof. unfold authenticate. yields_tac; done. Qed.

Lemma Mail_account srv s f :
  yields (λ o, account o.2 = None -> account s = None) (Mail srv s f).
Proof.
  unfold Mail. destruct (account s) as [acct|] eqn:Ea; [|by apply yields_ret].
  pose proof (stillAuthorized_spec srv s acct) as Hsa.
  destruct (stillAuthorized srv s acct) as [[a s1]|[e s1]].
  - destruct Hsa as (_ & _ & ->). yields_tac; done.
  - destruct Hsa as [_ ->]. apply yields_ret. simpl. congruence.
Qed.

Lemma Data_account srv s r :
  yields (λ o, account o.2 = None -> account s = None) (Data srv s r).
Proof.
  unfold Data. destruct (account s) as [acct|] eqn:Ea; [|by apply yields_ret].
  destruct (length (to s) =? 0)%nat; [apply yields_ret; simpl; congruence|].
  pose proof (stillAuthorized_spec srv s acct) as Hsa.
  destruct (stillAuthorized srv s acct) as [[a s1]|[e s1]].
  - destruct Hsa as (_ & _ & ->). yields_tac; done.
  - destruct Hsa as [_ ->]. apply yields_ret. simpl. congruence.
Qed.

Lemma step_unauthenticated st st' :
  step st st' -> unauthenticated st' -> unauthenticated st /\ sent (st_world st') = sent (st_world st).
Proof.
  unfold unauthenticated. intros Hstep Hu. destruct Hstep as
    [srv s w u p o s' w' E|srv s w f err s' w' E|srv s w r err s' E|srv s w r err s' w' E|srv s w|srv s w cfg err srv' w' E];
    cbn [st_session st_world] in *.
  - assert (Hq := quiet_authenticate s u p w). assert (Ha := authenticate_account s u p w).
    rewrite E in Hq, Ha. split; [by apply Ha|apply Hq].
  - assert (Hq := quiet_Mail srv s f w). assert (Ha := Mail_account srv s f w).
    rewrite E in Hq, Ha. split; [by apply Ha|apply Hq].
  - unfold Rcpt in E. destruct (account s) eqn:Ea; simplify_eq/=; done.
  - assert (Ha := Data_account srv s r w). rewrite E in Ha. specialize (Ha Hu). split; [done|].
    unfold Data in E. rewrite Ha in E. unfold ret in E. by simplify_eq/=.
  - done.
  - assert (Hq := quiet_Reload (Some srv) cfg w). rewrite E in Hq. split; [done|apply Hq].
Qed.
End Machine.
End Sessions.

(** ** Properties *)

Section Properties.
Import Sessions.
Context `{K : Kernel} `{B : Bcrypt} `{P : Pki} `{C : CertPool} `{D : DkimLib} `{U : Unicode} `{Q : QuotaStore}
  `{M : MilterPeer} `{R : UpstreamPeer} `{L : SmtpLib}.

(** C4: what a 250 after DATA means. The account is one the configuration in
    service knows and has not disabled; the message is the Received header and
    the client's bytes, to the recipients accepted; its From header passed the
    account's policy unless the account is exempt; and either a filter asked to
    drop it and nothing went upstream, or the upstream accepted, in full, what
    the filters and the signer made of it. *)
Theorem Data_250_means_relayed_or_discarded (current : snapshot) (s s' : session)
    (r : list bytes * option goerror) (w w' : World) :
  Data current s r w = (None, s', w') ->
  exists acct a t m0, account s = Some acct /\
    Auth.byUsername (accounts current) !! Username acct = Some a /\ Disabled a = false /\
    r.2 = None /\ to s <> [] /\
    Milter.From m0 = from s /\ Milter.To m0 = to s /\ Milter.Account m0 = Username a /\
    contents (Milter.Body m0) =
      receivedHeader (c_Hostname (conn s)) (remoteAddr s) (Hostname (config current)) (Username a) t
      ++ concat r.1 /\
    snap s' = current /\
    disposed s' (policyFor current (Username a)) m0 w w'.
Proof. apply Data_spec. Qed.

(** Without filters or signing keys the relay is transparent: a 250 means
    the upstream accepted the session's envelope and, byte for byte, the
    client's message behind one Received header. *)
Theorem Data_verbatim_without_filters (cfg : Config) (prev : option snapshot) (current : snapshot)
    (s s' : session) (r : list bytes * option goerror) (w0 w1 w w' : World) :
  newSnapshot cfg prev w0 = (inl current, w1) -> Config.Milters cfg = [] -> Config.DKIM cfg = [] ->
  Data current s r w = (None, s', w') ->
  exists name t m, Milter.From m = from s /\ Milter.To m = to s /\
    sent w' = sent w ++ Relay.dialEvents (relay current) ++ (snd <$> Relay.preamble (relay current) m) ++
      [UpBody (receivedHeader (c_Hostname (conn s)) (remoteAddr s) (Hostname (config current)) name t ++ concat r.1);
       UpAccepted].
Proof.
  intros Hsnap Hm Hd Hdata.
  pose proof (newSnapshot_spec cfg prev w0) as Hs. rewrite Hsnap in Hs.
  destruct Hs as (_ & _ & Hok & Hcfg & _).
  assert (Hchain : milters current = []).
  { assert (E := ok_milters _ Hok). unfold Milter.newMilterChain in E. rewrite Hcfg in E. simpl in E.
    rewrite Hm in E. by injection E. }
  assert (Hsig : dkim current = ∅).
  { assert (E := ok_dkim _ Hok). unfold Dkim.newDKIMSigner in E. rewrite Hcfg in E. simpl in E.
    rewrite Hd in E. by injection E. }
  apply Data_spec in Hdata as (acct & a & t & m0 & _ & _ & _ & _ & _ & Hf & Ht & _ & Hc & Hsn & Hdisp).
  assert (Hap : ap_milters (policyFor current (Username a)) = []).
  { unfold policyFor. rewrite (ok_policies _ Hok). by destruct (Auth.byUsername _ !! _). }
  destruct Hdisp as (_ & m & (Hmf & Hmt & _ & Hb & _) & Hout). rewrite Hap in Hout.
  destruct Hout as [[(wa & e & mb & wb & Hrun & _) _]|(m1 & m2 & Hfil & (Hf2 & Ht2 & Hcase) & Hsent)].
  { by simpl in Hrun. }
  destruct Hfil as [[_ ->]|(wa & wb & Hrun)]; [|simpl in Hrun; injection Hrun as <- <-].
  all: exists (Username a), t, m2; rewrite Hsn in Hsent, Hcase; rewrite Hsig in Hcase;
    (split; [congruence|]; split; [congruence|]); rewrite Hsent; unfold Relay.dialogue; do 5 f_equal;
    destruct Hcase as [->|(key & ? & ? & [Hpk|(? & ? & _ & _ & Hpk)] & _)];
    [congruence|by rewrite lookup_empty in Hpk|by rewrite lookup_empty in Hpk].
Qed.

(** An account that is gone or disabled starts and finishes nothing. *)
Lemma cut_off current s acct f r w :
  account s = Some acct ->
  (forall a, Auth.byUsername (accounts current) !! Username acct = Some a -> Disabled a = true) ->
  Mail current s f w = (Some (ESmtp errCredentialsRevoked), setClosed s, w) /\
  Data current s r w =
    match to s with
    | [] => (Some (ESmtp noValidRecipients), s, w)
    | _ => (Some (ESmtp errCredentialsRevoked), setClosed s, w)
    end.
Proof.
  intros Ha Hrev.
  assert (Hsa : stillAuthorized current s acct = inr (ESmtp errCredentialsRevoked, setClosed s)).
  { unfold stillAuthorized. destruct (Auth.byUsername (accounts current) !! Username acct) as [a|]; [|done].
    by rewrite Hrev. }
  unfold Mail, Data. rewrite Ha, Hsa. split; [done|]. by destruct (to s).
Qed.

(** The accounts a snapshot serves are accounts of its configuration. *)
Lemma served_of_config cfg prev w0 current w1 u a :
  newSnapshot cfg prev w0 = (inl current, w1) -> Auth.byUsername (accounts current) !! u = Some a ->
  a ∈ Accounts cfg /\ Username a = u /\ well_formed a = true.
Proof.
  intros Hsnap Hl. pose proof (newSnapshot_spec cfg prev w0) as Hs. rewrite Hsnap in Hs.
  destruct Hs as (_ & _ & Hok & Hcfg & _). apply (ok_accounts _ Hok) in Hl as [Hin Hu].
  rewrite PartitionAccounts_firsts in Hin. split_and!; [|done|].
  - apply firsts_elem in Hin as (l1 & l2 & E & _). rewrite Hcfg in E. simpl in E. rewrite E. set_solver.
  - pose proof (firsts_well_formed (Accounts (config current)) ∅) as Hw. rewrite Forall_forall in Hw. by apply Hw.
Qed.

(** C11: revocation takes effect at the next envelope: once the configuration in
    service no longer knows the account, or has disabled it, MAIL is refused with
    421 and the connection closed, whatever the session holds; DATA is refused
    in the same way, or, if no recipient was given, as a message without
    recipients. Nothing goes upstream and nothing is counted. *)
Theorem revoked_account_is_cut_off (current : snapshot) (s : session) (acct : Account)
    (f : bytes) (r : list bytes * option goerror) (w : World) :
  account s = Some acct ->
  (forall a, Auth.byUsername (accounts current) !! Username acct = Some a -> Disabled a = true) ->
  Mail current s f w = (Some (ESmtp errCredentialsRevoked), setClosed s, w) /\
  Data current s r w =
    match to s with
    | [] => (Some (ESmtp noValidRecipients), s, w)
    | _ => (Some (ESmtp errCredentialsRevoked), setClosed s, w)
    end.
Proof.
  apply cut_off.
Qed.

(** MAIL is accepted only for a sender the account was granted: the account
    is in the configuration in service, enabled, and one of the senders that
    configuration lists for it covers the address; the session then works
    against that configuration. *)
Theorem Mail_only_granted_senders (cfg : Config) (prev : option snapshot) (current : snapshot)
    (s s' : session) (f : bytes) (w0 w1 w w' : World) :
  newSnapshot cfg prev w0 = (inl current, w1) ->
  Mail current s f w = (None, s', w') ->
  exists a, a ∈ Accounts cfg /\ well_formed a = true /\ Disabled a = false /\
    (exists acct, account s = Some acct /\ Username acct = Username a) /\
    (exists e g, e ∈ AllowedSenders a /\ parse_entry e = Some g /\ under (ToLower (Policy.bareAddress f)) g) /\
    account s' = Some a /\ from s' = f /\ to s' = [] /\ snap s' = current.
Proof.
  intros Hsnap Hmail. pose proof (newSnapshot_spec cfg prev w0) as Hs. rewrite Hsnap in Hs.
  destruct Hs as (_ & _ & Hok & Hcfg & _).
  unfold Mail in Hmail. destruct (account s) as [acct|] eqn:Ea; [|done].
  pose proof (stillAuthorized_spec current s acct) as Hsa.
  destruct (stillAuthorized current s acct) as [[a s1]|[e s1]]; [|done].
  destruct Hsa as (Hl & Hd & ->). cbn [snap conn account authFailures closed] in Hmail.
  destruct (Policy.allows _ f) eqn:Eal; [|done]. cbn [negb] in Hmail. unfold ret in Hmail. injection Hmail as <- <-.
  destruct (served_of_config _ _ _ _ _ _ _ Hsnap Hl) as (Hacc & Hu & Hwf). exists a.
  split_and!; try done; [by exists acct|].
  unfold policyFor in Eal. rewrite (ok_policies _ Hok) in Eal.
  rewrite Hu, Hl in Eal. simpl in Eal.
  apply allows_carries in Eal as (g & (e & He & Hp) & Hg). by exists e, g.
Qed.

(** A connection gets three guesses: over any sequence of attempts, at most
    three passwords are verified and refused; after that every attempt is
    refused without verifying anything. *)
Theorem three_password_failures_per_connection (c : Conn) (current : snapshot)
    (l : list (bytes * bytes)) (w : World) :
  let '(os, s', w') := attempts (newSession c current) l w in
  (length (List.filter refused os) <= 3)%nat /\
  (authFailures s' = 3 -> forall u p, exists s'' w'',
     authenticate s' u p w' = ([], Some (ESmtp errTooManyAuthFailures), s'', w'') /\ closed s'' = true).
Proof.
  pose proof (attempts_spec l (newSession c current) w) as Ha.
  destruct (attempts (newSession c current) l w) as [[os s'] w'].
  destruct Ha as [Ha _]; [done|]. unfold maxAuthFailures in Ha. simpl in Ha. split; [lia|].
  intros H3 u p. pose proof (authenticate_spec s' u p w') as Hs.
  destruct (authenticate s' u p w') as [[[compared err] s''] w'']. destruct Hs as (_ & _ & _ & Hmax).
  destruct Hmax as (-> & -> & Hc); [unfold maxAuthFailures; lia|]. by exists s'', w''.
Qed.

(** A bad update never takes the relay down: when a reload fails, the
    snapshot in service is the one that was, and no connection to a quota store
    was closed. *)
Theorem Reload_failure_keeps_serving (current current' : option snapshot) (cfg : Config)
    (e : snapshotError) (w w' : World) :
  Reload current cfg w = (Some e, current', w') ->
  current' = current /\ closedClients w' = closedClients w /\ sent w' = sent w.
Proof.
  intros E. assert (Hq := quiet_Reload current cfg w). rewrite E in Hq. destruct Hq as [Hq _].
  unfold Reload, bind in E. pose proof (newSnapshot_spec cfg current w) as Hs.
  destruct (newSnapshot cfg current w) as [[snap|err] w1]; destruct Hs as (Hc & _).
  - exfalso. revert E. unfold record, ret, RateLimit.close, closeClient. repeat case_match; naive_solver.
  - unfold record, ret in E. injection E as <- <- <-. done.
Qed.





(** Nothing goes upstream before authentication: however a client drives a
    session, and whatever reloads happen meanwhile, as long as no attempt to
    authenticate has succeeded the upstream has been told nothing. *)
Theorem unauthenticated_session_sends_nothing (c : Conn) (srv : snapshot) (w : World) (st : state) :
  rtc step (mkState srv (newSession c srv) w) st ->
  account (st_session st) = None -> sent (st_world st) = sent w.
Proof.
  intros Hrun Hu. assert (Hall : forall st0, rtc step st0 st -> account (st_session st) = None ->
    sent (st_world st) = sent (st_world st0)).
  { intros st0 Hr Hn. assert (H2 : unauthenticated st0 /\ sent (st_world st) = sent (st_world st0)); [|apply H2].
    clear Hrun. induction Hr as [|st0 st1 st2 Hstep _ IH]; [done|].
    destruct IH as [Hu1 Hs1]; [done|done|]. destruct (step_unauthenticated _ _ Hstep Hu1) as [? ?].
    split; [done|congruence]. }
  by apply (Hall _ Hrun).
Qed.
End Properties.

(** ** A relay that runs *)

Definition demo_lib : SmtpLib := {|
  ErrAuthFailed := mkSMTPError 535 (5, 7, 8) (lit "Authentication failed");
  ErrAuthRequired := mkSMTPError 502 (5, 7, 0) (lit "Please authenticate first");
  ErrAuthUnknownMechanism := mkSMTPError 504 (5, 7, 4) (lit "Unsupported authentication mechanism");
  acquireSlot _ := true
|}.

Definition demo_pool : CertPool := {| appendCertsFromPEM _ := true |}.

Definition demo_account (pw : string) : Account :=
  mkAccount (lit "app") (chr 12 :: lit pw) false [lit "*@x.test"] false.

Definition demo_config (accounts : list Account) (rl : option RateLimit) : Config :=
  mkConfig (lit "mx.test") [mkListener [] (lit ":587") []]
    (mkTLSConfig [mkCertificateRef (lit "c") [] [] (lit "mx.test") (lit "k")] [])
    (mkUpstream (lit "smtp.test") 0 TLSModeSTARTTLS false [] [] [] 0) accounts [] []
    rl (mkLimits 0 0 0 0 0 0 [] 0) [].

Definition demo_new (K : Kernel) (cfg : Config) : snapshot + snapshotError :=
  (@newSnapshot K toy_bcrypt toy_pki demo_pool toy_dkim unicode14 cfg None world0).1.

Definition demo_reload (K : Kernel) (current : option snapshot) (cfg : Config) (w : World)
    : option snapshotError * option snapshot * World :=
  @Reload K toy_bcrypt toy_pki demo_pool toy_dkim unicode14 current cfg w.

Definition demo_empty : snapshot :=
  mkSnapshot (demo_config [] None) [] (Auth.mkStore_ ∅ []) (TlsStore.mkCerts ∅ ∅ (toy_chain ""))
    toy_relayer [] ∅ None ∅.

Definition demo_snapshot (accounts : list Account) (rl : option RateLimit) : snapshot :=
  match demo_new kernel_ok (demo_config accounts rl) with inl s => s | inr _ => demo_empty end.

Definition demo_conn : Conn := mkConn (lit "client.test") (Some (lit "10.0.0.1:25")) None None.

(** An authenticated session with an accepted envelope. *)
Definition demo_session (srv : snapshot) : session :=
  mkSession demo_conn srv (Some (demo_account "pw")) (lit "a@x.test") [lit "b@y.test"] 0 false.

Definition demo_data (srv : snapshot) (chunks : list bytes) : option goerror * session * World :=
  @Data kernel_ok toy_dkim unicode14 counting_store tagging_peer willing_upstream demo_lib
    srv (demo_session srv) (chunks, None) world0.

Definition demo_srv : snapshot := demo_snapshot [demo_account "pw"] None.

Lemma demo_new_ok : demo_new kernel_ok (demo_config [demo_account "pw"] None) = inl demo_srv.
Proof. vm_compute. reflexivity. Qed.

Definition demo_mail (srv : snapshot) (s : session) (f : bytes) : option goerror * session * World :=
  @Mail unicode14 demo_lib srv s f world0.

Lemma Data_250_witness :
  (demo_data demo_srv [toy_body]).1.1 = None /\
  exists acct a : Account, account (demo_session demo_srv) = Some acct /\
    Auth.byUsername (accounts demo_srv) !! Username acct = Some a /\ Disabled a = false.
Proof.
  split; [vm_compute; reflexivity|].
  destruct (@Data_250_means_relayed_or_discarded kernel_ok toy_dkim unicode14 counting_store tagging_peer
    willing_upstream demo_lib demo_srv (demo_session demo_srv) (demo_data demo_srv [toy_body]).1.2
    ([toy_body], None) world0 (demo_data demo_srv [toy_body]).2) as (acct & a & t & m0 & H1 & H2 & H3 & _).
  - vm_compute. reflexivity.
  - exists acct, a. split; [exact H1|]. split; [exact H2|exact H3].
Defined.

Lemma Data_verbatim_witness :
  exists name t m, Milter.From m = lit "a@x.test" /\ Milter.To m = [lit "b@y.test"] /\
    sent (demo_data demo_srv [toy_body]).2 =
      sent world0 ++ Relay.dialEvents (relay demo_srv) ++ (snd <$> Relay.preamble (relay demo_srv) m) ++
      [UpBody (receivedHeader (lit "client.test") (lit "10.0.0.1:25") (Hostname (config demo_srv)) name t
               ++ concat [toy_body]); UpAccepted].
Proof.
  apply (@Data_verbatim_without_filters kernel_ok toy_bcrypt toy_pki demo_pool toy_dkim unicode14
    counting_store tagging_peer willing_upstream demo_lib
    (demo_config [demo_account "pw"] None) None demo_srv (demo_session demo_srv)
    (demo_data demo_srv [toy_body]).1.2 ([toy_body], None) world0
    (@newSnapshot kernel_ok toy_bcrypt toy_pki demo_pool toy_dkim unicode14
       (demo_config [demo_account "pw"] None) None world0).2 world0).
  - vm_compute. reflexivity.
  - reflexivity.
  - reflexivity.
  - vm_compute. reflexivity.
Defined.

Lemma revoked_account_witness :
  let srv := demo_snapshot [] None in
  demo_mail srv (demo_session demo_srv) (lit "a@x.test") =
    (Some (ESmtp errCredentialsRevoked), setClosed (demo_session demo_srv), world0).
Proof.
  apply (@revoked_account_is_cut_off kernel_ok toy_dkim unicode14 counting_store tagging_peer
    willing_upstream demo_lib (demo_snapshot [] None) (demo_session demo_srv) (demo_account "pw")
    (lit "a@x.test") ([], None) world0).
  - reflexivity.
  - intros a. vm_compute. discriminate.
Defined.

Lemma Mail_only_granted_witness :
  (demo_mail demo_srv (demo_session demo_srv) (lit "boss@z.test")).1.1 <> None /\
  exists a, a ∈ [demo_account "pw"] /\ Disabled a = false.
Proof.
  split; [vm_compute; discriminate|].
  destruct (@Mail_only_granted_senders kernel_ok toy_bcrypt toy_pki demo_pool toy_dkim unicode14 demo_lib
    (demo_config [demo_account "pw"] None) None demo_srv (demo_session demo_srv)
    (demo_mail demo_srv (demo_session demo_srv) (lit "Me <me@X.test>")).1.2 (lit "Me <me@X.test>") world0
    (@newSnapshot kernel_ok toy_bcrypt toy_pki demo_pool toy_dkim unicode14
       (demo_config [demo_account "pw"] None) None world0).2 world0
    (demo_mail demo_srv (demo_session demo_srv) (lit "Me <me@X.test>")).2) as (a & Ha & _ & Hd & _).
  - vm_compute. reflexivity.
  - vm_compute. reflexivity.
  - exists a. split; [exact Ha|exact Hd].
Defined.

(** A configuration with no listener. *)
Definition bad_config : Config :=
  mkConfig [] [] (mkTLSConfig [] []) (mkUpstream [] 0 [] false [] [] [] 0) [] [] [] None
    (mkLimits 0 0 0 0 0 0 [] 0) [].

Lemma Reload_failure_witness :
  (demo_reload kernel_ok (Some demo_srv) bad_config world0).1.2 = Some demo_srv.
Proof.
  apply (@Reload_failure_keeps_serving kernel_ok toy_bcrypt toy_pki demo_pool toy_dkim unicode14
    (Some demo_srv) (demo_reload kernel_ok (Some demo_srv) bad_config world0).1.2 bad_config
    (InvalidConfig (Validate (applyDefaults bad_config))) world0
    (demo_reload kernel_ok (Some demo_srv) bad_config world0).2).
  vm_compute. reflexivity.
Defined.



Lemma unauthenticated_session_witness :
  sent (demo_mail demo_srv (newSession demo_conn demo_srv) (lit "a@x.test")).2 = sent world0.
Proof.
  apply (@unauthenticated_session_sends_nothing kernel_ok toy_bcrypt toy_pki demo_pool toy_dkim unicode14
    counting_store tagging_peer willing_upstream demo_lib demo_conn demo_srv world0
    (Sessions.mkState demo_srv (newSession demo_conn demo_srv)
       (demo_mail demo_srv (newSession demo_conn demo_srv) (lit "a@x.test")).2)).
  - apply rtc_once. apply (Sessions.step_mail _ _ _ (lit "a@x.test") (Some (ESmtp (@ErrAuthRequired demo_lib)))).
    reflexivity.
  - reflexivity.
Defined.

(** ** Where the code falls short *)

(** A kernel on which no file can be created. *)
Definition kernel_no_spool : Kernel := {|
  sys _ c := match c with SysCreateTemp _ => SysFail 0 (EText (lit "read-only file system")) | _ => SysOk end;
  clock _ := 0
|}.

(** A reload refused because the spool directory is not writable has opened
    a connection to the quota store that no snapshot holds and nothing closes. *)
Theorem refused_reload_leaks_connection :
  let '(err, current, w) :=
    demo_reload kernel_no_spool None (demo_config [] (Some (mkRateLimit toy_store 2 0))) world0 in
  err <> None /\ current = None /\ nextClient w = 1%nat /\ closedClients w = ∅.
Proof. vm_compute. done. Qed.

(** A certificate pool that knows junk when it sees it. *)
Definition strict_pool : CertPool := {| appendCertsFromPEM pem := negb (bool_decide (pem = lit "junk")) |}.

Definition junk_ca_config : Config :=
  mkConfig (lit "mx.test") [mkListener (lit "submission") (lit ":587") TLSModeSTARTTLS]
    (mkTLSConfig [mkCertificateRef (lit "c") [] [] (lit "mx.test") (lit "k")] [])
    (mkUpstream (lit "smtp.test") 0 TLSModeSTARTTLS false (lit "junk") [] [] 0) [] [] []
    None (mkLimits 0 0 0 0 0 0 [] 0) [].

(** [Validate], which is all the operator asks before it publishes, does not look
    into the upstream's CA: a configuration whose CA holds no certificate
    validates, and the dataplane refuses it. *)
Theorem junk_ca_passes_validation :
  Validate junk_ca_config = [] /\
  exists e, (@newSnapshot kernel_ok toy_bcrypt toy_pki strict_pool toy_dkim unicode14 junk_ca_config None world0).1 = inr e.
Proof. split; [vm_compute; reflexivity|]. eexists. vm_compute. reflexivity. Qed.

(** Rotating a password does not lock out a connection that is already
    open: it authenticates against the configuration of when it connected, and
    MAIL re-checks only that the account exists and is enabled, so the old
    password still gets mail accepted under the new configuration. *)
Theorem rotated_password_still_works_on_open_connection :
  let old := demo_snapshot [demo_account "old"] None in
  let new := demo_snapshot [demo_account "new"] None in
  let '(_, err, s, _) := @authenticate toy_bcrypt demo_lib (newSession demo_conn old)
                           (lit "app") (lit "old") world0 in
  err = None /\
  (demo_mail new s (lit "a@x.test")).1.1 = None /\
  (let '(_, err', _, _) := @authenticate toy_bcrypt demo_lib (newSession demo_conn new)
                             (lit "app") (lit "old") world0 in err' <> None).
Proof. vm_compute. done. Qed.

(** Senders that are narrowed spare an envelope that is already open: DATA adopts
    the configuration in service, but it does not put the envelope sender to the
    policy again. A message whose MAIL came before the reload is relayed with a
    sender that MAIL refuses after it. *)
Theorem narrowed_senders_spare_an_open_envelope :
  let old := demo_snapshot [demo_account "pw"] None in
  let new := demo_snapshot [mkAccount (lit "app") (chr 12 :: lit "pw") false [lit "*@z.test"] false] None in
  let '(err, s, _) := demo_mail old (demo_session old) (lit "a@x.test") in
  let s := (@Rcpt demo_lib s (lit "b@y.test")).2 in
  let body := lit "From: c@z.test" ++ CRLF ++ CRLF ++ lit "hello" ++ CRLF in
  let '(err', _, w) := @Data kernel_ok toy_dkim unicode14 counting_store tagging_peer willing_upstream demo_lib
                         new s ([body], None) world0 in
  err = None /\ err' = None /\ List.In (UpMail (lit "a@x.test")) (sent w) /\ List.In UpAccepted (sent w) /\
  (demo_mail new s (lit "a@x.test")).1.1 <> None.
Proof.
  vm_compute. split_and!; try done; tauto.
Qed.

(** A spool that fails while the client's message is being written is not
    reported as the temporary failure it is: the raw error goes back, not an
    SMTP status, although a failure on the very first write does give 451. *)
Theorem spool_failure_during_copy_is_not_temporary :
  let full := {| sys t c := match c with
                            | SysWrite _ => if (t <? 5)%nat then SysOk else SysFail 0 (EText (lit "no space left"))
                            | _ => SysOk end;
                 clock _ := 0 |} in
  let srv := mkSnapshot (mkConfig (lit "mx") [] (mkTLSConfig [] []) (mkUpstream [] 0 [] false [] [] [] 0) [] [] []
               None (mkLimits 0 0 0 0 0 0 [] 8) []) []
               (accounts demo_srv) (certs demo_srv) (relay demo_srv) [] ∅ None (policies demo_srv) in
  (@Data full toy_dkim unicode14 counting_store tagging_peer willing_upstream demo_lib
     srv (demo_session srv) ([toy_body], None) world0).1.1 = Some (EText (lit "no space left")).
Proof. vm_compute. reflexivity. Qed.
