(* ===== verification/Refinement.v ===== *)
(** * Refinement: the server implements an authorization automaton

    What a relay promises its owner, without configuration snapshots, spools or
    filters: an automaton whose state is who is authenticated, the envelope
    being built, and a directory of who may send as whom. The session callbacks
    of [src/internal/gateway/server.go], driven in the order go-smtp makes them
    (one successful AUTH per connection; RCPT and DATA only after an accepted
    MAIL; a reset after DATA), are shown to implement it, reloads of the server
    at any moment included: a reload is visible, with the directory it installs,
    so that the automaton works with the directories the server loaded and no
    others. *)

From S2P Require Import Prelude Unicode GoStrings GoTime Policy Message Metrics World Spool Passwords.
From S2P Require Import Config Auth RateLimit TlsStore Milter Dkim Relay HeaderCheck Server Sessions.
Import Spool Server.
#[local] Open Scope Z_scope.

Module Automaton.

(** The senders each account in service may use; [None] for an account that is
    unknown or disabled. *)
Definition directory : Type := bytes -> option (list bytes).

Record astate := mkA {
  dir : directory;          (* in service *)
  opened_with : directory;  (* the session's own *)
  who : option bytes;
  env : option bytes;       (* the sender of the open transaction *)
  rcpts : list bytes
}.

(** What an observer sees: a message accepted from an account, and the directory
    a reload of the configuration put in service. *)
Inductive label :=
| Silent
| Installed (d : directory)
| Accepted (account sender : bytes) (recipients : list bytes).

Section Steps.
Context `{U : Unicode}.

(** The directory lets the account send as this address. *)
Definition may (d : directory) (u sender : bytes) : Prop :=
  exists senders, d u = Some senders /\ Policy.allows (Policy.newSenderPolicy senders) sender = true.

Inductive astep : astate -> label -> astate -> Prop :=
| a_idle a : astep a Silent a
| a_refresh a : astep a Silent (mkA (dir a) (dir a) (who a) (env a) (rcpts a))
| a_login a u :
    who a = None -> opened_with a u <> None ->
    astep a Silent (mkA (dir a) (opened_with a) (Some u) (env a) (rcpts a))
| a_mail a u sender :
    who a = Some u -> may (dir a) u sender ->
    astep a Silent (mkA (dir a) (dir a) (who a) (Some sender) [])
| a_rcpt a r sender :
    env a = Some sender -> astep a Silent (mkA (dir a) (opened_with a) (who a) (env a) (rcpts a ++ [r]))
| a_reset a : astep a Silent (mkA (dir a) (opened_with a) (who a) None [])
| a_refuse a : astep a Silent (mkA (dir a) (dir a) (who a) None [])
| a_submit a u sender :
    who a = Some u -> env a = Some sender -> rcpts a <> [] -> dir a u <> None ->
    astep a (Accepted u sender (rcpts a)) (mkA (dir a) (dir a) (who a) None [])
| a_reload a d : astep a (Installed d) (mkA d (opened_with a) (who a) (env a) (rcpts a)).

(** Runs, with what was observed and the directories that were in service: the
    directory at position [i] is the one in service when the step [i] was taken. *)
Inductive aruns (a0 : astate) : list label -> list directory -> astate -> Prop :=
| aruns_nil : aruns a0 [] [dir a0] a0
| aruns_step trace seen a l a' :
    aruns a0 trace seen a -> astep a l a' -> aruns a0 (trace ++ [l]) (seen ++ [dir a']) a'.
End Steps.
End Automaton.
Import Automaton.

(** ** What the automaton guarantees *)

Section Guarantee.
Context `{U : Unicode}.

Definition fresh_session (a : astate) : Prop := who a = None /\ env a = None.

(** The open transaction's sender was granted to the account by a directory
    that was in service, and the last of the directories is the current one. *)
Definition granted_envelope (trace : list label) (seen : list directory) (a : astate) : Prop :=
  length seen = S (length trace) /\ seen !! length trace = Some (dir a) /\
  forall sender, env a = Some sender -> exists u i d, who a = Some u /\ seen !! i = Some d /\ may d u sender.

(** A message accepted at step [i]. *)
Definition rightly_accepted (seen : list directory) (i : nat) (u sender : bytes) (tos : list bytes) : Prop :=
  tos <> [] /\ (exists j d, (j <= i)%nat /\ seen !! j = Some d /\ may d u sender) /\
  exists d, seen !! i = Some d /\ d u <> None.

Lemma rightly_accepted_app seen d i u sender tos :
  rightly_accepted seen i u sender tos -> rightly_accepted (seen ++ [d]) i u sender tos.
Proof.
  intros (? & (j & d1 & ? & ? & ?) & d2 & ? & ?). split_and!; [done| |].
  - exists j, d1. split_and!; [done|by apply lookup_app_l_Some|done].
  - exists d2. split; [by apply lookup_app_l_Some|done].
Qed.

Lemma granted_envelope_step trace seen a l a' :
  granted_envelope trace seen a -> astep a l a' -> granted_envelope (trace ++ [l]) (seen ++ [dir a']) a'.
Proof.
  intros (Hlen & Hlast & Henv) Hstep. split_and!.
  - rewrite !length_app. cbn. lia.
  - rewrite length_app, lookup_app_r by (cbn; lia). cbn.
    by replace (length trace + 1 - length seen)%nat with 0%nat by lia.
  - intros sender E.
    assert (Hold : env a = Some sender -> who a' = who a ->
      exists u i d, who a' = Some u /\ (seen ++ [dir a']) !! i = Some d /\ may d u sender).
    { intros Ea ->. destruct (Henv _ Ea) as (u & i & d & ? & ? & ?). exists u, i, d.
      split_and!; [done|by apply lookup_app_l_Some|done]. }
    destruct Hstep; cbn in *; try (by apply Hold); try done.
    + destruct (Henv _ E) as (u' & i & d & Hu' & _). congruence.
    + simplify_eq. exists u, (length trace), (dir a).
      split_and!; [done|by apply lookup_app_l_Some|done].
Qed.

Lemma aruns_envelope a0 trace seen a :
  fresh_session a0 -> aruns a0 trace seen a ->
  granted_envelope trace seen a /\
  forall i u sender tos, trace !! i = Some (Accepted u sender tos) -> rightly_accepted seen i u sender tos.
Proof.
  intros [Hw He]. induction 1 as [|trace seen a l a' Hr IH Hstep].
  { split; [split_and!; try done; congruence|done]. }
  destruct IH as [Hg Hacc]. split; [by eapply granted_envelope_step|].
  intros i u sender tos [Ht|[Hi Ht]]%lookup_app_Some; [by apply rightly_accepted_app, Hacc|].
  apply rightly_accepted_app. apply list_lookup_singleton_Some in Ht as [Hi' ->].
  assert (i = length trace) as -> by lia. destruct Hg as (Hlen & Hlast & Henv).
  inversion Hstep as [| | | | | | |a1 v from_ Hv Hfrom Hto Hd|]; simplify_eq. split_and!; [done| |eauto].
  destruct (Henv _ Hfrom) as (u' & j & d & Hu & Hj & Hm). assert (u' = u) as -> by congruence.
  exists j, d. split_and!; [|done|done]. apply lookup_lt_Some in Hj. lia.
Qed.
End Guarantee.

(** ** The driven server *)

Section Driven.
Context `{K : Kernel} `{B : Bcrypt} `{P : Pki} `{C : CertPool} `{D : DkimLib} `{U : Unicode} `{Q : QuotaStore}
  `{M : MilterPeer} `{R : UpstreamPeer} `{L : SmtpLib}.

(** A connection: the server, its session, and what go-smtp remembers of the
    dialogue (AUTH succeeded; MAIL accepted). *)
Record dstate := mkD {
  d_server : snapshot; d_session : session; d_world : World; didAuth : bool; fromReceived : bool
}.

Definition is_none {A} (o : option A) : bool := match o with None => true | Some _ => false end.

(** The observation a DATA gives. *)
Definition observed (s : session) (err : option goerror) : label :=
  match err, account s with
  | None, Some acct => Accepted (Username acct) (from s) (to s)
  | _, _ => Silent
  end.

(** The directory of a snapshot. *)
Definition dir_of (srv : snapshot) : directory := λ u,
  match Auth.byUsername (accounts srv) !! u with
  | Some a => if Disabled a then None else Some (AllowedSenders a)
  | None => None
  end.

Inductive dstep : dstate -> label -> dstate -> Prop :=
| d_auth srv s w f u p compared err s' w' :
    authenticate s u p w = (compared, err, s', w') ->
    dstep (mkD srv s w false f) Silent (mkD srv s' w' (is_none err) f)
| d_mail srv s w au f sender err s' w' :
    Mail srv s sender w = (err, s', w') ->
    dstep (mkD srv s w au f) Silent (mkD srv s' w' au (is_none err || f))
| d_rcpt srv s w au r err s' :
    Rcpt s r = (err, s') -> dstep (mkD srv s w au true) Silent (mkD srv s' w au true)
| d_data srv s w au r err s' w' :
    Data srv s r w = (err, s', w') ->
    dstep (mkD srv s w au true) (observed s err) (mkD srv (Reset s') w' au false)
| d_reset srv s w au f : dstep (mkD srv s w au f) Silent (mkD srv (Reset s) w au false)
| d_reload srv s w au f cfg err srv' w' :
    Reload (Some srv) cfg w = (err, Some srv', w') ->
    dstep (mkD srv s w au f) (Installed (dir_of srv')) (mkD srv' s w' au f).

(** Runs, with what was observed and the snapshots the server held: the
    snapshot at position [i] is the one in service when the step [i] was taken. *)
Inductive druns (d0 : dstate) : list label -> list snapshot -> dstate -> Prop :=
| druns_nil : druns d0 [] [d_server d0] d0
| druns_step trace served d l d' :
    druns d0 trace served d -> dstep d l d' -> druns d0 (trace ++ [l]) (served ++ [d_server d']) d'.

(** The automaton's state seen in the server's. *)
Record sim (d : dstate) (a : astate) : Prop := {
  sim_server : snapshot_ok (d_server d);
  sim_snap : snapshot_ok (snap (d_session d));
  sim_dir : dir a = dir_of (d_server d);
  sim_opened : opened_with a = dir_of (snap (d_session d));
  sim_who : who a = Username <$> account (d_session d);
  sim_auth : didAuth d = false -> account (d_session d) = None;
  sim_env : env a = if fromReceived d then Some (from (d_session d)) else None;
  sim_rcpts : fromReceived d = true -> rcpts a = to (d_session d)
}.

(** *** Each callback *)

Lemma authenticate_login s u p w compared err s' w' :
  authenticate s u p w = (compared, err, s', w') ->
  snap s' = snap s /\ from s' = from s /\ to s' = to s /\
  match err with
  | None => exists acct, Auth.byUsername (accounts (snap s)) !! u = Some acct /\ Disabled acct = false /\
              account s' = Some acct
  | Some _ => account s' = account s
  end.
Proof.
  unfold authenticate. destruct (maxAuthFailures <=? authFailures s); [by intros [= <- <- <- <-]|].
  unfold bind at 1, next at 1. destruct (acquireSlot (tick w)); cbn [negb]; [|by intros [= <- <- <- <-]].
  unfold Auth.authenticate. destruct (Auth.byUsername (accounts (snap s)) !! u) as [a|].
  - destruct (bcrypt_Compare (PasswordHash a) p); cbn [negb]; [destruct (Disabled a) eqn:Ed|]; run_io;
      intros [= <- <- <- <-]; split_and!; try done. by exists a.
  - run_io. by intros [= <- <- <- <-].
Qed.

(** The session after MAIL or DATA works for the same account, against its own
    snapshot or the one in service. *)
Definition kept (srv : snapshot) (s s' : session) : Prop :=
  (snap s' = snap s /\ account s' = account s) \/
  (snap s' = srv /\ Username <$> account s' = Username <$> account s).

Lemma Data_kept srv s r : snapshot_ok srv -> yields (λ o, kept srv s o.2) (Data srv s r).
Proof.
  intros Hok. unfold Data. destruct (account s) as [acct|] eqn:Ea; [|apply yields_ret; by left].
  destruct (length (to s) =? 0)%nat; [apply yields_ret; by left|].
  pose proof (Sessions.stillAuthorized_spec srv s acct) as Hsa.
  destruct (stillAuthorized srv s acct) as [[a s1]|[e s1]].
  - destruct Hsa as (Hl & _ & ->). apply (ok_accounts _ Hok) in Hl as [_ Hu].
    assert (Hk : kept srv s (mkSession (conn s) srv (Some a) (from s) (to s) (authFailures s) (closed s))).
    { right. cbn. rewrite Ea. cbn. by rewrite Hu. }
    yields_tac; exact Hk.
  - destruct Hsa as [_ ->]. apply yields_ret. by left.
Qed.

Lemma Mail_step srv s sender w err s' w' :
  snapshot_ok srv -> Mail srv s sender w = (err, s', w') ->
  match err with
  | Some _ => kept srv s s' /\ from s' = from s /\ to s' = to s
  | None => snap s' = srv /\ from s' = sender /\ to s' = [] /\
      exists u, Username <$> account s = Some u /\ Username <$> account s' = Some u /\ may (dir_of srv) u sender
  end.
Proof.
  intros Hok. unfold Mail. destruct (account s) as [acct|] eqn:Ea;
    [|intros [= <- <- <-]; split; [by left|done]].
  pose proof (Sessions.stillAuthorized_spec srv s acct) as Hsa.
  destruct (stillAuthorized srv s acct) as [[a s1]|[e s1]].
  2: { destruct Hsa as [_ ->]. intros [= <- <- <-]. split; [by left|done]. }
  destruct Hsa as (Hl & Hd & ->). cbn [snap account conn authFailures closed].
  pose proof (proj1 (ok_accounts _ Hok _ _) Hl) as [_ Hu].
  destruct (Policy.allows _ sender) eqn:Eal; cbn [negb].
  - intros [= <- <- <-]. cbn. split_and!; try done. exists (Username acct). rewrite Hu. split_and!; try done.
    unfold may, dir_of. rewrite Hl, Hd. exists (AllowedSenders a). split; [done|].
    unfold policyFor in Eal. by rewrite (ok_policies _ Hok), Hu, Hl in Eal.
  - run_io. intros [= <- <- <-]. cbn. split; [|done]. right. cbn. rewrite Ea. cbn. by rewrite Hu.
Qed.

Lemma Reload_ok srv cfg w err srv' w' :
  snapshot_ok srv -> Reload (Some srv) cfg w = (err, Some srv', w') -> snapshot_ok srv'.
Proof.
  intros Hok. unfold Reload, bind. pose proof (newSnapshot_spec cfg (Some srv) w) as Hs.
  destruct (newSnapshot cfg (Some srv) w) as [[snap|e] w1].
  - destruct Hs as (_ & _ & Hok' & _). unfold record, ret, RateLimit.close, closeClient.
    repeat case_match; intros; by simplify_eq/=.
  - unfold record, ret. by intros [= _ <- _].
Qed.

Lemma who_none (o : option Account) : Username <$> o = None -> o = None.
Proof. by destruct o. Qed.

(** The session's own directory is kept, or is the one in service. *)
Lemma kept_sim srv s s' a :
  kept srv s s' -> snapshot_ok srv -> snapshot_ok (snap s) -> dir a = dir_of srv ->
  opened_with a = dir_of (snap s) -> who a = Username <$> account s ->
  snapshot_ok (snap s') /\ who a = Username <$> account s' /\
  (opened_with a = dir_of (snap s') \/ dir a = dir_of (snap s')).
Proof.
  intros [[-> ->]|[-> Hu]] Hok Hok' Hd Ho Hw; split_and!; try done; [by left|by rewrite Hu|by right].
Qed.

Lemma dstep_sim d l d' a :
  dstep d l d' -> sim d a -> exists a', astep a l a' /\ sim d' a'.
Proof.
  intros Hstep [Hsrv Hsnap Hdir Hop Hwho Hauth Henv Hto]. destruct Hstep as
    [srv s w f u p compared err s' w' E|srv s w au f sender err s' w' E|srv s w au r err s' E
    |srv s w au r err s' w' E|srv s w au f|srv s w au f cfg err srv' w' E]; cbn in *.
  - apply authenticate_login in E as (Es & Ef & Et & Hcase). specialize (Hauth eq_refl).
    destruct err as [e|].
    { exists a. split; [constructor|]. split; cbn; rewrite ?Es, ?Ef, ?Et, ?Hcase; done. }
    destruct Hcase as (acct & Hl & Hd & Ha). pose proof (proj1 (ok_accounts _ Hsnap _ _) Hl) as [_ Hu].
    exists (mkA (dir a) (opened_with a) (Some u) (env a) (rcpts a)). split.
    + apply a_login; [by rewrite Hwho, Hauth|]. rewrite Hop. unfold dir_of. by rewrite Hl, Hd.
    + split; cbn; rewrite ?Es, ?Ef, ?Et, ?Ha; try done. cbn. by rewrite Hu.
  - apply Mail_step in E; [|done]. destruct err as [e|]; cbn.
    + destruct E as (Hk & Ef & Et).
      destruct (kept_sim _ _ _ _ Hk Hsrv Hsnap Hdir Hop Hwho) as (Hok' & Hw' & [Ho|Ho]).
      * exists a. split; [constructor|]. split; cbn; rewrite ?Ef, ?Et; try done.
        intros Ha%Hauth. rewrite Ha in Hwho. apply who_none. by rewrite <- Hw'.
      * exists (mkA (dir a) (dir a) (who a) (env a) (rcpts a)). split; [constructor|].
        split; cbn; rewrite ?Ef, ?Et; try done.
        intros Ha%Hauth. rewrite Ha in Hwho. apply who_none. by rewrite <- Hw'.
    + destruct E as (Es & Ef & Et & u & Hu & Hu' & Hmay).
      exists (mkA (dir a) (dir a) (who a) (Some sender) []). split.
      * apply (a_mail a u); [by rewrite Hwho|by rewrite Hdir].
      * split; cbn; rewrite ?Es, ?Ef, ?Et; try done; [congruence|].
        intros Ha%Hauth. by rewrite Ha in Hu.
  - unfold Rcpt in E. destruct (account s) as [acct|] eqn:Ea; injection E as <- <-.
    + exists (mkA (dir a) (opened_with a) (who a) (env a) (rcpts a ++ [r])). split; [by eapply a_rcpt|].
      split; cbn; rewrite ?Ea; try done. intros _. by rewrite Hto.
    + exists a. split; [constructor|]. split; cbn; rewrite ?Ea; try done.
  - pose proof (Data_kept srv s r Hsrv w) as Hk. rewrite E in Hk. cbn in Hk.
    destruct (kept_sim _ _ _ _ Hk Hsrv Hsnap Hdir Hop Hwho) as (Hok' & Hw' & Ho).
    assert (Hauth' : au = false -> account s' = None).
    { intros Ha%Hauth. rewrite Ha in Hwho. apply who_none. by rewrite <- Hw'. }
    destruct err as [e|].
    + unfold observed. destruct Ho as [Ho|Ho].
      * exists (mkA (dir a) (opened_with a) (who a) None []). split; [apply a_reset|]. by split.
      * exists (mkA (dir a) (dir a) (who a) None []). split; [apply a_refuse|]. by split.
    + apply Sessions.Data_spec in E as (acct & b & t & m0 & Ha & Hl & Hd & _ & Hne & _ & _ & _ & _ & Hs' & _).
      unfold observed. rewrite Ha, <- (Hto eq_refl) in *.
      exists (mkA (dir a) (dir a) (who a) None []). split.
      * apply a_submit; try done. rewrite Hdir. unfold dir_of. by rewrite Hl, Hd.
      * split; cbn; try done. by rewrite Hs'.
  - exists (mkA (dir a) (opened_with a) (who a) None []). split; [constructor|]. by split.
  - exists (mkA (dir_of srv') (opened_with a) (who a) (env a) (rcpts a)). split; [constructor|].
    split; try done. exact (Reload_ok _ _ _ _ _ _ Hsrv E).
Qed.
End Driven.

(** ** Properties *)

Section Properties.
Context `{K : Kernel} `{B : Bcrypt} `{P : Pki} `{C : CertPool} `{D : DkimLib} `{U : Unicode} `{Q : QuotaStore}
  `{M : MilterPeer} `{R : UpstreamPeer} `{L : SmtpLib}.

(** A connection that was just opened, and the automaton's start. *)
Definition connected (c : Conn) (srv : snapshot) (w : World) : dstate := mkD srv (newSession c srv) w false false.
Definition astart (srv : snapshot) : astate := mkA (dir_of srv) (dir_of srv) None None [].

Lemma connected_sim c srv w : snapshot_ok srv -> sim (connected c srv w) (astart srv).
Proof. intros Hok. by split. Qed.

Lemma druns_sim c srv w trace served d :
  snapshot_ok srv -> druns (connected c srv w) trace served d ->
  exists a, aruns (astart srv) trace (dir_of <$> served) a /\ sim d a.
Proof.
  intros Hok. induction 1 as [|trace served d l d' _ IH Hstep].
  { exists (astart srv). split; [apply aruns_nil|by apply connected_sim]. }
  destruct IH as (a & Hr & Hs). destruct (dstep_sim _ _ _ _ Hstep Hs) as (a' & Ha & Hs').
  exists a'. split; [|done]. rewrite fmap_app. cbn. rewrite <- (sim_dir _ _ Hs'). by eapply aruns_step.
Qed.

(** C7: the server implements the authorization automaton: whatever a client
    does on a connection and whatever reloads happen meanwhile, what is observed
    of the server is a run of the automaton, from the directory of the
    configuration in service when the connection was opened. The directories
    the automaton goes through are those of the snapshots the server held, step
    by step, and the two end in related states. *)
Theorem server_refines_authorization (c : Conn) (srv : snapshot) (w : World) (trace : list label)
    (served : list snapshot) (d : dstate) :
  snapshot_ok srv -> druns (connected c srv w) trace served d ->
  exists a, aruns (astart srv) trace (dir_of <$> served) a /\ sim d a.
Proof. apply druns_sim. Qed.

(** C3: mail is only accepted under an identity that was granted. In every
    interleaving of a client's commands with reloads of the server, a message
    answered with 250 has recipients, comes from an account that is known and
    enabled in the snapshot the server holds at that step, and has an envelope
    sender that a snapshot the server held, at that step or an earlier one of
    the connection, granted to that account. *)
Theorem accepted_mail_was_authorized (c : Conn) (srv : snapshot) (w : World) (trace : list label)
    (served : list snapshot) (d : dstate) (i : nat) (u sender : bytes) (tos : list bytes) :
  snapshot_ok srv -> druns (connected c srv w) trace served d -> trace !! i = Some (Accepted u sender tos) ->
  tos <> [] /\
  (exists srv1 j, (j <= i)%nat /\ served !! j = Some srv1 /\ may (dir_of srv1) u sender) /\
  (exists srv2, served !! i = Some srv2 /\ dir_of srv2 u <> None).
Proof.
  intros Hok Hr Hin. destruct (druns_sim _ _ _ _ _ _ Hok Hr) as (a & Ha & _).
  assert (Hf : fresh_session (astart srv)) by done.
  destruct (aruns_envelope _ _ _ _ Hf Ha) as [_ Hacc].
  destruct (Hacc _ _ _ _ Hin) as (? & (j & d1 & Hj & H1 & Hm) & d2 & H2 & Hd).
  apply list_lookup_fmap_Some in H1 as (srv1 & -> & ?). apply list_lookup_fmap_Some in H2 as (srv2 & -> & ?).
  split_and!; [done|by exists srv1, j|by exists srv2].
Qed.
End Properties.

(** ** Witnesses *)

#[local] Existing Instance kernel_ok.
#[local] Existing Instance toy_bcrypt.
#[local] Existing Instance toy_pki.
#[local] Existing Instance demo_pool.
#[local] Existing Instance toy_dkim.
#[local] Existing Instance unicode14.
#[local] Existing Instance counting_store.
#[local] Existing Instance tagging_peer.
#[local] Existing Instance willing_upstream.
#[local] Existing Instance demo_lib.

Lemma demo_srv_ok : snapshot_ok demo_srv.
Proof.
  pose proof (newSnapshot_spec (demo_config [demo_account "pw"] None) None world0) as Hs.
  pose proof demo_new_ok as E. unfold demo_new in E.
  destruct (newSnapshot _ None world0) as [r w']. cbn [fst] in E. rewrite E in Hs. apply Hs.
Qed.

(** One dialogue: AUTH, MAIL, RCPT, DATA. *)
Definition demo_s1 := authenticate (newSession demo_conn demo_srv) (lit "app") (lit "pw") world0.
Definition demo_s2 := Mail demo_srv demo_s1.1.2 (lit "a@x.test") demo_s1.2.
Definition demo_s3 := Rcpt demo_s2.1.2 (lit "b@y.test").
Definition demo_s4 := Data demo_srv demo_s3.2 ([toy_body], None) demo_s2.2.

Definition demo_trace : list label := [Silent; Silent; Silent; Accepted (lit "app") (lit "a@x.test") [lit "b@y.test"]].
Definition demo_end : dstate := mkD demo_srv (Reset demo_s4.1.2) demo_s4.2 true false.

Lemma triple_eq {A B C} (x : A * B * C) : x = (x.1.1, x.1.2, x.2).
Proof. by destruct x as [[a b] c]. Qed.

Lemma demo_druns : druns (connected demo_conn demo_srv world0) demo_trace [demo_srv; demo_srv; demo_srv; demo_srv; demo_srv] demo_end.
Proof.
  assert (E1 : demo_s1.1.1.2 = None) by by vm_compute.
  assert (E2 : demo_s2.1.1 = None) by by vm_compute.
  assert (E4 : demo_s4.1.1 = None) by by vm_compute.
  assert (H1 : dstep (connected demo_conn demo_srv world0) Silent (mkD demo_srv demo_s1.1.2 demo_s1.2 true false)).
  { change true with (is_none (@None goerror)). rewrite <- E1.
    apply (d_auth _ _ _ _ (lit "app") (lit "pw") demo_s1.1.1.1). fold demo_s1. by destruct demo_s1 as [[[? ?] ?] ?]. }
  assert (H2 : dstep (mkD demo_srv demo_s1.1.2 demo_s1.2 true false) Silent
                 (mkD demo_srv demo_s2.1.2 demo_s2.2 true true)).
  { pose proof (d_mail demo_srv demo_s1.1.2 demo_s1.2 true false (lit "a@x.test") _ _ _ (triple_eq demo_s2)) as H2.
    rewrite E2 in H2. exact H2. }
  assert (H3 : dstep (mkD demo_srv demo_s2.1.2 demo_s2.2 true true) Silent
                 (mkD demo_srv demo_s3.2 demo_s2.2 true true)).
  { apply (d_rcpt _ _ _ _ (lit "b@y.test") demo_s3.1). fold demo_s3. by destruct demo_s3. }
  assert (H4 : dstep (mkD demo_srv demo_s3.2 demo_s2.2 true true)
                 (Accepted (lit "app") (lit "a@x.test") [lit "b@y.test"]) demo_end).
  { replace (Accepted (lit "app") (lit "a@x.test") [lit "b@y.test"]) with (observed demo_s3.2 demo_s4.1.1)
      by (rewrite E4; by vm_compute).
    exact (d_data demo_srv demo_s3.2 demo_s2.2 true ([toy_body], None) _ _ _ (triple_eq demo_s4)). }
  pose proof (druns_step _ _ _ _ _ _ (druns_nil _) H1) as R1.
  pose proof (druns_step _ _ _ _ _ _ R1 H2) as R2. pose proof (druns_step _ _ _ _ _ _ R2 H3) as R3.
  exact (druns_step _ _ _ _ _ _ R3 H4).
Qed.

Lemma refines_witness : exists a,
  aruns (astart demo_srv) demo_trace (dir_of <$> [demo_srv; demo_srv; demo_srv; demo_srv; demo_srv]) a /\ sim demo_end a.
Proof.
  exact (server_refines_authorization demo_conn demo_srv world0 demo_trace _ demo_end demo_srv_ok demo_druns).
Defined.

Lemma authorized_witness : may (dir_of demo_srv) (lit "app") (lit "a@x.test").
Proof.
  destruct (accepted_mail_was_authorized demo_conn demo_srv world0 demo_trace _ demo_end 3 (lit "app") (lit "a@x.test")
    [lit "b@y.test"] demo_srv_ok demo_druns eq_refl) as (_ & (srv1 & j & _ & Hj & Hm) & _).
  assert (srv1 = demo_srv) as ->; [|exact Hm].
  do 5 (destruct j as [|j]; [by injection Hj as <-|]). discriminate Hj.
Defined.
