(* ===== verification/Contention.v ===== *)
(** * Contention: many connections and few verification slots

    A password costs a fifth of a second of CPU to verify, and AUTH comes before
    any authentication: [Server.verifying] of [src/internal/gateway/server.go]
    bounds how many verifications run at once. Here [session.authenticate] is cut
    at the points where other connections get to run: the check of the failure
    count, the wait for a slot, the verification and its outcome. An event says
    which connection moves. Of the semaphore, the documented behaviour is used:
    [Acquire] succeeds only while the weight held leaves room, and fails when its
    context ends, leaving the semaphore as it was. *)

From S2P Require Import Prelude Unicode GoStrings GoTime Policy Message Metrics World Spool.
From S2P Require Import Passwords Config Auth RateLimit TlsStore Milter Dkim Relay HeaderCheck Server Sessions.
Import Spool HeaderCheck Server.
#[local] Open Scope Z_scope.
#[local] Set Default Proof Using "Type*".

Module Contention.

Definition authVerifyTimeout : Z := 10 * second.

(** The size of the semaphore [NewServer] makes. *)
Definition slots (gomaxprocs : Z) : Z := Z.max 1 (gomaxprocs - 1).

(** Where a connection is in [authenticate]. *)
Inductive phase :=
| Idle
| Waiting (username password : bytes) (deadline : Z)
| Verifying (username password : bytes).

Record client := mkClient { cl_session : session; cl_phase : phase }.

Record floor := mkFloor {
  fl_size : Z;
  fl_held : Z;                   (* the weight held of the semaphore *)
  fl_clients : gmap nat client;
  fl_world : World
}.

Inductive event :=
| Connect (i : nat) (c : Conn) (current : snapshot)
| Attempt (i : nat) (username password : bytes) (now : Z)
| Grant (i : nat)
| Expire (i : nat) (now : Z)
| Verified (i : nat)
| Leave (i : nat).

Section Steps.
Context `{B : Bcrypt} `{L : SmtpLib}.

(** What follows [Acquire], once a slot is held. *)
Definition verify (s : session) (username password : bytes) : IO (list bytes * option goerror * session) :=
  let '(compared, r) := Auth.authenticate (accounts (snap s)) username password in
  match r with
  | Err _ =>
      record (Metrics.authFailed (Auth.label (accounts (snap s)) username)) ;;
      ret (compared, Some (ESmtp ErrAuthFailed),
           mkSession (conn s) (snap s) (account s) (from s) (to s) (authFailures s + 1) (closed s))
  | Ok acct =>
      ret (compared, None,
           mkSession (conn s) (snap s) (Some acct) (from s) (to s) (authFailures s) (closed s))
  end.

Definition setClient (i : nat) (cl : client) (f : floor) : floor :=
  mkFloor (fl_size f) (fl_held f) (<[i := cl]> (fl_clients f)) (fl_world f).

(** One move; [None] when it is not ready. The answer of [authenticate], when the
    move ends it, comes with the floor. *)
Definition authStep (f : floor) (ev : event) : option (option (option goerror) * floor) :=
  match ev with
  | Connect i c current =>
      match fl_clients f !! i with
      | Some _ => None
      | None => Some (None, setClient i (mkClient (newSession c current) Idle) f)
      end
  | Attempt i username password now =>
      match fl_clients f !! i with
      | Some (mkClient s Idle) =>
          if maxAuthFailures <=? authFailures s then
            Some (Some (Some (ESmtp errTooManyAuthFailures)), setClient i (mkClient (setClosed s) Idle) f)
          else Some (None, setClient i (mkClient s (Waiting username password (now + authVerifyTimeout))) f)
      | _ => None
      end
  | Grant i =>
      match fl_clients f !! i with
      | Some (mkClient s (Waiting username password _)) =>
          if fl_held f + 1 <=? fl_size f then
            Some (None, mkFloor (fl_size f) (fl_held f + 1)
                          (<[i := mkClient s (Verifying username password)]> (fl_clients f)) (fl_world f))
          else None
      | _ => None
      end
  | Expire i now =>
      match fl_clients f !! i with
      | Some (mkClient s (Waiting _ _ deadline)) =>
          if deadline <=? now then Some (Some (Some (ESmtp errAuthBusy)), setClient i (mkClient s Idle) f) else None
      | _ => None
      end
  | Verified i =>
      match fl_clients f !! i with
      | Some (mkClient s (Verifying username password)) =>
          let '((_, err, s'), w') := verify s username password (fl_world f) in
          Some (Some err, mkFloor (fl_size f) (fl_held f - 1) (<[i := mkClient s' Idle]> (fl_clients f)) w')
      | _ => None
      end
  | Leave i =>
      match fl_clients f !! i with
      | Some (mkClient _ Idle) => Some (None, mkFloor (fl_size f) (fl_held f) (delete i (fl_clients f)) (fl_world f))
      | _ => None
      end
  end.

Definition start (gomaxprocs : Z) (w : World) : floor := mkFloor (slots gomaxprocs) 0 ∅ w.

Inductive runs (f0 : floor) : list event -> floor -> Prop :=
| runs_nil : runs f0 [] f0
| runs_step trace f ev answer f' :
    runs f0 trace f -> authStep f ev = Some (answer, f') -> runs f0 (trace ++ [ev]) f'.
End Steps.

Definition is_verifying (cl : client) : bool :=
  match cl_phase cl with Verifying _ _ => true | _ => false end.

(** How many verifications are running. *)
Definition verifying (f : floor) : Z :=
  Z.of_nat (size (filter (λ kv, is_verifying kv.2 = true) (fl_clients f))).
End Contention.
Import Contention.

(** ** Counting *)

Definition weight (o : option client) : Z :=
  match o with Some cl => if is_verifying cl then 1 else 0 | None => 0 end.

Definition count (m : gmap nat client) : Z := Z.of_nat (size (filter (λ kv, is_verifying kv.2 = true) m)).

Lemma count_fresh m i cl : m !! i = None -> count (<[i := cl]> m) = count m + weight (Some cl).
Proof.
  intros Hi. unfold count, weight. destruct (is_verifying cl) eqn:E.
  - rewrite map_filter_insert_True by done. rewrite map_size_insert_None; [lia|]. by apply map_lookup_filter_None_2; left.
  - rewrite map_filter_insert_False by (cbn; congruence). rewrite delete_id by done. lia.
Qed.

Lemma count_delete m i : count m = count (delete i m) + weight (m !! i).
Proof.
  destruct (m !! i) as [cl|] eqn:E.
  - rewrite <- (insert_delete_id m i cl E) at 1. apply count_fresh, lookup_delete_eq.
  - rewrite delete_id by done. cbn. lia.
Qed.

Lemma count_insert m i cl : count (<[i := cl]> m) = count m - weight (m !! i) + weight (Some cl).
Proof. rewrite (count_delete m i), (count_delete (<[i := cl]> m) i), delete_insert_eq, lookup_insert_eq. lia. Qed.

Section Invariant.
Context `{B : Bcrypt} `{L : SmtpLib}.

(** The weight held is the number of verifications under way, within the size. *)
Definition floor_ok (f : floor) : Prop := fl_held f = verifying f /\ 0 <= fl_held f <= fl_size f.

Lemma step_ok f ev answer f' : floor_ok f -> authStep f ev = Some (answer, f') -> floor_ok f' /\ fl_size f' = fl_size f.
Proof.
  unfold floor_ok, verifying. fold (count (fl_clients f)). fold (count (fl_clients f')). intros [Hh Hs] E.
  assert (Hpos : forall m, 0 <= count m) by (intros m; unfold count; lia).
  assert (Hd : forall i, count (fl_clients f) = count (delete i (fl_clients f)) + weight (fl_clients f !! i))
    by (intros i; apply count_delete).
  destruct ev as [i c cur|i u p now|i|i now|i|i]; cbn [authStep] in E; specialize (Hd i);
    pose proof (Hpos (delete i (fl_clients f))); destruct (fl_clients f !! i) as [[s ph]|] eqn:Ei; try done.
  all: try (destruct ph as [|u' p' dl|u' p']; try done); cbn [weight is_verifying cl_phase] in Hd.
  all: repeat case_match; bools; simplify_eq; cbn [setClient fl_held fl_size fl_clients].
  all: rewrite ?count_insert, ?Ei; cbn [weight is_verifying cl_phase]; split; [lia|done].
Qed.

Lemma runs_ok procs w trace f :
  runs (start procs w) trace f -> floor_ok f /\ fl_size f = slots procs.
Proof.
  induction 1 as [|trace f ev answer f' _ [IH Hs] E].
  - split; [|done]. unfold floor_ok, verifying. cbn. unfold slots. rewrite map_filter_empty, map_size_empty. lia.
  - destruct (step_ok _ _ _ _ IH E) as [? ->]. done.
Qed.

(** [Server.authenticate], as one connection runs it, is its pieces: a refusal, a wait that ends without a slot, or a
    verification. *)
Lemma authenticate_pieces s u p w :
  authenticate s u p w =
    if maxAuthFailures <=? authFailures s then (([], Some (ESmtp errTooManyAuthFailures), setClosed s), w)
    else
      let '(t, w1) := next w in
      if acquireSlot t then verify s u p w1 else (([], Some (ESmtp errAuthBusy), s), w1).
Proof.
  unfold authenticate, verify, bind. destruct (maxAuthFailures <=? authFailures s); [done|].
  destruct (next w) as [t w1]. by destruct (acquireSlot t).
Qed.

(** The floor never blocks: while someone waits, a slot can be granted or a
    verification can end. *)
Lemma floor_moves f i u p dl s :
  floor_ok f -> 1 <= fl_size f -> fl_clients f !! i = Some (mkClient s (Waiting u p dl)) ->
  is_Some (authStep f (Grant i)) \/ exists j, is_Some (authStep f (Verified j)).
Proof.
  intros [Hh Hs] H1 Ei. destruct (fl_held f + 1 <=? fl_size f) eqn:E.
  - left. cbn [authStep]. by rewrite Ei, E.
  - right. bools. assert (Hne : filter (λ kv, is_verifying kv.2 = true) (fl_clients f) <> ∅).
    { intros He. unfold verifying in Hh. rewrite He, map_size_empty in Hh. lia. }
    apply map_choose in Hne as (j & [s' ph] & [Hj Hv]%map_lookup_filter_Some). exists j. cbn [authStep]. rewrite Hj.
    destruct ph; try done. by destruct (verify _ _ _ _) as [[[? ?] ?] ?].
Qed.

(** The connection an event moves. *)
Definition mover (ev : event) : nat :=
  match ev with
  | Connect i _ _ | Attempt i _ _ _ | Grant i | Expire i _ | Verified i | Leave i => i
  end.

(** The last thing the connection did was to attempt these credentials, at [now]. *)
Definition waiting_since (trace : list event) (i : nat) (u p : bytes) (now : Z) : Prop :=
  exists k, trace !! k = Some (Attempt i u p now) /\
    forall j ev, (k < j)%nat -> trace !! j = Some ev -> mover ev <> i.

Lemma step_waiting f ev answer f' i s u p dl :
  authStep f ev = Some (answer, f') -> fl_clients f' !! i = Some (mkClient s (Waiting u p dl)) ->
  (mover ev <> i /\ fl_clients f !! i = Some (mkClient s (Waiting u p dl))) \/
  (exists now, ev = Attempt i u p now /\ dl = now + authVerifyTimeout).
Proof.
  intros E Ei. destruct (decide (mover ev = i)) as [Hm|Hm].
  - right. destruct ev as [k c cur|k u' p' now|k|k now|k|k]; cbn [mover authStep] in *; subst k;
      repeat case_match; simplify_eq; cbn [setClient fl_clients] in Ei;
      rewrite ?lookup_insert_eq, ?lookup_delete_eq in Ei; simplify_eq. by exists now.
  - left. split; [done|]. destruct ev as [k c cur|k u' p' now|k|k now|k|k]; cbn [mover authStep] in *;
      repeat case_match; simplify_eq; cbn [setClient fl_clients] in Ei;
      by rewrite ?lookup_insert_ne, ?lookup_delete_ne in Ei by done.
Qed.

(** The deadline of a wait is ten seconds after its attempt. *)
Lemma runs_waiting procs w trace f i s u p dl :
  runs (start procs w) trace f -> fl_clients f !! i = Some (mkClient s (Waiting u p dl)) ->
  exists now, waiting_since trace i u p now /\ dl = now + authVerifyTimeout.
Proof.
  intros Hr. revert i s u p dl. induction Hr as [|trace f ev answer f' _ IH E]; intros i s u p dl Ei; [done|].
  destruct (step_waiting _ _ _ _ _ _ _ _ _ E Ei) as [[Hm Ei']|(now & -> & ->)].
  - destruct (IH _ _ _ _ _ Ei') as (now & (k & Hk & Hlater) & ->). exists now. split; [|done].
    exists k. split; [by apply lookup_app_l_Some|].
    intros j ev' Hj [Hin|[_ Hin]]%lookup_app_Some; [by eapply Hlater|].
    by apply list_lookup_singleton_Some in Hin as [_ ->].
  - exists now. split; [|done]. exists (length trace). split; [by apply list_lookup_middle|].
    intros j ev' Hj. rewrite lookup_ge_None_2; [done|]. rewrite length_app. cbn. lia.
Qed.

(** C21: A flood cannot take the machine. However many connections there are and
    however they interleave, at most as many passwords are verified at once as
    there are processors but one, and one where there is a single processor; a
    slot is never lost, so that when no verification is running all are free;
    while an attempt waits, a slot can be granted or a verification can end; and
    the wait of an attempt made at [now], the last thing its connection did, can
    end with the answer to come back later at any time from ten seconds after
    [now], and at none before. *)
Theorem verifications_are_bounded (procs : Z) (w : World) (trace : list event) (f : floor) :
  runs (start procs w) trace f ->
  0 <= verifying f <= Z.max 1 (procs - 1) /\
  fl_held f = verifying f /\
  (forall i s u p dl, fl_clients f !! i = Some (mkClient s (Waiting u p dl)) ->
     (is_Some (authStep f (Grant i)) \/ (exists j, is_Some (authStep f (Verified j)))) /\
     exists now, waiting_since trace i u p now /\
       (forall t, now + 10 * second <= t ->
          exists f', authStep f (Expire i t) = Some (Some (Some (ESmtp errAuthBusy)), f')) /\
       (forall t, t < now + 10 * second -> authStep f (Expire i t) = None)).
Proof.
  intros Hr. pose proof (runs_ok _ _ _ _ Hr) as [Hok Hs]. pose proof Hok as [Hh Hb].
  split; [unfold slots in Hs; lia|]. split; [done|]. intros i s u p dl Ei. split.
  - apply (floor_moves f i u p dl s); [done| |done]. rewrite Hs. unfold slots. lia.
  - destruct (runs_waiting _ _ _ _ _ _ _ _ _ Hr Ei) as (now & Hw & ->). exists now.
    split; [done|]. cbn [authStep]. rewrite Ei. unfold authVerifyTimeout. split; intros t Ht.
    + rewrite (proj2 (Z.leb_le _ _) Ht). by eexists.
    + by rewrite (proj2 (Z.leb_gt _ _) Ht).
Qed.
End Invariant.

(** ** Witness *)

Fixpoint play `{Bcrypt, SmtpLib} (f : floor) (evs : list event) : option floor :=
  match evs with
  | [] => Some f
  | ev :: evs => match authStep f ev with Some (_, f') => play f' evs | None => None end
  end.

Lemma crowd_runs `{Bcrypt, SmtpLib} f0 evs : forall trace f f',
  runs f0 trace f -> play f evs = Some f' -> runs f0 (trace ++ evs) f'.
Proof.
  induction evs as [|ev evs IH]; intros trace f f' Hr; cbn [play]; [intros [= <-]; by rewrite app_nil_r|].
  destruct (authStep f ev) as [[answer f1]|] eqn:E; [|done]. intros Hp.
  change (ev :: evs) with ([ev] ++ evs). rewrite app_assoc. eapply IH; [|exact Hp]. by eapply runs_step.
Defined.

#[local] Existing Instance toy_bcrypt.
#[local] Existing Instance demo_lib.

(** Two connections on a machine with two processors: one is verifying, the other
    waits. *)
Definition crowd : list event :=
  [Connect 0 demo_conn demo_srv; Connect 1 demo_conn demo_srv;
   Attempt 0 (lit "app") (lit "pw") 0; Attempt 1 (lit "app") (lit "guess") 5; Grant 0].

Definition crowded : floor := default (start 2 world0) (play (start 2 world0) crowd).

Lemma verifications_are_bounded_witness :
  verifying crowded = 1 /\ is_Some (fl_clients crowded !! 1%nat) /\ authStep crowded (Grant 1) = None /\
  0 <= verifying crowded <= Z.max 1 (2 - 1) /\
  exists f', authStep crowded (Expire 1 (10 * second + 5)) = Some (Some (Some (ESmtp errAuthBusy)), f').
Proof.
  assert (Hp : play (start 2 world0) crowd = Some crowded) by reflexivity.
  destruct (verifications_are_bounded 2 world0 crowd crowded
    (crowd_runs _ crowd [] _ crowded (runs_nil _) Hp)) as (Hb & _ & Hw).
  split; [vm_compute; reflexivity|]. split; [vm_compute; eexists; reflexivity|]. split; [vm_compute; reflexivity|].
  split; [exact Hb|].
  destruct (fl_clients crowded !! 1%nat) as [[s ph]|] eqn:E; [|exfalso; revert E; vm_compute; discriminate].
  destruct ph as [|u p dl|u p]; [exfalso; revert E; vm_compute; discriminate| |exfalso; revert E; vm_compute; discriminate].
  destruct (Hw 1%nat s u p dl E) as (_ & now & (k & Hk & _) & Hx & _). apply Hx.
  do 3 (destruct k as [|k]; [discriminate Hk|]). destruct k as [|k]; [injection Hk as _ _ <-; lia|].
  destruct k as [|k]; [discriminate Hk|]. destruct k; discriminate Hk.
Defined.
