(* ===== verification/Heap.v ===== *)
(** * Heap: Go values in memory

    The memory the generated deep copies of [src/api/v1alpha1],
    [src/internal/certmanager/v1] and [src/internal/monitoring/v1] work on:
    values that hold addresses, cells behind the addresses, and the statements
    those functions are made of. A deep copy is right when the copy reads like
    the original and shares no cell with it; [deep_copier] states that, with one
    lemma per statement. *)

From S2P Require Import Prelude.
#[local] Open Scope nat_scope.
#[local] Set Warnings "-register-all".

Abbreviation loc := positive.

(** ** Values and cells *)

Inductive base := BString (s : bytes) | BInt (z : Z) | BBool (b : bool).

(** A slice is an array's address, an offset and a length; nil is [None]. A
    string is immutable in Go and has no address here. *)
Inductive val :=
| VBase (b : base)
| VStruct (fields : list (string * val))
| VPtr (p : option loc)
| VSlice (s : option (loc * nat * nat))
| VMap (m : option loc).

Inductive cell :=
| CVar (v : val)
| CArray (vs : list val)
| CMap (m : gmap bytes val).

Abbreviation heap := (gmap loc cell).

(** ** Types, and what a value of a type reads as *)

(** Types as the sources declare them. No type of the repository is recursive. *)
Inductive ty :=
| TString | TInt | TBool
| TStruct (fields : list (string * ty))
| TPtr (t : ty)
| TSlice (t : ty)
| TMap (t : ty).

(** The contents of a value once every address is followed; nil and empty are
    told apart, as they are in Go. *)
Inductive tree :=
| LBase (b : base)
| LStruct (fields : list (string * tree))
| LPtr (p : option tree)
| LSlice (s : option (list tree))
| LMap (m : option (list (bytes * tree))).

#[export] Instance base_eq_dec : EqDecision base.
Proof. solve_decision. Defined.

Definition window (off len : nat) (vs : list val) : option (list val) :=
  if off + len <=? length vs then Some (take len (drop off vs)) else None.

(** [None] when the value is not of the type, or an address leads nowhere. *)
Fixpoint read (h : heap) (t : ty) (v : val) {struct t} : option tree :=
  match t, v with
  | TString, VBase (BString s) => Some (LBase (BString s))
  | TInt, VBase (BInt z) => Some (LBase (BInt z))
  | TBool, VBase (BBool b) => Some (LBase (BBool b))
  | TStruct ts, VStruct vs =>
      LStruct <$> (fix fields (ts : list (string * ty)) (vs : list (string * val)) : option (list (string * tree)) :=
        match ts, vs with
        | [], [] => Some []
        | (n, t) :: ts, (m, v) :: vs =>
            if n =b m then x ← read h t v; r ← fields ts vs; Some ((n, x) :: r) else None
        | _, _ => None
        end) ts vs
  | TPtr t, VPtr None => Some (LPtr None)
  | TPtr t, VPtr (Some l) =>
      match h !! l with
      | Some (CVar v) => x ← read h t v; Some (LPtr (Some x))
      | _ => None
      end
  | TSlice t, VSlice None => Some (LSlice None)
  | TSlice t, VSlice (Some (l, off, len)) =>
      match h !! l with
      | Some (CArray vs) => vs ← window off len vs; xs ← mapM (read h t) vs; Some (LSlice (Some xs))
      | _ => None
      end
  | TMap t, VMap None => Some (LMap None)
  | TMap t, VMap (Some l) =>
      match h !! l with
      | Some (CMap m) => xs ← mapM (λ kv, pair kv.1 <$> read h t kv.2) (map_to_list m); Some (LMap (Some xs))
      | _ => None
      end
  | _, _ => None
  end.

Fixpoint readFields (h : heap) (ts : list (string * ty)) (vs : list (string * val)) : option (list (string * tree)) :=
  match ts, vs with
  | [], [] => Some []
  | (n, t) :: ts, (m, v) :: vs =>
      if n =b m then x ← read h t v; r ← readFields h ts vs; Some ((n, x) :: r) else None
  | _, _ => None
  end.

(** The addresses a value leads to. *)
Fixpoint reach (h : heap) (t : ty) (v : val) {struct t} : list loc :=
  match t, v with
  | TStruct ts, VStruct vs =>
      (fix fields (ts : list (string * ty)) (vs : list (string * val)) : list loc :=
        match ts, vs with
        | (n, t) :: ts, (m, v) :: vs => reach h t v ++ fields ts vs
        | _, _ => []
        end) ts vs
  | TPtr t, VPtr (Some l) => l :: match h !! l with Some (CVar v) => reach h t v | _ => [] end
  | TSlice t, VSlice (Some (l, off, len)) =>
      l :: match h !! l with
           | Some (CArray vs) => concat (reach h t <$> default [] (window off len vs))
           | _ => []
           end
  | TMap t, VMap (Some l) =>
      l :: match h !! l with
           | Some (CMap m) => concat ((λ kv, reach h t kv.2) <$> map_to_list m)
           | _ => []
           end
  | _, _ => []
  end.

Fixpoint reachFields (h : heap) (ts : list (string * ty)) (vs : list (string * val)) : list loc :=
  match ts, vs with
  | (n, t) :: ts, (m, v) :: vs => reach h t v ++ reachFields h ts vs
  | _, _ => []
  end.

(** A type without addresses: assigning one copies it. *)
Fixpoint plain (t : ty) : bool :=
  match t with
  | TString | TInt | TBool => true
  | TStruct ts => forallb (λ f, plain f.2) ts
  | TPtr _ | TSlice _ | TMap _ => false
  end.

(** The zero value, which [new] and [make] leave. *)
Fixpoint zero (t : ty) : val :=
  match t with
  | TString => VBase (BString [])
  | TInt => VBase (BInt 0)
  | TBool => VBase (BBool false)
  | TStruct ts => VStruct ((λ f, (f.1, zero f.2)) <$> ts)
  | TPtr _ => VPtr None
  | TSlice _ => VSlice None
  | TMap _ => VMap None
  end.

(** ** Statements *)

(** A computation over the memory; [None] is a panic. *)
Definition M (A : Type) : Type := heap -> option (A * heap).
Definition ret {A} (a : A) : M A := λ h, Some (a, h).
Definition bind {A B} (c : M A) (k : A -> M B) : M B := λ h, '(a, h') ← c h; k a h'.
Notation "'let*' x := c 'in' k" := (bind c (λ x, k))
  (at level 10, x name, c at level 200, k at level 200) : go_scope.
Definition panic {A} : M A := λ _, None.

Definition alloc (c : cell) : M loc := λ h, let l := fresh (dom h) in Some (l, <[l := c]> h).
Definition load (l : loc) : M cell := λ h, c ← h !! l; Some (c, h).
Definition store (l : loc) (c : cell) : M unit := λ h, _ ← h !! l; Some (tt, <[l := c]> h).

(** [out.F = in.F]. *)
Definition assign (v : val) : M val := ret v.

(** [if in.F != nil { out.F = new(T) ... }]: [new_into] fills the new cell with
    what [into] makes of the old one, [new_assign] assigns the old one to it. *)
Definition new_into (t : ty) (into : val -> M val) (v : val) : M val :=
  match v with
  | VPtr None => ret v
  | VPtr (Some l) =>
      let* out := alloc (CVar (zero t)) in
      let* c := load l in
      match c with
      | CVar x => let* y := into x in let* _ := store out (CVar y) in ret (VPtr (Some out))
      | _ => panic
      end
  | _ => panic
  end.

Definition new_assign (t : ty) : val -> M val := new_into t assign.

(** [for i := range in { in[i].DeepCopyInto(&out[i]) }]. The loop writes new memory
    only, so the elements are those read at its start. *)
Fixpoint each (into : val -> M val) (out : loc) (i : nat) (vs : list val) : M unit :=
  match vs with
  | [] => ret tt
  | v :: vs =>
      let* y := into v in
      let* c := load out in
      match c with
      | CArray ys => let* _ := store out (CArray (<[i := y]> ys)) in each into out (S i) vs
      | _ => panic
      end
  end.

(** [if in.F != nil { out.F = make([]T, len(in.F)); for ... }]. *)
Definition make_into (t : ty) (into : val -> M val) (v : val) : M val :=
  match v with
  | VSlice None => ret v
  | VSlice (Some (l, off, len)) =>
      let* out := alloc (CArray (replicate len (zero t))) in
      let* c := load l in
      match c with
      | CArray vs =>
          match window off len vs with
          | Some vs => let* _ := each into out 0 vs in ret (VSlice (Some (out, 0, len)))
          | None => panic
          end
      | _ => panic
      end
  | _ => panic
  end.

(** [copy(out, in)] instead of the loop: the elements are assigned. *)
Definition make_copy (t : ty) : val -> M val := make_into t assign.

(** [for key, val := range in { out[key] = val }]. Go leaves the order open; the
    keys are distinct, so that it does not matter. *)
Fixpoint put_all (out : loc) (kvs : list (bytes * val)) : M unit :=
  match kvs with
  | [] => ret tt
  | (k, v) :: kvs =>
      let* c := load out in
      match c with
      | CMap m => let* _ := store out (CMap (<[k := v]> m)) in put_all out kvs
      | _ => panic
      end
  end.

(** [if in.F != nil { out.F = make(map[string]T, len(in.F)); for ... }]. *)
Definition make_range (v : val) : M val :=
  match v with
  | VMap None => ret v
  | VMap (Some l) =>
      let* out := alloc (CMap ∅) in
      let* c := load l in
      match c with
      | CMap m => let* _ := put_all out (map_to_list m) in ret (VMap (Some out))
      | _ => panic
      end
  | _ => panic
  end.

Fixpoint getField (n : string) (fs : list (string * val)) : option val :=
  match fs with
  | [] => None
  | (m, v) :: fs => if n =b m then Some v else getField n fs
  end.

Fixpoint setField (n : string) (x : val) (fs : list (string * val)) : list (string * val) :=
  match fs with
  | [] => []
  | (m, v) :: fs => if n =b m then (m, x) :: fs else (m, v) :: setField n x fs
  end.

(** What is done to a field, [in.F.DeepCopyInto(&out.F)] or a statement above. *)
Abbreviation statement := (string * (val -> M val))%type.

Fixpoint run (ss : list statement) (inp out : list (string * val)) : M (list (string * val)) :=
  match ss with
  | [] => ret out
  | (n, f) :: ss =>
      match getField n inp with
      | Some x => let* y := f x in run ss inp (setField n y out)
      | None => panic
      end
  end.

(** A [DeepCopyInto]: [*out = *in], then its statements. *)
Definition copyInto (ss : list statement) (v : val) : M val :=
  match v with
  | VStruct fs => let* out := run ss fs fs in ret (VStruct out)
  | _ => panic
  end.

(** A [DeepCopy]: nil for nil, else a new value to copy into. *)
Definition deepCopy (t : ty) (into : val -> M val) (inp : option loc) : M (option loc) :=
  match inp with
  | None => ret None
  | Some _ =>
      let* v := new_into t into (VPtr inp) in
      match v with VPtr out => ret out | _ => panic end
  end.

(** ** What a value depends on *)

Section TyInd.
Variable P : ty -> Prop.
Hypothesis (HS : P TString) (HI : P TInt) (HB : P TBool)
  (HT : forall ts, Forall (λ f, P f.2) ts -> P (TStruct ts))
  (HP : forall t, P t -> P (TPtr t)) (HL : forall t, P t -> P (TSlice t)) (HM : forall t, P t -> P (TMap t)).

Fixpoint ty_ind' (t : ty) : P t :=
  match t with
  | TString => HS
  | TInt => HI
  | TBool => HB
  | TStruct ts =>
      HT ts ((fix go (ts : list (string * ty)) : Forall (λ f, P f.2) ts :=
        match ts with
        | [] => Forall_nil_2 _
        | f :: ts => Forall_cons_2 _ f ts (ty_ind' f.2) (go ts)
        end) ts)
  | TPtr t => HP t (ty_ind' t)
  | TSlice t => HL t (ty_ind' t)
  | TMap t => HM t (ty_ind' t)
  end.
End TyInd.

Lemma read_struct h ts vs : read h (TStruct ts) (VStruct vs) = LStruct <$> readFields h ts vs.
Proof.
  cbn [read]. f_equal. revert vs. induction ts as [|[n t] ts IH]; intros [|[m v] vs]; try done.
  cbn [readFields]. by rewrite <- IH.
Qed.

Lemma reach_struct h ts vs : reach h (TStruct ts) (VStruct vs) = reachFields h ts vs.
Proof.
  cbn [reach]. revert vs. induction ts as [|[n t] ts IH]; intros [|[m v] vs]; try done.
  cbn [reachFields]. by rewrite <- IH.
Qed.

(** [h'] has what [h] has at the addresses [ls]. *)
Definition agrees (h h' : heap) (ls : list loc) : Prop := forall l, l ∈ ls -> h' !! l = h !! l.

Lemma agrees_app h h' l1 l2 : agrees h h' (l1 ++ l2) <-> agrees h h' l1 /\ agrees h h' l2.
Proof. unfold agrees. set_solver. Qed.

Lemma agrees_cons h h' l ls : agrees h h' (l :: ls) -> h' !! l = h !! l /\ agrees h h' ls.
Proof. unfold agrees. set_solver. Qed.

Lemma agrees_concat {A} h h' (f : A -> list loc) xs x :
  agrees h h' (concat (f <$> xs)) -> x ∈ xs -> agrees h h' (f x).
Proof.
  unfold agrees. intros H Hx l Hl. apply H. apply list_elem_of_In, in_concat.
  exists (f x). rewrite <- !list_elem_of_In. split; [|done]. by apply list_elem_of_fmap_2.
Qed.

Lemma concat_ext {A B} (f g : A -> list B) xs :
  (forall x, x ∈ xs -> f x = g x) -> concat (f <$> xs) = concat (g <$> xs).
Proof. intros H. f_equal. apply list_fmap_ext. intros i x Hx. by eapply H, list_elem_of_lookup_2. Qed.

Lemma mapM_ext_in {A B} (f g : A -> option B) xs :
  (forall x, x ∈ xs -> f x = g x) -> mapM f xs = mapM g xs.
Proof.
  induction xs as [|x xs IH]; intros H; [done|]. cbn. rewrite (H x) by set_solver.
  destruct (g x); [|done]. cbn. rewrite IH; [done|set_solver].
Qed.

(** A value is what the memory it leads to makes it. *)
Lemma read_agrees t : forall h h' v, agrees h h' (reach h t v) -> read h' t v = read h t v /\ reach h' t v = reach h t v.
Proof.
  induction t as [| | |ts IH|t IH|t IH|t IH] using ty_ind'; intros h h' v Ha; try done.
  - destruct v as [|vs| | |]; try done. rewrite !read_struct, !reach_struct in *.
    enough (readFields h' ts vs = readFields h ts vs /\ reachFields h' ts vs = reachFields h ts vs) as [-> ->] by done.
    revert vs Ha. induction IH as [|[n t] ts Ht Hts IHts]; intros [|[m v] vs]; try done.
    cbn [readFields reachFields]. cbn [snd] in Ht. intros [[-> ->]%Ht [-> ->]%IHts]%agrees_app. done.
  - destruct v as [| |[l|]| |]; try done. cbn [read reach] in *. apply agrees_cons in Ha as [-> Ha].
    destruct (h !! l) as [[v| |]|]; try done. by apply IH in Ha as [-> ->].
  - destruct v as [| | |[[[l off] len]|]|]; try done. cbn [read reach] in *. apply agrees_cons in Ha as [-> Ha].
    destruct (h !! l) as [[|vs|]|]; try done. destruct (window off len vs) as [ws|]; [|done]. cbn in *.
    assert (Hx : forall x, x ∈ ws -> read h' t x = read h t x /\ reach h' t x = reach h t x)
      by (intros x Hin; by eapply IH, agrees_concat).
    split; [|f_equal; apply concat_ext; intros; by apply Hx].
    rewrite (mapM_ext_in _ (read h t)); [done|]. intros; by apply Hx.
  - destruct v as [| | | |[l|]]; try done. cbn [read reach] in *. apply agrees_cons in Ha as [-> Ha].
    destruct (h !! l) as [[| |m]|]; try done.
    assert (Hx : forall kv, kv ∈ map_to_list m -> read h' t kv.2 = read h t kv.2 /\ reach h' t kv.2 = reach h t kv.2)
      by (intros x Hin; eapply IH; by eapply (agrees_concat _ _ (λ kv, reach h t kv.2))).
    split; [|f_equal; apply concat_ext; intros; by apply Hx].
    rewrite (mapM_ext_in _ (λ kv, pair kv.1 <$> read h t kv.2)); [done|]. intros x Hin. by destruct (Hx x Hin) as [-> _].
Qed.

Lemma mapM_in {A B} (f : A -> option B) xs ys x : mapM f xs = Some ys -> x ∈ xs -> exists y, f x = Some y.
Proof.
  intros H%mapM_Some Hx. induction H as [|a b xs ys Hab _ IH]; [by apply not_elem_of_nil in Hx|].
  apply elem_of_cons in Hx as [->|Hx]; eauto.
Qed.

Lemma concat_in {A} (f : A -> list loc) xs l : l ∈ concat (f <$> xs) -> exists x, x ∈ xs /\ l ∈ f x.
Proof.
  intros (ys & Hys & Hl)%list_elem_of_In%in_concat.
  rewrite <- list_elem_of_In in Hys. rewrite <- list_elem_of_In in Hl.
  apply list_elem_of_fmap in Hys as (x & -> & Hx). eauto.
Qed.

(** A value that can be read leads nowhere but into the memory. *)
Lemma reach_dom t : forall h v x, read h t v = Some x -> forall l, l ∈ reach h t v -> is_Some (h !! l).
Proof.
  induction t as [| | |ts IH|t IH|t IH|t IH] using ty_ind'; intros h v x Hr l Hl;
    try (destruct v; by apply not_elem_of_nil in Hl).
  - destruct v as [|vs| | |]; try done. rewrite read_struct, reach_struct in *.
    destruct (readFields h ts vs) as [xs|] eqn:E; [|done]. clear x Hr. revert vs xs E Hl.
    induction IH as [|[n t] ts Ht Hts IHts]; intros [|[m v] vs] xs E Hl; try by apply not_elem_of_nil in Hl.
    cbn in E, Hl. case_match; [|done]. destruct (read h t v) as [y|] eqn:Ey; [|done]. cbn in E.
    destruct (readFields h ts vs) as [ys|] eqn:Eys; [|done].
    apply elem_of_app in Hl as [Hl|Hl]; [by eapply Ht|by eapply IHts].
  - destruct v as [| |[p|]| |]; try done; [|by apply not_elem_of_nil in Hl]. cbn [read reach] in *.
    destruct (h !! p) as [[v| |]|] eqn:Ep; try done. destruct (read h t v) as [y|] eqn:Ey; [|done].
    apply elem_of_cons in Hl as [->|Hl]; [by rewrite Ep|by eapply IH].
  - destruct v as [| | |[[[p off] len]|]|]; try done; [|by apply not_elem_of_nil in Hl]. cbn [read reach] in *.
    destruct (h !! p) as [[|vs|]|] eqn:Ep; try done. destruct (window off len vs) as [ws|]; [|done]. cbn in *.
    destruct (mapM (read h t) ws) as [ys|] eqn:Ey; [|done].
    apply elem_of_cons in Hl as [->|Hl]; [by rewrite Ep|].
    apply concat_in in Hl as (w & Hw & Hl). destruct (mapM_in _ _ _ _ Ey Hw). by eapply IH.
  - destruct v as [| | | |[p|]]; try done; [|by apply not_elem_of_nil in Hl]. cbn [read reach] in *.
    destruct (h !! p) as [[| |m]|] eqn:Ep; try done.
    destruct (mapM _ (map_to_list m)) as [ys|] eqn:Ey; [|done].
    apply elem_of_cons in Hl as [->|Hl]; [by rewrite Ep|].
    apply (concat_in (λ kv, reach h t kv.2)) in Hl as (w & Hw & Hl).
    destruct (mapM_in _ _ _ _ Ey Hw) as [y Hy]. destruct (read h t w.2) eqn:Ew; [|done]. by eapply IH.
Qed.

Lemma reach_plain t : forall h v, plain t = true -> reach h t v = [].
Proof.
  induction t as [| | |ts IH|t IH|t IH|t IH] using ty_ind'; intros h v Hp; try done; try by destruct v.
  destruct v as [|vs| | |]; try done. rewrite reach_struct. revert vs Hp.
  induction IH as [|[n t] ts Ht Hts IHts]; intros [|[m v] vs]; try done.
  cbn in Ht |- *. intros [Hp Hps]%andb_prop. rewrite Ht, IHts by done. done.
Qed.

(** ** Copies *)

(** In [h], which extends [h0], [v] reads as [x] and leads to new memory only. *)
Definition copied (h0 h : heap) (t : ty) (v : val) (x : tree) : Prop :=
  h0 ⊆ h /\ read h t v = Some x /\ forall l, l ∈ reach h t v -> h0 !! l = None.

(** What is promised of a copying function: whatever can be read is copied. It
    never panics, it changes nothing that was there, and the copy reads like the
    original without sharing any memory with it. *)
Definition deep_copier (t : ty) (f : val -> M val) : Prop :=
  forall h v x, read h t v = Some x -> exists v' h', f v h = Some (v', h') /\ copied h h' t v' x.

Create HintDb deepcopy discriminated.

Lemma agrees_subseteq h h' t v x : h ⊆ h' -> read h t v = Some x -> agrees h h' (reach h t v).
Proof. intros Hh Hr l Hl. destruct (reach_dom _ _ _ _ Hr l Hl) as [c Hc]. rewrite Hc. by eapply lookup_weaken. Qed.

Lemma read_mono h h' t v x : h ⊆ h' -> read h t v = Some x -> read h' t v = Some x.
Proof. intros Hh Hr. rewrite <- Hr. by apply read_agrees, (agrees_subseteq _ _ _ _ x). Qed.

Lemma copied_agrees h0 h h' t v x : copied h0 h t v x -> h0 ⊆ h' -> agrees h h' (reach h t v) -> copied h0 h' t v x.
Proof. intros (_ & Hr & Hn) Hh Ha. apply read_agrees in Ha as [Ha1 Ha2]. unfold copied. by rewrite Ha1, Ha2. Qed.

Lemma copied_mono h0 h h' t v x : copied h0 h t v x -> h ⊆ h' -> copied h0 h' t v x.
Proof.
  intros Hc Hh. apply (copied_agrees h0 h); [done|by etrans; [apply Hc|]|].
  apply (agrees_subseteq _ _ _ _ x); [done|apply Hc].
Qed.

Lemma copied_since h0 h1 h t v x : h0 ⊆ h1 -> copied h1 h t v x -> copied h0 h t v x.
Proof. intros Hh (? & ? & Hn). split_and!; [by etrans|done|]. intros l Hl. eapply lookup_weaken_None; [by apply Hn|done]. Qed.

(** Storing at a new address the copy does not lead to. *)
Lemma copied_store h0 h t v x l c :
  copied h0 h t v x -> h0 !! l = None -> l ∉ reach h t v -> copied h0 (<[l := c]> h) t v x.
Proof.
  intros Hc Hl Hn. apply (copied_agrees h0 h); [done|apply insert_subseteq_r; [done|apply Hc]|].
  intros l' Hl'. apply lookup_insert_ne. set_solver.
Qed.

Lemma copied_avoids h0 h t v x l c : copied h0 h t v x -> h0 !! l = Some c -> l ∉ reach h t v.
Proof. intros (_ & _ & Hn) Hl Hin. by rewrite Hn in Hl. Qed.

Lemma fresh_loc (h : heap) : h !! fresh (dom h) = None.
Proof. apply not_elem_of_dom, is_fresh. Qed.

Lemma load_eq l c h : h !! l = Some c -> load l h = Some (c, h).
Proof. unfold load. by intros ->. Qed.

Lemma store_eq l c c' h : h !! l = Some c -> store l c' h = Some (tt, <[l := c']> h).
Proof. unfold store. by intros ->. Qed.

Lemma bind_eq {A B} (c : M A) (k : A -> M B) h a h' : c h = Some (a, h') -> bind c k h = k a h'.
Proof. unfold bind. by intros ->. Qed.

(** A value that leads nowhere is its own copy. *)
Lemma copied_itself h t v x : read h t v = Some x -> reach h t v = [] -> copied h h t v x.
Proof. intros Hr Hn. split; [done|]. split; [done|]. rewrite Hn. intros l Hl. by apply not_elem_of_nil in Hl. Qed.

Lemma assign_ok t : plain t = true -> deep_copier t assign.
Proof. intros Hp h v x Hr. exists v, h. split; [done|]. apply copied_itself; [done|by apply reach_plain]. Qed.

(** The cell a statement allocates: new, and everything reads as before. *)
Lemma alloc_ok c h :
  let out := fresh (dom h) in let h1 := <[out := c]> h in
  alloc c h = Some (out, h1) /\ h !! out = None /\ h1 !! out = Some c /\ h ⊆ h1.
Proof.
  cbv zeta. pose proof (fresh_loc h). split; [done|]. split; [done|].
  split; [apply lookup_insert_eq|by apply insert_subseteq].
Qed.

Lemma new_into_ok t f : deep_copier t f -> deep_copier (TPtr t) (new_into t f).
Proof.
  intros Hf h v x Hr. destruct v as [| |[l|]| |]; try done; cbn [read] in Hr.
  2:{ simplify_eq. exists (VPtr None), h. split; [done|]. by apply copied_itself. }
  destruct (h !! l) as [[v| |]|] eqn:El; try done. destruct (read h t v) as [y|] eqn:Ey; [|done]. cbn in Hr; simplify_eq.
  destruct (alloc_ok (CVar (zero t)) h) as (Ea & Hn & Ho & Hh). set (out := fresh (dom h)) in *. set (h1 := <[out := _]> h) in *.
  destruct (Hf h1 v y) as (v' & h2 & E2 & Hc); [by eapply read_mono|].
  assert (Ho2 : h2 !! out = Some (CVar (zero t))) by (eapply lookup_weaken; [done|apply Hc]).
  exists (VPtr (Some out)), (<[out := CVar v']> h2). cbn [new_into].
  rewrite (bind_eq _ _ _ _ _ Ea), (bind_eq _ _ _ _ _ (load_eq l _ _ (lookup_weaken _ _ _ _ El Hh))),
    (bind_eq _ _ _ _ _ E2), (bind_eq _ _ _ _ _ (store_eq _ _ _ _ Ho2)). split; [done|].
  destruct (copied_store h h2 t v' y out (CVar v')) as (Hs & Hr & Hnew);
    [by eapply copied_since|done|by eapply copied_avoids|].
  unfold copied. cbn [read reach]. rewrite lookup_insert_eq, Hr. split_and!; [done..|].
  intros l'. rewrite elem_of_cons. intros [->|Hl']; [done|by apply Hnew].
Qed.

Lemma new_assign_ok t : plain t = true -> deep_copier (TPtr t) (new_assign t).
Proof. intros Hp. by apply new_into_ok, assign_ok. Qed.

(** The loop over a slice: [done] was copied to the front of the new array. *)
Lemma each_ok t f h0 out : deep_copier t f -> h0 !! out = None ->
  forall vs xs done dxs rest h,
    Forall2 (λ v x, read h0 t v = Some x) vs xs ->
    h0 ⊆ h -> h !! out = Some (CArray (done ++ rest)) -> length rest = length vs ->
    Forall2 (λ y x, copied h0 h t y x /\ out ∉ reach h t y) done dxs ->
    exists h' ys, each f out (length done) vs h = Some (tt, h') /\ h0 ⊆ h' /\ h' !! out = Some (CArray ys) /\
      Forall2 (λ y x, copied h0 h' t y x /\ out ∉ reach h' t y) ys (dxs ++ xs).
Proof.
  intros Hf Hn. induction vs as [|v vs IH]; intros xs done dxs rest h Hv Hh Ho Hlen Hd.
  { apply Forall2_nil_inv_l in Hv as ->. destruct rest; [|done]. rewrite app_nil_r in *. by exists h, done. }
  apply Forall2_cons_inv_l in Hv as (x & xs' & Hx & Hxs & ->). destruct rest as [|r rest]; [done|].
  destruct (Hf h v x) as (y & h1 & E1 & Hc); [by eapply read_mono|].
  assert (Ho1 : h1 !! out = Some (CArray (done ++ r :: rest))) by (eapply lookup_weaken; [done|apply Hc]).
  assert (Hno : out ∉ reach h1 t y) by by eapply copied_avoids.
  set (h2 := <[out := CArray (<[length done := y]> (done ++ r :: rest))]> h1).
  assert (Hkeep : forall y' x', copied h0 h1 t y' x' -> out ∉ reach h1 t y' -> copied h0 h2 t y' x' /\ out ∉ reach h2 t y').
  { intros y' x' Hc' Hn'. split; [by apply copied_store|]. unfold h2.
    destruct (read_agrees t h1 h2 y') as [_ Hre]; [|by fold h2; rewrite Hre].
    intros l Hl. apply lookup_insert_ne. set_solver. }
  destruct (IH xs' (done ++ [y]) (dxs ++ [x]) rest h2) as (h' & ys & E & ? & ? & ?).
  - done.
  - apply insert_subseteq_r; [done|]. by etrans; [|apply Hc].
  - unfold h2. rewrite lookup_insert_eq. do 2 f_equal. rewrite <- app_assoc.
    by rewrite insert_app_r_alt, Nat.sub_diag by done.
  - by injection Hlen.
  - apply Forall2_app.
    + eapply Forall2_impl; [exact Hd|]. intros y' x' [Hy' Hn']. apply Hkeep; [by eapply copied_mono, Hc|].
      destruct Hy' as (Hs' & Hr' & _).
      destruct (read_agrees t h h1 y') as [_ ->]; [|done]. by eapply agrees_subseteq; [apply Hc|].
    + constructor; [|done]. apply Hkeep; [by eapply copied_since|done].
  - exists h', ys. rewrite <- app_assoc in *. split_and!; [|done..].
    cbn [each]. rewrite (bind_eq _ _ _ _ _ E1), (bind_eq _ _ _ _ _ (load_eq _ _ _ Ho1)).
    rewrite (bind_eq _ _ _ _ _ (store_eq _ _ _ _ Ho1)). fold h2.
    rewrite length_app in E. cbn in E. by rewrite Nat.add_1_r in E.
Qed.

Lemma window_length off len vs ws : window off len vs = Some ws -> length ws = len.
Proof. unfold window. case_match eqn:E; [|done]. intros [= <-]. apply Nat.leb_le in E. rewrite length_take, length_drop. lia. Qed.

Lemma window_all vs : window 0 (length vs) vs = Some vs.
Proof. unfold window. cbn. rewrite Nat.leb_refl, drop_0, firstn_all. done. Qed.

Lemma make_into_ok t f : deep_copier t f -> deep_copier (TSlice t) (make_into t f).
Proof.
  intros Hf h v x Hr. destruct v as [| | |[[[l off] len]|]|]; try done; cbn [read] in Hr.
  2:{ simplify_eq. exists (VSlice None), h. split; [done|]. by apply copied_itself. }
  destruct (h !! l) as [[|vs|]|] eqn:El; try done. destruct (window off len vs) as [ws|] eqn:Ew; [|done].
  cbn in Hr. destruct (mapM (read h t) ws) as [xs|] eqn:Ex; [|done]. cbn in Hr; simplify_eq.
  pose proof (window_length _ _ _ _ Ew) as Hlen. apply mapM_Some in Ex.
  destruct (alloc_ok (CArray (replicate len (zero t))) h) as (Ea & Hn & Ho & Hh).
  set (out := fresh (dom h)) in *. set (h1 := <[out := _]> h) in *.
  destruct (each_ok t f h out Hf Hn ws xs [] [] (replicate len (zero t)) h1) as (h2 & ys & E2 & Hs & Ho2 & Hy);
    [done..|by rewrite length_replicate|done|].
  exists (VSlice (Some (out, 0, len))), h2. cbn [make_into].
  rewrite (bind_eq _ _ _ _ _ Ea), (bind_eq _ _ _ _ _ (load_eq l _ _ (lookup_weaken _ _ _ _ El Hh))), Ew.
  cbn [length] in E2. rewrite (bind_eq _ _ _ _ _ E2). split; [done|].
  assert (Hly : len = length ys) by (apply Forall2_length in Hy, Ex; cbn in *; congruence).
  unfold copied. cbn [read reach]. rewrite Ho2, Hly, window_all. cbn. split_and!; [done| |].
  - rewrite (proj2 (mapM_Some (read h2 t) ys xs)); [done|]. eapply Forall2_impl; [exact Hy|]. intros y x [Hc _]. apply Hc.
  - intros l'. rewrite elem_of_cons. intros [->|(y & Hin & Hl')%concat_in]; [done|].
    apply list_elem_of_lookup in Hin as [i Hi]. destruct (Forall2_lookup_l _ _ _ _ _ Hy Hi) as (x & _ & [Hc _]).
    by apply Hc.
Qed.

Lemma make_copy_ok t : plain t = true -> deep_copier (TSlice t) (make_copy t).
Proof. intros Hp. by apply make_into_ok, assign_ok. Qed.

(** The loop over a map. *)
Lemma put_all_eq out kvs : forall m h, h !! out = Some (CMap m) ->
  put_all out kvs h = Some (tt, <[out := CMap (foldl (λ m kv, <[kv.1 := kv.2]> m) m kvs)]> h).
Proof.
  induction kvs as [|[k v] kvs IH]; intros m h Ho; cbn [put_all foldl fst snd].
  { by rewrite insert_id. }
  rewrite (bind_eq _ _ _ _ _ (load_eq _ _ _ Ho)), (bind_eq _ _ _ _ _ (store_eq _ _ _ _ Ho)).
  rewrite (IH (<[k := v]> m)) by apply lookup_insert_eq. by rewrite insert_insert_eq.
Qed.

Lemma foldl_insert_union (kvs : list (bytes * val)) : forall m : gmap bytes val, NoDup kvs.*1 ->
  foldl (λ m kv, <[kv.1 := kv.2]> m) m kvs = list_to_map kvs ∪ m.
Proof.
  induction kvs as [|[k v] kvs IH]; intros m Hnd; cbn in *; [by rewrite (left_id_L ∅ (∪))|].
  apply NoDup_cons in Hnd as [Hk Hnd]. rewrite IH by done.
  rewrite <- insert_union_r by by apply not_elem_of_list_to_map_1. by rewrite insert_union_l.
Qed.

Lemma put_all_map (m : gmap bytes val) : foldl (λ m kv, <[kv.1 := kv.2]> m) ∅ (map_to_list m) = m.
Proof. rewrite foldl_insert_union by apply NoDup_fst_map_to_list. by rewrite list_to_map_to_list, (right_id_L ∅ (∪)). Qed.

Lemma make_range_ok t : plain t = true -> deep_copier (TMap t) make_range.
Proof.
  intros Hp h v x Hr. destruct v as [| | | |[l|]]; try done; cbn [read] in Hr.
  2:{ simplify_eq. exists (VMap None), h. split; [done|]. by apply copied_itself. }
  destruct (h !! l) as [[| |m]|] eqn:El; try done.
  destruct (alloc_ok (CMap ∅) h) as (Ea & Hn & Ho & Hh). set (out := fresh (dom h)) in *. set (h1 := <[out := _]> h) in *.
  exists (VMap (Some out)), (<[out := CMap m]> h1). cbn [make_range].
  rewrite (bind_eq _ _ _ _ _ Ea), (bind_eq _ _ _ _ _ (load_eq l _ _ (lookup_weaken _ _ _ _ El Hh))).
  rewrite (bind_eq _ _ _ _ _ (put_all_eq out _ _ _ Ho)), put_all_map. split; [done|].
  unfold copied. cbn [read reach]. rewrite lookup_insert_eq. split_and!; [by apply insert_subseteq_r| |].
  - rewrite <- Hr. erewrite mapM_ext_in; [done|]. intros kv _. cbn beta.
    destruct (read_agrees t h (<[out := CMap m]> h1) kv.2) as [-> _]; [|done].
    rewrite reach_plain by done. intros l' Hl'. by apply not_elem_of_nil in Hl'.
  - intros l'. rewrite elem_of_cons. intros [->|(kv & _ & Hl')%concat_in]; [done|].
    rewrite reach_plain in Hl' by done. by apply not_elem_of_nil in Hl'.
Qed.

(** The statements of a [DeepCopyInto] cover a struct: every field is either
    plain or copied by one of them, in the order of the fields. *)
Inductive covers : list (string * ty) -> list statement -> Prop :=
| covers_nil : covers [] []
| covers_plain n t ts ss : plain t = true -> covers ts ss -> covers ((n, t) :: ts) ss
| covers_copy n t ts f ss : deep_copier t f -> covers ts ss -> covers ((n, t) :: ts) ((n, f) :: ss).

Definition fresh_name {A} (n : string) (fs : list (string * A)) : Prop := n ∉ fs.*1.

Lemma getField_app n v fs gs : fresh_name n fs -> getField n (fs ++ (n, v) :: gs) = Some v.
Proof.
  unfold fresh_name. induction fs as [|[m w] fs IH]; cbn; intros Hn.
  - by rewrite bool_decide_eq_true_2.
  - rewrite bool_decide_eq_false_2 by set_solver. apply IH. set_solver.
Qed.

Lemma setField_app n v y fs gs : fresh_name n fs -> setField n y (fs ++ (n, v) :: gs) = fs ++ (n, y) :: gs.
Proof.
  unfold fresh_name. induction fs as [|[m w] fs IH]; cbn; intros Hn.
  - by rewrite bool_decide_eq_true_2.
  - rewrite bool_decide_eq_false_2 by set_solver. rewrite IH by set_solver. done.
Qed.

(** Running the statements for the fields [vs], after those of [done]. *)
Lemma run_ok ts ss : covers ts ss -> forall done dout vs xs h0 h,
  NoDup (done.*1 ++ ts.*1) -> dout.*1 = done.*1 -> h0 ⊆ h -> readFields h0 ts vs = Some xs ->
  exists out h', run ss (done ++ vs) (dout ++ vs) h = Some (dout ++ out, h') /\ h ⊆ h' /\
    readFields h' ts out = Some xs /\ forall l, l ∈ reachFields h' ts out -> h0 !! l = None.
Proof.
  induction 1 as [|n t ts ss Hp Hc IH|n t ts f ss Hf Hc IH]; intros done dout vs xs h0 h Hnd Hn Hh Hr.
  { destruct vs; [|done]. exists [], h. split_and!; [done..|]. intros l Hl. by apply not_elem_of_nil in Hl. }
  all: destruct vs as [|[m v] vs]; [done|]; cbn in Hr; case_bool_decide as Em; [subst m|done].
  all: destruct (read h0 t v) as [x|] eqn:Ex; [|done]; cbn in Hr.
  all: destruct (readFields h0 ts vs) as [xs'|] eqn:Exs; [|done]; cbn in Hr; simplify_eq.
  all: assert (Hnd' : NoDup ((done ++ [(n, v)]).*1 ++ ts.*1)) by (by rewrite fmap_app, <- app_assoc).
  - destruct (IH (done ++ [(n, v)]) (dout ++ [(n, v)]) vs xs' h0 h) as (out & h' & E & Hs & Hro & Hn');
      [done|by rewrite !fmap_app, Hn|done..|].
    rewrite <- !app_assoc in E. cbn in E. exists ((n, v) :: out), h'. cbn [readFields reachFields].
    rewrite bool_decide_eq_true_2 by done. rewrite (read_mono h0 h' t v x) by (done || by etrans). cbn. rewrite Hro.
    split_and!; [done..|]. rewrite reach_plain by done. done.
  - assert (Hfn : forall A (fs : list (string * A)), fs.*1 = done.*1 -> fresh_name n fs).
    { intros A fs Hfs. unfold fresh_name. rewrite Hfs. apply NoDup_app in Hnd as (_ & Hnd & _). cbn in Hnd. set_solver. }
    destruct (Hf h v x) as (y & h1 & E1 & Hcp); [by eapply read_mono|].
    destruct (IH (done ++ [(n, v)]) (dout ++ [(n, y)]) vs xs' h0 h1) as (out & h' & E & Hs & Hro & Hn');
      [done|by rewrite !fmap_app, Hn|by etrans; [|apply Hcp]|done|].
    rewrite <- !app_assoc in E. cbn in E. exists ((n, y) :: out), h'. cbn [run readFields reachFields].
    rewrite getField_app by by apply Hfn. rewrite (bind_eq _ _ _ _ _ E1), setField_app by by apply Hfn.
    rewrite bool_decide_eq_true_2 by done.
    destruct (copied_mono h h1 h' t y x Hcp Hs) as (Hhh & Hry & Hny). rewrite Hry. cbn. rewrite Hro.
    split_and!; [done..|]. intros l [Hl|Hl]%elem_of_app; [|by apply Hn'].
    eapply lookup_weaken_None; [by apply Hny|done].
Qed.

Lemma copyInto_ok ts ss : covers ts ss -> NoDup ts.*1 -> deep_copier (TStruct ts) (copyInto ss).
Proof.
  intros Hc Hnd h v x Hr. destruct v as [|vs| | |]; try done. rewrite read_struct in Hr.
  destruct (readFields h ts vs) as [xs|] eqn:Ex; [|done]. cbn in Hr; simplify_eq.
  destruct (run_ok ts ss Hc [] [] vs xs h h) as (out & h' & E & Hs & Hro & Hn); [done..|].
  exists (VStruct out), h'. cbn [copyInto]. cbn in E. rewrite (bind_eq _ _ _ _ _ E). split; [done|].
  unfold copied. rewrite read_struct, reach_struct, Hro. done.
Qed.
