(* ===== verification/DeepCopy.v ===== *)
(** * DeepCopy: copies of API objects share nothing with the original

    Models the generated functions of
    [src/api/v1alpha1/zz_generated.deepcopy.go],
    [src/internal/certmanager/v1/zz_generated.deepcopy.go] and
    [src/internal/monitoring/v1/zz_generated.deepcopy.go] over the memory of
    [Heap], with the types they copy as those packages declare them ([t...]): for
    each type [DeepCopyInto] and [DeepCopy], for the registered objects
    [DeepCopyObject]. The reconcilers rely on them: the base of a status patch is
    a copy of the object taken before its conditions are rewritten in place. *)

From S2P Require Import Prelude Heap.
#[local] Open Scope string_scope.
#[local] Open Scope list_scope.

(** The types of apimachinery and of the core API the packages embed, and their
    copying functions. *)
Class ApiMachinery := {
  TypeMeta : ty;
  ObjectMeta : ty;
  ListMeta : ty;
  Condition : ty;
  LabelSelector : ty;
  Duration : ty;
  ResourceRequirements : ty;
  Toleration : ty;
  Affinity : ty;
  CoreSecretKeySelector : ty;
  ObjectMeta_DeepCopyInto : val -> M val;
  ListMeta_DeepCopyInto : val -> M val;
  Condition_DeepCopyInto : val -> M val;
  LabelSelector_DeepCopyInto : val -> M val;
  ResourceRequirements_DeepCopyInto : val -> M val;
  Toleration_DeepCopyInto : val -> M val;
  Affinity_DeepCopyInto : val -> M val;
  CoreSecretKeySelector_DeepCopyInto : val -> M val
}.

(** What the packages document: [TypeMeta] is two strings and [Duration] a
    number, the functions make deep copies. *)
Class ApiMachinerySound (A : ApiMachinery) := {
  TypeMeta_plain : plain TypeMeta = true;
  Duration_plain : plain Duration = true;
  ObjectMeta_ok : deep_copier ObjectMeta ObjectMeta_DeepCopyInto;
  ListMeta_ok : deep_copier ListMeta ListMeta_DeepCopyInto;
  Condition_ok : deep_copier Condition Condition_DeepCopyInto;
  LabelSelector_ok : deep_copier LabelSelector LabelSelector_DeepCopyInto;
  ResourceRequirements_ok : deep_copier ResourceRequirements ResourceRequirements_DeepCopyInto;
  Toleration_ok : deep_copier Toleration Toleration_DeepCopyInto;
  Affinity_ok : deep_copier Affinity Affinity_DeepCopyInto;
  CoreSecretKeySelector_ok : deep_copier CoreSecretKeySelector CoreSecretKeySelector_DeepCopyInto
}.
#[export] Hint Resolve TypeMeta_plain Duration_plain ObjectMeta_ok ListMeta_ok Condition_ok LabelSelector_ok
  ResourceRequirements_ok Toleration_ok Affinity_ok CoreSecretKeySelector_ok : deepcopy.
#[export] Hint Constants Opaque : deepcopy.
#[export] Hint Extern 5 (plain _ = true) => reflexivity : deepcopy.

(** The objects registered with the scheme. *)
Inductive kind :=
| MailoutAccountKind | MailoutAccountListKind | MailoutGatewayKind | MailoutGatewayListKind
| CertificateKind | CertificateListKind | ServiceMonitorKind | ServiceMonitorListKind.

(** A [runtime.Object] that is not the nil interface: a pointer, itself perhaps
    nil, with its type. *)
Record object := mkObject { o_kind : kind; o_ptr : option loc }.

(** [if c := in.DeepCopy(); c != nil { return c }; return nil]: a nil pointer
    becomes the nil interface. *)
Definition deepCopyObject (k : kind) (copy : M (option loc)) : M (option object) :=
  let* c := copy in
  ret match c with Some l => Some (mkObject k (Some l)) | None => None end.

Module V1alpha1.
Section Copies.
Context `{ApiMachinery}.

Definition tLocalObjectReference : ty :=
  TStruct [("Name", TString)].
Definition LocalObjectReference_DeepCopyInto : val -> M val :=
  copyInto [].
Definition LocalObjectReference_DeepCopy : option loc -> M (option loc) := deepCopy tLocalObjectReference LocalObjectReference_DeepCopyInto.

Definition tSecretKeySelector : ty :=
  TStruct [("Name", TString);
    ("Key", TString)].
Definition SecretKeySelector_DeepCopyInto : val -> M val :=
  copyInto [].
Definition SecretKeySelector_DeepCopy : option loc -> M (option loc) := deepCopy tSecretKeySelector SecretKeySelector_DeepCopyInto.

Definition tDKIMKeySpec : ty :=
  TStruct [("Domain", TString);
    ("Selector", TString);
    ("PrivateKeySecretRef", tSecretKeySelector);
    ("HeaderKeys", TSlice TString)].
Definition DKIMKeySpec_DeepCopyInto : val -> M val :=
  copyInto [("PrivateKeySecretRef", assign);
    ("HeaderKeys", make_copy TString)].
Definition DKIMKeySpec_DeepCopy : option loc -> M (option loc) := deepCopy tDKIMKeySpec DKIMKeySpec_DeepCopyInto.

Definition tMilterSpec : ty :=
  TStruct [("Name", TString);
    ("Address", TString);
    ("FailOpen", TBool);
    ("Timeout", TPtr Duration)].
Definition MilterSpec_DeepCopyInto : val -> M val :=
  copyInto [("Timeout", new_assign Duration)].
Definition MilterSpec_DeepCopy : option loc -> M (option loc) := deepCopy tMilterSpec MilterSpec_DeepCopyInto.

Definition tGatewayReference : ty :=
  TStruct [("Name", TString);
    ("Namespace", TString)].
Definition GatewayReference_DeepCopyInto : val -> M val :=
  copyInto [].
Definition GatewayReference_DeepCopy : option loc -> M (option loc) := deepCopy tGatewayReference GatewayReference_DeepCopyInto.

Definition tMailoutAccountSpec : ty :=
  TStruct [("GatewayRef", tGatewayReference);
    ("Username", TString);
    ("SecretRef", tLocalObjectReference);
    ("Rotation", TString);
    ("AllowedSenders", TSlice TString);
    ("EnforceHeaderFrom", TPtr TBool);
    ("Disabled", TBool)].
Definition MailoutAccountSpec_DeepCopyInto : val -> M val :=
  copyInto [("GatewayRef", assign);
    ("SecretRef", assign);
    ("AllowedSenders", make_copy TString);
    ("EnforceHeaderFrom", new_assign TBool)].
Definition MailoutAccountSpec_DeepCopy : option loc -> M (option loc) := deepCopy tMailoutAccountSpec MailoutAccountSpec_DeepCopyInto.

Definition tMailoutAccountStatus : ty :=
  TStruct [("Conditions", TSlice Condition);
    ("ObservedGeneration", TInt);
    ("Username", TString);
    ("SecretName", TString);
    ("Gateway", TString);
    ("RotationObserved", TString)].
Definition MailoutAccountStatus_DeepCopyInto : val -> M val :=
  copyInto [("Conditions", make_into Condition Condition_DeepCopyInto)].
Definition MailoutAccountStatus_DeepCopy : option loc -> M (option loc) := deepCopy tMailoutAccountStatus MailoutAccountStatus_DeepCopyInto.

Definition tMailoutAccount : ty :=
  TStruct [("TypeMeta", TypeMeta);
    ("ObjectMeta", ObjectMeta);
    ("Spec", tMailoutAccountSpec);
    ("Status", tMailoutAccountStatus)].
Definition MailoutAccount_DeepCopyInto : val -> M val :=
  copyInto [("TypeMeta", assign);
    ("ObjectMeta", ObjectMeta_DeepCopyInto);
    ("Spec", MailoutAccountSpec_DeepCopyInto);
    ("Status", MailoutAccountStatus_DeepCopyInto)].
Definition MailoutAccount_DeepCopy : option loc -> M (option loc) := deepCopy tMailoutAccount MailoutAccount_DeepCopyInto.

Definition MailoutAccount_DeepCopyObject (inp : option loc) : M (option object) :=
  deepCopyObject MailoutAccountKind (MailoutAccount_DeepCopy inp).

Definition tMailoutAccountList : ty :=
  TStruct [("TypeMeta", TypeMeta);
    ("ListMeta", ListMeta);
    ("Items", TSlice tMailoutAccount)].
Definition MailoutAccountList_DeepCopyInto : val -> M val :=
  copyInto [("TypeMeta", assign);
    ("ListMeta", ListMeta_DeepCopyInto);
    ("Items", make_into tMailoutAccount MailoutAccount_DeepCopyInto)].
Definition MailoutAccountList_DeepCopy : option loc -> M (option loc) := deepCopy tMailoutAccountList MailoutAccountList_DeepCopyInto.

Definition MailoutAccountList_DeepCopyObject (inp : option loc) : M (option object) :=
  deepCopyObject MailoutAccountListKind (MailoutAccountList_DeepCopy inp).

Definition tListenerSpec : ty :=
  TStruct [("Port", TInt)].
Definition ListenerSpec_DeepCopyInto : val -> M val :=
  copyInto [].
Definition ListenerSpec_DeepCopy : option loc -> M (option loc) := deepCopy tListenerSpec ListenerSpec_DeepCopyInto.

Definition tListenersSpec : ty :=
  TStruct [("Submission", TPtr tListenerSpec);
    ("SMTPS", TPtr tListenerSpec)].
Definition ListenersSpec_DeepCopyInto : val -> M val :=
  copyInto [("Submission", new_assign tListenerSpec);
    ("SMTPS", new_assign tListenerSpec)].
Definition ListenersSpec_DeepCopy : option loc -> M (option loc) := deepCopy tListenersSpec ListenersSpec_DeepCopyInto.

Definition tIssuerReference : ty :=
  TStruct [("Name", TString);
    ("Kind", TString);
    ("Group", TString)].
Definition IssuerReference_DeepCopyInto : val -> M val :=
  copyInto [].
Definition IssuerReference_DeepCopy : option loc -> M (option loc) := deepCopy tIssuerReference IssuerReference_DeepCopyInto.

Definition tGatewayTLSSpec : ty :=
  TStruct [("CertificateRefs", TSlice tLocalObjectReference);
    ("IssuerRef", TPtr tIssuerReference);
    ("DNSNames", TSlice TString);
    ("DefaultCertificate", TString)].
Definition GatewayTLSSpec_DeepCopyInto : val -> M val :=
  copyInto [("CertificateRefs", make_copy tLocalObjectReference);
    ("IssuerRef", new_assign tIssuerReference);
    ("DNSNames", make_copy TString)].
Definition GatewayTLSSpec_DeepCopy : option loc -> M (option loc) := deepCopy tGatewayTLSSpec GatewayTLSSpec_DeepCopyInto.

Definition tUpstreamSpec : ty :=
  TStruct [("Host", TString);
    ("Port", TInt);
    ("TLS", TString);
    ("AuthSecretRef", TPtr tLocalObjectReference);
    ("CASecretRef", TPtr tSecretKeySelector);
    ("InsecureSkipVerify", TBool);
    ("HandlesDKIM", TBool);
    ("Timeout", TPtr Duration)].
Definition UpstreamSpec_DeepCopyInto : val -> M val :=
  copyInto [("AuthSecretRef", new_assign tLocalObjectReference);
    ("CASecretRef", new_assign tSecretKeySelector);
    ("Timeout", new_assign Duration)].
Definition UpstreamSpec_DeepCopy : option loc -> M (option loc) := deepCopy tUpstreamSpec UpstreamSpec_DeepCopyInto.

Definition tAllowedAccountsSpec : ty :=
  TStruct [("Namespaces", TString);
    ("Selector", TPtr LabelSelector)].
Definition AllowedAccountsSpec_DeepCopyInto : val -> M val :=
  copyInto [("Selector", new_into LabelSelector LabelSelector_DeepCopyInto)].
Definition AllowedAccountsSpec_DeepCopy : option loc -> M (option loc) := deepCopy tAllowedAccountsSpec AllowedAccountsSpec_DeepCopyInto.

Definition tSenderGrantSpec : ty :=
  TStruct [("Senders", TSlice TString);
    ("NamespaceSelector", TPtr LabelSelector)].
Definition SenderGrantSpec_DeepCopyInto : val -> M val :=
  copyInto [("Senders", make_copy TString);
    ("NamespaceSelector", new_into LabelSelector LabelSelector_DeepCopyInto)].
Definition SenderGrantSpec_DeepCopy : option loc -> M (option loc) := deepCopy tSenderGrantSpec SenderGrantSpec_DeepCopyInto.

Definition tRateLimitStoreTLSSpec : ty :=
  TStruct [("CASecretRef", TPtr tSecretKeySelector);
    ("InsecureSkipVerify", TBool)].
Definition RateLimitStoreTLSSpec_DeepCopyInto : val -> M val :=
  copyInto [("CASecretRef", new_assign tSecretKeySelector)].
Definition RateLimitStoreTLSSpec_DeepCopy : option loc -> M (option loc) := deepCopy tRateLimitStoreTLSSpec RateLimitStoreTLSSpec_DeepCopyInto.

Definition tRateLimitStoreSpec : ty :=
  TStruct [("Addresses", TSlice TString);
    ("MasterName", TString);
    ("DB", TInt);
    ("AuthSecretRef", TPtr tLocalObjectReference);
    ("SentinelAuthSecretRef", TPtr tLocalObjectReference);
    ("TLS", TPtr tRateLimitStoreTLSSpec);
    ("Timeout", TPtr Duration)].
Definition RateLimitStoreSpec_DeepCopyInto : val -> M val :=
  copyInto [("Addresses", make_copy TString);
    ("AuthSecretRef", new_assign tLocalObjectReference);
    ("SentinelAuthSecretRef", new_assign tLocalObjectReference);
    ("TLS", new_into tRateLimitStoreTLSSpec RateLimitStoreTLSSpec_DeepCopyInto);
    ("Timeout", new_assign Duration)].
Definition RateLimitStoreSpec_DeepCopy : option loc -> M (option loc) := deepCopy tRateLimitStoreSpec RateLimitStoreSpec_DeepCopyInto.

Definition tRateLimitSpec : ty :=
  TStruct [("Store", tRateLimitStoreSpec);
    ("MessagesPerMinute", TPtr TInt);
    ("RecipientsPerMinute", TPtr TInt)].
Definition RateLimitSpec_DeepCopyInto : val -> M val :=
  copyInto [("Store", RateLimitStoreSpec_DeepCopyInto);
    ("MessagesPerMinute", new_assign TInt);
    ("RecipientsPerMinute", new_assign TInt)].
Definition RateLimitSpec_DeepCopy : option loc -> M (option loc) := deepCopy tRateLimitSpec RateLimitSpec_DeepCopyInto.

Definition tDeploymentSpec : ty :=
  TStruct [("Replicas", TPtr TInt);
    ("Image", TString);
    ("Resources", ResourceRequirements);
    ("ServiceType", TString);
    ("ServiceAnnotations", TMap TString);
    ("PodAnnotations", TMap TString);
    ("NodeSelector", TMap TString);
    ("Tolerations", TSlice Toleration);
    ("Affinity", TPtr Affinity)].
Definition DeploymentSpec_DeepCopyInto : val -> M val :=
  copyInto [("Replicas", new_assign TInt);
    ("Resources", ResourceRequirements_DeepCopyInto);
    ("ServiceAnnotations", make_range);
    ("PodAnnotations", make_range);
    ("NodeSelector", make_range);
    ("Tolerations", make_into Toleration Toleration_DeepCopyInto);
    ("Affinity", new_into Affinity Affinity_DeepCopyInto)].
Definition DeploymentSpec_DeepCopy : option loc -> M (option loc) := deepCopy tDeploymentSpec DeploymentSpec_DeepCopyInto.

Definition tNetworkPeer : ty :=
  TStruct [("NamespaceSelector", TPtr LabelSelector);
    ("PodSelector", TPtr LabelSelector)].
Definition NetworkPeer_DeepCopyInto : val -> M val :=
  copyInto [("NamespaceSelector", new_into LabelSelector LabelSelector_DeepCopyInto);
    ("PodSelector", new_into LabelSelector LabelSelector_DeepCopyInto)].
Definition NetworkPeer_DeepCopy : option loc -> M (option loc) := deepCopy tNetworkPeer NetworkPeer_DeepCopyInto.

Definition tMetricsSpec : ty :=
  TStruct [("AllowedScrapers", TSlice tNetworkPeer)].
Definition MetricsSpec_DeepCopyInto : val -> M val :=
  copyInto [("AllowedScrapers", make_into tNetworkPeer NetworkPeer_DeepCopyInto)].
Definition MetricsSpec_DeepCopy : option loc -> M (option loc) := deepCopy tMetricsSpec MetricsSpec_DeepCopyInto.

Definition tMailoutGatewaySpec : ty :=
  TStruct [("Hostname", TString);
    ("Listeners", tListenersSpec);
    ("TLS", tGatewayTLSSpec);
    ("Upstream", tUpstreamSpec);
    ("DKIM", TSlice tDKIMKeySpec);
    ("Milters", TSlice tMilterSpec);
    ("AllowedAccounts", tAllowedAccountsSpec);
    ("AllowedSenders", TSlice tSenderGrantSpec);
    ("RateLimit", TPtr tRateLimitSpec);
    ("Deployment", tDeploymentSpec);
    ("Metrics", tMetricsSpec)].
Definition MailoutGatewaySpec_DeepCopyInto : val -> M val :=
  copyInto [("Listeners", ListenersSpec_DeepCopyInto);
    ("TLS", GatewayTLSSpec_DeepCopyInto);
    ("Upstream", UpstreamSpec_DeepCopyInto);
    ("DKIM", make_into tDKIMKeySpec DKIMKeySpec_DeepCopyInto);
    ("Milters", make_into tMilterSpec MilterSpec_DeepCopyInto);
    ("AllowedAccounts", AllowedAccountsSpec_DeepCopyInto);
    ("AllowedSenders", make_into tSenderGrantSpec SenderGrantSpec_DeepCopyInto);
    ("RateLimit", new_into tRateLimitSpec RateLimitSpec_DeepCopyInto);
    ("Deployment", DeploymentSpec_DeepCopyInto);
    ("Metrics", MetricsSpec_DeepCopyInto)].
Definition MailoutGatewaySpec_DeepCopy : option loc -> M (option loc) := deepCopy tMailoutGatewaySpec MailoutGatewaySpec_DeepCopyInto.

Definition tListenerStatus : ty :=
  TStruct [("Name", TString);
    ("Port", TInt);
    ("Mode", TString)].
Definition ListenerStatus_DeepCopyInto : val -> M val :=
  copyInto [].
Definition ListenerStatus_DeepCopy : option loc -> M (option loc) := deepCopy tListenerStatus ListenerStatus_DeepCopyInto.

Definition tMailoutGatewayStatus : ty :=
  TStruct [("Conditions", TSlice Condition);
    ("ObservedGeneration", TInt);
    ("AcceptedAccounts", TInt);
    ("Listeners", TSlice tListenerStatus);
    ("ServiceName", TString)].
Definition MailoutGatewayStatus_DeepCopyInto : val -> M val :=
  copyInto [("Conditions", make_into Condition Condition_DeepCopyInto);
    ("Listeners", make_copy tListenerStatus)].
Definition MailoutGatewayStatus_DeepCopy : option loc -> M (option loc) := deepCopy tMailoutGatewayStatus MailoutGatewayStatus_DeepCopyInto.

Definition tMailoutGateway : ty :=
  TStruct [("TypeMeta", TypeMeta);
    ("ObjectMeta", ObjectMeta);
    ("Spec", tMailoutGatewaySpec);
    ("Status", tMailoutGatewayStatus)].
Definition MailoutGateway_DeepCopyInto : val -> M val :=
  copyInto [("TypeMeta", assign);
    ("ObjectMeta", ObjectMeta_DeepCopyInto);
    ("Spec", MailoutGatewaySpec_DeepCopyInto);
    ("Status", MailoutGatewayStatus_DeepCopyInto)].
Definition MailoutGateway_DeepCopy : option loc -> M (option loc) := deepCopy tMailoutGateway MailoutGateway_DeepCopyInto.

Definition MailoutGateway_DeepCopyObject (inp : option loc) : M (option object) :=
  deepCopyObject MailoutGatewayKind (MailoutGateway_DeepCopy inp).

Definition tMailoutGatewayList : ty :=
  TStruct [("TypeMeta", TypeMeta);
    ("ListMeta", ListMeta);
    ("Items", TSlice tMailoutGateway)].
Definition MailoutGatewayList_DeepCopyInto : val -> M val :=
  copyInto [("TypeMeta", assign);
    ("ListMeta", ListMeta_DeepCopyInto);
    ("Items", make_into tMailoutGateway MailoutGateway_DeepCopyInto)].
Definition MailoutGatewayList_DeepCopy : option loc -> M (option loc) := deepCopy tMailoutGatewayList MailoutGatewayList_DeepCopyInto.

Definition MailoutGatewayList_DeepCopyObject (inp : option loc) : M (option object) :=
  deepCopyObject MailoutGatewayListKind (MailoutGatewayList_DeepCopy inp).

End Copies.

End V1alpha1.

Module Certmanager.
Section Copies.
Context `{ApiMachinery}.

Definition tcm_IssuerReference : ty :=
  TStruct [("Name", TString);
    ("Kind", TString);
    ("Group", TString)].
Definition cm_IssuerReference_DeepCopyInto : val -> M val :=
  copyInto [].
Definition cm_IssuerReference_DeepCopy : option loc -> M (option loc) := deepCopy tcm_IssuerReference cm_IssuerReference_DeepCopyInto.

Definition tcm_CertificateSpec : ty :=
  TStruct [("SecretName", TString);
    ("DNSNames", TSlice TString);
    ("CommonName", TString);
    ("IssuerRef", tcm_IssuerReference)].
Definition cm_CertificateSpec_DeepCopyInto : val -> M val :=
  copyInto [("DNSNames", make_copy TString);
    ("IssuerRef", assign)].
Definition cm_CertificateSpec_DeepCopy : option loc -> M (option loc) := deepCopy tcm_CertificateSpec cm_CertificateSpec_DeepCopyInto.

Definition tcm_CertificateStatus : ty :=
  TStruct [("Conditions", TSlice Condition)].
Definition cm_CertificateStatus_DeepCopyInto : val -> M val :=
  copyInto [("Conditions", make_into Condition Condition_DeepCopyInto)].
Definition cm_CertificateStatus_DeepCopy : option loc -> M (option loc) := deepCopy tcm_CertificateStatus cm_CertificateStatus_DeepCopyInto.

Definition tcm_Certificate : ty :=
  TStruct [("TypeMeta", TypeMeta);
    ("ObjectMeta", ObjectMeta);
    ("Spec", tcm_CertificateSpec);
    ("Status", tcm_CertificateStatus)].
Definition cm_Certificate_DeepCopyInto : val -> M val :=
  copyInto [("TypeMeta", assign);
    ("ObjectMeta", ObjectMeta_DeepCopyInto);
    ("Spec", cm_CertificateSpec_DeepCopyInto);
    ("Status", cm_CertificateStatus_DeepCopyInto)].
Definition cm_Certificate_DeepCopy : option loc -> M (option loc) := deepCopy tcm_Certificate cm_Certificate_DeepCopyInto.

Definition cm_Certificate_DeepCopyObject (inp : option loc) : M (option object) :=
  deepCopyObject CertificateKind (cm_Certificate_DeepCopy inp).

Definition tcm_CertificateList : ty :=
  TStruct [("TypeMeta", TypeMeta);
    ("ListMeta", ListMeta);
    ("Items", TSlice tcm_Certificate)].
Definition cm_CertificateList_DeepCopyInto : val -> M val :=
  copyInto [("TypeMeta", assign);
    ("ListMeta", ListMeta_DeepCopyInto);
    ("Items", make_into tcm_Certificate cm_Certificate_DeepCopyInto)].
Definition cm_CertificateList_DeepCopy : option loc -> M (option loc) := deepCopy tcm_CertificateList cm_CertificateList_DeepCopyInto.

Definition cm_CertificateList_DeepCopyObject (inp : option loc) : M (option object) :=
  deepCopyObject CertificateListKind (cm_CertificateList_DeepCopy inp).

End Copies.

End Certmanager.

Module Monitoring.
Section Copies.
Context `{ApiMachinery}.

Definition tmon_SafeAuthorization : ty :=
  TStruct [("Type", TString);
    ("Credentials", TPtr CoreSecretKeySelector)].
Definition mon_SafeAuthorization_DeepCopyInto : val -> M val :=
  copyInto [("Credentials", new_into CoreSecretKeySelector CoreSecretKeySelector_DeepCopyInto)].
Definition mon_SafeAuthorization_DeepCopy : option loc -> M (option loc) := deepCopy tmon_SafeAuthorization mon_SafeAuthorization_DeepCopyInto.

Definition tmon_Endpoint : ty :=
  TStruct [("Port", TString);
    ("Path", TString);
    ("Scheme", TString);
    ("Interval", TString);
    ("Authorization", TPtr tmon_SafeAuthorization)].
Definition mon_Endpoint_DeepCopyInto : val -> M val :=
  copyInto [("Authorization", new_into tmon_SafeAuthorization mon_SafeAuthorization_DeepCopyInto)].
Definition mon_Endpoint_DeepCopy : option loc -> M (option loc) := deepCopy tmon_Endpoint mon_Endpoint_DeepCopyInto.

Definition tmon_NamespaceSelector : ty :=
  TStruct [("Any", TBool);
    ("MatchNames", TSlice TString)].
Definition mon_NamespaceSelector_DeepCopyInto : val -> M val :=
  copyInto [("MatchNames", make_copy TString)].
Definition mon_NamespaceSelector_DeepCopy : option loc -> M (option loc) := deepCopy tmon_NamespaceSelector mon_NamespaceSelector_DeepCopyInto.

Definition tmon_ServiceMonitorSpec : ty :=
  TStruct [("Selector", LabelSelector);
    ("NamespaceSelector", tmon_NamespaceSelector);
    ("Endpoints", TSlice tmon_Endpoint);
    ("JobLabel", TString)].
Definition mon_ServiceMonitorSpec_DeepCopyInto : val -> M val :=
  copyInto [("Selector", LabelSelector_DeepCopyInto);
    ("NamespaceSelector", mon_NamespaceSelector_DeepCopyInto);
    ("Endpoints", make_into tmon_Endpoint mon_Endpoint_DeepCopyInto)].
Definition mon_ServiceMonitorSpec_DeepCopy : option loc -> M (option loc) := deepCopy tmon_ServiceMonitorSpec mon_ServiceMonitorSpec_DeepCopyInto.

Definition tmon_ServiceMonitor : ty :=
  TStruct [("TypeMeta", TypeMeta);
    ("ObjectMeta", ObjectMeta);
    ("Spec", tmon_ServiceMonitorSpec)].
Definition mon_ServiceMonitor_DeepCopyInto : val -> M val :=
  copyInto [("TypeMeta", assign);
    ("ObjectMeta", ObjectMeta_DeepCopyInto);
    ("Spec", mon_ServiceMonitorSpec_DeepCopyInto)].
Definition mon_ServiceMonitor_DeepCopy : option loc -> M (option loc) := deepCopy tmon_ServiceMonitor mon_ServiceMonitor_DeepCopyInto.

Definition mon_ServiceMonitor_DeepCopyObject (inp : option loc) : M (option object) :=
  deepCopyObject ServiceMonitorKind (mon_ServiceMonitor_DeepCopy inp).

Definition tmon_ServiceMonitorList : ty :=
  TStruct [("TypeMeta", TypeMeta);
    ("ListMeta", ListMeta);
    ("Items", TSlice tmon_ServiceMonitor)].
Definition mon_ServiceMonitorList_DeepCopyInto : val -> M val :=
  copyInto [("TypeMeta", assign);
    ("ListMeta", ListMeta_DeepCopyInto);
    ("Items", make_into tmon_ServiceMonitor mon_ServiceMonitor_DeepCopyInto)].
Definition mon_ServiceMonitorList_DeepCopy : option loc -> M (option loc) := deepCopy tmon_ServiceMonitorList mon_ServiceMonitorList_DeepCopyInto.

Definition mon_ServiceMonitorList_DeepCopyObject (inp : option loc) : M (option object) :=
  deepCopyObject ServiceMonitorListKind (mon_ServiceMonitorList_DeepCopy inp).

End Copies.

End Monitoring.
Import V1alpha1 Certmanager Monitoring.

(** ** The registered objects *)

Section Objects.
Context `{ApiMachinery}.

Definition layout (k : kind) : ty :=
  match k with
  | MailoutAccountKind => tMailoutAccount
  | MailoutAccountListKind => tMailoutAccountList
  | MailoutGatewayKind => tMailoutGateway
  | MailoutGatewayListKind => tMailoutGatewayList
  | CertificateKind => tcm_Certificate
  | CertificateListKind => tcm_CertificateList
  | ServiceMonitorKind => tmon_ServiceMonitor
  | ServiceMonitorListKind => tmon_ServiceMonitorList
  end.

Definition DeepCopyObject (k : kind) : option loc -> M (option object) :=
  match k with
  | MailoutAccountKind => MailoutAccount_DeepCopyObject
  | MailoutAccountListKind => MailoutAccountList_DeepCopyObject
  | MailoutGatewayKind => MailoutGateway_DeepCopyObject
  | MailoutGatewayListKind => MailoutGatewayList_DeepCopyObject
  | CertificateKind => cm_Certificate_DeepCopyObject
  | CertificateListKind => cm_CertificateList_DeepCopyObject
  | ServiceMonitorKind => mon_ServiceMonitor_DeepCopyObject
  | ServiceMonitorListKind => mon_ServiceMonitorList_DeepCopyObject
  end.

(** How a reconciler changes a status: [patch := client.MergeFrom(gw.DeepCopy())],
    then [mutate] writes the conditions and the other fields through [gw], then
    the patch is computed from the two. The result is what the two read as. *)
Definition patchStatus (mutate : loc -> M unit) (gw : loc) : M (option tree * option tree) :=
  let* base := MailoutGateway_DeepCopy (Some gw) in
  let* _ := mutate gw in
  λ h, Some ((read h (TPtr tMailoutGateway) (VPtr base), read h (TPtr tMailoutGateway) (VPtr (Some gw))), h).
End Objects.

(** ** Properties *)

(** A covering of the fields, function by function; the laws of the foreign types
    are in the database. *)
Ltac deep_copy :=
  lazymatch goal with
  | |- deep_copier _ (new_into _ _) => apply new_into_ok; deep_copy
  | |- deep_copier _ (make_into _ _) => apply make_into_ok; deep_copy
  | |- deep_copier _ (new_assign _) => apply new_assign_ok; solve [auto with deepcopy]
  | |- deep_copier _ (make_copy _) => apply make_copy_ok; solve [auto with deepcopy]
  | |- deep_copier _ make_range => apply make_range_ok; reflexivity
  | |- deep_copier _ assign => apply assign_ok; solve [auto with deepcopy]
  | |- deep_copier ?t ?f => solve [auto with deepcopy] || (apply copyInto_ok; [cover | distinct_names])
  end
with cover :=
  first [ apply covers_nil
        | apply covers_copy; [deep_copy | cover]
        | apply covers_plain; [solve [auto with deepcopy] | cover] ]
with distinct_names := apply (bool_decide_unpack _); vm_compute; exact I.

#[local] Set Default Proof Using "Type*".

Section Right.
Context `{A : ApiMachinery, !ApiMachinerySound A}.

Lemma MailoutAccount_deep : deep_copier tMailoutAccount MailoutAccount_DeepCopyInto.
Proof. deep_copy. Qed.
#[local] Hint Resolve MailoutAccount_deep : deepcopy.

Lemma MailoutAccountList_deep : deep_copier tMailoutAccountList MailoutAccountList_DeepCopyInto.
Proof. deep_copy. Qed.

Lemma MailoutGateway_deep : deep_copier tMailoutGateway MailoutGateway_DeepCopyInto.
Proof. deep_copy. Qed.
#[local] Hint Resolve MailoutGateway_deep : deepcopy.

Lemma MailoutGatewayList_deep : deep_copier tMailoutGatewayList MailoutGatewayList_DeepCopyInto.
Proof. deep_copy. Qed.

Lemma Certificate_deep : deep_copier tcm_Certificate cm_Certificate_DeepCopyInto.
Proof. deep_copy. Qed.
#[local] Hint Resolve Certificate_deep : deepcopy.

Lemma CertificateList_deep : deep_copier tcm_CertificateList cm_CertificateList_DeepCopyInto.
Proof. deep_copy. Qed.

Lemma ServiceMonitor_deep : deep_copier tmon_ServiceMonitor mon_ServiceMonitor_DeepCopyInto.
Proof. deep_copy. Qed.
#[local] Hint Resolve ServiceMonitor_deep : deepcopy.

Lemma ServiceMonitorList_deep : deep_copier tmon_ServiceMonitorList mon_ServiceMonitorList_DeepCopyInto.
Proof. deep_copy. Qed.
#[local] Hint Resolve MailoutAccountList_deep MailoutGatewayList_deep CertificateList_deep ServiceMonitorList_deep
  : deepcopy.

Lemma deepCopy_ok t f h l x :
  deep_copier t f -> read h (TPtr t) (VPtr (Some l)) = Some x ->
  exists l' h', deepCopy t f (Some l) h = Some (Some l', h') /\ copied h h' (TPtr t) (VPtr (Some l')) x.
Proof.
  intros Hf Hr. destruct (new_into_ok t f Hf h _ x Hr) as (v' & h' & E & Hc).
  assert (exists l', v' = VPtr (Some l')) as [l' ->].
  { destruct Hc as (_ & Hr' & _). cbn [read] in Hr. destruct (h !! l) as [[v| |]|]; try done.
    destruct (read h t v); [|done]. cbn in Hr; simplify_eq.
    destruct v' as [| |[l'|]| |]; try done. by exists l'. }
  exists l', h'. split; [|done]. cbn [deepCopy]. by rewrite (bind_eq _ _ _ _ _ E).
Qed.

(** An original keeps reading the same whatever happens to the memory its copy
    uses, and the copy whatever happens elsewhere. *)
Lemma copied_independent h h' t v v' x :
  read h t v = Some x -> copied h h' t v' x ->
  (forall h2, (forall a, a ∉ reach h' t v' -> h2 !! a = h' !! a) -> read h2 t v = Some x) /\
  (forall h2, agrees h' h2 (reach h' t v') -> read h2 t v' = Some x).
Proof.
  intros Hr (Hs & Hr' & Hn). split; intros h2 Ha.
  - assert (Ho : read h' t v = Some x) by by eapply read_mono.
    rewrite <- Ho. apply read_agrees. intros a Hin. apply Ha. intros Hin'.
    destruct (reach_dom t h v x Hr a) as [c Hc]; [|by rewrite Hn in Hc].
    destruct (read_agrees t h h' v) as [_ Hre]; [by eapply agrees_subseteq|]. by rewrite <- Hre.
  - rewrite <- Hr'. by apply read_agrees.
Qed.

Lemma DeepCopyObject_ok k h l x :
  read h (TPtr (layout k)) (VPtr (Some l)) = Some x ->
  exists l' h', DeepCopyObject k (Some l) h = Some (Some (mkObject k (Some l')), h') /\
    copied h h' (TPtr (layout k)) (VPtr (Some l')) x.
Proof.
  intros Hr. assert (exists f, deep_copier (layout k) f /\
    DeepCopyObject k (Some l) = deepCopyObject k (deepCopy (layout k) f (Some l))) as (f & Hf & Hk)
    by (destruct k; (eexists; split; [|reflexivity]); cbn [layout]; solve [auto with deepcopy]).
  destruct (deepCopy_ok _ f h l x Hf Hr) as (l' & h' & E & Hc). exists l', h'. split; [|done].
  rewrite Hk. unfold deepCopyObject. by rewrite (bind_eq _ _ _ _ _ E).
Qed.

(** C26: A copy of a registered object is a copy and is separate. It never panics on
    an object that can be read; nothing that was in memory changes; the copy is of the same kind and reads
    like the original. Whatever is written to the memory of the copy afterwards,
    the original reads as before, and whatever is written anywhere else, so does
    the copy. The copy of nil is the nil interface, not an interface to a nil
    pointer. *)
Theorem deep_copies_share_nothing (k : kind) (h : heap) (l : loc) (x : tree) :
  read h (TPtr (layout k)) (VPtr (Some l)) = Some x ->
  DeepCopyObject k None h = Some (None, h) /\
  exists l' h', DeepCopyObject k (Some l) h = Some (Some (mkObject k (Some l')), h') /\ h ⊆ h' /\
    read h' (TPtr (layout k)) (VPtr (Some l')) = Some x /\
    let mine := reach h' (TPtr (layout k)) (VPtr (Some l')) in
    (forall h2, (forall a, a ∉ mine -> h2 !! a = h' !! a) -> read h2 (TPtr (layout k)) (VPtr (Some l)) = Some x) /\
    (forall h2, (forall a, a ∈ mine -> h2 !! a = h' !! a) -> read h2 (TPtr (layout k)) (VPtr (Some l')) = Some x).
Proof.
  intros Hr. split; [by destruct k|]. destruct (DeepCopyObject_ok k h l x Hr) as (l' & h' & E & Hc).
  exists l', h'. split; [done|]. split; [apply Hc|]. split; [apply Hc|].
  by apply (copied_independent h).
Qed.

(** The status patch is computed against the object as it was read. However the
    reconciler changes the gateway through its pointer, in place included, as
    long as it writes only memory the gateway leads to or new memory, the base of
    the patch still is the gateway before the changes. *)
Theorem status_patch_base_is_what_was_read (mutate : loc -> M unit) (gw : loc) (h h' : heap) (x : tree)
    (base after : option tree) :
  read h (TPtr tMailoutGateway) (VPtr (Some gw)) = Some x ->
  (forall h1 h2, h ⊆ h1 -> mutate gw h1 = Some (tt, h2) ->
    forall a, h2 !! a = h1 !! a \/ a ∈ reach h (TPtr tMailoutGateway) (VPtr (Some gw)) \/ h1 !! a = None) ->
  patchStatus mutate gw h = Some ((base, after), h') ->
  base = Some x.
Proof.
  intros Hr Hm. unfold patchStatus.
  destruct (deepCopy_ok _ _ h gw x MailoutGateway_deep Hr) as (l' & h1 & E & Hs & Hr' & Hn).
  fold MailoutGateway_DeepCopy in E. rewrite (bind_eq _ _ _ _ _ E). unfold bind.
  destruct (mutate gw h1) as [[[] h2]|] eqn:Em; [|done]. cbn [mbind option_bind].
  enough (Hb : read h2 (TPtr tMailoutGateway) (VPtr (Some l')) = Some x) by (rewrite Hb; by intros [= <- _ _]).
  rewrite <- Hr'. apply read_agrees. intros a Ha.
  destruct (Hm h1 h2 Hs Em a) as [|[Hin|Hnone]]; [done|exfalso..].
  - destruct (reach_dom _ _ _ _ Hr a Hin) as [c Hc]. by rewrite Hn in Hc.
  - destruct (reach_dom _ _ _ _ Hr' a Ha) as [c Hc]. by rewrite Hnone in Hc.
Qed.
End Right.

(** ** Witnesses *)

Definition strings (names : list string) : ty := TStruct ((λ n, (n, TString)) <$> names).

(** Small stand-ins for the foreign types, with the shapes that matter: strings,
    a map, a slice. *)
Definition toy_machinery : ApiMachinery := {|
  TypeMeta := strings ["Kind"; "APIVersion"];
  ObjectMeta := TStruct [("Name", TString); ("Namespace", TString); ("Labels", TMap TString)];
  ListMeta := strings ["ResourceVersion"];
  Condition := strings ["Type"; "Status"; "Reason"];
  LabelSelector := TStruct [("MatchLabels", TMap TString)];
  Duration := TInt;
  ResourceRequirements := TStruct [("Limits", TMap TString); ("Requests", TMap TString)];
  Toleration := TStruct [("Key", TString); ("TolerationSeconds", TPtr TInt)];
  Affinity := TStruct [("NodeNames", TSlice TString)];
  CoreSecretKeySelector := strings ["Name"; "Key"];
  ObjectMeta_DeepCopyInto := copyInto [("Labels", make_range)];
  ListMeta_DeepCopyInto := copyInto [];
  Condition_DeepCopyInto := copyInto [];
  LabelSelector_DeepCopyInto := copyInto [("MatchLabels", make_range)];
  ResourceRequirements_DeepCopyInto := copyInto [("Limits", make_range); ("Requests", make_range)];
  Toleration_DeepCopyInto := copyInto [("TolerationSeconds", new_assign TInt)];
  Affinity_DeepCopyInto := copyInto [("NodeNames", make_copy TString)];
  CoreSecretKeySelector_DeepCopyInto := copyInto []
|}.

Definition toy_machinery_sound : ApiMachinerySound toy_machinery.
Proof. constructor; try reflexivity; deep_copy. Defined.

Definition str (s : string) : val := VBase (BString (lit s)).

(** The fields of a zero value, some of them given. *)
Definition with_fields (t : ty) (given : list (string * val)) : val :=
  match zero t with
  | VStruct fs => VStruct (foldl (λ fs g, setField g.1 g.2 fs) fs given)
  | v => v
  end.

#[local] Existing Instance toy_machinery.

(** A gateway at address 1, with a grant and two conditions. *)
Definition toy_gateway : val :=
  with_fields tMailoutGateway [
    ("ObjectMeta", with_fields ObjectMeta [("Name", str "gw"); ("Labels", VMap (Some 2%positive))]);
    ("Spec", with_fields tMailoutGatewaySpec [("AllowedSenders", VSlice (Some (3%positive, 0, 1)))]);
    ("Status", with_fields tMailoutGatewayStatus [("Conditions", VSlice (Some (5%positive, 0, 2)))])].

Definition toy_condition (type_ status : string) : val :=
  with_fields Condition [("Type", str type_); ("Status", str status)].

Definition toy_memory : heap :=
  list_to_map [
    (1%positive, CVar toy_gateway);
    (2%positive, CMap {[lit "app" := str "mail"]});
    (3%positive, CArray [with_fields tSenderGrantSpec [("Senders", VSlice (Some (4%positive, 1, 1)))]]);
    (4%positive, CArray [str "unused"; str "*@example.com"]);
    (5%positive, CArray [toy_condition "Accepted" "True"; toy_condition "Ready" "False"])].

Definition toy_tree : tree :=
  default (LPtr None) (read toy_memory (TPtr tMailoutGateway) (VPtr (Some 1%positive))).

Lemma share_nothing_witness :
  read toy_memory (TPtr tMailoutGateway) (VPtr (Some 1%positive)) = Some toy_tree /\
  exists l' h',
    DeepCopyObject MailoutGatewayKind (Some 1%positive) toy_memory =
      Some (Some (mkObject MailoutGatewayKind (Some l')), h') /\
    read h' (TPtr tMailoutGateway) (VPtr (Some l')) = Some toy_tree /\
    read (<[l' := CVar (zero tMailoutGateway)]> h') (TPtr tMailoutGateway) (VPtr (Some 1%positive)) = Some toy_tree.
Proof.
  assert (Hr : read toy_memory (TPtr tMailoutGateway) (VPtr (Some 1%positive)) = Some toy_tree)
    by (vm_compute; reflexivity).
  split; [exact Hr|].
  destruct (@deep_copies_share_nothing toy_machinery toy_machinery_sound MailoutGatewayKind toy_memory 1%positive
    toy_tree Hr) as (_ & l' & h' & E & _ & Hr' & Ho & _).
  exists l', h'. split; [exact E|]. split; [exact Hr'|]. apply Ho. intros a Ha. apply lookup_insert_ne.
  intros <-. apply Ha. left.
Defined.

(** A reconciler that rewrites the two conditions where they are. *)
Definition toy_mutate (gw : loc) : M unit :=
  store 5%positive (CArray [toy_condition "Accepted" "False"; toy_condition "Ready" "False"]).

Lemma status_patch_witness :
  exists base after h',
    patchStatus toy_mutate 1%positive toy_memory = Some ((base, after), h') /\
    base = Some toy_tree /\ after <> Some toy_tree.
Proof.
  assert (Hafter : (λ r, r.1.2) <$> patchStatus toy_mutate 1%positive toy_memory <> Some (Some toy_tree))
    by (vm_compute; discriminate).
  destruct (patchStatus toy_mutate 1%positive toy_memory) as [[[base after] h']|] eqn:E;
    [|exfalso; revert E; vm_compute; discriminate].
  exists base, after, h'. split; [reflexivity|]. split.
  - apply (@status_patch_base_is_what_was_read toy_machinery toy_machinery_sound toy_mutate 1%positive toy_memory h'
      toy_tree base after); [vm_compute; reflexivity| |exact E].
    intros h1 h2 _ Hm a. unfold toy_mutate, store in Hm. destruct (h1 !! 5%positive); [|discriminate].
    injection Hm as <-. destruct (decide (a = 5%positive)) as [->|Hne].
    + right; left. apply (bool_decide_unpack _). vm_compute. exact I.
    + left. apply lookup_insert_ne. congruence.
  - intros ->. apply Hafter. reflexivity.
Defined.
