(* ===== verification/Api.v ===== *)
(** * Api: the custom resources and the API server

    Models [src/api/v1alpha1]: the fields of [MailoutGateway] and
    [MailoutAccount]. The Kubernetes values a gateway only passes on to its
    Deployment (resources, tolerations, affinity), which the program never looks
    into, are kept in serialized form. A pointer field is an [option], a
    [metav1.Duration] a [Z] of nanoseconds, a [metav1.Time] a [Z].

    The API server and the selector language of apimachinery are outside: the
    server answers each read as a function of the call's position, so that
    objects may change between two reads, and a label selector is a type with
    a conversion that may fail. *)

From S2P Require Import Prelude.
#[local] Open Scope Z_scope.

(** apimachinery's selectors over a set of labels. *)
Abbreviation labels := (gmap bytes bytes).

Class Selectors := {
  LabelSelector : Type;
  LabelSelector_eq_dec :: EqDecision LabelSelector;
  LabelSelectorAsSelector : LabelSelector -> result (labels -> bool)
}.

(** Selectors that ask for a set of labels, as [matchLabels] does. *)
Definition matchLabels : Selectors := {|
  LabelSelector := labels;
  LabelSelector_eq_dec := _;
  LabelSelectorAsSelector := λ sel, Ok (λ ls, bool_decide (map_Forall (λ k v, ls !! k = Some v) sel))
|}.

Module Api.

(** ** common_types.go *)

Definition ReasonAccepted : bytes := lit "Accepted".
Definition ReasonGatewayNotFound : bytes := lit "GatewayNotFound".
Definition ReasonNamespaceNotAllowed : bytes := lit "NamespaceNotAllowed".
Definition ReasonUsernameConflict : bytes := lit "UsernameConflict".
Definition ReasonInvalidSpec : bytes := lit "InvalidSpec".
Definition ReasonSecretMissing : bytes := lit "SecretMissing".
Definition ReasonDeploymentNotReady : bytes := lit "DeploymentNotReady".
Definition ReasonReady : bytes := lit "Ready".
Definition ReasonDisabled : bytes := lit "Disabled".
Definition ConditionAccepted : bytes := lit "Accepted".
Definition ConditionReady : bytes := lit "Ready".

Record LocalObjectReference := mkRef { ref_Name : bytes }.

Record SecretKeySelector := mkKeySel { sel_Name : bytes; sel_Key : bytes }.

Definition TLSModeStartTLS : bytes := lit "StartTLS".
Definition TLSModeImplicit : bytes := lit "Implicit".
Definition TLSModeNone : bytes := lit "None".

Record DKIMKeySpec := mkDKIMKeySpec {
  k_Domain : bytes;
  k_Selector : bytes;
  PrivateKeySecretRef : SecretKeySelector;
  k_HeaderKeys : list bytes
}.

Record MilterSpec := mkMilterSpec {
  ms_Name : bytes; ms_Address : bytes; ms_FailOpen : bool; ms_Timeout : option Z
}.

(** The metadata the program reads. *)
Record ObjectMeta := mkMeta {
  Name : bytes;
  Namespace : bytes;
  UID : bytes;
  CreationTimestamp : Z;
  Generation : Z
}.

(** ** mailoutaccount_types.go *)

Record GatewayReference := mkGatewayRef { gr_Name : bytes; gr_Namespace : bytes }.

Record MailoutAccountSpec := mkAccountSpec {
  GatewayRef : GatewayReference;
  as_Username : bytes;
  SecretRef : LocalObjectReference;
  Rotation : bytes;
  as_AllowedSenders : list bytes;
  EnforceHeaderFrom : option bool;
  as_Disabled : bool
}.

(** metav1.Condition, less its transition time. *)
Record Condition := mkCondition {
  c_Type : bytes; c_Status : bool; c_Reason : bytes; c_Message : bytes; c_Generation : Z
}.

Record MailoutAccountStatus := mkAccountStatus {
  Conditions : list Condition;
  ObservedGeneration : Z;
  st_Username : bytes;
  SecretName : bytes;
  st_Gateway : bytes;
  RotationObserved : bytes
}.

Record MailoutAccount := mkMailoutAccount {
  a_meta : ObjectMeta;
  a_spec : MailoutAccountSpec;
  a_status : MailoutAccountStatus
}.

(** ** mailoutgateway_types.go *)

Record ListenerSpec := mkListenerSpec { ls_Port : Z }.
Record ListenersSpec := mkListenersSpec {
  Submission : option ListenerSpec; SMTPS : option ListenerSpec
}.

Record IssuerReference := mkIssuer { i_Name : bytes; i_Kind : bytes; i_Group : bytes }.

Record GatewayTLSSpec := mkTLSSpec {
  CertificateRefs : list LocalObjectReference;
  IssuerRef : option IssuerReference;
  DNSNames : list bytes;
  t_DefaultCertificate : bytes
}.

Record UpstreamSpec := mkUpstreamSpec {
  us_Host : bytes;
  us_Port : Z;
  us_TLS : bytes;
  AuthSecretRef : option LocalObjectReference;
  CASecretRef : option SecretKeySelector;
  us_InsecureSkipVerify : bool;
  HandlesDKIM : bool;
  us_Timeout : option Z
}.

Record RateLimitStoreTLSSpec := mkStoreTLS {
  rt_CASecretRef : option SecretKeySelector; rt_InsecureSkipVerify : bool
}.

Record RateLimitStoreSpec := mkStoreSpec {
  rs_Addresses : list bytes;
  rs_MasterName : bytes;
  rs_DB : Z;
  rs_AuthSecretRef : option LocalObjectReference;
  SentinelAuthSecretRef : option LocalObjectReference;
  rs_TLS : option RateLimitStoreTLSSpec;
  rs_Timeout : option Z
}.

Record RateLimitSpec := mkRateLimitSpec {
  rl_Store : RateLimitStoreSpec;
  rl_MessagesPerMinute : option Z;
  rl_RecipientsPerMinute : option Z
}.

Definition NamespacesFromAll : bytes := lit "All".
Definition NamespacesFromSame : bytes := lit "Same".
Definition NamespacesFromSelector : bytes := lit "Selector".

Record DeploymentSpec := mkDeploymentSpec {
  Replicas : option Z;
  Image : bytes;
  Resources : bytes;               (* serialized *)
  ServiceType : bytes;
  ServiceAnnotations : gmap bytes bytes;
  PodAnnotations : gmap bytes bytes;
  NodeSelector : gmap bytes bytes;
  Tolerations : list bytes;        (* each serialized *)
  Affinity : option bytes          (* serialized *)
}.

Record ListenerStatus := mkListenerStatus { lst_Name : bytes; lst_Port : Z; lst_Mode : bytes }.

Record MailoutGatewayStatus := mkGatewayStatus {
  gst_Conditions : list Condition;
  gst_ObservedGeneration : Z;
  AcceptedAccounts : Z;
  gst_Listeners : list ListenerStatus;
  ServiceName : bytes
}.

Section Gateway.
Context `{Selectors}.

Record AllowedAccountsSpec := mkAllowedAccounts {
  Namespaces : bytes; aa_Selector : option LabelSelector
}.

Record SenderGrantSpec := mkGrant {
  Senders : list bytes; NamespaceSelector : option LabelSelector
}.

Record NetworkPeer := mkPeer {
  np_NamespaceSelector : option LabelSelector; np_PodSelector : option LabelSelector
}.

Record MetricsSpec := mkMetricsSpec { AllowedScrapers : list NetworkPeer }.

Record MailoutGatewaySpec := mkGatewaySpec {
  gs_Hostname : bytes;
  gs_Listeners : ListenersSpec;
  gs_TLS : GatewayTLSSpec;
  gs_Upstream : UpstreamSpec;
  gs_DKIM : list DKIMKeySpec;
  gs_Milters : list MilterSpec;
  AllowedAccounts : AllowedAccountsSpec;
  gs_AllowedSenders : list SenderGrantSpec;
  gs_RateLimit : option RateLimitSpec;
  gs_Deployment : DeploymentSpec;
  gs_Metrics : MetricsSpec
}.

Record MailoutGateway := mkGateway {
  g_meta : ObjectMeta; g_spec : MailoutGatewaySpec; g_status : MailoutGatewayStatus
}.

(** The ports are pairs of a protocol and a number; a rule lets every source in
    when it names no peer. *)
Record IngressRule := mkRule { ir_Ports : list (bytes * Z); ir_From : list NetworkPeer }.

Record NetworkPolicy := mkNetworkPolicy {
  npol_Name : bytes;
  npol_Namespace : bytes;
  npol_Labels : gmap bytes bytes;
  npol_PodSelector : gmap bytes bytes;
  PolicyTypes : list bytes;
  Ingress : list IngressRule
}.
End Gateway.

(** ** The objects the operator writes

    Each is a record of the fields the code sets, with those of the existing
    object it reads back. *)

Inductive IntOrString := FromInt32 (z : Z) | FromString (s : bytes).

Definition ProtocolTCP : bytes := lit "TCP".

Record ServicePort := mkServicePort {
  sp_Name : bytes; sp_Port : Z; TargetPort : IntOrString; sp_Protocol : bytes
}.

Record Service := mkService {
  svc_Name : bytes;
  svc_Namespace : bytes;
  svc_Labels : gmap bytes bytes;
  svc_Annotations : gmap bytes bytes;
  svc_Selector : gmap bytes bytes;
  svc_Type : bytes;
  svc_Ports : list ServicePort;
  ClusterIP : bytes  (* assigned by the API server *)
}.

(** cert-manager's Certificate; its status is not read. *)
Record CertificateSpec := mkCertificateSpec {
  cs_SecretName : bytes;
  cs_DNSNames : list bytes;
  CommonName : bytes;
  cs_IssuerRef : IssuerReference
}.

Record Certificate := mkCertificateObject {
  crt_Name : bytes;
  crt_Namespace : bytes;
  crt_Labels : gmap bytes bytes;
  crt_Spec : CertificateSpec
}.

(** prometheus-operator's ServiceMonitor. *)
Record SafeAuthorization := mkAuthorization {
  auth_Type : bytes; auth_Credentials : option SecretKeySelector
}.

Record MonitorEndpoint := mkMonitorEndpoint {
  me_Port : bytes;
  me_Path : bytes;
  me_Scheme : bytes;
  me_Interval : bytes;
  me_Authorization : option SafeAuthorization
}.

Record MonitorNamespaces := mkMonitorNamespaces { Any : bool; MatchNames : list bytes }.

Record ServiceMonitorSpec := mkMonitorSpec {
  sms_Selector : gmap bytes bytes;   (* its matchLabels *)
  sms_Namespaces : MonitorNamespaces;
  sms_Endpoints : list MonitorEndpoint;
  JobLabel : bytes
}.

Record ServiceMonitor := mkServiceMonitor {
  sm_Name : bytes;
  sm_Namespace : bytes;
  sm_Labels : gmap bytes bytes;
  sm_Spec : ServiceMonitorSpec
}.

Inductive VolumeSource :=
| FromSecret (secretName : bytes) (defaultMode : Z)
| EmptyDir (sizeLimit : bytes).

Record Volume := mkVolume { v_Name : bytes; v_Source : VolumeSource }.
Record VolumeMount := mkMount { vm_Name : bytes; MountPath : bytes; ReadOnly : bool }.
Record ContainerPort := mkContainerPort { cp_Name : bytes; cp_Port : Z; cp_Protocol : bytes }.

Record SecurityContext := mkSecurity {
  AllowPrivilegeEscalation : bool;
  ReadOnlyRootFilesystem : bool;
  RunAsNonRoot : bool;
  RunAsUser : Z;
  RunAsGroup : Z;
  DropCapabilities : list bytes
}.

Record PodSecurityContext := mkPodSecurity {
  pod_RunAsNonRoot : bool;
  pod_RunAsUser : Z;
  pod_RunAsGroup : Z;
  FSGroup : Z;
  SeccompProfile : bytes
}.

(** The pod template, with its one container. A probe is the TCP port it
    connects to. *)
Record PodTemplate := mkPodTemplate {
  pod_Labels : gmap bytes bytes;
  pod_Annotations : gmap bytes bytes;
  AutomountServiceAccountToken : option bool;
  c_Name : bytes;
  c_Image : bytes;
  ImagePullPolicy : bytes;
  Args : list bytes;
  Ports : list ContainerPort;
  VolumeMounts : list VolumeMount;
  c_Resources : bytes;
  ReadinessProbe : option Z;
  LivenessProbe : option Z;
  c_Security : option SecurityContext;
  Volumes : list Volume;
  pod_NodeSelector : gmap bytes bytes;
  pod_Tolerations : list bytes;
  pod_Affinity : option bytes;
  pod_Security : option PodSecurityContext
}.

Definition emptyTemplate : PodTemplate :=
  mkPodTemplate ∅ ∅ None [] [] [] [] [] [] [] None None None [] ∅ [] None None.

Record Deployment := mkDeployment {
  dep_Name : bytes;
  dep_Namespace : bytes;
  dep_Labels : gmap bytes bytes;
  dep_Replicas : option Z;
  dep_Selector : option (gmap bytes bytes);
  Template : PodTemplate;
  AvailableReplicas : Z  (* of its status *)
}.

(** corev1.Secret, as far as the program reads and writes it. The owners are
    pairs of a kind and a name. *)
Record Secret := mkSecret {
  s_Namespace : bytes;
  s_Name : bytes;
  s_Labels : gmap bytes bytes;
  s_Type : bytes;
  s_Data : gmap bytes bytes;
  OwnerReferences : list (bytes * bytes)
}.

#[export] Instance IntOrString_eq_dec : EqDecision IntOrString.
Proof. solve_decision. Defined.
#[export] Instance ServicePort_eq_dec : EqDecision ServicePort.
Proof. solve_decision. Defined.
#[export] Instance Service_eq_dec : EqDecision Service.
Proof. solve_decision. Defined.
#[export] Instance IssuerReference_eq_dec : EqDecision IssuerReference.
Proof. solve_decision. Defined.
#[export] Instance CertificateSpec_eq_dec : EqDecision CertificateSpec.
Proof. solve_decision. Defined.
#[export] Instance Certificate_eq_dec : EqDecision Certificate.
Proof. solve_decision. Defined.
#[export] Instance SecretKeySelector_eq_dec : EqDecision SecretKeySelector.
Proof. solve_decision. Defined.
#[export] Instance SafeAuthorization_eq_dec : EqDecision SafeAuthorization.
Proof. solve_decision. Defined.
#[export] Instance MonitorEndpoint_eq_dec : EqDecision MonitorEndpoint.
Proof. solve_decision. Defined.
#[export] Instance MonitorNamespaces_eq_dec : EqDecision MonitorNamespaces.
Proof. solve_decision. Defined.
#[export] Instance ServiceMonitorSpec_eq_dec : EqDecision ServiceMonitorSpec.
Proof. solve_decision. Defined.
#[export] Instance ServiceMonitor_eq_dec : EqDecision ServiceMonitor.
Proof. solve_decision. Defined.
#[export] Instance VolumeSource_eq_dec : EqDecision VolumeSource.
Proof. solve_decision. Defined.
#[export] Instance Volume_eq_dec : EqDecision Volume.
Proof. solve_decision. Defined.
#[export] Instance VolumeMount_eq_dec : EqDecision VolumeMount.
Proof. solve_decision. Defined.
#[export] Instance ContainerPort_eq_dec : EqDecision ContainerPort.
Proof. solve_decision. Defined.
#[export] Instance SecurityContext_eq_dec : EqDecision SecurityContext.
Proof. solve_decision. Defined.
#[export] Instance PodSecurityContext_eq_dec : EqDecision PodSecurityContext.
Proof. solve_decision. Defined.
#[export] Instance PodTemplate_eq_dec : EqDecision PodTemplate.
Proof. solve_decision. Defined.
#[export] Instance Deployment_eq_dec : EqDecision Deployment.
Proof. solve_decision. Defined.
#[export] Instance NetworkPeer_eq_dec `{Selectors} : EqDecision NetworkPeer.
Proof. solve_decision. Defined.
#[export] Instance IngressRule_eq_dec `{Selectors} : EqDecision IngressRule.
Proof. solve_decision. Defined.
#[export] Instance NetworkPolicy_eq_dec `{Selectors} : EqDecision NetworkPolicy.
Proof. solve_decision. Defined.
#[export] Instance Condition_eq_dec : EqDecision Condition.
Proof. solve_decision. Defined.
#[export] Instance Secret_eq_dec : EqDecision Secret.
Proof. solve_decision. Defined.

(** [m[k]] of a Go map, the zero value when the key is absent. *)
Definition at_key (m : gmap bytes bytes) (k : bytes) : bytes := default [] (m !! k).

End Api.
Export Api.

(** ** The API server *)

(** What a read answers; [apierrors.IsNotFound] tells the second case. *)
Inductive reply (A : Type) :=
| Found (a : A)
| NotFound
| Failed (e : goerror).
Arguments Found {A} a.
Arguments NotFound {A}.
Arguments Failed {A} e.

(** Names an object: namespace, name. *)
Abbreviation ObjectKey := (bytes * bytes)%type.

(** An object with its owner references, as pairs of a kind and a name. *)
Abbreviation owned T := (T * list (bytes * bytes))%type.

Section Effects.
Context `{Selectors}.

(** What the operator makes visible. *)
Inductive effect :=
| WroteSecret (key : ObjectKey) (secret : Secret)
| WroteService (o : owned Service)
| WroteCertificate (o : owned Certificate)
| WroteServiceMonitor (o : owned ServiceMonitor)
| WroteDeployment (o : owned Deployment)
| WroteNetworkPolicy (o : owned NetworkPolicy)
| DeletedNetworkPolicy (key : ObjectKey)
| PatchedAccountStatus (key : ObjectKey) (status : MailoutAccountStatus)
| PatchedGatewayStatus (key : ObjectKey) (status : MailoutGatewayStatus).

Record Calls := mkCalls { calls : nat; effects : list effect }.

(** A computation that calls the API server. *)
Definition K (A : Type) : Type := Calls -> A * Calls.

Definition kret {A} (a : A) : K A := λ s, (a, s).
Definition kbind {A B} (c : K A) (k : A -> K B) : K B := λ s, let '(a, s') := c s in k a s'.

(** Propagation of a Go error. *)
Definition kbind_ok {A B} (c : K (result A)) (k : A -> K (result B)) : K (result B) :=
  kbind c (λ r, match r with Ok a => k a | Err e => kret (Err e) end).

(** The number of the next call. *)
Definition call : K nat := λ s, (calls s, mkCalls (S (calls s)) (effects s)).

(** Record something made visible. *)
Definition emit (e : effect) : K unit := λ s, (tt, mkCalls (calls s) (effects s ++ [e])).
End Effects.

Declare Scope kube_scope.
Delimit Scope kube_scope with kube.
Notation "'do' x '<-' c ';' k" := (kbind c (λ x, k))
  (at level 10, x pattern, c at level 100, k at level 200) : kube_scope.
Notation "'try' x '<-' c ';' k" := (kbind_ok c (λ x, k))
  (at level 10, x pattern, c at level 100, k at level 200) : kube_scope.
#[global] Open Scope kube_scope.

(** The answer to each call, by the number of calls made before it. The labels
    of a namespace are [None] when its map is nil. *)
Class ApiServer `{Selectors} := {
  api_Namespace : nat -> bytes -> reply (option labels);
  api_Gateway : nat -> ObjectKey -> reply MailoutGateway;
  api_Account : nat -> ObjectKey -> reply MailoutAccount;
  api_Secret : nat -> ObjectKey -> reply Secret;
  api_CachedSecret : nat -> ObjectKey -> reply Secret;   (* through the manager's cache *)
  api_Accounts : nat -> result (list MailoutAccount);
  api_Service : nat -> ObjectKey -> reply (owned Service);
  api_Certificate : nat -> ObjectKey -> reply (owned Certificate);
  api_ServiceMonitor : nat -> ObjectKey -> reply (owned ServiceMonitor);
  api_Deployment : nat -> ObjectKey -> reply (owned Deployment);
  api_NetworkPolicy : nat -> ObjectKey -> reply (owned NetworkPolicy);
  api_Write : nat -> option goerror;     (* a patch of a status *)
  api_Delete : nat -> ObjectKey -> reply unit
}.

Section Reads.
Context `{ApiServer}.

Definition GetNamespace (name : bytes) : K (reply (option labels)) :=
  do t <- call; kret (api_Namespace t name).
Definition GetGateway (key : ObjectKey) : K (reply MailoutGateway) :=
  do t <- call; kret (api_Gateway t key).
Definition GetSecret (key : ObjectKey) : K (reply Secret) :=
  do t <- call; kret (api_Secret t key).
Definition GetCachedSecret (key : ObjectKey) : K (reply Secret) :=
  do t <- call; kret (api_CachedSecret t key).
Definition GetAccount (key : ObjectKey) : K (reply MailoutAccount) :=
  do t <- call; kret (api_Account t key).
Definition ListAccounts : K (result (list MailoutAccount)) :=
  do t <- call; kret (api_Accounts t).
End Reads.

(** Text of an object key, [namespace/name]. *)
Definition key_text (key : ObjectKey) : bytes := key.1 ++ lit "/" ++ key.2.

(** The error a failed Get returns, for the callers that do not ask whether
    the object exists. *)
Definition errNotFound : goerror := EText (lit "not found").

(** A state of the operator before it did anything. *)
Definition calls0 `{Selectors} : Calls := mkCalls 0 [].

(** ** Reasoning *)

Section Reading.
Context `{Selectors}.

(** A computation that writes nothing. *)
Definition reads_only {A} (c : K A) : Prop := forall s, effects (c s).2 = effects s.

Lemma reads_ret {A} (a : A) : reads_only (kret a).
Proof. done. Qed.

Lemma reads_bind {A B} (c : K A) (k : A -> K B) :
  reads_only c -> (forall a, reads_only (k a)) -> reads_only (kbind c k).
Proof.
  intros Hc Hk s. unfold kbind. specialize (Hc s). destruct (c s) as [a s'].
  rewrite Hk. exact Hc.
Qed.

Lemma reads_bind_ok {A B} (c : K (result A)) (k : A -> K (result B)) :
  reads_only c -> (forall a, reads_only (k a)) -> reads_only (kbind_ok c k).
Proof. intros Hc Hk. apply reads_bind; [done|]. intros [a|e]; [apply Hk|apply reads_ret]. Qed.

Lemma reads_call : reads_only call.
Proof. done. Qed.

(** A computation whose calls come after those already made. *)
Definition onward {A} (c : K A) : Prop := forall s, (calls s <= calls (c s).2)%nat.

Lemma onward_ret {A} (a : A) : onward (kret a).
Proof. by intros s. Qed.
Lemma onward_call : onward call.
Proof. intros s. cbn. lia. Qed.
Lemma onward_bind {A B} (c : K A) (k : A -> K B) :
  onward c -> (forall a, onward (k a)) -> onward (kbind c k).
Proof.
  intros Hc Hk s. unfold kbind. specialize (Hc s). destruct (c s) as [a s']. specialize (Hk a s'). cbn in *. lia.
Qed.
Lemma onward_bind_ok {A B} (c : K (result A)) (k : A -> K (result B)) :
  onward c -> (forall a, onward (k a)) -> onward (kbind_ok c k).
Proof. intros Hc Hk. apply onward_bind; [done|]. intros [a|e]; [apply Hk|apply onward_ret]. Qed.

(** Everything written between two states satisfies [P]. *)
Definition writes (P : effect -> Prop) (s s' : Calls) : Prop :=
  exists es, effects s' = effects s ++ es /\ Forall P es.

Lemma writes_refl P s s' : effects s' = effects s -> writes P s s'.
Proof. intros E. exists []. by rewrite E, app_nil_r. Qed.

Lemma writes_trans P s1 s2 s3 : writes P s1 s2 -> writes P s2 s3 -> writes P s1 s3.
Proof.
  intros (es & E & He) (fs & F & Hf). exists (es ++ fs). rewrite F, E, app_assoc.
  split; [done|by apply Forall_app].
Qed.

Lemma writes_one (P : effect -> Prop) s s' e : effects s' = effects s ++ [e] -> P e -> writes P s s'.
Proof. intros E He. exists [e]. split; [done|by apply Forall_singleton]. Qed.

Lemma writes_mono (P Q : effect -> Prop) s s' : (forall e, P e -> Q e) -> writes P s s' -> writes Q s s'.
Proof. intros HPQ (es & E & He). exists es. split; [done|by eapply Forall_impl]. Qed.

(** A computation that writes nothing but what satisfies [P]. *)
Definition emits (P : effect -> Prop) {A} (c : K A) : Prop := forall s, writes P s (c s).2.

Lemma emits_reads P {A} (c : K A) : reads_only c -> emits P c.
Proof. intros Hc s. by apply writes_refl. Qed.

Lemma emits_ret P {A} (a : A) : emits P (kret a).
Proof. intros s. by apply writes_refl. Qed.

Lemma emits_call P : emits P call.
Proof. intros s. by apply writes_refl. Qed.

Lemma emits_emit (P : effect -> Prop) e : P e -> emits P (emit e).
Proof. intros He s. by eapply writes_one. Qed.

(** The continuation may rely on what the computation returned. *)
Lemma emits_bind P {A B} (c : K A) (k : A -> K B) :
  emits P c -> (forall s a s', c s = (a, s') -> writes P s' (k a s').2) -> emits P (kbind c k).
Proof.
  intros Hc Hk s. unfold kbind. specialize (Hc s). specialize (Hk s). destruct (c s) as [a s'].
  eapply writes_trans; [exact Hc|]. by apply Hk.
Qed.

Lemma emits_bind_ok P {A B} (c : K (result A)) (k : A -> K (result B)) :
  emits P c -> (forall s a s', c s = (Ok a, s') -> writes P s' (k a s').2) -> emits P (kbind_ok c k).
Proof.
  intros Hc Hk. apply emits_bind; [done|]. intros s [a|e] s' E; [by eapply Hk|by apply writes_refl].
Qed.

Lemma emits_seq P {A B} (c : K A) (k : A -> K B) :
  emits P c -> (forall a, emits P (k a)) -> emits P (kbind c k).
Proof. intros Hc Hk. apply emits_bind; [done|]. intros s a s' _. apply Hk. Qed.

Lemma emits_seq_ok P {A B} (c : K (result A)) (k : A -> K (result B)) :
  emits P c -> (forall a, emits P (k a)) -> emits P (kbind_ok c k).
Proof. intros Hc Hk. apply emits_bind_ok; [done|]. intros s a s' _. apply Hk. Qed.
End Reading.

#[export] Hint Resolve reads_ret reads_call emits_ret emits_call onward_ret onward_call : mailout.

(** Prove [reads_only] by following the structure of a computation. *)
Ltac reads_tac :=
  repeat first
    [ solve [auto with mailout]
    | apply reads_bind_ok; [|intros]
    | apply reads_bind; [|intros]
    | progress intros
    | case_match ].

(** The same for [onward]. *)
Ltac onward_tac :=
  repeat first
    [ solve [auto with mailout]
    | apply onward_bind_ok; [|intros]
    | apply onward_bind; [|intros]
    | progress intros
    | case_match ].

(** The same for [emits]; what each leaf writes is left. *)
Ltac emits_tac :=
  repeat match goal with
  | |- emits _ (kret _) => apply emits_ret
  | |- emits _ call => apply emits_call
  | |- emits _ (kbind_ok _ _) => apply emits_seq_ok; [|intros ?]
  | |- emits _ (kbind _ _) => apply emits_seq; [|intros ?]
  | |- emits _ (match ?x with _ => _ end) => destruct x eqn:?
  end.

(** Run a computation symbolically. *)
Ltac run_api :=
  unfold GetNamespace, GetGateway, GetAccount, GetSecret, GetCachedSecret, ListAccounts in *;
  unfold kbind_ok in *; unfold kbind, kret, call in *;
  cbn [calls effects fst snd] in *.
