(* ===== verification/Access.v ===== *)
(** * Access: who may attach to a gateway, and what they are granted

    Models [src/internal/controller/access.go]: the namespace a gateway
    reference points at, the gateway's decision to accept a namespace, the
    username provisioned, and the union of the sender grants that apply to a
    namespace, with the labels of the namespace read at most once. *)

From S2P Require Import Prelude Unicode GoStrings Policy Api.
Import Policy.
#[local] Open Scope Z_scope.

Module Access.

(** The namespace an account's gatewayRef points at. *)
Definition GatewayNamespaceFor (account : MailoutAccount) (operatorNamespace : bytes) : bytes :=
  if gr_Namespace (GatewayRef (a_spec account)) <>b [] then gr_Namespace (GatewayRef (a_spec account))
  else operatorNamespace.

(** The account name actually provisioned. *)
Definition UsernameFor (account : MailoutAccount) : bytes :=
  if as_Username (a_spec account) <>b [] then as_Username (a_spec account)
  else Namespace (a_meta account) ++ lit "." ++ Name (a_meta account).

Section Ops.
Context `{ApiServer}.

(** Does the gateway accept accounts from this namespace? *)
Definition namespaceAllowed (gw : MailoutGateway) (namespace : bytes) : K (result bool) :=
  let from := Namespaces (AllowedAccounts (g_spec gw)) in
  let from := if from =b [] then NamespacesFromAll else from in
  if from =b NamespacesFromAll then kret (Ok true)
  else if from =b NamespacesFromSame then kret (Ok (namespace =b Namespace (g_meta gw)))
  else if from =b NamespacesFromSelector then
    match aa_Selector (AllowedAccounts (g_spec gw)) with
    | None => kret (Ok false)
    | Some sel =>
        match LabelSelectorAsSelector sel with
        | Err e => kret (Err (EWrap (lit "invalid allowedAccounts selector") e))
        | Ok selector =>
            do ns <- GetNamespace namespace;
            match ns with
            | Found ls => kret (Ok (selector (default ∅ ls)))
            | NotFound => kret (Err (EWrap (lit "get namespace " ++ namespace) errNotFound))
            | Failed e => kret (Err (EWrap (lit "get namespace " ++ namespace) e))
            end
        end
    end
  else kret (Err (EText (lit "unknown allowedAccounts.namespaces value " ++ from))).

(** The labels of a namespace; a nil map reads as an empty one. *)
Definition namespaceLabels (namespace : bytes) : K (result labels) :=
  do ns <- GetNamespace namespace;
  match ns with
  | Found ls => kret (Ok (default ∅ ls))
  | NotFound => kret (Err (EWrap (lit "get namespace " ++ namespace) errNotFound))
  | Failed e => kret (Err (EWrap (lit "get namespace " ++ namespace) e))
  end.

(** The loop of [grantedSenders] from index [i], with the labels read so far
    ([None] is the nil map: not read yet) and the senders granted so far. *)
Fixpoint grantLoop (namespace : bytes) (i : Z) (grants : list SenderGrantSpec)
    (nsLabels : option labels) (granted : list bytes) : K (result (list bytes * option labels)) :=
  match grants with
  | [] => kret (Ok (granted, nsLabels))
  | grant :: rest =>
      match NamespaceSelector grant with
      | None => grantLoop namespace (i + 1) rest nsLabels (granted ++ Senders grant)
      | Some sel =>
          match LabelSelectorAsSelector sel with
          | Err e =>
              kret (Err (EWrap (lit "invalid allowedSenders[" ++ itoa i ++ lit "].namespaceSelector") e))
          | Ok selector =>
              try ls <- (match nsLabels with
                         | None => namespaceLabels namespace
                         | Some ls => kret (Ok ls)
                         end);
              if negb (selector ls) then grantLoop namespace (i + 1) rest (Some ls) granted
              else grantLoop namespace (i + 1) rest (Some ls) (granted ++ Senders grant)
          end
      end
  end.

(** The union of the gateway's sender grants that apply to a namespace, and
    what [*nsLabels] holds afterwards. *)
Definition grantedSenders (gw : MailoutGateway) (namespace : bytes) (nsLabels : option labels)
    : K (result (list bytes * option labels)) :=
  grantLoop namespace 0 (gs_AllowedSenders (g_spec gw)) nsLabels [].

Definition GrantedSendersFor (gw : MailoutGateway) (namespace : bytes) : K (result (list bytes)) :=
  try r <- grantedSenders gw namespace None; let '(granted, _) := r in kret (Ok granted).
End Ops.

End Access.
Import Access.

(** ** What a grant means *)

Section Meaning.
Context `{ApiServer}.

(** A grant applies to a namespace with these labels: it has no selector, or
    one that converts and matches. *)
Definition applies (grant : SenderGrantSpec) (ls : labels) : Prop :=
  match NamespaceSelector grant with
  | None => True
  | Some sel => exists f, LabelSelectorAsSelector sel = Ok f /\ f ls = true
  end.

(** The labels some read of the namespace returned, [ls] being what an earlier
    read left. *)
Definition labels_read (namespace : bytes) (t t' : nat) (ls : labels) : Prop :=
  exists n r, (t <= n < t')%nat /\ api_Namespace n namespace = Found r /\ ls = default ∅ r.

(** One entry of the result comes from a grant that applies to the labels
    held at the end, and every sender of such a grant is in it. *)
Definition granted_by (grants : list SenderGrantSpec) (acc granted : list bytes)
    (ls : option labels) : Prop :=
  forall e, e ∈ granted <-> e ∈ acc \/
    exists g, g ∈ grants /\ e ∈ Senders g /\
      match NamespaceSelector g with
      | None => True
      | Some _ => exists l, ls = Some l /\ applies g l
      end.

Lemma namespaceLabels_spec namespace s r s' :
  namespaceLabels namespace s = (r, s') ->
  calls s' = S (calls s) /\ effects s' = effects s /\
  forall ls, r = Ok ls -> labels_read namespace (calls s) (calls s') ls.
Proof.
  unfold namespaceLabels. run_api. destruct (api_Namespace (calls s) namespace) as [l| |e] eqn:E;
    intros [= <- <-]; split_and!; try done.
  intros ls [= <-]. exists (calls s), l. cbn. split_and!; [lia|lia|done|done].
Qed.

Lemma reads_namespaceLabels ns : reads_only (namespaceLabels ns).
Proof. intros s. destruct (namespaceLabels ns s) as [r s'] eqn:E. cbn. by apply namespaceLabels_spec in E as (_ & -> & _). Qed.

(** The gateway accepts a namespace: it accepts all of them, its own, or those
    with labels its selector matches. *)
Definition accepts (gw : MailoutGateway) (namespace : bytes) : Prop :=
  let from := Namespaces (AllowedAccounts (g_spec gw)) in
  from = [] \/ from = NamespacesFromAll \/
  (from = NamespacesFromSame /\ namespace = Namespace (g_meta gw)) \/
  (from = NamespacesFromSelector /\
   exists sel f n ls, aa_Selector (AllowedAccounts (g_spec gw)) = Some sel /\
     LabelSelectorAsSelector sel = Ok f /\ api_Namespace n namespace = Found ls /\
     f (default ∅ ls) = true).

Lemma namespaceAllowed_spec gw namespace s r s' :
  namespaceAllowed gw namespace s = (r, s') ->
  effects s' = effects s /\ (r = Ok true -> accepts gw namespace).
Proof.
  unfold namespaceAllowed, accepts. cbv zeta.
  destruct (decide (Namespaces (AllowedAccounts (g_spec gw)) = [])) as [E|E];
    [rewrite (bool_decide_eq_true_2 _ E)|rewrite (bool_decide_eq_false_2 _ E)].
  { intros [= <- <-]. eauto. }
  repeat (case_bool_decide; [|]); run_api; try (intros [= <- <-]; split; [done|]; intros; bools;
    simplify_eq; by eauto 6 with congruence).
  destruct (aa_Selector _) as [sel|] eqn:Es; [|by intros [= <- <-]].
  destruct (LabelSelectorAsSelector sel) as [f|] eqn:Ef; [|by intros [= <- <-]].
  destruct (api_Namespace _ _) as [ls| |] eqn:En; intros [= <- <-]; split; try done.
  intros [= Hf]. do 3 right. split; [done|]. by exists sel, f, (calls s), ls.
Qed.

(** The loop reads the labels at most once, and not at all when it was given
    them; what it returns is what the grants that apply add. *)
Lemma grantLoop_spec namespace grants : forall i nsLabels acc s r s',
  grantLoop namespace i grants nsLabels acc s = (r, s') ->
  effects s' = effects s /\
  (calls s <= calls s' <= calls s + (if nsLabels is Some _ then 0 else 1))%nat /\
  forall granted ls, r = Ok (granted, ls) ->
    granted_by grants acc granted ls /\
    match nsLabels with
    | Some l => ls = Some l
    | None => match ls with
              | None => True
              | Some l => labels_read namespace (calls s) (calls s') l
              end
    end.
Proof.
  induction grants as [|g grants IH]; intros i nsLabels acc s r s'; cbn [grantLoop].
  { intros [= <- <-]. split_and!; [done|lia|destruct nsLabels; lia|].
    intros granted ls [= <- <-]. split; [|by destruct nsLabels]. intros e. set_solver. }
  unfold granted_by. setoid_rewrite elem_of_cons.
  destruct (NamespaceSelector g) as [sel|] eqn:Eg.
  2: { intros (He & Hc & Hr)%IH. split_and!; [done|lia|lia|]. intros granted ls E.
       destruct (Hr _ _ E) as [Hg Hl]. split; [|done]. intros e. rewrite (Hg e), elem_of_app.
       split; [intros [[?|?]|(g' & ? & ?)]; [by left|right; exists g; rewrite Eg; eauto|naive_solver]|].
       intros [?|(g' & [->|Hin] & Hs & Hm)]; naive_solver. }
  destruct (LabelSelectorAsSelector sel) as [f|e] eqn:Ef.
  2: { intros [= <- <-]. split_and!; [done|lia|destruct nsLabels; lia|done]. }
  set (first := match nsLabels with None => _ | Some _ => _ end).
  unfold kbind_ok, kbind. destruct (first s) as [[l|e] s1] eqn:E1.
  2: { intros [= <- <-]. destruct nsLabels; [by inversion E1|].
       apply namespaceLabels_spec in E1 as (Hc & He & _). split_and!; [done|lia|lia|done]. }
  assert (effects s1 = effects s /\ (calls s <= calls s1 <= calls s + (if nsLabels is Some _ then 0 else 1))%nat /\
    match nsLabels with Some l' => l = l' | None => labels_read namespace (calls s) (calls s1) l end)
    as (He1 & Hc1 & Hl1).
  { destruct nsLabels; [injection E1 as -> ->; split_and!; [done|lia|lia|done]|].
    apply namespaceLabels_spec in E1 as (Hc & He & Hr). split_and!; [done|lia|lia|by apply Hr]. }
  clear E1 first.
  destruct (negb (f l)) eqn:Efl; intros (He & Hc & Hr)%IH; simpl in Hc;
    (split_and!; [congruence|lia|lia|]); intros granted ls E; destruct (Hr _ _ E) as [Hg ->];
    (split; [|destruct nsLabels; [by subst|]; destruct Hl1 as (n & r0 & ? & ? & ?);
       exists n, r0; split_and!; [lia|lia|done|done]]);
    intros e; rewrite (Hg e), ?elem_of_app; bools.
  - split; [naive_solver|]. intros [?|(g' & [->|Hin] & Hs & Hm)]; [by left| |naive_solver].
    rewrite Eg in Hm. destruct Hm as (l' & [= <-] & Ha). unfold applies in Ha. rewrite Eg in Ha.
    destruct Ha as (f' & Ef' & ?). rewrite Ef in Ef'. simplify_eq. congruence.
  - split; [intros [[?|?]|(g' & ? & ?)]; [by left|right; exists g|naive_solver]|].
    + rewrite Eg. split_and!; [by left|done|]. exists l. split; [done|]. unfold applies. rewrite Eg. eauto.
    + intros [?|(g' & [->|Hin] & Hs & Hm)]; [by left; left|by left; right|naive_solver].
Qed.

Lemma grantedSenders_spec gw namespace s r s' :
  grantedSenders gw namespace None s = (r, s') ->
  effects s' = effects s /\ (calls s <= calls s' <= calls s + 1)%nat /\
  forall granted ls, r = Ok (granted, ls) ->
    granted_by (gs_AllowedSenders (g_spec gw)) [] granted ls /\
    match ls with None => True | Some l => labels_read namespace (calls s) (calls s') l end.
Proof. apply (grantLoop_spec _ _ _ None). Qed.
End Meaning.
