(* ===== verification/Render.v ===== *)
(** * Render: from the resources to the dataplane's configuration

    Models [src/internal/render/render.go]: the translation of a gateway and
    its resolved accounts into the configuration [Config] serves, the Secrets
    it mounts, and the drop of accounts when the rendered file would not fit a
    Secret. [sort.Slice] is not stable, so it is a parameter: any function that
    permutes its input into an order. The size of the rendered file is that of
    the YAML library's output, also a parameter.
    [ListenerStatuses] is in [Objects]. *)

From S2P Require Import Prelude Unicode GoStrings Passwords Config Api.
#[local] Open Scope Z_scope.
#[local] Set Default Proof Using "Type*".

(** ** path/filepath *)

Module Filepath.
Definition SLASH : ascii := chr 47.

(** The elements between separators. *)
Fixpoint split (s : bytes) : list bytes :=
  match s with
  | [] => [[]]
  | c :: s' =>
      if c =b SLASH then [] :: split s'
      else match split s' with
           | [] => [[c]]
           | e :: es => (c :: e) :: es
           end
  end.

Fixpoint joined (es : list bytes) : bytes :=
  match es with
  | [] => []
  | [e] => e
  | e :: es' => e ++ SLASH :: joined es'
  end.

(** One element, on the stack of those kept so far (the last first). *)
Definition push (rooted : bool) (stack : list bytes) (e : bytes) : list bytes :=
  if (e =b []) || (e =b lit ".") then stack
  else if e =b lit ".." then
    match stack with
    | top :: rest => if top =b lit ".." then e :: stack else rest
    | [] => if rooted then [] else [e]
    end
  else e :: stack.

Definition Clean (path : bytes) : bytes :=
  let rooted := HasPrefix path [SLASH] in
  let out := (if rooted then [SLASH] else []) ++ joined (rev (foldl (push rooted) [] (split path))) in
  if out =b [] then lit "." else out.

(** Leading empty elements are skipped; the rest is joined and cleaned. *)
Fixpoint Join (elem : list bytes) : bytes :=
  match elem with
  | [] => []
  | e :: rest => if e =b [] then Join rest else Clean (joined elem)
  end.
End Filepath.

(** ** sort.Slice *)

Class Sorter := { sortSlice : forall {A : Type}, (A -> A -> bool) -> list A -> list A }.

(** What the package promises for a [less] that is a strict weak order. *)
Class SorterSound (S : Sorter) := {
  sortSlice_perm {A} (less : A -> A -> bool) l : sortSlice less l ≡ₚ l;
  sortSlice_sorted {A} (less : A -> A -> bool) l :
    (forall x y, less x y = true -> less y x = false) ->
    (forall x y z, less y x = false -> less z y = false -> less z x = false) ->
    Sorted (λ x y, less y x = false) (sortSlice less l)
}.

(** sigs.k8s.io/yaml, on the two values the program measures. *)
Class Yaml := {
  yaml_Config : Config.Config -> result bytes;
  yaml_Account : Config.Account -> result bytes
}.

Module Render.
Import Filepath.

Definition ConfigDir : bytes := lit "/etc/mailout".
Definition SpoolDir : bytes := lit "/var/spool/mailout".
Definition ConfigFileName : bytes := lit "gateway.yaml".
Definition TLSDir : bytes := lit "/etc/mailout/tls".
Definition DKIMDir : bytes := lit "/etc/mailout/dkim".
Definition DefaultDKIMKeyName : bytes := lit "private.key".
Definition DefaultSubmissionPort : Z := 587.
Definition DefaultSMTPSPort : Z := 465.
Definition MetricsPort : Z := 9090.
Definition PasswordHashKey : bytes := lit "passwordHash".

(** One resolved account. *)
Record Account := mkRAccount {
  ra_Username : bytes;
  ra_PasswordHash : bytes;
  ra_Disabled : bool;
  ra_AllowedSenders : list bytes;
  ra_SkipHeaderFromCheck : bool
}.

Record RateLimitCredentials := mkCreds {
  rc_Username : bytes;
  rc_Password : bytes;
  rc_SentinelUsername : bytes;
  rc_SentinelPassword : bytes;
  CAPEM : bytes
}.

Section Input.
Context `{Selectors}.

Record Input := mkInput {
  Gateway : option MailoutGateway;
  in_Accounts : list Account;
  UpstreamUsername : bytes;
  UpstreamPassword : bytes;
  UpstreamCAPEM : bytes;
  in_RateLimitStore : RateLimitCredentials;
  MetricsToken : bytes
}.
End Input.

Definition renderRateLimit (spec : option RateLimitSpec) (creds : RateLimitCredentials)
    : option Config.RateLimit :=
  match spec with
  | None => None
  | Some spec =>
      let store := rl_Store spec in
      Some (mkRateLimit
        (mkStore (rs_Addresses store) (rs_MasterName store) (rs_DB store)
           (rc_Username creds) (rc_Password creds)
           (rc_SentinelUsername creds) (rc_SentinelPassword creds)
           (match rs_TLS store with Some _ => true | None => false end)
           (match rs_TLS store with Some tls => rt_InsecureSkipVerify tls | None => false end)
           (match rs_TLS store with Some _ => CAPEM creds | None => [] end)
           (default 0 (rs_Timeout store)))
        (default 0 (rl_MessagesPerMinute spec))
        (default 0 (rl_RecipientsPerMinute spec)))
  end.

(** [fmt.Sprintf(":%d", port)]. *)
Definition port_addr (port : Z) : bytes := lit ":" ++ itoa port.

(** A lone submission listener when nothing is declared. *)
Definition renderListeners (spec : ListenersSpec) : list Listener :=
  (match Submission spec, SMTPS spec with
   | None, Some _ => []
   | s, _ =>
       let port := match s with
                   | Some l => if ls_Port l =b 0 then DefaultSubmissionPort else ls_Port l
                   | None => DefaultSubmissionPort
                   end in
       [mkListener (lit "submission") (port_addr port) Config.TLSModeSTARTTLS]
   end) ++
  (match SMTPS spec with
   | Some l =>
       let port := if ls_Port l =b 0 then DefaultSMTPSPort else ls_Port l in
       [mkListener (lit "smtps") (port_addr port) Config.TLSModeImplicit]
   | None => []
   end).

Definition CertificateMountPath (secretName : bytes) : bytes := Join [TLSDir; secretName].
Definition DKIMMountPath (secretName : bytes) : bytes := Join [DKIMDir; secretName].

Definition OwnedCertificateSecretName (gatewayName : bytes) : bytes := gatewayName ++ lit "-tls".

Definition upstreamTLSMode (mode : bytes) : bytes :=
  if mode =b Api.TLSModeImplicit then Config.TLSModeImplicit
  else if mode =b Api.TLSModeNone then Config.TLSModeNone
  else Config.TLSModeSTARTTLS.

Definition renderMilters (specs : list MilterSpec) : list Config.Milter :=
  (λ m, mkMilter (ms_Name m) (ms_Address m) (ms_FailOpen m) (default 0 (ms_Timeout m))) <$> specs.

Definition DKIMKeyName (spec : DKIMKeySpec) : bytes :=
  if sel_Key (PrivateKeySecretRef spec) <>b [] then sel_Key (PrivateKeySecretRef spec)
  else DefaultDKIMKeyName.

Definition renderDKIM (specs : list DKIMKeySpec) : list Config.DKIMKey :=
  (λ k, mkDKIMKey (k_Domain k) (k_Selector k) []
          (Join [DKIMMountPath (sel_Name (PrivateKeySecretRef k)); DKIMKeyName k])
          (k_HeaderKeys k)) <$> specs.

Definition DefaultUsername (namespace name : bytes) : bytes := namespace ++ lit "." ++ name.

Definition ConfigFilePath : bytes := Join [ConfigDir; ConfigFileName].

Section Gateway.
Context `{Selectors}.

(** The Secrets serving this gateway's certificates, in order. *)
Definition CertificateSecretNames (gw : MailoutGateway) : list bytes :=
  match CertificateRefs (gs_TLS (g_spec gw)) with
  | [] => match IssuerRef (gs_TLS (g_spec gw)) with
          | Some _ => [OwnedCertificateSecretName (Name (g_meta gw))]
          | None => []
          end
  | refs => ref_Name <$> refs
  end.

Definition renderTLS (gw : MailoutGateway) : TLSConfig :=
  mkTLSConfig
    ((λ ref, let dir := CertificateMountPath ref in
       mkCertificateRef ref (Join [dir; lit "tls.crt"]) (Join [dir; lit "tls.key"]) [] [])
     <$> CertificateSecretNames gw)
    (t_DefaultCertificate (gs_TLS (g_spec gw))).

Definition renderUpstream (spec : UpstreamSpec) (inp : Input) : Config.Upstream :=
  mkUpstream (us_Host spec) (us_Port spec) (upstreamTLSMode (us_TLS spec))
    (us_InsecureSkipVerify spec) (UpstreamCAPEM inp) (UpstreamUsername inp) (UpstreamPassword inp)
    (default 0 (us_Timeout spec)).

Definition renderAccount (acct : Account) : Config.Account :=
  mkAccount (ra_Username acct) (ra_PasswordHash acct) (ra_Disabled acct)
    (ra_AllowedSenders acct) (ra_SkipHeaderFromCheck acct).

Definition less_username (a b : Account) : bool := str_ltb (ra_Username a) (ra_Username b).

Definition GatewayConfig `{Sorter} (inp : Input) : result Config.Config :=
  match Gateway inp with
  | None => Err (EText (lit "gateway is required"))
  | Some gw =>
      let spec := g_spec gw in
      let hostname := if gs_Hostname spec =b [] then Name (g_meta gw) else gs_Hostname spec in
      Ok (mkConfig hostname
            (renderListeners (gs_Listeners spec))
            (renderTLS gw)
            (renderUpstream (gs_Upstream spec) inp)
            (renderAccount <$> sortSlice less_username (in_Accounts inp))
            (renderMilters (gs_Milters spec))
            (if negb (HandlesDKIM (gs_Upstream spec)) then renderDKIM (gs_DKIM spec) else [])
            (renderRateLimit (gs_RateLimit spec) (in_RateLimitStore inp))
            (mkLimits 0 0 0 0 0 0 SpoolDir 0)
            (MetricsToken inp))
  end.

(** The loop of [DKIMSecretNames]: names not seen yet, in order. *)
Fixpoint addNames (seen : gset bytes) (specs : list DKIMKeySpec) : list bytes :=
  match specs with
  | [] => []
  | k :: rest =>
      let name := sel_Name (PrivateKeySecretRef k) in
      if (name =b []) || bool_decide (name ∈ seen) then addNames seen rest
      else name :: addNames ({[name]} ∪ seen) rest
  end.

Definition DKIMSecretNames (gw : option MailoutGateway) : list bytes :=
  match gw with
  | Some gw =>
      if negb (HandlesDKIM (gs_Upstream (g_spec gw)))
      then sort_Strings (addNames ∅ (gs_DKIM (g_spec gw)))
      else sort_Strings []
  | None => sort_Strings []
  end.
End Gateway.

(** ** The size budget *)

Definition ConfigBudget : Z := 700 * 1024.

Section Fit.
Context `{Yaml, Sorter}.

Definition marshalledSize (v : Config.Config) : result Z :=
  match yaml_Config v with Ok out => Ok (zlen out) | Err e => Err e end.
Definition marshalledAccountSize (v : Config.Account) : result Z :=
  match yaml_Account v with Ok out => Ok (zlen out) | Err e => Err e end.

(** [probe := *cfg; probe.Accounts = kept]. *)
Definition with_accounts (cfg : Config.Config) (kept : list Config.Account) : Config.Config :=
  mkConfig (Hostname cfg) (Listeners cfg) (TLS cfg) (upstream cfg) kept (Milters cfg) (DKIM cfg)
    (rateLimit cfg) (limits cfg) (Token cfg).

(** An account with its position and its own size. *)
Record sized := mkSized { sz_index : nat; sz_size : Z; sz_account : Config.Account }.

(** Each account's contribution; an account that cannot be measured stops the
    whole. *)
Fixpoint measure (i : nat) (accounts : list Config.Account) : result (list sized) :=
  match accounts with
  | [] => Ok []
  | a :: rest =>
      match marshalledAccountSize a with
      | Err e => Err e
      | Ok size =>
          match measure (S i) rest with
          | Err e => Err e
          | Ok order => Ok (mkSized i size a :: order)
          end
      end
  end.

(** Largest first, then by username. *)
Definition less_sized (a b : sized) : bool :=
  if sz_size a =? sz_size b then str_ltb (Username (sz_account a)) (Username (sz_account b))
  else sz_size b <? sz_size a.

(** The accounts whose position was not dropped. *)
Definition keep (cfg : Config.Config) (dropped : gset nat) : list Config.Account :=
  snd <$> List.filter (λ p, negb (bool_decide (p.1 ∈ dropped))) (imap pair (Accounts cfg)).

Fixpoint dropLoop (cfg : Config.Config) (budget : Z) (dropped : gset nat) (names : list bytes)
    (order : list sized) : list bytes * Config.Config :=
  match order with
  | [] => ([], cfg)
  | candidate :: rest =>
      let dropped := {[sz_index candidate]} ∪ dropped in
      let names := names ++ [Username (sz_account candidate)] in
      let probe := with_accounts cfg (keep cfg dropped) in
      match marshalledSize probe with
      | Err _ => ([], cfg)
      | Ok size => if size <=? budget then (names, probe) else dropLoop cfg budget dropped names rest
      end
  end.

(** The names dropped, and the configuration left behind. *)
Definition FitAccounts (cfg : Config.Config) (budget : Z) : list bytes * Config.Config :=
  match marshalledSize cfg with
  | Err _ => ([], cfg)
  | Ok size =>
      if size <=? budget then ([], cfg)
      else match measure 0 (Accounts cfg) with
           | Err _ => ([], cfg)
           | Ok order => dropLoop cfg budget ∅ [] (sortSlice less_sized order)
           end
  end.
End Fit.

End Render.
Import Render.

(** ** Facts *)

Section SortFacts.
Context `{SorterSound}.

(** A sorted slice holds no element that should have come before another. *)
Lemma sortSlice_strongly {A} (less : A -> A -> bool) l :
  (forall x y, less x y = true -> less y x = false) ->
  (forall x y z, less y x = false -> less z y = false -> less z x = false) ->
  StronglySorted (λ x y, less y x = false) (sortSlice less l).
Proof.
  intros Hr Ht. apply Sorted_StronglySorted; [|by apply sortSlice_sorted].
  intros x y z. apply Ht.
Qed.

(** With no ties the result does not depend on the order of the input. *)
Lemma sortSlice_unique {A} (less : A -> A -> bool) l k :
  (forall x y, less x y = true -> less y x = false) ->
  (forall x y z, less y x = false -> less z y = false -> less z x = false) ->
  (forall x y, x ∈ l -> y ∈ l -> less x y = false -> less y x = false -> x = y) ->
  l ≡ₚ k -> sortSlice less l = sortSlice less k.
Proof.
  intros Hr Ht Hties Hp. eapply (StronglySorted_unique_strong (λ x y, less y x = false)).
  - intros x y. rewrite !sortSlice_perm, <- Hp. intros Hx Hy ? ?. by apply Hties.
  - by apply sortSlice_strongly.
  - by apply sortSlice_strongly.
  - by rewrite !sortSlice_perm.
Qed.
End SortFacts.

(** Distinct usernames tell accounts apart. *)
Lemma username_inj (l : list Account) x y :
  NoDup (ra_Username <$> l) -> x ∈ l -> y ∈ l -> ra_Username x = ra_Username y -> x = y.
Proof.
  intros Hn (i & Hi)%list_elem_of_lookup (j & Hj)%list_elem_of_lookup E.
  assert (i = j) as ->; [|congruence].
  eapply NoDup_lookup; [done|rewrite list_lookup_fmap, Hi; done|].
  rewrite list_lookup_fmap, Hj. cbn. by f_equal.
Qed.

Lemma less_username_asymm a b : less_username a b = true -> less_username b a = false.
Proof. apply str_ltb_asymm. Qed.

Lemma less_username_trans a b c :
  less_username b a = false -> less_username c b = false -> less_username c a = false.
Proof. unfold less_username. rewrite !str_ltb_le. by intros; etrans. Qed.

Lemma less_username_le a b : less_username b a = false <-> str_le (ra_Username a) (ra_Username b).
Proof. apply str_ltb_le. Qed.

Lemma less_sized_le x y : less_sized y x = false <->
  sz_size y < sz_size x \/
  sz_size y = sz_size x /\ str_le (Username (sz_account x)) (Username (sz_account y)).
Proof.
  unfold less_sized. destruct (Z.eqb_spec (sz_size y) (sz_size x)) as [E|E].
  - rewrite str_ltb_le. split; [by right|]. intros [?|[_ ?]]; [lia|done].
  - rewrite Z.ltb_ge. lia.
Qed.

Lemma less_sized_asymm x y : less_sized x y = true -> less_sized y x = false.
Proof.
  intros H. destruct (less_sized y x) eqn:E; [|done]. exfalso.
  unfold less_sized in *. rewrite (Z.eqb_sym (sz_size y)) in E.
  destruct (sz_size x =? sz_size y) eqn:Es; bools; [|lia].
  by rewrite (str_ltb_asymm _ _ H) in E.
Qed.

Lemma less_sized_trans x y z :
  less_sized y x = false -> less_sized z y = false -> less_sized z x = false.
Proof.
  rewrite !less_sized_le. intros [?|[E1 H1]] [?|[E2 H2]]; try (left; lia).
  right. split; [congruence|by etrans].
Qed.

Lemma addNames_spec specs : forall seen n,
  n ∈ addNames seen specs <->
  n <> [] /\ (n ∉ seen) /\ exists k, k ∈ specs /\ sel_Name (PrivateKeySecretRef k) = n.
Proof.
  induction specs as [|k specs IH]; intros seen n; cbn [addNames].
  { split; [by intros ?%not_elem_of_nil|]. by intros (_ & _ & k & ?%not_elem_of_nil & _). }
  setoid_rewrite elem_of_cons. destruct (bool_decide _ || _) eqn:E.
  - rewrite IH. apply orb_true_iff in E. rewrite !bool_decide_eq_true in E. naive_solver.
  - rewrite elem_of_cons, IH. bools. destruct (decide (n = sel_Name (PrivateKeySecretRef k))) as [->|Hn].
    + split; [intros _; split_and!; eauto|by left].
    + rewrite elem_of_union, elem_of_singleton. naive_solver.
Qed.

Lemma addNames_NoDup specs : forall seen, NoDup (addNames seen specs).
Proof.
  induction specs as [|k specs IH]; intros seen; cbn [addNames]; [constructor|].
  case_match; [apply IH|]. constructor; [|apply IH]. rewrite addNames_spec. set_solver.
Qed.

(** *** What is kept *)

Lemma with_own cfg : with_accounts cfg (Accounts cfg) = cfg.
Proof. by destruct cfg. Qed.

Lemma filter_true {A} (f : A -> bool) l : (forall x, x ∈ l -> f x = true) -> List.filter f l = l.
Proof.
  induction l as [|x l IH]; cbn; [done|]. intros Hf. rewrite (Hf x) by set_solver.
  f_equal. apply IH. set_solver.
Qed.

Lemma filter_false {A} (f : A -> bool) l : (forall x, x ∈ l -> f x = false) -> List.filter f l = [].
Proof.
  induction l as [|x l IH]; cbn; [done|]. intros Hf. rewrite (Hf x) by set_solver. apply IH. set_solver.
Qed.

Lemma keep_none cfg : with_accounts cfg (keep cfg (list_to_set (sz_index <$> []))) = cfg.
Proof.
  unfold keep. rewrite filter_true by (intros [i a] _; by rewrite bool_decide_eq_false_2).
  assert (snd <$> imap pair (Accounts cfg) = Accounts cfg) as ->; [|apply with_own].
  apply list_eq. intros i. rewrite list_lookup_fmap, list_lookup_imap. by destruct (Accounts cfg !! i).
Qed.

Lemma keep_all cfg (dropped : gset nat) :
  (forall i, (i < length (Accounts cfg))%nat -> i ∈ dropped) -> keep cfg dropped = [].
Proof.
  intros Hd. unfold keep. rewrite filter_false; [done|].
  intros [i a] (j & a' & Hl & E)%elem_of_lookup_imap. simplify_eq/=.
  rewrite bool_decide_eq_true_2; [done|]. apply Hd. by eapply lookup_lt_Some.
Qed.

(** An entry carries the account at its position. *)
Lemma measured_at order accounts :
  sz_index <$> order = seq 0 (length accounts) -> sz_account <$> order = accounts ->
  forall s, s ∈ order -> accounts !! sz_index s = Some (sz_account s).
Proof.
  intros Hi Ha s (k & Hk)%list_elem_of_lookup.
  assert (sz_index s = k) as ->.
  { assert (E : (sz_index <$> order) !! k = Some (sz_index s)) by by rewrite list_lookup_fmap, Hk.
    rewrite Hi in E. apply lookup_seq in E as [-> _]. lia. }
  by rewrite <- Ha, list_lookup_fmap, Hk.
Qed.

Section FitFacts.
Context `{Yaml}.

Lemma measure_total accounts : forall i, (forall a, exists out, yaml_Account a = Ok out) ->
  exists order, measure i accounts = Ok order.
Proof.
  induction accounts as [|a accounts IH]; intros i Hy; cbn [measure]; [eauto|].
  unfold marshalledAccountSize. destruct (Hy a) as [out ->]. destruct (IH (S i) Hy) as [o ->]. eauto.
Qed.

(** What measuring gives: one entry per account, in order, numbered. *)
Lemma measure_spec accounts : forall i order,
  measure i accounts = Ok order ->
  sz_index <$> order = seq i (length accounts) /\ sz_account <$> order = accounts /\
  Forall (λ s, marshalledAccountSize (sz_account s) = Ok (sz_size s)) order.
Proof.
  induction accounts as [|a accounts IH]; intros i order; cbn [measure].
  { by intros [= <-]. }
  destruct (marshalledAccountSize a) as [z|] eqn:Ea; [|done].
  destruct (measure (S i) accounts) as [o|] eqn:Eo; [|done]. intros [= <-].
  destruct (IH _ _ Eo) as (H1 & H2 & H3). cbn. rewrite H1, H2. split_and!; [done|done|].
  by constructor.
Qed.

(** Where the loop stops: after the first prefix of the order whose removal
    makes the rest fit. *)
Lemma dropLoop_spec cfg budget order : forall dropped names ns cfg',
  dropLoop cfg budget dropped names order = (ns, cfg') ->
  (ns = [] /\ cfg' = cfg) \/
  exists gone rest size, order = gone ++ rest /\ gone <> [] /\
    ns = names ++ ((λ s, Username (sz_account s)) <$> gone) /\
    cfg' = with_accounts cfg (keep cfg (list_to_set (sz_index <$> gone) ∪ dropped)) /\
    marshalledSize cfg' = Ok size /\ size <= budget /\
    forall fewer more size', gone = fewer ++ more -> fewer <> [] -> more <> [] ->
      marshalledSize (with_accounts cfg (keep cfg (list_to_set (sz_index <$> fewer) ∪ dropped)))
        = Ok size' -> budget < size'.
Proof.
  induction order as [|s order IH]; intros dropped names ns cfg'; cbn [dropLoop].
  { intros [= <- <-]. by left. }
  destruct (marshalledSize _) as [size|] eqn:Es; [|intros [= <- <-]; by left].
  assert (Hset : forall l, list_to_set (sz_index <$> (s :: l)) ∪ dropped =@{gset nat}
    list_to_set (sz_index <$> l) ∪ ({[sz_index s]} ∪ dropped)) by (intros l; cbn; set_solver).
  destruct (size <=? budget) eqn:Eb; bools.
  - intros [= <- <-]. right. exists [s], order, size. rewrite Hset. cbn [fmap list_fmap list_to_set].
    rewrite (left_id_L ∅ (∪)). split_and!; try done.
    intros [|x [|? ?]] [|? ?] ? E; simplify_eq/=; done.
  - intros [?|(gone & rest & size' & -> & Hne & -> & -> & Hm & Hle & Hmin)]%IH; [by left|].
    right. exists (s :: gone), rest, size'. rewrite Hset. split_and!; try done.
    { by rewrite <- (assoc_L (++)). }
    intros [|x fewer] more size'' E Hf Hmo Hs; [done|]. injection E as <- ->.
    rewrite Hset in Hs. destruct fewer as [|y fewer]; [|by eapply (Hmin (y :: fewer) more)].
    cbn [fmap list_fmap list_to_set] in Hs. rewrite (left_id_L ∅ (∪)), Es in Hs. by simplify_eq.
Qed.

(** Some prefix makes it fit as soon as all of it does. *)
Lemma dropLoop_fits cfg budget order : forall dropped names,
  (forall c, exists out, yaml_Config c = Ok out) -> order <> [] ->
  (exists size, marshalledSize (with_accounts cfg
     (keep cfg (list_to_set (sz_index <$> order) ∪ dropped))) = Ok size /\ size <= budget) ->
  exists size, marshalledSize (dropLoop cfg budget dropped names order).2 = Ok size /\ size <= budget.
Proof.
  intros dropped names Hy. revert dropped names.
  induction order as [|s order IH]; intros dropped names Hne Hfit; [done|]. cbn [dropLoop].
  destruct (marshalledSize (with_accounts cfg (keep cfg ({[sz_index s]} ∪ dropped))))
    as [size|e] eqn:Es.
  2: { unfold marshalledSize in Es. edestruct Hy as [out E]. rewrite E in Es. done. }
  destruct (size <=? budget) eqn:Eb; bools; [by exists size|].
  assert (Hset : list_to_set (sz_index <$> (s :: order)) ∪ dropped =@{gset nat}
    list_to_set (sz_index <$> order) ∪ ({[sz_index s]} ∪ dropped)) by (cbn; set_solver).
  rewrite Hset in Hfit. destruct order as [|s' order]; [|by apply IH].
  destruct Hfit as (size' & Hs & Hle). cbn [fmap list_fmap list_to_set] in Hs.
  rewrite (left_id_L ∅ (∪)), Es in Hs. simplify_eq. lia.
Qed.
End FitFacts.

(** ** Sorting, concretely *)

(** A sort that keeps the promise, to run the definitions with. *)
Section InsertionSort.
Context {A : Type} (less : A -> A -> bool).

Fixpoint insert_by (x : A) (l : list A) : list A :=
  match l with
  | [] => [x]
  | y :: l' => if less x y then x :: l else y :: insert_by x l'
  end.

Definition sort_by (l : list A) : list A := foldr insert_by [] l.

Lemma insert_by_perm x l : insert_by x l ≡ₚ x :: l.
Proof.
  induction l as [|y l IH]; cbn; [done|]. destruct (less x y); [done|].
  rewrite IH. apply Permutation_swap.
Qed.

Lemma sort_by_perm l : sort_by l ≡ₚ l.
Proof. induction l as [|x l IH]; cbn; [done|]. by rewrite insert_by_perm, IH. Qed.

Lemma insert_by_sorted x l :
  (forall x y, less x y = true -> less y x = false) ->
  Sorted (λ x y, less y x = false) l -> Sorted (λ x y, less y x = false) (insert_by x l).
Proof.
  intros Ha Hl. induction Hl as [|y l Hl IH Hh]; cbn; [by repeat constructor|].
  destruct (less x y) eqn:E.
  - constructor; [by constructor|]. constructor. by apply Ha.
  - constructor; [done|]. destruct l as [|z l]; cbn; [by constructor|].
    destruct (less x z) eqn:Ez; constructor; [done|]. by inversion Hh.
Qed.

Lemma sort_by_sorted l :
  (forall x y, less x y = true -> less y x = false) ->
  Sorted (λ x y, less y x = false) (sort_by l).
Proof. intros Ha. induction l as [|x l IH]; cbn; [constructor|]. by apply insert_by_sorted. Qed.
End InsertionSort.

Definition sorter_by : Sorter := {| sortSlice := @sort_by |}.

Lemma sorter_by_sound : SorterSound sorter_by.
Proof.
  constructor; intros A less l; [apply sort_by_perm|]. intros Ha _. by apply sort_by_sorted.
Qed.

(** ** Properties *)

Section Properties.
Context `{Selectors, SorterSound}.

(** Rendering does not depend on the order the accounts were listed in:
    as long as no two share a username, the same set gives the same
    configuration, so an unchanged cluster is never written again. *)
Theorem GatewayConfig_order_independent (i j : Input) :
  Gateway i = Gateway j -> in_Accounts i ≡ₚ in_Accounts j ->
  NoDup (ra_Username <$> in_Accounts i) ->
  UpstreamUsername i = UpstreamUsername j -> UpstreamPassword i = UpstreamPassword j ->
  UpstreamCAPEM i = UpstreamCAPEM j -> in_RateLimitStore i = in_RateLimitStore j ->
  MetricsToken i = MetricsToken j ->
  GatewayConfig i = GatewayConfig j.
Proof.
  intros Hg Hp Hn H1 H2 H3 H4 H5. unfold GatewayConfig. rewrite Hg.
  destruct (Gateway j) as [gw|]; [|done].
  assert (sortSlice less_username (in_Accounts i) = sortSlice less_username (in_Accounts j)) as ->.
  { apply sortSlice_unique; [apply less_username_asymm|apply less_username_trans| |done].
    intros x y Hx Hy. rewrite !less_username_le. intros L1 L2.
    apply (username_inj _ x y Hn Hx Hy). by apply (anti_symm str_le). }
  unfold renderUpstream. by rewrite H1, H2, H3, H4, H5.
Qed.

(** No key is mounted that is not signed with, and none is signed with that
    is not mounted: every DKIM key of the rendered configuration is read from
    the mount of a listed Secret, every listed Secret serves a key of the spec,
    the list has no duplicate and is in order, and when the upstream signs both
    are empty. *)
Theorem DKIM_keys_are_the_mounted_secrets (i : Input) (gw : MailoutGateway) (cfg : Config.Config) :
  Gateway i = Some gw -> GatewayConfig i = Ok cfg ->
  (forall k, k ∈ gs_DKIM (g_spec gw) -> sel_Name (PrivateKeySecretRef k) <> []) ->
  StronglySorted str_le (DKIMSecretNames (Some gw)) /\ NoDup (DKIMSecretNames (Some gw)) /\
  (forall key, key ∈ DKIM cfg -> exists n file, n ∈ DKIMSecretNames (Some gw) /\
     PrivateKeyFile key = Filepath.Join [DKIMMountPath n; file]) /\
  (forall n, n ∈ DKIMSecretNames (Some gw) -> exists key file, key ∈ DKIM cfg /\
     PrivateKeyFile key = Filepath.Join [DKIMMountPath n; file]) /\
  (HandlesDKIM (gs_Upstream (g_spec gw)) = true -> DKIM cfg = [] /\ DKIMSecretNames (Some gw) = []).
Proof.
  intros Hg Hc Hn. unfold GatewayConfig in Hc. rewrite Hg in Hc. injection Hc as <-.
  cbn [DKIM]. unfold DKIMSecretNames, renderDKIM.
  destruct (HandlesDKIM (gs_Upstream (g_spec gw))); cbn [negb].
  { split_and!; try done; [constructor|constructor|..]; intros ? ?%not_elem_of_nil; done. }
  split_and!; [apply sort_Strings_sorted|rewrite sort_Strings_perm; apply addNames_NoDup|..|done].
  - intros key (k & -> & Hk)%list_elem_of_fmap. eexists _, _. split; [|done].
    rewrite sort_Strings_perm. apply addNames_spec. split_and!; [by apply Hn|apply not_elem_of_empty|by exists k].
  - intros n. rewrite sort_Strings_perm. intros (_ & _ & k & Hk & <-)%addNames_spec. eexists _, _.
    split; [apply list_elem_of_fmap; by exists k|done].
Qed.

(** A configuration too large to publish loses its largest accounts and no
    others. Either nothing is dropped and the configuration is untouched, or
    what is left fits, differs only in its accounts, every account dropped is
    at least as large as every account kept, and one account fewer would not
    have been enough. *)
Theorem FitAccounts_drops_largest `{Yaml} (cfg : Config.Config) (budget : Z) :
  (FitAccounts cfg budget).1 = [] /\ (FitAccounts cfg budget).2 = cfg \/
  exists (gone : list nat) (size : Z),
    let left_over := keep cfg (list_to_set gone) in
    (FitAccounts cfg budget).2 = with_accounts cfg left_over /\
    marshalledSize (with_accounts cfg left_over) = Ok size /\ size <= budget /\
    NoDup gone /\ gone <> [] /\
    Forall2 (λ i name, exists a, Accounts cfg !! i = Some a /\ Username a = name) gone
      (FitAccounts cfg budget).1 /\
    (forall i j a b za zb, i ∈ gone -> j ∉ gone -> Accounts cfg !! i = Some a ->
       Accounts cfg !! j = Some b -> marshalledAccountSize a = Ok za ->
       marshalledAccountSize b = Ok zb -> zb <= za) /\
    (forall fewer last size', gone = fewer ++ [last] ->
       marshalledSize (with_accounts cfg (keep cfg (list_to_set fewer))) = Ok size' ->
       budget < size').
Proof.
  unfold FitAccounts. destruct (marshalledSize cfg) as [z|] eqn:Ez; [|by left].
  destruct (z <=? budget) eqn:Eb; [by left|]. bools.
  destruct (measure 0 (Accounts cfg)) as [order|] eqn:Em; [|by left].
  destruct (measure_spec _ _ _ Em) as (Hi & Ha & Hz).
  set (sorted := sortSlice less_sized order).
  assert (Hs : StronglySorted (λ x y, less_sized y x = false) sorted)
    by (apply sortSlice_strongly; [apply less_sized_asymm|apply less_sized_trans]).
  assert (Hp : sorted ≡ₚ order) by apply sortSlice_perm.
  assert (Hat : forall s, s ∈ order -> Accounts cfg !! sz_index s = Some (sz_account s) /\
            marshalledAccountSize (sz_account s) = Ok (sz_size s)).
  { intros s Hin. split; [|by rewrite Forall_forall in Hz; auto]. by apply (measured_at _ _ Hi Ha). }
  destruct (dropLoop cfg budget ∅ [] sorted) as [ns cfg'] eqn:Ed.
  apply dropLoop_spec in Ed as [[-> ->]|(gone & rest & size & Es & Hne & -> & -> & Hm & Hle & Hmin)];
    [by left|].
  rewrite (right_id_L ∅ (∪)) in Hm. right. exists (sz_index <$> gone), size. cbn [fst snd].
  rewrite (right_id_L ∅ (∪)), app_nil_l. rewrite Es in Hp, Hs. split_and!; try done.
  - assert (NoDup (sz_index <$> (gone ++ rest))) as Hn by (rewrite Hp, Hi; apply NoDup_seq).
    by rewrite fmap_app in Hn; apply NoDup_app in Hn as [? _].
  - by destruct gone.
  - apply Forall2_fmap, Forall_Forall2_diag, Forall_forall. intros s Hin.
    exists (sz_account s). split; [|done]. apply Hat. rewrite <- Hp. set_solver.
  - intros i j a b za zb (s & -> & Hs1)%list_elem_of_fmap Hj Hai Hbj Hza Hzb.
    assert (exists r, r ∈ gone ++ rest /\ sz_index r = j) as (r & Hr & <-).
    { assert (j ∈ sz_index <$> (gone ++ rest)) as (r & -> & ?)%list_elem_of_fmap; [|eauto].
      rewrite Hp, Hi. apply elem_of_seq. split; [lia|]. cbn. by eapply lookup_lt_Some. }
    apply elem_of_app in Hr as [Hr|Hr]; [by destruct Hj; apply list_elem_of_fmap; eauto|].
    destruct (Hat s) as [Es1 Es2]; [rewrite <- Hp; set_solver|].
    destruct (Hat r) as [Er1 Er2]; [rewrite <- Hp; set_solver|].
    pose proof (StronglySorted_app_1_elem_of _ _ _ s r Hs Hs1 Hr) as Hless%less_sized_le.
    assert (za = sz_size s) as -> by congruence. assert (zb = sz_size r) as -> by congruence. lia.
  - intros fewer last size' Hg Hsz. apply fmap_app_inv in Hg as (g1 & g2 & -> & Eg2 & ->).
    destruct (decide (g1 = [])) as [->|Hg1].
    + rewrite keep_none in Hsz. congruence.
    + eapply (Hmin g1 g2); [done|done|by destruct g2|]. by rewrite (right_id_L ∅ (∪)).
Qed.

(** The budget is met whenever dropping accounts can meet it: if the YAML
    library does not fail and the configuration would fit without any account,
    what [FitAccounts] leaves fits. *)
Theorem FitAccounts_meets_budget `{Yaml} (cfg : Config.Config) (budget size : Z) :
  (forall c, exists out, yaml_Config c = Ok out) -> (forall a, exists out, yaml_Account a = Ok out) ->
  marshalledSize (with_accounts cfg []) = Ok size -> size <= budget ->
  exists size', marshalledSize (FitAccounts cfg budget).2 = Ok size' /\ size' <= budget.
Proof.
  intros Hy Hya Hs Hle. unfold FitAccounts. destruct (Hy cfg) as [out E].
  assert (Ecfg : marshalledSize cfg = Ok (zlen out)) by (unfold marshalledSize; by rewrite E).
  rewrite Ecfg. destruct (zlen out <=? budget) eqn:Eb; bools; [by exists (zlen out)|].
  destruct (measure_total (Accounts cfg) 0 Hya) as [order Em]. rewrite Em.
  destruct (measure_spec _ _ _ Em) as (Hi & Ha & _).
  apply dropLoop_fits; [done| |].
  - intros Hnil. assert (Accounts cfg = []) as Hno.
    { rewrite <- Ha. assert (order = []) as ->; [|done]. apply Permutation_nil_r. by rewrite <- Hnil, sortSlice_perm. }
    rewrite <- Hno, with_own, Ecfg in Hs. injection Hs as <-. lia.
  - exists size. rewrite (right_id_L ∅ (∪)), keep_all; [done|]. intros i Hl.
    apply elem_of_list_to_set. rewrite sortSlice_perm, Hi. apply elem_of_seq. lia.
Qed.
End Properties.

(** ** Witnesses *)

#[local] Existing Instance matchLabels.
#[local] Existing Instance sorter_by.
#[local] Existing Instance sorter_by_sound.

Definition demo_gw : MailoutGateway :=
  mkGateway (mkMeta (lit "relay") (lit "mailout-system") (lit "u1") 0 1)
    (mkGatewaySpec (lit "smtp.example.com")
       (mkListenersSpec None None)
       (mkTLSSpec [mkRef (lit "relay-cert")] None [] [])
       (mkUpstreamSpec (lit "mx.example.com") 25 (lit "StartTLS") None None false false None)
       [mkDKIMKeySpec (lit "example.com") (lit "s1") (mkKeySel (lit "dkim") []) []]
       []
       (mkAllowedAccounts [] None)
       [mkGrant [lit "*@example.com"] None]
       None (mkDeploymentSpec None [] [] [] ∅ ∅ ∅ [] None) (mkMetricsSpec []))
    (mkGatewayStatus [] 0 0 [] []).

Definition demo_raccount (u : bytes) : Render.Account := mkRAccount u (lit "$2a$12$x") false [] false.

Definition demo_input (accounts : list Render.Account) : Input :=
  mkInput (Some demo_gw) accounts [] [] [] (mkCreds [] [] [] [] []) (lit "token").

Lemma order_independent_witness :
  GatewayConfig (demo_input [demo_raccount (lit "b"); demo_raccount (lit "a")]) =
  GatewayConfig (demo_input [demo_raccount (lit "a"); demo_raccount (lit "b")]).
Proof.
  apply (GatewayConfig_order_independent); try reflexivity.
  - apply Permutation_swap.
  - apply (bool_decide_unpack _). by vm_compute.
Defined.

Lemma mounted_secrets_witness : exists cfg,
  GatewayConfig (demo_input []) = Ok cfg /\
  StronglySorted str_le (DKIMSecretNames (Some demo_gw)).
Proof.
  destruct (GatewayConfig (demo_input [])) as [cfg|] eqn:E; [|discriminate].
  exists cfg. split; [reflexivity|].
  refine (proj1 (DKIM_keys_are_the_mounted_secrets (demo_input []) demo_gw cfg
    eq_refl E _)).
  intros k Hk. apply list_elem_of_singleton in Hk. subst k. discriminate.
Defined.

Definition demo_yaml : Yaml := {|
  yaml_Config c := Ok (concat (Username <$> Accounts c));
  yaml_Account a := Ok (Username a)
|}.

#[local] Existing Instance demo_yaml.

Definition demo_large : Config.Config :=
  mkConfig [] [] (mkTLSConfig [] []) (mkUpstream [] 0 [] false [] [] [] 0)
    ((λ u, mkAccount u [] false [] false) <$> [lit "aaaaaaaa"; lit "b"; lit "cc"])
    [] [] None (mkLimits 0 0 0 0 0 0 [] 0) [].

Lemma drops_largest_witness : exists gone size,
  (FitAccounts demo_large 5).2 =
    with_accounts demo_large (keep demo_large (list_to_set gone)) /\
  marshalledSize (with_accounts demo_large (keep demo_large (list_to_set gone)))
    = Ok size /\ size <= 5.
Proof.
  destruct (FitAccounts_drops_largest demo_large 5)
    as [[E _]|(gone & size & E & Hsz & Hle & _)].
  - exfalso. revert E. by vm_compute.
  - by exists gone, size.
Defined.

Lemma meets_budget_witness :
  (FitAccounts demo_large 5).1 = [lit "aaaaaaaa"] /\
  exists size, marshalledSize
    (FitAccounts demo_large 5).2 = Ok size /\ size <= 5.
Proof.
  split; [by vm_compute|].
  apply (FitAccounts_meets_budget _ _ 0); [eexists; reflexivity..| |lia].
  reflexivity.
Defined.
