(* ===== verification/Webhook.v ===== *)
(** * Webhook: admission of the resources

    Models [src/internal/webhook/v1alpha1]: what a gateway and an account must
    satisfy to be admitted. A [field.Error] keeps its kind and its path; the
    explanatory text and the offending value are left out. A warning is one
    constructor per message. Their registration is in [Manager]. *)

From S2P Require Import Prelude Unicode GoStrings GoNet Policy Passwords Config Api Access Render.
Import Access.
#[local] Open Scope Z_scope.

Module Webhook.

(** ** field.Error *)

Inductive errorKind := Invalid | Required | Forbidden | Duplicate | InternalError.

Record fieldError := mkFieldError { fe_kind : errorKind; fe_path : bytes }.

Definition child (path name : bytes) : bytes := path ++ lit "." ++ name.
Definition index (path : bytes) (i : Z) : bytes := path ++ lit "[" ++ itoa i ++ lit "]".

Inductive warning :=
| WHeaderFromNotEnforced
| WNoSenderGranted
| WUpstreamInClear
| WUpstreamSkipVerify
| WDKIMKeysUnused
| WStoreWithoutLimit
| WQuotaFailsClosed
| WStoreSkipVerify
| WClusterDeduced
| WMilterFailOpen (i : Z) (name : bytes).

(** The error of an admission: refused with the list of problems, or not
    decided because a lookup failed. *)
Inductive admissionError :=
| NotAdmitted (errs : list fieldError)
| LookupFailed (e : goerror).

(** [if len(errs) > 0 { return apierrors.NewInvalid(...) }]. *)
Definition conclude (errs : list fieldError) : option admissionError :=
  match errs with [] => None | _ => Some (NotAdmitted errs) end.

Definition when (b : bool) (e : fieldError) : list fieldError := if b then [e] else [].

(** ** The gateway's validator *)

Record GatewayValidator := mkGatewayValidator {
  gv_OperatorNamespace : bytes; CertManagerAvailable : bool
}.

Definition listenerPort (spec : ListenerSpec) (def : Z) : Z :=
  if ls_Port spec =b 0 then def else ls_Port spec.

(** Later occurrences of a name, at the path [at_ i]. *)
Fixpoint duplicates (at_ : Z -> bytes) (i : Z) (seen : gset bytes) (names : list bytes)
    : list fieldError :=
  match names with
  | [] => []
  | n :: rest =>
      when (bool_decide (n ∈ seen)) (mkFieldError Duplicate (at_ i)) ++
      duplicates at_ (i + 1) ({[n]} ∪ seen) rest
  end.

(** The loop of [validateMilters] from index [i]. *)
Fixpoint milterLoop (path : bytes) (i : Z) (seen : gset bytes) (milters : list MilterSpec)
    : list fieldError :=
  match milters with
  | [] => []
  | m :: rest =>
      when (bool_decide (ms_Name m ∈ seen)) (mkFieldError Duplicate (child (index path i) (lit "name"))) ++
      (match ParseAddress (mkMilter [] (ms_Address m) false 0) with
       | inl _ => []
       | inr _ => [mkFieldError Invalid (child (index path i) (lit "address"))]
       end) ++
      milterLoop path (i + 1) ({[ms_Name m]} ∪ seen) rest
  end.

Definition validateMilters (milters : list MilterSpec) (path : bytes) : list fieldError :=
  milterLoop path 0 ∅ milters.

Section Text.
Context `{Unicode}.

(** What is wrong with one entry of an [allowedSenders] list, if anything. *)
Definition entryProblem (path : bytes) (i : Z) (normalized : bytes) : list fieldError :=
  let '(local, domain, found) := Cut normalized AT in
  if negb found then [mkFieldError Invalid (index path i)]
  else if local =b [] then [mkFieldError Invalid (index path i)]
  else if domain =b [] then [mkFieldError Invalid (index path i)]
  else if Contains local STAR && (local <>b STAR) then [mkFieldError Invalid (index path i)]
  else if Contains domain STAR then [mkFieldError Invalid (index path i)]
  else [].

Fixpoint senderLoop (path : bytes) (i : Z) (seen : gset bytes) (senders : list bytes)
    : list fieldError :=
  match senders with
  | [] => []
  | entry :: rest =>
      let normalized := ToLower (TrimSpace entry) in
      when (bool_decide (normalized ∈ seen)) (mkFieldError Duplicate (index path i)) ++
      entryProblem path i normalized ++
      senderLoop path (i + 1) ({[normalized]} ∪ seen) rest
  end.

Definition validateAllowedSenders (senders : list bytes) (path : bytes) : list fieldError :=
  senderLoop path 0 ∅ senders.

Definition containsFold (values : list bytes) (want : bytes) : bool :=
  existsb (λ v, EqualFold v want) values.

Fixpoint dkimLoop (path : bytes) (i : Z) (seen : gset bytes) (keys : list DKIMKeySpec)
    : list fieldError :=
  match keys with
  | [] => []
  | k :: rest =>
      let domain := ToLower (k_Domain k) in
      when (bool_decide (domain ∈ seen)) (mkFieldError Duplicate (child (index path i) (lit "domain"))) ++
      when (sel_Name (PrivateKeySecretRef k) =b [])
        (mkFieldError Required (child (child (index path i) (lit "privateKeySecretRef")) (lit "name"))) ++
      when ((0 <? zlen (k_HeaderKeys k)) && negb (containsFold (k_HeaderKeys k) (lit "From")))
        (mkFieldError Invalid (child (index path i) (lit "headerKeys"))) ++
      dkimLoop path (i + 1) ({[domain]} ∪ seen) rest
  end.

Definition validateDKIM (keys : list DKIMKeySpec) (path : bytes) : list fieldError :=
  dkimLoop path 0 ∅ keys.
End Text.

(** One address of the quota store. *)
Definition addressProblem (path : bytes) (i : Z) (addr : bytes) : list fieldError :=
  match SplitHostPort addr with
  | None => [mkFieldError Invalid (index path i)]
  | Some (host, port) =>
      if (host =b []) || (port =b []) then [mkFieldError Invalid (index path i)]
      else match Atoi port with
           | None => [mkFieldError Invalid (index path i)]
           | Some _ => []
           end
  end.

Definition validateRateLimit (spec : option RateLimitSpec) (path : bytes) : list fieldError :=
  match spec with
  | None => []
  | Some spec =>
      let store := child path (lit "store") in
      when (zlen (rs_Addresses (rl_Store spec)) =? 0)
        (mkFieldError Required (child store (lit "addresses"))) ++
      concat (imap (λ i addr, addressProblem (child store (lit "addresses")) (Z.of_nat i) addr)
                (rs_Addresses (rl_Store spec))) ++
      (match SentinelAuthSecretRef (rl_Store spec) with
       | Some _ => when (rs_MasterName (rl_Store spec) =b [])
                     (mkFieldError Invalid (child store (lit "sentinelAuthSecretRef")))
       | None => []
       end)
  end.

Section Gateway.
Context `{Unicode, Selectors}.

Definition validateTLS (v : GatewayValidator) (gw : MailoutGateway) (path : bytes) : list fieldError :=
  let tls := gs_TLS (g_spec gw) in
  (match CertificateRefs tls, IssuerRef tls with
   | _ :: _, Some _ => [mkFieldError Invalid path]
   | [], None => [mkFieldError Required path]
   | _, _ => []
   end) ++
  (match IssuerRef tls with
   | Some _ =>
       when (negb (CertManagerAvailable v)) (mkFieldError Invalid (child path (lit "issuerRef"))) ++
       when ((zlen (DNSNames tls) =? 0) && (gs_Hostname (g_spec gw) =b []))
         (mkFieldError Required (child path (lit "dnsNames")))
   | None => []
   end) ++
  when ((t_DefaultCertificate tls <>b []) &&
        negb (existsb (λ ref, ref_Name ref =b t_DefaultCertificate tls) (CertificateRefs tls)))
    (mkFieldError Invalid (child path (lit "defaultCertificate"))) ++
  duplicates (index (child path (lit "certificateRefs"))) 0 ∅ (ref_Name <$> CertificateRefs tls).

(** A listener on the metrics port. *)
Definition metricsClash (path name : bytes) (spec : option ListenerSpec) (def : Z) : list fieldError :=
  match spec with
  | None => []
  | Some l => when (listenerPort l def =b Render.MetricsPort)
                (mkFieldError Invalid (child (child path name) (lit "port")))
  end.

Definition validateListeners (gw : MailoutGateway) (path : bytes) : list fieldError :=
  let submission := Submission (gs_Listeners (g_spec gw)) in
  let smtps := SMTPS (gs_Listeners (g_spec gw)) in
  (match submission, smtps with
   | Some a, Some b => when (listenerPort a 587 =b listenerPort b 465)
                         (mkFieldError Invalid (child (child path (lit "smtps")) (lit "port")))
   | _, _ => []
   end) ++
  metricsClash path (lit "submission") submission 587 ++
  metricsClash path (lit "smtps") smtps 465.

Definition validateSenderGrants (grants : list SenderGrantSpec) (path : bytes) : list fieldError :=
  concat (imap (λ i grant,
    validateAllowedSenders (Senders grant) (child (index path (Z.of_nat i)) (lit "senders")) ++
    match NamespaceSelector grant with
    | None => []
    | Some sel =>
        match LabelSelectorAsSelector sel with
        | Ok _ => []
        | Err _ => [mkFieldError Invalid (child (index path (Z.of_nat i)) (lit "namespaceSelector"))]
        end
    end) grants).

Definition gatewayErrors (v : GatewayValidator) (gw : MailoutGateway) : list fieldError :=
  let spec := lit "spec" in
  when (Namespace (g_meta gw) <>b gv_OperatorNamespace v)
    (mkFieldError Forbidden (lit "metadata.namespace")) ++
  validateTLS v gw (child spec (lit "tls")) ++
  validateMilters (gs_Milters (g_spec gw)) (child spec (lit "milters")) ++
  validateSenderGrants (gs_AllowedSenders (g_spec gw)) (child spec (lit "allowedSenders")) ++
  validateDKIM (gs_DKIM (g_spec gw)) (child spec (lit "dkim")) ++
  validateListeners gw (child spec (lit "listeners")) ++
  validateRateLimit (gs_RateLimit (g_spec gw)) (child spec (lit "rateLimit")) ++
  when ((Namespaces (AllowedAccounts (g_spec gw)) =b NamespacesFromSelector) &&
        match aa_Selector (AllowedAccounts (g_spec gw)) with Some _ => false | None => true end)
    (mkFieldError Required (child (child spec (lit "allowedAccounts")) (lit "selector"))).

Definition warn (b : bool) (w : warning) : list warning := if b then [w] else [].

Definition gatewayWarnings (gw : MailoutGateway) : list warning :=
  let spec := g_spec gw in
  warn (zlen (gs_AllowedSenders spec) =? 0) WNoSenderGranted ++
  warn (us_TLS (gs_Upstream spec) =b Api.TLSModeNone) WUpstreamInClear ++
  warn (us_InsecureSkipVerify (gs_Upstream spec)) WUpstreamSkipVerify ++
  warn (HandlesDKIM (gs_Upstream spec) && (0 <? zlen (gs_DKIM spec))) WDKIMKeysUnused ++
  (match gs_RateLimit spec with
   | None => []
   | Some rl =>
       (match rl_MessagesPerMinute rl, rl_RecipientsPerMinute rl with
        | None, None => [WStoreWithoutLimit]
        | _, _ => [WQuotaFailsClosed]
        end) ++
       (match rs_TLS (rl_Store rl) with
        | Some tls => warn (rt_InsecureSkipVerify tls) WStoreSkipVerify
        | None => []
        end) ++
       warn ((rs_MasterName (rl_Store rl) =b []) && (1 <? zlen (rs_Addresses (rl_Store rl))))
         WClusterDeduced
   end) ++
  concat (imap (λ i m, warn (ms_FailOpen m) (WMilterFailOpen (Z.of_nat i) (ms_Name m)))
            (gs_Milters spec)).

(** [GatewayValidator.validate]. *)
Definition validateGateway (v : GatewayValidator) (gw : MailoutGateway)
    : list warning * option admissionError :=
  (gatewayWarnings gw, conclude (gatewayErrors v gw)).
End Gateway.

(** ** The account's validator *)

Section Account.
Context `{Unicode, ApiServer}.
Variable operatorNamespace : bytes.

(** Another account of the same gateway already has the username. *)
Definition taken (account other : MailoutAccount) (gw : MailoutGateway) : bool :=
  if (Namespace (a_meta other) =b Namespace (a_meta account)) &&
     (Name (a_meta other) =b Name (a_meta account)) then false
  else if (GatewayNamespaceFor other operatorNamespace <>b Namespace (g_meta gw)) ||
          (gr_Name (GatewayRef (a_spec other)) <>b Name (g_meta gw)) then false
  else UsernameFor other =b UsernameFor account.

Definition validateAgainstGateway (account : MailoutAccount) (gw : MailoutGateway) (spec : bytes)
    : K (list fieldError) :=
  let errs := when ((Namespaces (AllowedAccounts (g_spec gw)) =b NamespacesFromSame) &&
                    (Namespace (a_meta account) <>b Namespace (g_meta gw)))
                (mkFieldError Forbidden (child spec (lit "gatewayRef"))) in
  do accounts <- ListAccounts;
  match accounts with
  | Err _ => kret errs
  | Ok items =>
      kret (errs ++ when (existsb (λ other, taken account other gw) items)
                      (mkFieldError Duplicate (child spec (lit "username"))))
  end.

Definition validateAgainstGrant (account : MailoutAccount) (path : bytes) : K (list fieldError) :=
  match as_AllowedSenders (a_spec account) with
  | [] => kret []
  | requested =>
      do g <- GetGateway (GatewayNamespaceFor account operatorNamespace,
                          gr_Name (GatewayRef (a_spec account)));
      match g with
      | Found gw =>
          do granted <- GrantedSendersFor gw (Namespace (a_meta account));
          match granted with
          | Err _ => kret [mkFieldError InternalError path]
          | Ok granted =>
              kret ((λ _, mkFieldError Invalid path) <$> (Policy.GrantedSubset granted requested).2)
          end
      | _ => kret []
      end
  end.

Definition validateSecretRef (account : MailoutAccount) (path : bytes) : K (list fieldError) :=
  do s <- GetSecret (Namespace (a_meta account), ref_Name (SecretRef (a_spec account)));
  match s with
  | Found secret =>
      if existsb (λ o, (o.1 =b lit "MailoutAccount") && (o.2 =b Name (a_meta account)))
           (OwnerReferences secret) then kret []
      else if at_key (s_Labels secret) (lit "app.kubernetes.io/managed-by") =b lit "mailout-operator"
      then kret []
      else kret [mkFieldError Invalid (child path (lit "name"))]
  | _ => kret []
  end.

(** [AccountValidator.validate]. *)
Definition validateAccount (account : MailoutAccount)
    : K (list warning * option admissionError) :=
  let spec := lit "spec" in
  let warnings := match EnforceHeaderFrom (a_spec account) with
                  | Some false => [WHeaderFromNotEnforced]
                  | _ => []
                  end in
  do g <- GetGateway (GatewayNamespaceFor account operatorNamespace,
                      gr_Name (GatewayRef (a_spec account)));
  do r <- (match g with
           | NotFound => kret (Ok [mkFieldError Invalid (child spec (lit "gatewayRef"))])
           | Failed e => kret (Err (EWrap (lit "look up gateway") e))
           | Found gw => do errs <- validateAgainstGateway account gw spec; kret (Ok errs)
           end);
  match r with
  | Err e => kret ([], Some (LookupFailed e))
  | Ok errs =>
      let explicit := as_Username (a_spec account) in
      let errs := errs ++
        when ((explicit <>b []) && negb (HasPrefix explicit (Namespace (a_meta account) ++ lit ".")))
          (mkFieldError Invalid (child spec (lit "username"))) ++
        when (negb (ValidUsername (UsernameFor account)))
          (mkFieldError Invalid (if explicit =b [] then lit "metadata.name"
                                 else child spec (lit "username"))) ++
        validateAllowedSenders (as_AllowedSenders (a_spec account)) (child spec (lit "allowedSenders")) in
      do granted <- validateAgainstGrant account (child spec (lit "allowedSenders"));
      do secret <- validateSecretRef account (child spec (lit "secretRef"));
      kret (warnings, conclude (errs ++ granted ++ secret))
  end.
End Account.

End Webhook.
Import Webhook Render.

(** ** Facts *)

Lemma conclude_None errs : conclude errs = None <-> errs = [].
Proof. by destruct errs. Qed.

Lemma when_nil b e : when b e = [] <-> b = false.
Proof. by destruct b. Qed.

Create Rewrite HintDb admission.
#[export] Hint Rewrite @app_nil when_nil conclude_None : admission.

Lemma Clean_nonempty p : Filepath.Clean p <> [].
Proof. unfold Filepath.Clean. by case_bool_decide. Qed.

Lemma Join_nonempty elem : Exists (λ e, e <> []) elem -> Filepath.Join elem <> [].
Proof.
  induction 1 as [e l He|e l _ IH]; cbn [Filepath.Join]; case_bool_decide; try done;
    apply Clean_nonempty.
Qed.

Lemma milterLoop_nil path milters : forall i seen,
  milterLoop path i seen milters = [] ->
  Forall (λ m, exists na, ParseAddress (mkMilter [] (ms_Address m) false 0) = inl na) milters.
Proof.
  induction milters as [|m milters IH]; intros i seen; cbn [milterLoop]; [by constructor|].
  autorewrite with admission. intros (_ & Hm & Hl). constructor; [|by eapply IH].
  destruct (ParseAddress _) as [na|]; [eauto|done].
Qed.

(** An address is read the same whatever else the filter's settings are. *)
Lemma ParseAddress_address m n : m_Address m = m_Address n -> ParseAddress m = ParseAddress n.
Proof. unfold ParseAddress. by intros ->. Qed.

Section GatewayFacts.
Context `{Unicode, Selectors}.

Lemma renderListeners_ok gw path :
  validateListeners gw path = [] ->
  let ls := renderListeners (gs_Listeners (g_spec gw)) in
  ls <> [] /\ Forall listener_ok ls /\ NoDup (l_Addr <$> ls).
Proof.
  unfold validateListeners, renderListeners.
  destruct (gs_Listeners (g_spec gw)) as [[a|] [b|]]; cbn [Submission SMTPS app];
    intros Hv; autorewrite with admission in Hv; destruct Hv as (Hp & _);
    (split_and!; [done|by repeat constructor|]); try (apply NoDup_singleton).
  cbn [fmap list_fmap l_Addr]. apply NoDup_cons_2, NoDup_singleton.
  rewrite list_elem_of_singleton. unfold port_addr. intros E%(inj _)%itoa_inj.
  bools. by unfold listenerPort in Hp.
Qed.

Lemma renderTLS_ok v gw path :
  validateTLS v gw path = [] ->
  Certificates (renderTLS gw) <> [] /\
  Forall (λ x, certificate_complete x = true) (Certificates (renderTLS gw)).
Proof.
  unfold validateTLS, renderTLS, CertificateSecretNames. cbn [Certificates].
  autorewrite with admission. intros (Hr & _). split.
  - by destruct (CertificateRefs _), (IssuerRef _).
  - apply Forall_fmap, Forall_true. intros n. unfold compose, certificate_complete. cbn [CertFile KeyFile].
    do 2 (rewrite bool_decide_eq_false_2 by (apply Join_nonempty; right; by left)). done.
Qed.

(** What admission promises of the pieces [Validate] looks at. *)
Lemma admitted_servable `{Sorter} v gw inp cfg :
  (validateGateway v gw).2 = None -> us_Host (gs_Upstream (g_spec gw)) <> [] ->
  Gateway inp = Some gw -> GatewayConfig inp = Ok cfg -> servable cfg.
Proof.
  intros Hv Hh Hg Hc. unfold GatewayConfig in Hc. rewrite Hg in Hc. injection Hc as <-.
  cbn [validateGateway snd] in Hv. apply conclude_None in Hv. unfold gatewayErrors in Hv.
  autorewrite with admission in Hv. destruct Hv as (_ & Ht & Hm & _ & _ & Hl & Hr & _).
  destruct (renderListeners_ok _ _ Hl) as (? & ? & Hn). destruct (renderTLS_ok _ _ _ Ht) as [? ?].
  constructor; cbn; try done.
  - by apply bfilter_NoDup_fmap.
  - unfold upstream_mode_ok, upstreamTLSMode. by repeat case_match.
  - destruct (gs_RateLimit (g_spec gw)) as [rl|]; [|done]. cbn. unfold validateRateLimit in Hr.
    autorewrite with admission in Hr. destruct Hr as (Ha & _). split; cbn; [|by destruct (rs_TLS _)].
    intros E. by rewrite E in Ha.
  - apply milterLoop_nil in Hm. apply Forall_fmap. eapply Forall_impl; [exact Hm|].
    intros m [na Hna]. exists na. by rewrite <- Hna; apply ParseAddress_address.
Qed.
End GatewayFacts.

(** ** What an entry may look like *)

Section EntryFacts.
Context `{Unicode}.

(** A well-formed entry with no other wildcard than a whole local part. *)
Definition plain_entry (e : bytes) : Prop :=
  match parse_entry e with
  | Some (GDomain d) => chr 42 ∉ d
  | Some (GAddress a _) => chr 42 ∉ a
  | None => False
  end.

Lemma Contains_byte s c : Contains s [c] = true <-> c ∈ s.
Proof.
  unfold Contains. induction s as [|x s IH]; cbn [Index HasPrefix].
  { split; [done|by intros ?%not_elem_of_nil]. }
  assert (HasPrefix s [] = true) as -> by by destruct s.
  rewrite elem_of_cons. case_bool_decide as Hx; [split; [intros _; by left|done]|].
  rewrite <- IH. destruct (Index s [c]); cbn; naive_solver.
Qed.

Lemma Contains_byte_false s c : Contains s [c] = false <-> c ∉ s.
Proof. rewrite <- Contains_byte. by destruct (Contains s [c]). Qed.

Lemma entryProblem_nil path i e : entryProblem path i (normalize e) = [] <-> plain_entry e.
Proof.
  unfold entryProblem, plain_entry, parse_entry.
  destruct (Cut (normalize e) AT) as [[local domain] [|]] eqn:E; cbn [negb andb]; [|done].
  apply Cut_found in E as [E _].
  destruct (bool_decide (local = [])) eqn:El, (bool_decide (domain = [])) eqn:Ed; cbn [negb andb];
    try done.
  destruct (bool_decide (local = STAR)) eqn:Es; bools.
  - rewrite andb_false_r. rewrite <- Contains_byte_false.
    change [chr 42] with STAR. by destruct (Contains domain STAR).
  - rewrite andb_true_r, E, elem_of_app, elem_of_cons. destruct (Contains local STAR) eqn:Cl.
    + apply Contains_byte in Cl. naive_solver.
    + apply Contains_byte_false in Cl. destruct (Contains domain STAR) eqn:Cd.
      * apply Contains_byte in Cd. naive_solver.
      * apply Contains_byte_false in Cd. split; [|done]. intros _ [?|[?|?]]; done.
Qed.

Lemma senderLoop_nil path senders : forall i seen,
  senderLoop path i seen senders = [] <->
  Forall plain_entry senders /\ NoDup (normalize <$> senders) /\
  Forall (λ e, normalize e ∉ seen) senders.
Proof.
  induction senders as [|e senders IH]; intros i seen; cbn [senderLoop fmap list_fmap].
  { split; [|done]. intros _. split_and!; constructor. }
  fold (normalize e). rewrite !app_nil, when_nil, bool_decide_eq_false, entryProblem_nil, IH.
  rewrite !Forall_cons, NoDup_cons.
  assert (Forall (λ x, normalize x ∉ {[normalize e]} ∪ seen) senders <->
    (normalize e ∉ normalize <$> senders) /\ Forall (λ x, normalize x ∉ seen) senders) as ->.
  { rewrite !Forall_forall, list_elem_of_fmap. split.
    - intros Hf. split; [|set_solver]. intros (x & Ex & Hx). specialize (Hf x Hx). set_solver.
    - intros [Hn Hf] x Hx. rewrite elem_of_union, elem_of_singleton. naive_solver. }
  tauto.
Qed.
End EntryFacts.

(** ** What admission of an account promises *)

Section AccountFacts.
Context `{Unicode, ApiServer}.
Variable operatorNamespace : bytes.

Lemma HasPrefix_app s p : HasPrefix s p = true -> exists rest, s = p ++ rest.
Proof. rewrite HasPrefix_spec. naive_solver. Qed.

(** The checks an admitted account went through, each at some moment of the
    admission. *)
Lemma validateAccount_ok account s ws s' :
  validateAccount operatorNamespace account s = ((ws, None), s') ->
  let explicit := as_Username (a_spec account) in
  (explicit = [] \/ HasPrefix explicit (Namespace (a_meta account) ++ lit ".") = true) /\
  ValidUsername (UsernameFor account) = true /\
  validateAllowedSenders (as_AllowedSenders (a_spec account)) (lit "spec.allowedSenders") = [] /\
  (exists gw, api_Gateway (calls s) (GatewayNamespaceFor account operatorNamespace,
                                     gr_Name (GatewayRef (a_spec account))) = Found gw) /\
  (validateAgainstGrant operatorNamespace account (lit "spec.allowedSenders")
     (mkCalls (S (S (calls s))) (effects s))).1 = [] /\
  (exists s1, (validateSecretRef account (lit "spec.secretRef") s1).1 = []).
Proof.
  unfold validateAccount, kbind. destruct (GetGateway _ s) as [g s1] eqn:Egw.
  match goal with |- context [(match g with Found _ => _ | NotFound => _ | Failed _ => _ end) s1] =>
    set (c := match g with Found _ => _ | NotFound => _ | Failed _ => _ end) end.
  destruct (c s1) as [[errs|e] s2] eqn:Ec; [|by intros [=]].
  assert (Hfirst : errs = [] -> (exists gw, g = Found gw) /\ s2 = mkCalls (S (S (calls s))) (effects s)).
  { intros ->. run_api. injection Egw as Eg <-. unfold c in Ec. destruct g as [gw| |e].
    - split; [by eexists|]. unfold validateAgainstGateway in Ec. run_api.
      destruct (api_Accounts _); cbn in Ec; by injection Ec as _ <-.
    - by injection Ec.
    - by injection Ec. }
  change (child (lit "spec") (lit "allowedSenders")) with (lit "spec.allowedSenders").
  change (child (lit "spec") (lit "secretRef")) with (lit "spec.secretRef").
  destruct (validateAgainstGrant _ _ _ s2) as [granted s3] eqn:Eg.
  destruct (validateSecretRef _ _ s3) as [sec s4] eqn:Es.
  intros [= _ Hc _]. apply conclude_None in Hc. autorewrite with admission in Hc.
  destruct Hc as ((Herrs & Hp & Hv & Ha) & -> & ->). destruct (Hfirst Herrs) as [(gw & ->) ->].
  bools. split_and!; try done.
  - apply andb_false_iff in Hp as [Hp|Hp]; bools; [by left|by right].
  - exists gw. run_api. by injection Egw.
  - by rewrite Eg.
  - exists s3. by rewrite Es.
Qed.

(** What an empty list of refusals says of the grant. *)
Lemma grant_checked account gw s :
  let key := (GatewayNamespaceFor account operatorNamespace, gr_Name (GatewayRef (a_spec account))) in
  let asked := as_AllowedSenders (a_spec account) in
  (validateAgainstGrant operatorNamespace account (lit "spec.allowedSenders")
     (mkCalls (S (S (calls s))) (effects s))).1 = [] ->
  asked <> [] -> api_Gateway (calls s + 2) key = Found gw ->
  exists granted ls, granted_by (gs_AllowedSenders (g_spec gw)) [] granted ls /\
    match ls with Some l => labels_read (Namespace (a_meta account)) (calls s + 3) (calls s + 4) l | None => True end /\
    forall x, Policy.allows (Policy.newSenderPolicy asked) x = true -> Policy.allows (Policy.newSenderPolicy granted) x = true.
Proof.
  intros key asked Hs1 Hne Hgw. unfold validateAgainstGrant in Hs1. fold asked in Hs1.
  replace (calls s + 2)%nat with (S (S (calls s))) in Hgw by lia.
  destruct asked as [|e es] eqn:Easked; [done|]. rewrite <- Easked in *.
  unfold GetGateway in Hs1. unfold kbind, call, kret in Hs1. cbn [calls effects fst] in Hs1. fold key in Hs1.
  rewrite Hgw in Hs1. unfold GrantedSendersFor, kbind_ok, kbind, kret in Hs1.
  destruct (grantedSenders gw _ None _) as [[[granted ls]|err] s2] eqn:Eg; cbn in Hs1; [|done].
  apply grantedSenders_spec in Eg as (_ & Hcalls & Hok). cbn in Hcalls. destruct (Hok _ _ eq_refl) as [Hby Hls].
  exists granted, ls. split; [done|]. split.
  - destruct ls as [l|]; [|done]. destruct Hls as (n & r & Hn & Hr). cbn in Hn. exists n, r. split; [lia|done].
  - intros x. apply nothing_refused_within; [by rewrite Easked|]. by apply fmap_nil_inv in Hs1.
Qed.

(** The username of an admitted account is in its namespace's space. *)
Lemma admitted_username account s ws s' :
  validateAccount operatorNamespace account s = ((ws, None), s') ->
  exists rest, UsernameFor account = Namespace (a_meta account) ++ lit "." ++ rest.
Proof.
  intros (Hp & _)%validateAccount_ok. unfold UsernameFor. case_bool_decide as E; cbn [negb].
  - eauto.
  - destruct Hp as [?|[rest ->]%HasPrefix_app]; [done|]. exists rest. by rewrite <- (assoc_L (++)).
Qed.

Lemma dot_split a b x y : chr 46 ∉ a -> chr 46 ∉ b ->
  a ++ lit "." ++ x = b ++ lit "." ++ y -> a = b.
Proof.
  intros Ha Hb E. apply (f_equal (λ s, Cut s (chr 46))) in E.
  change (lit ".") with [chr 46] in E. cbn [app] in E. rewrite !Cut_at in E by done. by simplify_eq.
Qed.
End AccountFacts.

(** ** Properties *)

Section Properties.
Context `{Unicode, Selectors}.

(** What the webhook admits, the dataplane serves: a gateway admitted with
    an upstream host renders to a configuration that validation accepts, both
    as published and with the defaults the dataplane fills in. *)
Theorem admitted_gateway_is_servable `{Sorter} (v : GatewayValidator) (gw : MailoutGateway)
    (inp : Input) (cfg : Config.Config) :
  (validateGateway v gw).2 = None -> us_Host (gs_Upstream (g_spec gw)) <> [] ->
  Gateway inp = Some gw -> GatewayConfig inp = Ok cfg ->
  Validate cfg = [] /\ Validate (applyDefaults cfg) = [].
Proof.
  intros Hv Hh Hg Hc. pose proof (admitted_servable _ _ _ _ Hv Hh Hg Hc) as Hs.
  split; apply Validate_servable; [done|]. by apply applyDefaults_servable.
Qed.

(** A list of senders is admitted exactly when every entry is an address
    or a whole domain, without a wildcard anywhere else, and no two entries
    are the same up to case and surrounding blanks: nothing admitted is
    ignored later. *)
Theorem validateAllowedSenders_exact (senders : list bytes) (path : bytes) :
  validateAllowedSenders senders path = [] <->
  Forall plain_entry senders /\ NoDup (normalize <$> senders).
Proof.
  unfold validateAllowedSenders. rewrite senderLoop_nil.
  assert (Forall (λ e, normalize e ∉ (∅ : gset bytes)) senders) by (apply Forall_true; set_solver).
  tauto.
Qed.

(** C23: an admitted account names a gateway that exists, has a username in its
    own namespace's space that the dataplane accepts, and asks only for well-formed
    senders. If it asks for any, and the gateway is found again by the second
    lookup, the one made for the grant (the third call of the admission), then
    every address the senders it asks for allow is one that the grants of that
    gateway, those that apply to the labels read of its namespace, allow. When the
    second lookup fails the account is admitted without this check (see
    [unread_gateway_admits_unchecked]). *)
Theorem admitted_account_is_within_its_grant `{!ApiServer} (operatorNamespace : bytes)
    (account : MailoutAccount) (s s' : Calls) (ws : list warning) :
  let key := (GatewayNamespaceFor account operatorNamespace, gr_Name (GatewayRef (a_spec account))) in
  let asked := as_AllowedSenders (a_spec account) in
  validateAccount operatorNamespace account s = ((ws, None), s') ->
  (exists gw, api_Gateway (calls s) key = Found gw) /\
  (exists rest, UsernameFor account = Namespace (a_meta account) ++ lit "." ++ rest) /\
  ValidUsername (UsernameFor account) = true /\
  Forall plain_entry asked /\
  (asked <> [] -> forall gw, api_Gateway (calls s + 2) key = Found gw ->
   exists granted ls, granted_by (gs_AllowedSenders (g_spec gw)) [] granted ls /\
     match ls with Some l => labels_read (Namespace (a_meta account)) (calls s + 3) (calls s + 4) l | None => True end /\
     forall x, Policy.allows (Policy.newSenderPolicy asked) x = true -> Policy.allows (Policy.newSenderPolicy granted) x = true).
Proof.
  intros key asked Hv. pose proof (admitted_username _ _ _ _ _ Hv) as Hu.
  apply validateAccount_ok in Hv as (_ & Hn & Ha & Hg & Hs1 & _).
  unfold validateAllowedSenders in Ha. rewrite senderLoop_nil in Ha. destruct Ha as (Ha & _ & _).
  split_and!; try done. intros Hne gw Hgw. by eapply grant_checked.
Qed.

(** One tenant cannot take another's identity: accounts admitted from two
    namespaces never have the same username (a namespace's name has no dot). *)
Theorem namespaces_never_share_a_username `{!ApiServer} (operatorNamespace : bytes)
    (a b : MailoutAccount) (s s' t t' : Calls) (ws ws' : list warning) :
  validateAccount operatorNamespace a s = ((ws, None), s') ->
  validateAccount operatorNamespace b t = ((ws', None), t') ->
  chr 46 ∉ Namespace (a_meta a) -> chr 46 ∉ Namespace (a_meta b) ->
  Namespace (a_meta a) <> Namespace (a_meta b) -> UsernameFor a <> UsernameFor b.
Proof.
  intros (x & Ea)%admitted_username (y & Eb)%admitted_username Ha Hb Hne E. rewrite Ea, Eb in E.
  by apply dot_split in E.
Qed.
End Properties.

(** ** Witnesses *)

#[local] Existing Instance matchLabels.
#[local] Existing Instance sorter_by.

Definition demo_validator : GatewayValidator := mkGatewayValidator (lit "mailout-system") false.

Lemma admitted_gateway_witness : exists cfg,
  GatewayConfig (demo_input []) = Ok cfg /\ Validate cfg = [].
Proof.
  destruct (GatewayConfig (demo_input [])) as [cfg|] eqn:E; [|discriminate].
  exists cfg. split; [reflexivity|].
  refine (proj1 (admitted_gateway_is_servable demo_validator demo_gw (demo_input []) cfg _ _ eq_refl E)).
  - by vm_compute.
  - discriminate.
Defined.

(** A cluster that answers every read of the demonstration. *)
Definition demo_api : ApiServer := {|
  api_Namespace _ _ := Found None;
  api_Gateway _ _ := Found demo_gw;
  api_Account _ _ := NotFound;
  api_Secret _ _ := NotFound;
  api_CachedSecret _ _ := NotFound;
  api_Accounts _ := Ok [];
  api_Service _ _ := NotFound;
  api_Certificate _ _ := NotFound;
  api_ServiceMonitor _ _ := NotFound;
  api_Deployment _ _ := NotFound;
  api_NetworkPolicy _ _ := NotFound;
  api_Write _ := None;
  api_Delete _ _ := NotFound
|}.
#[local] Existing Instance demo_api.

Definition demo_mailout_account (ns name : bytes) : MailoutAccount :=
  mkMailoutAccount (mkMeta name ns (lit "u2") 0 1)
    (mkAccountSpec (mkGatewayRef (lit "relay") []) [] (mkRef (lit "creds")) []
       [lit "app@example.com"] None false)
    (mkAccountStatus [] 0 [] [] [] []).

Definition demo_admission (ns : bytes) :=
  validateAccount (lit "mailout-system") (demo_mailout_account ns (lit "app")) calls0.

Lemma admitted_pair {A B C} (x : A * option B * C) : x.1.2 = None -> x = ((x.1.1, None), x.2).
Proof. destruct x as [[a b] c]. cbn. by intros ->. Qed.

Lemma demo_admitted ns : ns = lit "shop" \/ ns = lit "blog" -> (demo_admission ns).1.2 = None.
Proof. intros [->| ->]; by vm_compute. Qed.

Lemma within_grant_witness : exists granted ls,
  granted_by (gs_AllowedSenders (g_spec demo_gw)) [] granted ls /\
  Policy.allows (Policy.newSenderPolicy granted) (lit "app@example.com") = true.
Proof.
  destruct (admitted_account_is_within_its_grant (lit "mailout-system")
    (demo_mailout_account (lit "shop") (lit "app")) calls0 (demo_admission (lit "shop")).2
    (demo_admission (lit "shop")).1.1) as (_ & _ & _ & _ & Hg).
  - apply admitted_pair, demo_admitted. by left.
  - destruct (Hg ltac:(discriminate) demo_gw eq_refl) as (granted & ls & Hby & _ & Hx). exists granted, ls.
    split; [exact Hby|]. apply Hx. by vm_compute.
Defined.

(** The same cluster, which cannot answer the second read of the gateway. *)
Definition flaky_api : ApiServer := {|
  api_Namespace _ _ := Found None;
  api_Gateway t _ := if (t =? 2)%nat then Failed (EText (lit "timeout")) else Found demo_gw;
  api_Account _ _ := NotFound;
  api_Secret _ _ := NotFound;
  api_CachedSecret _ _ := NotFound;
  api_Accounts _ := Ok [];
  api_Service _ _ := NotFound;
  api_Certificate _ _ := NotFound;
  api_ServiceMonitor _ _ := NotFound;
  api_Deployment _ _ := NotFound;
  api_NetworkPolicy _ _ := NotFound;
  api_Write _ := None;
  api_Delete _ _ := NotFound
|}.

Definition asking (sender : bytes) : MailoutAccount :=
  mkMailoutAccount (mkMeta (lit "app") (lit "shop") (lit "u2") 0 1)
    (mkAccountSpec (mkGatewayRef (lit "relay") []) [] (mkRef (lit "creds")) [] [sender] None false)
    (mkAccountStatus [] 0 [] [] [] []).

(** The check of the grant is skipped when the gateway cannot be read a second
    time, and the account admitted: here one that asks for a sender nobody granted. *)
Theorem unread_gateway_admits_unchecked :
  (@validateAccount unicode14 matchLabels flaky_api (lit "mailout-system") (asking (lit "ceo@bank.test")) calls0).1.2 = None /\
  (@validateAccount unicode14 matchLabels demo_api (lit "mailout-system") (asking (lit "ceo@bank.test")) calls0).1.2 <> None.
Proof. by vm_compute. Qed.


Lemma never_share_witness :
  UsernameFor (demo_mailout_account (lit "shop") (lit "app")) <>
  UsernameFor (demo_mailout_account (lit "blog") (lit "app")).
Proof.
  refine (namespaces_never_share_a_username (lit "mailout-system")
    (demo_mailout_account (lit "shop") (lit "app")) (demo_mailout_account (lit "blog") (lit "app"))
    calls0 (demo_admission (lit "shop")).2 calls0 (demo_admission (lit "blog")).2
    (demo_admission (lit "shop")).1.1 (demo_admission (lit "blog")).1.1 _ _ _ _ _).
  - apply admitted_pair, demo_admitted. by left.
  - apply admitted_pair, demo_admitted. by right.
  - by apply (bool_decide_unpack _); vm_compute.
  - by apply (bool_decide_unpack _); vm_compute.
  - discriminate.
Defined.
