(* ===== verification/Objects.v ===== *)
(** * Objects: the Kubernetes objects of a gateway and of an account

    Models [src/internal/render/objects.go] and [ListenerStatuses] of
    [render.go]: the Secrets, Services, Certificate, ServiceMonitor, Deployment
    and NetworkPolicy the operator writes. Each object is a record of the
    fields the code sets and of those it reads back. SHA-256 is a parameter. *)

From S2P Require Import Prelude Unicode GoStrings GoNet Policy Passwords Config Api Access Render Webhook.
Import Render.
#[local] Open Scope Z_scope.

Class Sha256 := { sum256 : bytes -> bytes }.

Module Objects.

Definition ConfigSecretSuffix : bytes := lit "-config".
Definition LabelGatewayName : bytes := lit "mailout.daly.nc/gateway".
Definition LabelGatewayNamespace : bytes := lit "mailout.daly.nc/gateway-namespace".
Definition MetricsServiceSuffix : bytes := lit "-metrics".
Definition LabelService : bytes := lit "mailout.daly.nc/service".
Definition RestartHashAnnotation : bytes := lit "mailout.daly.nc/restart-hash".
Definition dataplaneUID : Z := 65532.
Definition dataplaneGID : Z := 65532.
Definition secretFileMode : Z := 288.  (* 0o440 *)
Definition MetricsPortName : bytes := lit "metrics".
Definition MetricsTokenKey : bytes := lit "metricsToken".
Definition SpoolVolumeName : bytes := lit "spool".
Definition spoolSizeLimit : bytes := lit "2Gi".
Definition MetricsPath : bytes := lit "/metrics".
Definition BasicAuthUsernameKey : bytes := lit "username".
Definition BasicAuthPasswordKey : bytes := lit "password".

Definition MetricsServiceName (gatewayName : bytes) : bytes := gatewayName ++ MetricsServiceSuffix.
Definition ConfigSecretName (gatewayName : bytes) : bytes := gatewayName ++ ConfigSecretSuffix.

Definition Labels (gatewayName : bytes) : gmap bytes bytes :=
  list_to_map [(lit "app.kubernetes.io/name", lit "mailout");
               (lit "app.kubernetes.io/instance", gatewayName);
               (lit "app.kubernetes.io/component", lit "gateway");
               (lit "app.kubernetes.io/managed-by", lit "mailout-operator")].

Definition SelectorLabels (gatewayName : bytes) : gmap bytes bytes :=
  list_to_map [(lit "app.kubernetes.io/name", lit "mailout");
               (lit "app.kubernetes.io/instance", gatewayName);
               (lit "app.kubernetes.io/component", lit "gateway")].

Definition MetricsServiceLabels (gatewayName : bytes) : gmap bytes bytes :=
  <[LabelService := MetricsPortName]> (Labels gatewayName).

(** ** Listeners *)

(** The port read back out of a listener's address; a text that is no number
    leaves it at 0. *)
Definition statusOf (l : Listener) : ListenerStatus :=
  let '(_, portStr, found) := Cut (l_Addr l) COLON in
  let port := if found then default 0 (Sscan portStr) else 0 in
  mkListenerStatus (l_Name l) (wrap32 port) (l_Mode l).

Definition ListenerStatuses (cfg : Config.Config) : list ListenerStatus :=
  statusOf <$> Listeners cfg.

Definition listenerPortOf (l : Listener) : Z :=
  match SplitHostPort (l_Addr l) with
  | None => 0
  | Some (_, port) => match Atoi port with None => 0 | Some n => wrap32 n end
  end.

(** ** Services *)

Definition ServiceTypeClusterIP : bytes := lit "ClusterIP".

(** ** Secrets *)

(** Where an application sends its mail. *)
Record Endpoint := mkEndpoint { e_Host : bytes; e_Port : Z; e_TLS : bytes }.

Definition accountSecretLabels (account : MailoutAccount) (gatewayNamespace : bytes)
    : gmap bytes bytes :=
  list_to_map [(lit "app.kubernetes.io/name", lit "mailout");
               (lit "app.kubernetes.io/component", lit "account");
               (lit "app.kubernetes.io/managed-by", lit "mailout-operator");
               (lit "mailout.daly.nc/account", Name (a_meta account));
               (LabelGatewayName, gr_Name (GatewayRef (a_spec account)));
               (LabelGatewayNamespace, gatewayNamespace)].

Definition AccountSecret (account : MailoutAccount) (username password passwordHash : bytes)
    (endpoint : Endpoint) (gatewayNamespace : bytes) : Secret :=
  mkSecret (Namespace (a_meta account)) (ref_Name (SecretRef (a_spec account)))
    (accountSecretLabels account gatewayNamespace)
    (lit "kubernetes.io/basic-auth")
    (list_to_map [(BasicAuthUsernameKey, username);
                  (BasicAuthPasswordKey, password);
                  (PasswordHashKey, passwordHash);
                  (lit "host", e_Host endpoint);
                  (lit "port", itoa (e_Port endpoint));
                  (lit "tls", e_TLS endpoint)])
    [].

Section Gateway.
Context `{Selectors}.

Definition ConfigSecret (gw : MailoutGateway) (rendered metricsToken : bytes) : Secret :=
  mkSecret (Namespace (g_meta gw)) (ConfigSecretName (Name (g_meta gw))) (Labels (Name (g_meta gw)))
    (lit "Opaque")
    (let data := {[ConfigFileName := rendered]} in
     if metricsToken <>b [] then <[MetricsTokenKey := metricsToken]> data else data)
    [].

Definition CertificateFor (gw : MailoutGateway) : option Certificate :=
  match IssuerRef (gs_TLS (g_spec gw)) with
  | None => None
  | Some issuer =>
      let kind := if i_Kind issuer =b [] then lit "Issuer" else i_Kind issuer in
      let group := if i_Group issuer =b [] then lit "cert-manager.io" else i_Group issuer in
      let dnsNames := DNSNames (gs_TLS (g_spec gw)) in
      let dnsNames := if (zlen dnsNames =? 0) && (gs_Hostname (g_spec gw) <>b [])
                      then [gs_Hostname (g_spec gw)] else dnsNames in
      Some (mkCertificateObject (Name (g_meta gw)) (Namespace (g_meta gw)) (Labels (Name (g_meta gw)))
              (mkCertificateSpec (OwnedCertificateSecretName (Name (g_meta gw))) dnsNames []
                 (mkIssuer (i_Name issuer) kind group)))
  end.

Definition serviceType (gw : MailoutGateway) : bytes :=
  if ServiceType (gs_Deployment (g_spec gw)) <>b [] then ServiceType (gs_Deployment (g_spec gw))
  else ServiceTypeClusterIP.

Definition ServiceFor (gw : MailoutGateway) (cfg : Config.Config) : Service :=
  mkService (Name (g_meta gw)) (Namespace (g_meta gw)) (Labels (Name (g_meta gw)))
    (ServiceAnnotations (gs_Deployment (g_spec gw)))
    (SelectorLabels (Name (g_meta gw))) (serviceType gw)
    ((λ l, mkServicePort (lst_Name l) (lst_Port l) (FromInt32 (lst_Port l)) ProtocolTCP) <$> ListenerStatuses cfg)
    [].

Definition MetricsService (gw : MailoutGateway) : Service :=
  mkService (MetricsServiceName (Name (g_meta gw))) (Namespace (g_meta gw))
    (MetricsServiceLabels (Name (g_meta gw))) ∅ (SelectorLabels (Name (g_meta gw)))
    ServiceTypeClusterIP
    [mkServicePort MetricsPortName MetricsPort (FromString MetricsPortName) ProtocolTCP] [].

Definition ServiceMonitorFor (gw : MailoutGateway) : ServiceMonitor :=
  mkServiceMonitor (MetricsServiceName (Name (g_meta gw))) (Namespace (g_meta gw))
    (MetricsServiceLabels (Name (g_meta gw)))
    (mkMonitorSpec (MetricsServiceLabels (Name (g_meta gw)))
       (mkMonitorNamespaces false [Namespace (g_meta gw)])
       [mkMonitorEndpoint MetricsPortName MetricsPath (lit "http") []
          (Some (mkAuthorization [] (Some (mkKeySel (ConfigSecretName (Name (g_meta gw))) MetricsTokenKey))))]
       []).

(** In-cluster address of the preferred listener: submission, else the first
    that has a port. *)
Definition preferListener (e : Endpoint) (l : ListenerStatus) : Endpoint :=
  if (e_Port e =b 0) || (lst_Name l =b lit "submission")
  then mkEndpoint (e_Host e) (lst_Port l) (lst_Mode l) else e.

Definition GatewayEndpoint (gw : MailoutGateway) (cfg : Config.Config) : Endpoint :=
  foldl preferListener
    (mkEndpoint (Name (g_meta gw) ++ lit "." ++ Namespace (g_meta gw) ++ lit ".svc") 0 [])
    (ListenerStatuses cfg).

(** ** The Deployment *)

Definition PullAlways : bytes := lit "Always".
Definition PullIfNotPresent : bytes := lit "IfNotPresent".

(** [strings.LastIndex], with Go's [-1]. *)
Definition LastIndexZ (s : bytes) (c : ascii) : Z :=
  match LastIndexByte s c with Some i => Z.of_nat i | None => -1 end.

Definition PullPolicyFor (image : bytes) : bytes :=
  if Contains image (lit "@sha256:") then PullIfNotPresent
  else
    let i := LastIndexZ image COLON in
    let tag := if LastIndexZ image Filepath.SLASH <? i then zdrop (i + 1) image else [] in
    if bool_decide (tag ∈ [[]; lit "dev"; lit "latest"; lit "main"; lit "edge"; lit "nightly"])
    then PullAlways else PullIfNotPresent.

(** [hex.EncodeToString]. *)
Definition hex_digit (z : Z) : ascii := nth (Z.to_nat z) (lit "0123456789abcdef") (chr 0).
Definition hex (s : bytes) : bytes :=
  concat ((λ c, [hex_digit (byteZ c / 16); hex_digit (byteZ c mod 16)]) <$> s).

(** What is digested: the sockets and the mounted Secrets. *)
Definition restartInput (gw : MailoutGateway) (cfg : Config.Config) : bytes :=
  concat ((λ l, lit "listener=" ++ l_Name l ++ lit ":" ++ l_Addr l ++ lit ":" ++ l_Mode l ++ [LF])
          <$> Listeners cfg) ++
  concat ((λ n, lit "tls=" ++ n ++ [LF]) <$> CertificateSecretNames gw) ++
  concat ((λ n, lit "dkim=" ++ n ++ [LF]) <$> DKIMSecretNames (Some gw)).

Definition RestartHash `{Sha256} (gw : MailoutGateway) (cfg : Config.Config) : bytes :=
  hex (take 8 (sum256 (restartInput gw cfg))).

(** The volume and the mount of the [i]-th Secret of a kind. *)
Definition secretVolume (prefix : bytes) (i : nat) (secretName : bytes) : Volume :=
  mkVolume (prefix ++ itoa (Z.of_nat i)) (FromSecret secretName secretFileMode).
Definition secretMount (prefix : bytes) (path : bytes -> bytes) (i : nat) (secretName : bytes)
    : VolumeMount :=
  mkMount (prefix ++ itoa (Z.of_nat i)) (path secretName) true.

(** [None] is the panic of [listeners[0]] on a configuration without one. *)
Definition DeploymentFor `{Sha256} (gw : MailoutGateway) (cfg : Config.Config) (image : bytes)
    : option Deployment :=
  let name := Name (g_meta gw) in
  let spec := gs_Deployment (g_spec gw) in
  let certs := CertificateSecretNames gw in
  let keys := DKIMSecretNames (Some gw) in
  let listeners := ListenerStatuses cfg in
  match listeners with
  | [] => None
  | first :: _ =>
      Some (mkDeployment name (Namespace (g_meta gw)) (Labels name) (Replicas spec)
        (Some (SelectorLabels name))
        (mkPodTemplate (Labels name)
        (PodAnnotations spec ∪ {[RestartHashAnnotation := RestartHash gw cfg]})
        (Some false) (lit "gateway") image (PullPolicyFor image)
        [lit "gateway"; lit "--config=" ++ ConfigFilePath;
         lit "--metrics-bind-address=:" ++ itoa MetricsPort; lit "--log-format=json"]
        (((λ l, mkContainerPort (lst_Name l) (lst_Port l) ProtocolTCP) <$> listeners) ++
         [mkContainerPort MetricsPortName MetricsPort ProtocolTCP])
        ([mkMount (lit "config") ConfigDir true; mkMount SpoolVolumeName Render.SpoolDir false] ++
         imap (secretMount (lit "tls-") CertificateMountPath) certs ++
         imap (secretMount (lit "dkim-") DKIMMountPath) keys)
        (Resources spec) (Some (lst_Port first)) (Some (lst_Port first))
        (Some (mkSecurity false true true dataplaneUID dataplaneGID [lit "ALL"]))
        ([mkVolume (lit "config") (FromSecret (ConfigSecretName name) secretFileMode);
          mkVolume SpoolVolumeName (EmptyDir spoolSizeLimit)] ++
         imap (secretVolume (lit "tls-")) certs ++
         imap (secretVolume (lit "dkim-")) keys)
        (NodeSelector spec) (Tolerations spec) (Affinity spec)
        (Some (mkPodSecurity true dataplaneUID dataplaneGID dataplaneGID (lit "RuntimeDefault"))))
        0)
  end.

(** ** The network policy *)

Definition MetricsNetworkPolicyName (gatewayName : bytes) : bytes := gatewayName ++ lit "-metrics".

Definition MetricsNetworkPolicy (gw : MailoutGateway) (cfg : Config.Config) : option NetworkPolicy :=
  match AllowedScrapers (gs_Metrics (g_spec gw)) with
  | [] => None
  | scrapers =>
      Some (mkNetworkPolicy (MetricsNetworkPolicyName (Name (g_meta gw))) (Namespace (g_meta gw))
        (Labels (Name (g_meta gw))) (SelectorLabels (Name (g_meta gw)))
        [lit "Ingress"]
        [mkRule ((λ l, (ProtocolTCP, listenerPortOf l)) <$> Listeners cfg) [];
         mkRule [(ProtocolTCP, MetricsPort)] scrapers])
  end.
End Gateway.

End Objects.
Import Objects.

(** ** Facts *)

Lemma wrap32_id z : - 2 ^ 31 <= z < 2 ^ 31 -> wrap32 z = z.
Proof.
  unfold wrap32. change (2 ^ 31) with 2147483648. change (2 ^ 32) with 4294967296.
  intros Hz. rewrite Z.mod_small; lia.
Qed.

(** The port of a rendered listener is read back as it was declared, by both
    readers. *)
Lemma rendered_port name mode p : 0 < p < 2 ^ 31 ->
  statusOf (mkListener name (port_addr p) mode) = mkListenerStatus name p mode /\
  listenerPortOf (mkListener name (port_addr p) mode) = p.
Proof.
  intros Hp. change (2 ^ 31) with 2147483648 in Hp.
  assert (0 < p <= MaxInt64) by (change MaxInt64 with 9223372036854775807; lia).
  unfold statusOf, listenerPortOf, port_addr. cbn [l_Addr l_Name l_Mode].
  rewrite SplitHostPort_port, Atoi_itoa by lia.
  change (Cut (lit ":" ++ itoa p) COLON) with (([] : bytes), itoa p, true). cbn iota beta.
  rewrite Sscan_itoa by lia. change (default 0 (Some p)) with p.
  by rewrite wrap32_id by (change (2 ^ 31) with 2147483648; lia).
Qed.

(** The declared ports of a gateway, with the name of their listener. *)
Definition declared_ports (spec : ListenersSpec) : list (bytes * Z) :=
  let port (def : Z) (l : ListenerSpec) := if ls_Port l =b 0 then def else ls_Port l in
  match Submission spec, SMTPS spec with
  | None, None => [(lit "submission", DefaultSubmissionPort)]
  | s, t =>
      match s with Some l => [(lit "submission", port DefaultSubmissionPort l)] | None => [] end ++
      match t with Some l => [(lit "smtps", port DefaultSMTPSPort l)] | None => [] end
  end.

Definition port_in_range (spec : ListenersSpec) : Prop :=
  Forall (λ np, 0 < np.2 < 2 ^ 31) (declared_ports spec).

Lemma renderListeners_declared spec :
  (λ l, (l_Name l, l_Addr l)) <$> renderListeners spec =
  (λ np, (np.1, port_addr np.2)) <$> declared_ports spec.
Proof. destruct spec as [[a|] [b|]]; done. Qed.

(** Whatever reads a rendered listener finds the declared name and port. *)
Lemma read_rendered {A} (f : Listener -> A) (g : bytes * Z -> A) spec :
  port_in_range spec ->
  (forall name mode p, 0 < p < 2 ^ 31 -> f (mkListener name (port_addr p) mode) = g (name, p)) ->
  f <$> renderListeners spec = g <$> declared_ports spec.
Proof.
  intros Hr Hf. unfold port_in_range, declared_ports, renderListeners in *.
  destruct spec as [[a|] [b|]]; cbn [Submission SMTPS app fmap list_fmap] in *;
    rewrite ?Forall_cons in Hr; rewrite !Hf by tauto; done.
Qed.

Lemma listener_ports spec : port_in_range spec ->
  listenerPortOf <$> renderListeners spec = snd <$> declared_ports spec.
Proof. intros Hr. apply read_rendered; [done|]. intros. by apply rendered_port. Qed.

Lemma status_ports spec : port_in_range spec ->
  (λ l, (lst_Name (statusOf l), lst_Port (statusOf l))) <$> renderListeners spec = declared_ports spec.
Proof.
  intros Hr. rewrite <- (list_fmap_id (declared_ports spec)). apply read_rendered; [done|].
  intros name mode p Hp. destruct (rendered_port name mode p Hp) as [-> _]. done.
Qed.

(** The address handed out is that of a declared listener, submission first. *)
Lemma endpoint_declared host spec : port_in_range spec ->
  let e := foldl preferListener (mkEndpoint host 0 []) (statusOf <$> renderListeners spec) in
  exists name, (name, e_Port e) ∈ declared_ports spec /\
    ((lit "submission") ∈ fst <$> declared_ports spec -> name = lit "submission").
Proof.
  intros Hr. unfold port_in_range, declared_ports, renderListeners in *.
  destruct spec as [[a|] [b|]]; cbn [Submission SMTPS app fmap list_fmap foldl] in *;
    rewrite ?Forall_cons in Hr; rewrite !(λ n m p H, proj1 (rendered_port n m p H)) by tauto;
    cbn [fst snd] in Hr; unfold preferListener; cbn [e_Port lst_Name lst_Port lst_Mode].
  - set (p := if ls_Port a =b 0 then DefaultSubmissionPort else ls_Port a) in *.
    exists (lit "submission"). change (0 =b 0) with true. cbn [orb e_Port e_Host].
    rewrite (bool_decide_eq_false_2 (p = 0)) by lia.
    change (lit "smtps" =b lit "submission") with false. cbn [orb e_Port]. split; [by left|done].
  - exists (lit "submission"). split; [by left|done].
  - exists (lit "smtps"). split; [by left|]. intros ?%list_elem_of_singleton. done.
  - exists (lit "submission"). split; [by left|done].
Qed.

(** A Secret of a list is mounted at its path, from a volume of the same name. *)
Lemma mounted prefix path names n : n ∈ names ->
  exists i, secretMount prefix path i n ∈ imap (secretMount prefix path) names /\
    secretVolume prefix i n ∈ imap (secretVolume prefix) names.
Proof.
  intros (i & Hi)%list_elem_of_lookup. exists i.
  split; apply list_elem_of_lookup; exists i; by rewrite list_lookup_imap, Hi.
Qed.

Lemma volume_of prefix names v : v ∈ imap (secretVolume prefix) names ->
  exists n mode, v_Source v = FromSecret n mode /\ n ∈ names.
Proof.
  intros (i & n & -> & Hi)%elem_of_lookup_imap. eexists _, _. split; [done|].
  by eapply list_elem_of_lookup_2.
Qed.

(** The Secret [n], and nothing else, is mounted read-only at [path]. *)
Definition mounted_at (t : PodTemplate) (n path : bytes) : Prop :=
  exists name, mkMount name path true ∈ VolumeMounts t /\
    forall v, v ∈ Volumes t /\ v_Name v = name <-> v = mkVolume name (FromSecret n secretFileMode).

Lemma numbered_inj (prefix : bytes) (i j : nat) :
  prefix ++ itoa (Z.of_nat i) = prefix ++ itoa (Z.of_nat j) -> i = j.
Proof. intros E%app_inv_head%itoa_inj. lia. Qed.

Lemma numbered_NoDup prefix names : NoDup (v_Name <$> imap (secretVolume prefix) names).
Proof.
  apply NoDup_fmap_2_strong.
  - intros v1 v2 (i & n & -> & Hi)%elem_of_lookup_imap (j & m & -> & Hj)%elem_of_lookup_imap.
    cbn. intros ->%numbered_inj. congruence.
  - apply NoDup_alt. intros i j v. rewrite !list_lookup_imap.
    intros (n & Hn & E1)%fmap_Some (m & Hm & E2)%fmap_Some. subst v. injection E2 as E2 _.
    by apply numbered_inj in E2.
Qed.

Lemma not_metrics `{Selectors} gw path l :
  Webhook.validateListeners gw path = [] -> port_in_range (gs_Listeners (g_spec gw)) ->
  l ∈ renderListeners (gs_Listeners (g_spec gw)) -> listenerPortOf l <> MetricsPort.
Proof.
  intros Hv Hr Hl.
  assert (Hp : listenerPortOf l ∈ snd <$> declared_ports (gs_Listeners (g_spec gw))).
  { rewrite <- listener_ports by done. by apply list_elem_of_fmap_2. }
  revert Hv Hp. clear. unfold Webhook.validateListeners, declared_ports.
  destruct (gs_Listeners (g_spec gw)) as [[a|] [b|]]; cbn [Submission SMTPS app fmap list_fmap snd];
    intros Hv; rewrite ?app_nil in Hv; unfold Webhook.metricsClash in Hv;
    rewrite ?when_nil, ?bool_decide_eq_false in Hv; unfold Webhook.listenerPort in Hv;
    rewrite ?elem_of_cons; intros Hp E; rewrite E in Hp.
  all: destruct_and?; destruct_or?; try done; try (by apply not_elem_of_nil in Hp).
Qed.

Lemma Deployment_volumes `{Selectors, Sha256} gw cfg image d : DeploymentFor gw cfg image = Some d ->
  VolumeMounts (Template d) =
    [mkMount (lit "config") ConfigDir true; mkMount SpoolVolumeName Render.SpoolDir false] ++
    imap (secretMount (lit "tls-") CertificateMountPath) (CertificateSecretNames gw) ++
    imap (secretMount (lit "dkim-") DKIMMountPath) (DKIMSecretNames (Some gw)) /\
  Volumes (Template d) =
    [mkVolume (lit "config") (FromSecret (ConfigSecretName (Name (g_meta gw))) secretFileMode);
     mkVolume SpoolVolumeName (EmptyDir spoolSizeLimit)] ++
    imap (secretVolume (lit "tls-")) (CertificateSecretNames gw) ++
    imap (secretVolume (lit "dkim-")) (DKIMSecretNames (Some gw)).
Proof. unfold DeploymentFor. case_match; [done|]. intros E. by inversion E. Qed.

(** The volumes of the pod have distinct names, so a mount's name is one volume. *)
Lemma volume_names `{Selectors, Sha256} gw cfg image d : DeploymentFor gw cfg image = Some d ->
  NoDup (v_Name <$> Volumes (Template d)).
Proof.
  intros Hd. destruct (Deployment_volumes _ _ _ _ Hd) as [_ ->]. rewrite !fmap_app. cbn [fmap list_fmap v_Name].
  assert (Hnum : forall prefix names x, x ∈ v_Name <$> imap (secretVolume prefix) names -> exists i, x = prefix ++ itoa i).
  { intros prefix names x (v & -> & (i & n & -> & _)%elem_of_lookup_imap)%list_elem_of_fmap. by eexists. }
  apply NoDup_app. split_and!.
  - by apply (bool_decide_unpack _); vm_compute.
  - intros x Hx. rewrite elem_of_app. intros [(i & ->)%Hnum|(i & ->)%Hnum];
      rewrite !elem_of_cons in Hx; destruct Hx as [E|[E|E%not_elem_of_nil]]; by vm_compute in E.
  - apply NoDup_app. split_and!; [apply numbered_NoDup| |apply numbered_NoDup].
    intros x (i & ->)%Hnum (j & E)%Hnum. by vm_compute in E.
Qed.

Lemma mounted_once `{Selectors, Sha256} gw cfg image d name path n : DeploymentFor gw cfg image = Some d ->
  mkMount name path true ∈ VolumeMounts (Template d) ->
  mkVolume name (FromSecret n secretFileMode) ∈ Volumes (Template d) -> mounted_at (Template d) n path.
Proof.
  intros Hd%volume_names Hm Hv. exists name. split; [done|]. intros v. split; [|by intros ->].
  intros [Hin Hn]. apply list_elem_of_lookup in Hin as [i Hi], Hv as [j Hj].
  assert (i = j) as -> by (eapply (NoDup_lookup _ _ _ name Hd); by rewrite list_lookup_fmap, ?Hi, ?Hj; cbn; rewrite ?Hn).
  congruence.
Qed.

Lemma certificate_mounted `{Selectors, Sha256} gw cfg image d n : DeploymentFor gw cfg image = Some d ->
  n ∈ CertificateSecretNames gw -> mounted_at (Template d) n (CertificateMountPath n).
Proof.
  intros Hd Hn. pose proof (Deployment_volumes _ _ _ _ Hd) as [Em Ev].
  destruct (mounted (lit "tls-") CertificateMountPath _ _ Hn) as (i & Hm & Hv).
  eapply mounted_once; [done|rewrite Em, !elem_of_app; right; left; exact Hm|].
  rewrite Ev, !elem_of_app. right; left. exact Hv.
Qed.

Lemma key_mounted `{Selectors, Sha256} gw cfg image d n : DeploymentFor gw cfg image = Some d ->
  n ∈ DKIMSecretNames (Some gw) -> mounted_at (Template d) n (DKIMMountPath n).
Proof.
  intros Hd Hn. pose proof (Deployment_volumes _ _ _ _ Hd) as [Em Ev].
  destruct (mounted (lit "dkim-") DKIMMountPath _ _ Hn) as (i & Hm & Hv).
  eapply mounted_once; [done|rewrite Em, !elem_of_app; right; right; exact Hm|].
  rewrite Ev, !elem_of_app. right; right. exact Hv.
Qed.

(** ** Properties *)

Section Properties.
Context `{Unicode, Selectors, Sorter, Sha256}.

(** Every object agrees on where the relay listens: for declared ports in
    range, the ports of the Service, of the container and of the network
    policy's open rule are the declared ones, in order, the probe goes to the
    first of them, and the address applications are given is that of one of
    them, submission when it is declared. *)
Theorem objects_agree_on_ports (inp : Input) (gw : MailoutGateway) (cfg : Config.Config)
    (image : bytes) :
  Gateway inp = Some gw -> GatewayConfig inp = Ok cfg -> port_in_range (gs_Listeners (g_spec gw)) ->
  let declared := declared_ports (gs_Listeners (g_spec gw)) in
  ((λ p, (sp_Name p, sp_Port p)) <$> svc_Ports (ServiceFor gw cfg)) = declared /\
  (exists d, DeploymentFor gw cfg image = Some d /\
     ((λ p, (cp_Name p, cp_Port p)) <$> Ports (Template d)) = declared ++ [(MetricsPortName, MetricsPort)] /\
     ReadinessProbe (Template d) = snd <$> head declared /\
     LivenessProbe (Template d) = snd <$> head declared) /\
  (forall p, MetricsNetworkPolicy gw cfg = Some p ->
     head (Ingress p) = Some (mkRule ((λ p, (ProtocolTCP, p.2)) <$> declared) [])) /\
  (exists name, (name, e_Port (GatewayEndpoint gw cfg)) ∈ declared /\
     ((lit "submission") ∈ fst <$> declared -> name = lit "submission")).
Proof.
  intros Hg Hc Hr declared. unfold GatewayConfig in Hc. rewrite Hg in Hc. injection Hc as <-.
  pose proof (status_ports _ Hr) as Hs. pose proof (listener_ports _ Hr) as Hl.
  fold declared in Hs, Hl.
  split_and!.
  - unfold ServiceFor, ListenerStatuses. cbn [svc_Ports Listeners].
    rewrite <- Hs, <- !list_fmap_compose. done.
  - unfold DeploymentFor, ListenerStatuses. cbn [Listeners].
    destruct (renderListeners (gs_Listeners (g_spec gw))) as [|l ls] eqn:El.
    { exfalso. revert El. unfold renderListeners. by destruct (gs_Listeners (g_spec gw)) as [[|] [|]]. }
    cbn [fmap list_fmap] in *. eexists. split; [reflexivity|]. cbn [Template Ports ReadinessProbe LivenessProbe]. split_and!.
    + rewrite fmap_app. f_equal. rewrite <- Hs. cbn. f_equal. by rewrite <- !list_fmap_compose.
    + by rewrite <- Hs.
    + by rewrite <- Hs.
  - unfold MetricsNetworkPolicy. intros p. case_match; [done|]. intros [= <-]. cbn [Ingress head].
    change (λ p : bytes * Z, (ProtocolTCP, p.2)) with (pair ProtocolTCP ∘ @snd bytes Z).
    by rewrite list_fmap_compose, <- Hl, <- list_fmap_compose.
  - by apply endpoint_declared.
Qed.

(** C32: the pod can read every file its configuration names, each from its own
    mount, and no Secret is mounted for nothing. A certificate of the
    configuration is the [tls.crt] and [tls.key] of one of the gateway's
    certificate Secrets, and that Secret, and no other volume, is mounted
    read-only at the directory of these two files; a signing key is the key that
    one of the gateway's DKIM entries names, and the Secret of that entry is
    mounted read-only at its directory; and every Secret volume is the
    configuration, a certificate of the gateway or one of its signing keys. The
    DKIM entries name a Secret, as the API requires of them. *)
Theorem deployment_mounts_what_is_read (inp : Input) (gw : MailoutGateway) (cfg : Config.Config)
    (image : bytes) (d : Deployment) :
  Gateway inp = Some gw -> GatewayConfig inp = Ok cfg -> DeploymentFor gw cfg image = Some d ->
  (forall k, k ∈ gs_DKIM (g_spec gw) -> sel_Name (PrivateKeySecretRef k) <> []) ->
  (forall c, c ∈ Certificates (TLS cfg) -> exists n, n ∈ CertificateSecretNames gw /\
     CertFile c = Filepath.Join [CertificateMountPath n; lit "tls.crt"] /\
     KeyFile c = Filepath.Join [CertificateMountPath n; lit "tls.key"] /\
     mounted_at (Template d) n (CertificateMountPath n)) /\
  (forall k, k ∈ DKIM cfg -> exists spec, spec ∈ gs_DKIM (g_spec gw) /\
     Domain k = k_Domain spec /\ Selector k = k_Selector spec /\
     PrivateKeyFile k = Filepath.Join [DKIMMountPath (sel_Name (PrivateKeySecretRef spec)); DKIMKeyName spec] /\
     mounted_at (Template d) (sel_Name (PrivateKeySecretRef spec)) (DKIMMountPath (sel_Name (PrivateKeySecretRef spec)))) /\
  (forall v n mode, v ∈ Volumes (Template d) -> v_Source v = FromSecret n mode ->
     n = ConfigSecretName (Name (g_meta gw)) \/ n ∈ CertificateSecretNames gw \/
     n ∈ DKIMSecretNames (Some gw)).
Proof.
  intros Hg Hc Hd Hk. unfold GatewayConfig in Hc. rewrite Hg in Hc. injection Hc as <-. split_and!.
  - intros c (n & -> & Hn)%list_elem_of_fmap. exists n. split_and!; [done..|].
    by eapply certificate_mounted.
  - intros k Hin. cbn [DKIM] in Hin. destruct (HandlesDKIM _) eqn:Eh; [by apply not_elem_of_nil in Hin|].
    apply list_elem_of_fmap in Hin as (spec & -> & Hin). exists spec. split_and!; [done..|].
    eapply key_mounted; [done|]. unfold DKIMSecretNames. rewrite Eh. cbn [negb]. rewrite sort_Strings_perm.
    apply addNames_spec. split_and!; [by apply Hk|apply not_elem_of_empty|by exists spec].
  - destruct (Deployment_volumes _ _ _ _ Hd) as [_ ->]. intros v n mode. rewrite !elem_of_app.
    intros [Hv|[(n' & m' & Hs & Hn)%volume_of|(n' & m' & Hs & Hn)%volume_of]] E.
    + rewrite !elem_of_cons in Hv. destruct Hv as [->|[->|?%not_elem_of_nil]]; [|done|done].
      left. by injection E.
    + rewrite Hs in E. injection E as <- <-. auto.
    + rewrite Hs in E. injection E as <- <-. auto.
Qed.

(** The network policy closes the metrics port to everyone but the declared
    scrapers and never closes the relay: on an admitted gateway, every
    listener's port is open to every source, and any rule that opens the
    metrics port is restricted to the scrapers; without scrapers there is no
    policy at all. *)
Theorem network_policy_guards_metrics_only (v : Webhook.GatewayValidator) (inp : Input)
    (gw : MailoutGateway) (cfg : Config.Config) :
  (Webhook.validateGateway v gw).2 = None -> port_in_range (gs_Listeners (g_spec gw)) ->
  Gateway inp = Some gw -> GatewayConfig inp = Ok cfg ->
  match MetricsNetworkPolicy gw cfg with
  | None => AllowedScrapers (gs_Metrics (g_spec gw)) = []
  | Some p =>
      (forall l, l ∈ Listeners cfg ->
         exists r, r ∈ Ingress p /\ (ProtocolTCP, listenerPortOf l) ∈ ir_Ports r /\ ir_From r = []) /\
      (forall r, r ∈ Ingress p -> (ProtocolTCP, MetricsPort) ∈ ir_Ports r ->
         ir_From r = AllowedScrapers (gs_Metrics (g_spec gw)) /\ ir_From r <> [])
  end.
Proof.
  intros Hv Hr Hg Hc. unfold GatewayConfig in Hc. rewrite Hg in Hc. injection Hc as <-.
  cbn [Webhook.validateGateway snd] in Hv. apply conclude_None in Hv.
  unfold Webhook.gatewayErrors in Hv. rewrite !app_nil in Hv. destruct Hv as (_ & _ & _ & _ & _ & Hl & _).
  unfold MetricsNetworkPolicy. cbn [Listeners].
  destruct (AllowedScrapers (gs_Metrics (g_spec gw))) as [|s scrapers]; [done|]. cbn [Ingress]. split.
  - intros l Hin. eexists. split; [by left|]. split; [|done].
    by apply (list_elem_of_fmap_2 (λ l, (ProtocolTCP, listenerPortOf l))).
  - intros r. rewrite !elem_of_cons. intros [->|[->|?%not_elem_of_nil]]; [|done|done].
    cbn [ir_Ports]. intros (l & [= E] & Hin)%list_elem_of_fmap. by destruct (not_metrics _ _ _ Hl Hr Hin).
Qed.
End Properties.

(** ** Witnesses *)

#[local] Existing Instance matchLabels.
#[local] Existing Instance sorter_by.
Definition demo_sha : Sha256 := {| sum256 s := take 32 s |}.
#[local] Existing Instance demo_sha.

Lemma demo_range : port_in_range (gs_Listeners (g_spec demo_gw)).
Proof. constructor; [split; by vm_compute|constructor]. Qed.

Lemma agree_on_ports_witness : exists cfg, GatewayConfig (demo_input []) = Ok cfg /\
  ((λ p, (sp_Name p, sp_Port p)) <$> svc_Ports (ServiceFor demo_gw cfg)) = [(lit "submission", 587)].
Proof.
  destruct (GatewayConfig (demo_input [])) as [cfg|] eqn:E; [|discriminate].
  exists cfg. split; [reflexivity|].
  exact (proj1 (objects_agree_on_ports (demo_input []) demo_gw cfg (lit "img") eq_refl E demo_range)).
Defined.

Lemma mounts_what_is_read_witness : exists cfg d, GatewayConfig (demo_input []) = Ok cfg /\
  DeploymentFor demo_gw cfg (lit "img") = Some d /\ CertFile <$> Certificates (TLS cfg) = [lit "/etc/mailout/tls/relay-cert/tls.crt"] /\
  mounted_at (Template d) (lit "relay-cert") (lit "/etc/mailout/tls/relay-cert").
Proof.
  destruct (GatewayConfig (demo_input [])) as [cfg|] eqn:E; [|discriminate].
  destruct (DeploymentFor demo_gw cfg (lit "img")) as [d|] eqn:Ed.
  2: { exfalso. injection E as <-. discriminate Ed. }
  exists cfg, d. split; [reflexivity|]. split; [exact Ed|].
  split; [injection E as <-; vm_compute; reflexivity|].
  destruct (deployment_mounts_what_is_read (demo_input []) demo_gw cfg (lit "img") d eq_refl E Ed) as (Hcert & _).
  - intros k Hk. apply list_elem_of_singleton in Hk. subst k. discriminate.
  - injection E as <-. destruct (Hcert (mkCertificateRef (lit "relay-cert") (lit "/etc/mailout/tls/relay-cert/tls.crt")
      (lit "/etc/mailout/tls/relay-cert/tls.key") [] [])) as (n & Hn & _ & _ & Hm); [left|].
    apply list_elem_of_singleton in Hn. subst n. exact Hm.
Defined.

(** The same gateway, with a scraper declared. *)
Definition scraped_gw : MailoutGateway :=
  mkGateway (g_meta demo_gw)
    (mkGatewaySpec (gs_Hostname (g_spec demo_gw)) (gs_Listeners (g_spec demo_gw)) (gs_TLS (g_spec demo_gw))
       (gs_Upstream (g_spec demo_gw)) (gs_DKIM (g_spec demo_gw)) (gs_Milters (g_spec demo_gw))
       (AllowedAccounts (g_spec demo_gw)) (gs_AllowedSenders (g_spec demo_gw)) None
       (gs_Deployment (g_spec demo_gw)) (mkMetricsSpec [mkPeer (Some ∅) None]))
    (g_status demo_gw).

Definition scraped_input : Input :=
  mkInput (Some scraped_gw) [] [] [] [] (mkCreds [] [] [] [] []) (lit "token").

Lemma guards_metrics_witness : exists cfg p, GatewayConfig scraped_input = Ok cfg /\
  MetricsNetworkPolicy scraped_gw cfg = Some p /\
  forall r, r ∈ Ingress p -> (ProtocolTCP, MetricsPort) ∈ ir_Ports r -> ir_From r = [mkPeer (Some ∅) None] /\ ir_From r <> [].
Proof.
  destruct (GatewayConfig scraped_input) as [cfg|] eqn:E; [|discriminate].
  pose proof (network_policy_guards_metrics_only demo_validator scraped_input scraped_gw cfg
    ltac:(by vm_compute) demo_range eq_refl E) as Hp.
  destruct (MetricsNetworkPolicy scraped_gw cfg) as [p|] eqn:Ep; [|discriminate].
  exists cfg, p. split; [reflexivity|]. split; [exact Ep|]. exact (proj2 Hp).
Defined.
