(* ===== verification/FileSource.v ===== *)
(** * FileSource: the configuration file and its watcher

    Models [src/internal/source/file.go]: parsing the file, the directories a
    configuration depends on, and the loop of [Watch]. The loop is a state
    machine: what it keeps between two turns of its [select] (the directories
    watched, the timer armed) and one step per case. Several cases may be ready
    at once, so a run is any sequence of cases with the times they are taken at.
    The files, the YAML library and fsnotify are parameters; creating the
    fsnotify watcher, once at the start, is left out. *)

From S2P Require Import Prelude Unicode GoStrings Config Api Render.
Import Filepath.
#[local] Open Scope Z_scope.

(** What the outside answers at a given time (nanoseconds). *)
Class ConfigFiles := {
  os_ReadFile : Z -> bytes -> result bytes;
  yaml_UnmarshalStrict : bytes -> result Config;
  watcher_Add : Z -> bytes -> option goerror
}.

Module FileSource.

(** [filepath.Dir]: all but the last element, cleaned. *)
Fixpoint lastSlash (s : bytes) : option nat :=
  match s with
  | [] => None
  | c :: s' =>
      match lastSlash s' with
      | Some i => Some (S i)
      | None => if c =b SLASH then Some 0%nat else None
      end
  end.

Definition Dir (path : bytes) : bytes :=
  Clean (match lastSlash path with Some i => take (S i) path | None => [] end).

Record File := mkFile { path : bytes; debounce : Z }.

Definition NewFile (path : bytes) : File := mkFile path 200000000.

(** The directories of the files a configuration points at. *)
Definition addDir (dirs : gset bytes) (path : bytes) : gset bytes :=
  if path <>b [] then {[Dir path]} ∪ dirs else dirs.

Definition certificateDirs (dirs : gset bytes) (certs : list CertificateRef) : gset bytes :=
  foldl (λ dirs cert, foldl addDir dirs [CertFile cert; KeyFile cert]) dirs certs.

Definition keyDirs (dirs : gset bytes) (keys : list DKIMKey) : gset bytes :=
  foldl (λ dirs key, addDir dirs (PrivateKeyFile key)) dirs keys.

Definition referencedDirs (f : File) (cfg : option Config) : list bytes :=
  let dirs : gset bytes := {[Dir (path f)]} in
  let dirs := match cfg with
              | Some cfg => keyDirs (certificateDirs dirs (Certificates (TLS cfg))) (DKIM cfg)
              | None => dirs
              end in
  sort_Strings (elements dirs).

Section Ops.
Context `{ConfigFiles}.

Definition Load (f : File) (now : Z) : result Config :=
  match os_ReadFile now (path f) with
  | Err e => Err (EWrap (lit "read " ++ path f) e)
  | Ok raw =>
      match yaml_UnmarshalStrict raw with
      | Err e => Err (EWrap (lit "parse " ++ path f) e)
      | Ok cfg => Ok cfg
      end
  end.

(** The closure [syncWatches]: a directory that cannot be watched is left for
    the next time. *)
Definition syncWatches (f : File) (now : Z) (cfg : option Config) (watched : gset bytes) : gset bytes :=
  foldl (λ (watched : gset bytes) dir,
    if bool_decide (dir ∈ watched) then watched
    else match watcher_Add now dir with
         | Some _ => watched
         | None => {[dir]} ∪ watched
         end) watched (referencedDirs f cfg).

(** What the loop keeps: the directories watched, and when the timer whose
    channel is [fire] goes off. *)
Record watching := mkWatching { watched : gset bytes; fire : option Z }.

(** Before the loop. *)
Definition start (f : File) (now : Z) : watching :=
  let current := match Load f now with Ok cfg => Some cfg | Err _ => None end in
  mkWatching (syncWatches f now current ∅) None.

(** The cases of the [select]. *)
Inductive wake :=
| Done
| ErrorsReady (ok : bool)
| EventsReady (ok : bool)
| Fire.

#[export] Instance wake_eq_dec : EqDecision wake.
Proof. solve_decision. Defined.

(** The end of [Watch], or the next turn with the configuration handed to
    [onChange]. *)
Inductive turn :=
| Return
| Continue (st : watching) (changed : option Config).

(** One case, taken at [now]; [None] when it is not ready. *)
Definition select (f : File) (now : Z) (st : watching) (w : wake) : option turn :=
  match w with
  | Done => Some Return
  | ErrorsReady ok => Some (if ok then Continue st None else Return)
  | EventsReady ok =>
      Some (if ok then Continue (mkWatching (watched st) (Some (now + debounce f))) None else Return)
  | Fire =>
      match fire st with
      | None => None
      | Some deadline =>
          if now <? deadline then None
          else
            match Load f now with
            | Err _ => Some (Continue (mkWatching (watched st) None) None)
            | Ok cfg => Some (Continue (mkWatching (syncWatches f now (Some cfg) (watched st)) None) (Some cfg))
            end
      end
  end.

(** A run: the state after a sequence of cases, and what was handed over. *)
Inductive runs (f : File) (st0 : watching) : list (Z * wake) -> watching -> list (Z * Config) -> Prop :=
| runs_nil : runs f st0 [] st0 []
| runs_step trace st out now w st' changed :
    runs f st0 trace st out -> select f now st w = Some (Continue st' changed) ->
    runs f st0 (trace ++ [(now, w)]) st'
      (out ++ match changed with Some cfg => [(now, cfg)] | None => [] end).
End Ops.
End FileSource.
Import FileSource.

(** ** The directories *)

(** The files a configuration points at. *)
Definition files_of (cfg : Config) : list bytes :=
  concat ((λ c, [CertFile c; KeyFile c]) <$> Certificates (TLS cfg)) ++ (PrivateKeyFile <$> DKIM cfg).

Lemma addDir_fold paths : forall dirs d,
  d ∈ foldl addDir dirs paths <-> d ∈ dirs \/ exists p, p ∈ paths /\ p <> [] /\ d = Dir p.
Proof.
  induction paths as [|p paths IH]; intros dirs d; cbn [foldl]; [set_solver|].
  rewrite IH. unfold addDir. setoid_rewrite elem_of_cons.
  case_bool_decide as E; cbn [negb]; [set_solver|]. rewrite elem_of_union, elem_of_singleton.
  split; [intros [[->|?]|?]; naive_solver|]. intros [?|(q & [->|?] & ? & ->)]; naive_solver.
Qed.

Lemma foldl_concat {A B C} (f : A -> B -> A) (g : C -> list B) l : forall a,
  foldl (λ a c, foldl f a (g c)) a l = foldl f a (concat (g <$> l)).
Proof. induction l as [|c l IH]; intros a; cbn; [done|]. by rewrite IH, foldl_app. Qed.

Lemma foldl_fmap {A B C} (f : A -> B -> A) (g : C -> B) l : forall a,
  foldl (λ a c, f a (g c)) a l = foldl f a (g <$> l).
Proof. induction l as [|c l IH]; intros a; cbn; [done|]. by rewrite IH. Qed.

Lemma elem_of_referencedDirs f cfg d :
  d ∈ referencedDirs f cfg <->
  d = Dir (path f) \/ exists c p, cfg = Some c /\ p ∈ files_of c /\ p <> [] /\ d = Dir p.
Proof.
  unfold referencedDirs. rewrite sort_Strings_perm, elem_of_elements. destruct cfg as [c|]; [|set_solver].
  unfold keyDirs, certificateDirs. rewrite foldl_concat, foldl_fmap, <- foldl_app, addDir_fold.
  fold (files_of c). rewrite elem_of_singleton. naive_solver.
Qed.

Lemma syncLoop_spec `{ConfigFiles} now dirs : forall watched,
  let loop := foldl (λ (watched : gset bytes) dir,
    if bool_decide (dir ∈ watched) then watched
    else match watcher_Add now dir with Some _ => watched | None => {[dir]} ∪ watched end) in
  watched ⊆ loop watched dirs /\
  (forall d, d ∈ dirs -> watcher_Add now d = None -> d ∈ loop watched dirs) /\
  (forall d, d ∈ loop watched dirs -> d ∈ watched \/ d ∈ dirs).
Proof.
  induction dirs as [|x dirs IH]; intros ws; cbn [foldl]; [set_solver|].
  destruct (decide (x ∈ ws)) as [Hx|Hx].
  - rewrite (bool_decide_eq_true_2 _ Hx). destruct (IH ws) as (H1 & H2 & H3). set_solver.
  - rewrite (bool_decide_eq_false_2 _ Hx). destruct (watcher_Add now x) eqn:E.
    + destruct (IH ws) as (H1 & H2 & H3). split_and!; [done| |set_solver].
      intros d [->|Hd]%elem_of_cons Ha; [congruence|auto].
    + destruct (IH ({[x]} ∪ ws)) as (H1 & H2 & H3). set_solver.
Qed.

(** ** Runs *)

Section Runs.
Context `{ConfigFiles}.

(** The last event no read of the file has followed yet; a timer that goes off
    reads the file, whether or not it can be read then. *)
Definition noticed (p : option Z) (e : Z * wake) : option Z :=
  match e.2 with
  | EventsReady true => Some e.1
  | Fire => None
  | _ => p
  end.
Definition unread (trace : list (Z * wake)) : option Z := foldl noticed None trace.

Definition events (trace : list (Z * wake)) : list (Z * wake) :=
  List.filter (λ e, if e.2 is EventsReady true then true else false) trace.

Lemma runs_armed f t0 trace st out :
  runs f (start f t0) trace st out -> fire st = (λ t, t + debounce f) <$> unread trace.
Proof.
  induction 1 as [|trace st out now w st' changed _ IH E]; [done|].
  unfold unread in *. rewrite foldl_app. cbn [foldl]. unfold noticed at 1. cbn [fst snd].
  destruct w as [|[]|[]|]; cbn in E; simplify_eq; try done.
  destruct (fire st); [|done]. destruct (now <? z); [done|]. by destruct (Load f now); simplify_eq.
Qed.

Lemma unread_app trace e : unread (trace ++ [e]) = noticed (unread trace) e.
Proof. unfold unread. by rewrite foldl_app. Qed.

(** The position of the last event, when no timer went off after it. *)
Definition awaiting (trace : list (Z * wake)) (k : nat) (t : Z) : Prop :=
  trace !! k = Some (t, EventsReady true) /\
  forall j now w, (k < j)%nat -> trace !! j = Some (now, w) -> w <> Fire /\ w <> EventsReady true.

Lemma unread_spec trace t : unread trace = Some t -> exists k, awaiting trace k t.
Proof.
  induction trace as [|[now w] trace IH] using rev_ind; [done|].
  rewrite unread_app. unfold noticed. cbn [fst snd].
  assert (Hkeep : unread trace = Some t -> w <> Fire /\ w <> EventsReady true ->
    exists k, awaiting (trace ++ [(now, w)]) k t).
  { intros Ht Hw. destruct (IH Ht) as (k & Hk & Hlater). exists k. split; [by apply lookup_app_l_Some|].
    intros j now' w' Hj [E|[Hlen E]]%lookup_app_Some; [by apply (Hlater j now')|].
    apply list_lookup_singleton_Some in E as [_ [= _ <-]]. done. }
  destruct w as [|[]|[]|]; intros E; simplify_eq; try (by apply Hkeep).
  exists (length trace). split; [by apply list_lookup_middle|].
  intros j now' w' Hj. rewrite lookup_ge_None_2; [done|]. rewrite length_app. cbn. lia.
Qed.

(** The read that an event at [t] is waiting for: it is not made before the
    debounce has passed, and can be made from then on; it hands over what the file
    holds at that moment, or nothing when the file cannot be read or parsed, and
    either way the timer is spent. *)
Definition read_due (f : File) (t : Z) (st : watching) : Prop :=
  (forall now, now < t + debounce f -> select f now st Fire = None) /\
  (forall now, t + debounce f <= now -> exists st',
     select f now st Fire =
       Some (Continue st' (match Load f now with Ok cfg => Some cfg | Err _ => None end)) /\ fire st' = None).

Lemma unread_due f t0 trace st out t :
  runs f (start f t0) trace st out -> unread trace = Some t -> read_due f t st.
Proof.
  intros Hr Hp. pose proof (runs_armed _ _ _ _ _ Hr) as Hf. rewrite Hp in Hf. cbn in Hf.
  split; intros now Hn; cbn [select]; rewrite Hf.
  - by rewrite (proj2 (Z.ltb_lt _ _) Hn).
  - rewrite (proj2 (Z.ltb_ge _ _) Hn). destruct (Load f now); eexists; done.
Qed.

(** An event is followed by a read, or is still to be. *)
Lemma event_read_or_unread f t0 trace st out :
  runs f (start f t0) trace st out -> forall i t, trace !! i = Some (t, EventsReady true) ->
  (exists j now, (i < j)%nat /\ trace !! j = Some (now, Fire) /\ forall cfg, Load f now = Ok cfg -> (now, cfg) ∈ out) \/
  unread trace <> None.
Proof.
  induction 1 as [|trace st out now w st' changed Hr IH E]; intros i t Hi; [done|].
  rewrite unread_app. apply lookup_app_Some in Hi as [Hi|[Hlen Hi]].
  - destruct (IH _ _ Hi) as [(j & now' & ? & ? & Hout)|Hun].
    { left. exists j, now'. split_and!; [done|by apply lookup_app_l_Some|]. set_solver. }
    destruct (decide (w = Fire)) as [->|Hw].
    + left. exists (length trace), now. split_and!; [by eapply lookup_lt_Some|by apply list_lookup_middle|].
      intros cfg Hl. cbn in E. destruct (fire st); [|done]. destruct (now <? z); [done|].
      rewrite Hl in E. simplify_eq. set_solver.
    + right. unfold noticed. cbn. by destruct w as [|[]|[]|].
  - apply list_lookup_singleton_Some in Hi as [_ [= -> ->]]. right. done.
Qed.

(** C24: an event the loop received is followed by a read of the file, and a
    burst of events by one. Whatever the loop went through, after each event of
    its run the file was read, and if it could be read and parsed then what it
    held was handed over; or the file is still to be read, for the last event of
    the run, after which no timer went off: not before the debounce has passed
    since that event, and from then on the read is ready. A read that fails hands
    over nothing and leaves no timer: it is not tried again before the next
    event. *)
Theorem every_event_brings_a_read (f : File) (t0 : Z) (trace : list (Z * wake)) (st : watching)
    (out : list (Z * Config)) (i : nat) (t : Z) :
  runs f (start f t0) trace st out -> trace !! i = Some (t, EventsReady true) ->
  (exists j now, (i < j)%nat /\ trace !! j = Some (now, Fire) /\ forall cfg, Load f now = Ok cfg -> (now, cfg) ∈ out) \/
  (exists k t', awaiting trace k t' /\ read_due f t' st).
Proof.
  intros Hr Hi. destruct (event_read_or_unread _ _ _ _ _ Hr _ _ Hi) as [?|Hun]; [by left|right].
  destruct (unread trace) as [t'|] eqn:Eu; [|done]. destruct (unread_spec _ _ Eu) as (k & Hk).
  exists k, t'. split; [done|]. by eapply unread_due.
Qed.

Lemma events_app t k : events (t ++ k) = events t ++ events k.
Proof. apply List.filter_app. Qed.

Lemma unread_event trace t : unread trace = Some t -> (t, EventsReady true) ∈ trace.
Proof.
  unfold unread. induction trace as [|[now w] trace IH] using rev_ind; [done|].
  rewrite foldl_app. cbn [foldl]. unfold noticed at 1. cbn [fst snd]. rewrite elem_of_app.
  destruct w as [|[]|[]|]; intros E; simplify_eq; auto. right. by left.
Qed.

Lemma runs_counts f t0 trace st out :
  runs f (start f t0) trace st out ->
  (length out + (if unread trace is Some _ then 1 else 0) <= length (events trace))%nat.
Proof.
  induction 1 as [|trace st out now w st' changed Hr IH E]; [done|].
  pose proof (runs_armed _ _ _ _ _ Hr) as Hf.
  unfold unread in *. rewrite foldl_app, events_app, !length_app. cbn [foldl]. unfold noticed at 1.
  cbn [fst snd]. destruct w as [|[]|[]|]; cbn in E; simplify_eq; cbn;
    try (destruct (foldl _ _ trace); cbn in *; lia).
  destruct (foldl _ _ trace) as [t|]; cbn in Hf; rewrite Hf in E; [|done].
  destruct (now <? _); [done|]. destruct (Load f now); simplify_eq; cbn in *; lia.
Qed.

(** The loop reloads only because something changed: each configuration
    handed over is what the file held at that moment, at least a debounce after
    an event; and there are never more reloads than events. *)
Theorem every_reload_follows_an_event (f : File) (t0 : Z) (trace : list (Z * wake)) (st : watching)
    (out : list (Z * Config)) :
  runs f (start f t0) trace st out ->
  (length out <= length (events trace))%nat /\
  forall now cfg, (now, cfg) ∈ out ->
    Load f now = Ok cfg /\ exists t, (t, EventsReady true) ∈ trace /\ t + debounce f <= now.
Proof.
  intros Hr. split; [pose proof (runs_counts _ _ _ _ _ Hr); lia|].
  induction Hr as [|trace st out now w st' changed Hr IH E]; [by intros ? ? ?%not_elem_of_nil|].
  intros u cfg [Hin|Hin]%elem_of_app.
  { destruct (IH _ _ Hin) as (Hl & t & Ht & Hle). split; [done|]. exists t. set_solver. }
  destruct changed as [c|]; [|by apply not_elem_of_nil in Hin].
  apply list_elem_of_singleton in Hin as [= -> ->].
  pose proof (runs_armed _ _ _ _ _ Hr) as Hf.
  destruct w as [|[]|[]|]; cbn in E; simplify_eq. rewrite Hf in E.
  destruct (unread trace) as [t|] eqn:Ep; [|done]. cbn in E.
  destruct (Z.ltb_spec now (t + debounce f)); [done|].
  destruct (Load f now) as [c'|] eqn:El; simplify_eq. split; [done|].
  exists t. apply unread_event in Ep. set_solver.
Qed.

(** After a reload the loop watches everything the configuration depends
    on: the directory of each certificate, key and DKIM key it points at, and of
    the file itself, is watched unless the system refuses to, and no directory
    watched before is given up. *)
Theorem reload_watches_what_is_referenced (f : File) (now : Z) (st st' : watching) (cfg : Config) :
  select f now st Fire = Some (Continue st' (Some cfg)) ->
  watched st ⊆ watched st' /\
  forall p, p = path f \/ (p ∈ files_of cfg /\ p <> []) ->
    watcher_Add now (Dir p) = None -> Dir p ∈ watched st'.
Proof.
  cbn [select]. destruct (fire st); [|done]. destruct (now <? z); [done|].
  destruct (Load f now) as [c|]; [|done]. intros [= <- ->]. cbn [watched].
  unfold syncWatches. destruct (syncLoop_spec now (referencedDirs f (Some cfg)) (watched st)) as (H1 & H2 & _).
  split; [done|]. intros p Hp Hadd. apply H2; [|done]. apply elem_of_referencedDirs.
  destruct Hp as [->|[Hp Hne]]; [by left|right]. by exists cfg, p.
Qed.
End Runs.

(** ** Paths of plain elements *)

(** An element [Clean] keeps. *)
Definition plain (e : bytes) : Prop := e <> [] /\ (SLASH ∉ e) /\ e <> lit "." /\ e <> lit "..".

Definition rooted (es : list bytes) : bytes := SLASH :: joined es.

Lemma split_app a b : SLASH ∉ a -> split (a ++ SLASH :: b) = a :: split b.
Proof.
  induction a as [|c a IH]; intros Ha; [done|]. cbn.
  rewrite bool_decide_eq_false_2 by set_solver. rewrite IH by set_solver. done.
Qed.

Lemma split_plain a : SLASH ∉ a -> split a = [a].
Proof.
  induction a as [|c a IH]; intros Ha; [done|]. cbn.
  rewrite bool_decide_eq_false_2 by set_solver. by rewrite IH by set_solver.
Qed.

Lemma joined_cons e es : es <> [] -> joined (e :: es) = e ++ SLASH :: joined es.
Proof. by destruct es. Qed.

Lemma joined_snoc es e : es <> [] -> joined (es ++ [e]) = joined es ++ SLASH :: e.
Proof.
  induction es as [|x es IH]; [done|]. intros _. destruct (decide (es = [])) as [->|Hne]; [done|].
  cbn [app]. rewrite (joined_cons x (es ++ [e])) by (by intros [_ ?]%app_nil).
  rewrite IH, joined_cons by done. by rewrite <- app_assoc.
Qed.

Lemma split_joined es : es <> [] -> Forall plain es -> split (joined es) = es.
Proof.
  induction es as [|x es IH]; [done|]. intros _ [(_ & Hx & _) Hes]%Forall_cons.
  destruct (decide (es = [])) as [->|Hne]; [by apply split_plain|].
  rewrite joined_cons, split_app, IH by done. done.
Qed.

Lemma split_joined_slash es : es <> [] -> Forall plain es -> split (joined es ++ [SLASH]) = es ++ [[]].
Proof.
  induction es as [|x es IH]; [done|]. intros _ [(_ & Hx & _) Hes]%Forall_cons.
  destruct (decide (es = [])) as [->|Hne]; [cbn; by rewrite split_app|].
  rewrite joined_cons, <- app_assoc by done. cbn [app]. by rewrite split_app, IH.
Qed.

Lemma push_plain es : forall stack, Forall plain es -> foldl (push true) stack es = rev es ++ stack.
Proof.
  induction es as [|x es IH]; intros stack; [done|]. intros [(Hx & _ & Hd & Hdd) Hes]%Forall_cons.
  cbn [foldl]. unfold push at 2. rewrite !bool_decide_eq_false_2 by done. cbn [orb].
  rewrite IH by done. cbn. by rewrite <- app_assoc.
Qed.

Lemma Clean_rooted es : es <> [] -> Forall plain es -> Clean (rooted es) = rooted es.
Proof.
  intros Hne Hes. unfold Clean, rooted.
  assert (HasPrefix (SLASH :: joined es) [SLASH] = true) as -> by (cbn; by destruct (joined es)).
  cbn [split]. rewrite (bool_decide_eq_true_2 (SLASH = SLASH)) by done. rewrite split_joined by done.
  change (foldl (push true) [] ([] :: es)) with (foldl (push true) [] es).
  rewrite push_plain, app_nil_r, rev_involutive by done. done.
Qed.

Lemma Clean_rooted_slash es : es <> [] -> Forall plain es -> Clean (rooted es ++ [SLASH]) = rooted es.
Proof.
  intros Hne Hes. unfold Clean, rooted. cbn [app].
  assert (HasPrefix (SLASH :: joined es ++ [SLASH]) [SLASH] = true) as -> by (cbn; by destruct (joined es ++ _)).
  cbn [split]. rewrite (bool_decide_eq_true_2 (SLASH = SLASH)) by done. rewrite split_joined_slash by done.
  change (foldl (push true) [] ([] :: es ++ [[]])) with (foldl (push true) [] (es ++ [[]])).
  rewrite foldl_app, (push_plain es []), app_nil_r by done. cbn [foldl]. unfold push.
  rewrite (bool_decide_eq_true_2 ([] = [])) by done. cbn [orb]. by rewrite rev_involutive.
Qed.

Lemma lastSlash_app p e : SLASH ∉ e -> lastSlash (p ++ SLASH :: e) = Some (length p).
Proof.
  intros He. assert (Hn : lastSlash e = None).
  { induction e as [|c e IH]; [done|]. cbn. rewrite IH by set_solver.
    by rewrite bool_decide_eq_false_2 by set_solver. }
  induction p as [|c p IH]; cbn; [rewrite Hn|by rewrite IH]. by rewrite bool_decide_eq_true_2.
Qed.

Lemma Dir_rooted es e : es <> [] -> Forall plain es -> plain e -> Dir (rooted (es ++ [e])) = rooted es.
Proof.
  intros Hne Hes (_ & He & _). unfold Dir, rooted. rewrite joined_snoc by done.
  rewrite app_comm_cons, lastSlash_app by done.
  replace (take (S (length (SLASH :: joined es))) ((SLASH :: joined es) ++ SLASH :: e))
    with ((SLASH :: joined es) ++ [SLASH]).
  - by apply Clean_rooted_slash.
  - change (SLASH :: e) with ([SLASH] ++ e). rewrite app_assoc. symmetry. apply take_app_length'.
    rewrite length_app. cbn. lia.
Qed.

Lemma Join_rooted es e : es <> [] -> Forall plain es -> plain e -> Join [rooted es; e] = rooted (es ++ [e]).
Proof.
  intros Hne Hes He. unfold Join. rewrite bool_decide_eq_false_2 by done.
  assert (joined [rooted es; e] = rooted (es ++ [e])) as -> by (cbn [joined]; unfold rooted; by rewrite joined_snoc).
  apply Clean_rooted; [by intros [_ ?]%app_nil|]. apply Forall_app. split; [done|by apply Forall_singleton].
Qed.

(** ** What the operator mounts *)

Lemma elem_of_concat {A} (x : A) ls : x ∈ concat ls <-> exists l, x ∈ l /\ l ∈ ls.
Proof. induction ls as [|l ls IH]; cbn; [set_solver|]. rewrite elem_of_app, IH. set_solver. Qed.

Section Mounts.
Context `{Selectors, Sorter}.

Lemma TLSDir_rooted : Render.TLSDir = rooted [lit "etc"; lit "mailout"; lit "tls"].
Proof. done. Qed.
Lemma DKIMDir_rooted : Render.DKIMDir = rooted [lit "etc"; lit "mailout"; lit "dkim"].
Proof. done. Qed.

#[export] Instance plain_dec e : Decision (plain e).
Proof. unfold plain. apply _. Defined.

(** The directory of a file in a mount is the mount. *)
Lemma mount_dir es n file : Forall plain es -> es <> [] -> plain n -> plain file ->
  Join [Join [rooted es; n]; file] <> [] /\ Dir (Join [Join [rooted es; n]; file]) = Join [rooted es; n].
Proof.
  intros Hes Hne Hn Hf.
  assert (Hes' : Forall plain (es ++ [n])) by (apply Forall_app; split; [done|by apply Forall_singleton]).
  assert (Hne' : es ++ [n] <> []) by by intros [_ ?]%app_nil.
  rewrite Join_rooted, Join_rooted by done. split; [done|]. by apply Dir_rooted.
Qed.

Lemma certificate_dir n file : plain n -> plain file ->
  Join [Render.CertificateMountPath n; file] <> [] /\
  Dir (Join [Render.CertificateMountPath n; file]) = Render.CertificateMountPath n.
Proof.
  intros. unfold Render.CertificateMountPath. rewrite TLSDir_rooted.
  apply mount_dir; try done. apply (bool_decide_unpack _). by vm_compute.
Qed.

Lemma key_dir n file : plain n -> plain file ->
  Join [Render.DKIMMountPath n; file] <> [] /\
  Dir (Join [Render.DKIMMountPath n; file]) = Render.DKIMMountPath n.
Proof.
  intros. unfold Render.DKIMMountPath. rewrite DKIMDir_rooted.
  apply mount_dir; try done. apply (bool_decide_unpack _). by vm_compute.
Qed.

(** C27: what the pod watches is what the operator mounts. For a gateway whose
    Secret names and key names are plain file names, the directories watched for
    its rendered configuration are the mount of the configuration, the mounts of
    its certificate Secrets and those of its DKIM Secrets, and nothing else. *)
Theorem watched_directories_are_the_mounts (inp : Render.Input) (gw : MailoutGateway) (cfg : Config) :
  Render.Gateway inp = Some gw -> Render.GatewayConfig inp = Ok cfg ->
  Forall plain (Render.CertificateSecretNames gw) ->
  Forall (λ k, plain (sel_Name (PrivateKeySecretRef k)) /\ plain (Render.DKIMKeyName k)) (gs_DKIM (g_spec gw)) ->
  forall d, d ∈ referencedDirs (NewFile Render.ConfigFilePath) (Some cfg) <->
    d = Render.ConfigDir \/
    (exists n, n ∈ Render.CertificateSecretNames gw /\ d = Render.CertificateMountPath n) \/
    (exists n, n ∈ Render.DKIMSecretNames (Some gw) /\ d = Render.DKIMMountPath n).
Proof.
  intros Hg Hc Hcerts Hkeys d. rewrite elem_of_referencedDirs.
  assert (Hown : Dir (path (NewFile Render.ConfigFilePath)) = Render.ConfigDir) by by vm_compute.
  rewrite Hown. unfold Render.GatewayConfig in Hc. rewrite Hg in Hc. injection Hc as <-.
  rewrite Forall_forall in Hcerts. rewrite Forall_forall in Hkeys.
  assert (Hcrt : plain (lit "tls.crt") /\ plain (lit "tls.key")) by (split; apply (bool_decide_unpack _); by vm_compute).
  unfold files_of. cbn [TLS DKIM Render.renderTLS Certificates]. setoid_rewrite elem_of_app.
  apply or_iff_compat_l. split.
  - intros (c & p & [= <-] & [Hp|Hp] & Hne & ->); [left|right].
    + apply elem_of_concat in Hp as (fs & Hf & Hin).
      apply list_elem_of_fmap in Hin as (r & -> & (n & -> & Hn)%list_elem_of_fmap). exists n. split; [done|].
      cbn in Hf. rewrite !elem_of_cons in Hf.
      destruct Hf as [->|[->|?%not_elem_of_nil]]; [apply certificate_dir; naive_solver..|done].
    + unfold Render.DKIMSecretNames. destruct (HandlesDKIM _); cbn [negb] in *; [by apply not_elem_of_nil in Hp|].
      apply list_elem_of_fmap in Hp as (r & -> & (k & -> & Hk)%list_elem_of_fmap).
      destruct (Hkeys _ Hk) as [Hk1 Hk2]. exists (sel_Name (PrivateKeySecretRef k)). split; [|by apply key_dir].
      rewrite sort_Strings_perm. apply addNames_spec. split_and!; [apply Hk1|set_solver|by exists k].
  - intros [(n & Hn & ->)|(n & Hn & ->)].
    + eexists _, (Join [Render.CertificateMountPath n; lit "tls.crt"]). split; [reflexivity|].
      destruct (certificate_dir n (lit "tls.crt")) as [H1 H2]; [by apply Hcerts|apply Hcrt|]. rewrite H2.
      split_and!; [|done|done]. left. apply elem_of_concat. eexists. split; [by left|].
      apply list_elem_of_fmap. eexists (mkCertificateRef n _ _ [] []). split; [reflexivity|].
      apply list_elem_of_fmap. by exists n.
    + unfold Render.DKIMSecretNames in Hn. destruct (HandlesDKIM _); cbn [negb] in *;
        [by apply not_elem_of_nil in Hn|].
      rewrite sort_Strings_perm in Hn. apply addNames_spec in Hn as (_ & _ & k & Hk & <-).
      destruct (Hkeys _ Hk) as [Hk1 Hk2]. destruct (key_dir _ _ Hk1 Hk2) as [H1 H2].
      eexists _, _. split; [reflexivity|]. split_and!; [right|exact H1|by rewrite H2].
      apply list_elem_of_fmap. eexists (mkDKIMKey _ _ _ _ _). split; [reflexivity|].
      apply list_elem_of_fmap. by exists k.
Qed.
End Mounts.

(** ** Witnesses *)

Definition demo_watched_config : Config :=
  mkConfig (lit "relay") [] (mkTLSConfig [mkCertificateRef (lit "c") (lit "/certs/a/tls.crt") (lit "/certs/a/tls.key") [] []] [])
    (mkUpstream [] 0 [] false [] [] [] 0) [] [] [] None (mkLimits 0 0 0 0 0 0 [] 0) [].

Definition demo_files : ConfigFiles := {|
  os_ReadFile _ _ := Ok [];
  yaml_UnmarshalStrict _ := Ok demo_watched_config;
  watcher_Add _ _ := None
|}.
#[local] Existing Instance demo_files.

Definition demo_file : File := NewFile (lit "/etc/mailout/gateway.yaml").

(** An event at 5, then another at 10, armed until 200000010. *)
Definition demo_armed : watching := mkWatching (watched (start demo_file 0)) (Some 200000010).

Lemma demo_armed_runs : runs demo_file (start demo_file 0) [(5, EventsReady true); (10, EventsReady true)] demo_armed [].
Proof.
  change (runs demo_file (start demo_file 0) (([] ++ [(5, EventsReady true)]) ++ [(10, EventsReady true)]) demo_armed
            (([] ++ []) ++ [])).
  apply (runs_step demo_file (start demo_file 0) ([] ++ [(5, EventsReady true)])
           (mkWatching (watched (start demo_file 0)) (Some 200000005)) ([] ++ []) 10 (EventsReady true) demo_armed None);
    [|reflexivity].
  apply (runs_step demo_file (start demo_file 0) [] (start demo_file 0) [] 5 (EventsReady true) _ None);
    [constructor|reflexivity].
Qed.

Lemma event_read_witness :
  select demo_file 200000009 demo_armed Fire = None /\
  exists st', select demo_file 200000010 demo_armed Fire = Some (Continue st' (Some demo_watched_config)) /\ fire st' = None.
Proof.
  destruct (every_event_brings_a_read demo_file 0 [(5, EventsReady true); (10, EventsReady true)] demo_armed [] 0 5
    demo_armed_runs eq_refl) as [(j & now & _ & Hj & _)|(k & t' & [Hk Hlater] & H1 & H2)].
  { do 2 (destruct j as [|j]; [discriminate Hj|]). discriminate Hj. }
  destruct k as [|[|k]]; [|injection Hk as <-|discriminate Hk].
  { destruct (Hlater 1%nat 10 (EventsReady true)) as [_ Hn]; [lia|reflexivity|]. by destruct Hn. }
  split; [apply H1; cbn; lia|apply H2; cbn; lia].
Defined.

Lemma follows_event_witness : (length (@nil (Z * Config)) <= 2)%nat.
Proof.
  exact (proj1 (every_reload_follows_an_event demo_file 0 [(5, EventsReady true); (10, EventsReady true)] demo_armed []
    demo_armed_runs)).
Defined.

Lemma watches_referenced_witness : exists st',
  select demo_file 200000010 demo_armed Fire = Some (Continue st' (Some demo_watched_config)) /\
  Dir (lit "/certs/a/tls.key") ∈ watched st'.
Proof.
  eexists. split; [reflexivity|].
  refine (proj2 (reload_watches_what_is_referenced demo_file 200000010 demo_armed _ demo_watched_config eq_refl)
    (lit "/certs/a/tls.key") _ eq_refl).
  right. split; [|done]. right. by left.
Defined.

#[local] Existing Instance matchLabels.
#[local] Existing Instance sorter_by.

Lemma mounts_witness : exists cfg, Render.GatewayConfig (demo_input []) = Ok cfg /\
  lit "/etc/mailout/tls/relay-cert" ∈ referencedDirs (NewFile Render.ConfigFilePath) (Some cfg).
Proof.
  destruct (Render.GatewayConfig (demo_input [])) as [cfg|] eqn:E; [|discriminate].
  exists cfg. split; [done|].
  apply (watched_directories_are_the_mounts (demo_input []) demo_gw cfg eq_refl E).
  - apply Forall_singleton. by apply (bool_decide_unpack _); vm_compute.
  - apply Forall_singleton. split; by apply (bool_decide_unpack _); vm_compute.
  - right; left. exists (lit "relay-cert"). split; [by left|reflexivity].
Defined.
