(* ===== verification/Process.v ===== *)
(** * Process: the gateway command

    Models the dataplane as a process: [runGateway] of
    [src/cmd/mailout/gateway.go], [Server.Run] of
    [src/internal/gateway/server.go] and [ServeMetrics] of
    [src/internal/gateway/metrics.go]. The process runs several goroutines: one
    per listener, [Run], [ServeMetrics] and the watcher of [FileSource], which
    reloads the server. Each is a state machine; an event says which of them
    moves and what the outside answered, and a run of the process is any
    sequence of events that are ready.

    Sockets and go-smtp are outside: an event carries what [net.Listen] or
    [Serve] returned. Of errgroup, the documented behaviour is used: the context
    is cancelled when a member returns an error, and [Wait] returns the first
    one when all have returned; of go-smtp's [Close], that it closes the listeners
    being served, those whose goroutine has called [Serve]. The hook of the tests
    ([SetOnListen]) and the logs are left out. *)

From S2P Require Import Prelude Unicode GoStrings Policy Message Metrics World Spool Passwords.
From S2P Require Import Config Auth RateLimit TlsStore Milter Dkim Relay HeaderCheck Server Sessions Render FileSource.
Import Spool HeaderCheck Server FileSource.
#[local] Open Scope Z_scope.

Module Process.

(** ** Server.Run *)

(** A listener that was opened, with its goroutine. *)
Record serving := mkServing {
  gr_listener : Listener;
  gr_limit : Z;            (* of netutil.LimitListener *)
  gr_tls : bool;           (* wrapped in tls.NewListener *)
  gr_server : smtpServer;
  gr_entered : bool;       (* its goroutine is in Serve, which knows of the listener *)
  gr_closed : bool;        (* closeAll, or the server's Close *)
  gr_returned : bool       (* wg.Done was called *)
}.

Inductive phase :=
| Opening (todo : list Listener)
| Selecting
| Waiting (err : option goerror)
| Returned (err : option goerror).

Record running := mkRunning {
  r_phase : phase;
  opened : list serving;
  errs : list goerror;     (* the channel, oldest first *)
  capacity : nat;
  limit : Z                (* MaxConnections of the snapshot Run started with *)
}.

Inductive serveResult := ServeNil | ServeErrClosed | ServeFailed (e : goerror).

Inductive runEvent :=
| Listened (r : option goerror)          (* net.Listen for the next listener *)
| Entered (i : nat)                      (* the goroutine of the i-th calls Serve *)
| Served (i : nat) (r : serveResult)     (* Serve of the i-th returned *)
| CtxDone                                (* the select, by its first case *)
| ErrReceived                            (* the select, by its second case *)
| WaitDone.                              (* wg.Wait returned *)

Definition afterOpen (todo : list Listener) : phase :=
  match todo with [] => Selecting | _ => Opening todo end.

(** Run, up to its loop. *)
Definition startRun (snap : snapshot) : running :=
  mkRunning (afterOpen (Listeners (config snap))) [] [] (length (Listeners (config snap)))
    (MaxConnections (limits (config snap))).

Definition closeServing (sv : serving) : serving :=
  mkServing (gr_listener sv) (gr_limit sv) (gr_tls sv) (gr_server sv) (gr_entered sv) true (gr_returned sv).
Definition enterServing (sv : serving) : serving :=
  mkServing (gr_listener sv) (gr_limit sv) (gr_tls sv) (gr_server sv) true (gr_closed sv) (gr_returned sv).
Definition returnServing (sv : serving) : serving :=
  mkServing (gr_listener sv) (gr_limit sv) (gr_tls sv) (gr_server sv) (gr_entered sv) (gr_closed sv) true.

(** The Close of a go-smtp server: it closes the listeners being served. One
    whose goroutine has not called Serve yet is not known to it. *)
Definition closeServer (sv : serving) : serving := if gr_entered sv then closeServing sv else sv.

Definition listenError (lc : Listener) (e : goerror) : goerror :=
  EWrap (lit "listen " ++ l_Addr lc ++ lit " (" ++ l_Name lc ++ lit ")") e.
Definition listenerError (lc : Listener) (e : goerror) : goerror := EWrap (lit "listener " ++ l_Name lc) e.

(** [s.Close()], then waiting for the goroutines. *)
Definition closeAndWait (current : snapshot) (r : running) (errs : list goerror) (err : option goerror)
    : IO running :=
  Server.Close current ;;
  ret (mkRunning (Waiting err) (closeServer <$> opened r) errs (capacity r) (limit r)).

(** The goroutine of a listener, when it calls Serve. *)
Definition serveEntered (r : running) (i : nat) : option running :=
  match opened r !! i with
  | None => None
  | Some sv =>
      if gr_entered sv then None
      else Some (mkRunning (r_phase r) (<[i := enterServing sv]> (opened r)) (errs r) (capacity r) (limit r))
  end.

(** The goroutine of a listener, when its Serve returned. A send blocks on a
    full channel. *)
Definition serveReturned (r : running) (i : nat) (result : serveResult) : option running :=
  match opened r !! i with
  | None => None
  | Some sv =>
      if negb (gr_entered sv) || gr_returned sv then None
      else
        let done errs := mkRunning (r_phase r) (<[i := returnServing sv]> (opened r)) errs (capacity r) (limit r) in
        match result with
        | ServeNil | ServeErrClosed => Some (done (errs r))
        | ServeFailed e =>
            if (length (errs r) <? capacity r)%nat
            then Some (done (errs r ++ [listenerError (gr_listener sv) e]))
            else None
        end
  end.

(** One event of Run; [None] when it is not ready. *)
Definition runStep (ctxDone : bool) (current : snapshot) (r : running) (ev : runEvent) : option (IO running) :=
  match ev, r_phase r with
  | Listened (Some e), Opening (lc :: _) =>
      Some (ret (mkRunning (Returned (Some (listenError lc e))) (closeServing <$> opened r)
        (errs r) (capacity r) (limit r)))
  | Listened None, Opening (lc :: todo) =>
      let sv := mkServing lc (limit r) (l_Mode lc =b TLSModeImplicit) (newSMTPServer current) false false false in
      Some (ret (mkRunning (afterOpen todo) (opened r ++ [sv]) (errs r) (capacity r) (limit r)))
  | Entered i, _ => ret <$> serveEntered r i
  | Served i result, _ => ret <$> serveReturned r i result
  | CtxDone, Selecting => if ctxDone then Some (closeAndWait current r (errs r) None) else None
  | ErrReceived, Selecting =>
      match errs r with
      | e :: rest => Some (closeAndWait current r rest (Some e))
      | [] => None
      end
  | WaitDone, Waiting err =>
      if forallb gr_returned (opened r)
      then Some (ret (mkRunning (Returned err) (opened r) (errs r) (capacity r) (limit r)))
      else None
  | _, _ => None
  end.

(** ** ServeMetrics *)

Inductive metricsPhase :=
| MetricsStarting
| MetricsServing
| MetricsReturned (err : option goerror).

Inductive metricsEvent :=
| MetricsListened (r : option goerror)
| MetricsCtxDone
| MetricsServed (closed : bool) (e : goerror).   (* errors.Is(err, http.ErrServerClosed) *)

(** An empty address disables the endpoint. *)
Definition startMetrics (addr : bytes) : metricsPhase :=
  if addr =b [] then MetricsReturned None else MetricsStarting.

Definition metricsStep (ctxDone : bool) (m : metricsPhase) (ev : metricsEvent) : option metricsPhase :=
  match m, ev with
  | MetricsStarting, MetricsListened (Some e) => Some (MetricsReturned (Some e))
  | MetricsStarting, MetricsListened None => Some MetricsServing
  | MetricsServing, MetricsCtxDone => if ctxDone then Some (MetricsReturned None) else None
  | MetricsServing, MetricsServed closed e => Some (MetricsReturned (if closed then None else Some e))
  | _, _ => None
  end.

(** ** The process *)

Inductive watchPhase := WatchStarting | WatchLooping (st : watching) | WatchReturned.

Record proc := mkProc {
  p_world : World;
  p_server : snapshot;          (* Server.current *)
  p_ctx : bool;                 (* the group's context is cancelled *)
  p_metrics : metricsPhase;
  p_run : running;
  p_watch : watchPhase;
  p_first : option goerror;     (* errgroup's first error *)
  p_spool : list dirEntry       (* left in the spool directory by the sweep *)
}.

Inductive event :=
| Signal                              (* SIGINT or SIGTERM *)
| OfMetrics (e : metricsEvent)
| OfRun (e : runEvent)
| WatchStarts (now : Z) (created : bool)   (* fsnotify.NewWatcher *)
| OfWatch (now : Z) (w : wake).

(** A member of the group returned. *)
Definition finished (err : option goerror) (p : proc) : proc :=
  match err with
  | None => p
  | Some e =>
      mkProc (p_world p) (p_server p) true (p_metrics p) (p_run p) (p_watch p)
        (match p_first p with None => Some e | first => first end) (p_spool p)
  end.

Definition setMetrics (m : metricsPhase) (p : proc) : proc :=
  mkProc (p_world p) (p_server p) (p_ctx p) m (p_run p) (p_watch p) (p_first p) (p_spool p).
Definition setRun (r : running) (w : World) (p : proc) : proc :=
  mkProc w (p_server p) (p_ctx p) (p_metrics p) r (p_watch p) (p_first p) (p_spool p).
Definition setWatch (st : watchPhase) (p : proc) : proc :=
  mkProc (p_world p) (p_server p) (p_ctx p) (p_metrics p) (p_run p) st (p_first p) (p_spool p).

(** [group.Wait]: what the command returns, once both members have. *)
Definition exited (p : proc) : option (option goerror) :=
  match p_metrics p, r_phase (p_run p) with
  | MetricsReturned _, Returned _ => Some (p_first p)
  | _, _ => None
  end.

Section Steps.
Context `{K : Kernel} `{B : Bcrypt} `{P : Pki} `{C : CertPool} `{D : DkimLib} `{U : Unicode} `{F : ConfigFiles}.

(** The callback of Watch: a configuration that is refused changes nothing. *)
Definition onChange (cfg : Config) (p : proc) : proc :=
  let '(_, current, w) := Reload (Some (p_server p)) cfg (p_world p) in
  mkProc w (default (p_server p) current) (p_ctx p) (p_metrics p) (p_run p) (p_watch p) (p_first p) (p_spool p).

(** One event; [None] when it is not ready. After [exited] the process is gone. *)
Definition procStep (f : File) (p : proc) (ev : event) : option proc :=
  match exited p with
  | Some _ => None
  | None =>
      match ev with
      | Signal =>
          Some (mkProc (p_world p) (p_server p) true (p_metrics p) (p_run p) (p_watch p) (p_first p) (p_spool p))
      | OfMetrics e =>
          match metricsStep (p_ctx p) (p_metrics p) e with
          | None => None
          | Some m =>
              Some (finished (match m with MetricsReturned err => err | _ => None end) (setMetrics m p))
          end
      | OfRun e =>
          match runStep (p_ctx p) (p_server p) (p_run p) e with
          | None => None
          | Some c =>
              let '(r, w) := c (p_world p) in
              let returned := match e, r_phase r with Entered _, _ | Served _ _, _ => None | _, Returned err => err | _, _ => None end in
              Some (finished returned (setRun r w p))
          end
      | WatchStarts now created =>
          match p_watch p with
          | WatchStarting => Some (setWatch (if created then WatchLooping (start f now) else WatchReturned) p)
          | _ => None
          end
      | OfWatch now w =>
          match p_watch p, w with
          | WatchLooping st, Done => if p_ctx p then Some (setWatch WatchReturned p) else None
          | WatchLooping st, _ =>
              match select f now st w with
              | None => None
              | Some Return => Some (setWatch WatchReturned p)
              | Some (Continue st' changed) =>
                  let p := setWatch (WatchLooping st') p in
                  Some (match changed with Some cfg => onChange cfg p | None => p end)
              end
          | _, _ => None
          end
      end
  end.

Inductive startError := LoadFailed (e : goerror) | Refused (e : snapshotError).

(** [runGateway], up to its goroutines. *)
Definition runGateway (f : File) (metricsAddr : bytes) (now : Z) (removable : bytes -> bool)
    (listing : list dirEntry) (w : World) : proc + startError :=
  match Load f now with
  | Err e => inr (LoadFailed e)
  | Ok cfg =>
      let spool := SweepSpool removable listing in
      match NewServer cfg w with
      | (inr e, _) => inr (Refused e)
      | (inl snap, w') =>
          inl (mkProc w' snap false (startMetrics metricsAddr) (startRun snap) WatchStarting None spool)
      end
  end.

(** The process after a sequence of events. *)
Inductive procRuns (f : File) (p0 : proc) : list event -> proc -> Prop :=
| proc_nil : procRuns f p0 [] p0
| proc_step trace p ev p' :
    procRuns f p0 trace p -> procStep f p ev = Some p' -> procRuns f p0 (trace ++ [ev]) p'.
End Steps.
End Process.
Import Process.

(** ** Reachable states *)

Section Reachable.
Context `{K : Kernel} `{B : Bcrypt} `{P : Pki} `{C : CertPool} `{D : DkimLib} `{U : Unicode} `{F : ConfigFiles}.
Context (f : File).

(** What an event says went wrong outside. *)
Definition error_of (ev : event) : option goerror :=
  match ev with
  | OfRun (Listened r) => r
  | OfRun (Served _ (ServeFailed e)) => Some e
  | OfMetrics (MetricsListened r) => r
  | OfMetrics (MetricsServed false e) => Some e
  | _ => None
  end.

(** The error of an event, as the code wraps it. *)
Definition caused (trace : list event) (e : goerror) : Prop :=
  exists ev e0, ev ∈ trace /\ error_of ev = Some e0 /\ (e = e0 \/ exists context, e = EWrap context e0).

Definition returned_count (svs : list serving) : nat := length (List.filter gr_returned svs).

(** The shape of [Run]: the listeners opened and to be opened, what is closed,
    and a channel no fuller than the goroutines that ended. *)
Definition run_ok (r : running) : Prop :=
  (length (errs r) <= returned_count (opened r))%nat /\
  match r_phase r with
  | Opening todo => todo <> [] /\ (length (opened r) + length todo = capacity r)%nat /\
      Forall (λ sv, gr_closed sv = false) (opened r)
  | Selecting => length (opened r) = capacity r /\ Forall (λ sv, gr_closed sv = false) (opened r)
  | Waiting _ | Returned _ => (length (opened r) <= capacity r)%nat
  end.

(** The errors around are the outside's, and the context is cancelled for a
    reason. *)
Definition accounted (trace : list event) (p : proc) : Prop :=
  Forall (caused trace) (errs (p_run p)) /\
  (forall e, p_first p = Some e -> caused trace e) /\
  (p_ctx p = true -> Signal ∈ trace \/ p_first p <> None) /\
  match r_phase (p_run p) with
  | Waiting None => p_ctx p = true
  | Waiting (Some e) => caused trace e
  | Returned None => p_ctx p = true
  | Returned (Some e) => p_first p <> None
  | _ => True
  end.

Definition proc_ok (trace : list event) (p : proc) : Prop :=
  snapshot_ok (p_server p) /\ run_ok (p_run p) /\ accounted trace p.

Lemma caused_mono trace ev e : caused trace e -> caused (trace ++ [ev]) e.
Proof. intros (x & e0 & Hx & He). exists x, e0. split; [set_solver|done]. Qed.

Lemma caused_now trace ev e e0 context :
  error_of ev = Some e0 -> e = e0 \/ e = EWrap context e0 -> caused (trace ++ [ev]) e.
Proof. intros He Hw. exists ev, e0. split; [set_solver|]. split; [done|]. destruct Hw; eauto. Qed.

Lemma returned_le svs : (returned_count svs <= length svs)%nat.
Proof. unfold returned_count. induction svs as [|sv svs IH]; cbn; [done|]. destruct (gr_returned sv); cbn; lia. Qed.

Lemma returned_insert svs i sv : svs !! i = Some sv -> gr_returned sv = false ->
  returned_count (<[i := returnServing sv]> svs) = S (returned_count svs) /\ (returned_count svs < length svs)%nat.
Proof.
  unfold returned_count. revert i. induction svs as [|x svs IH]; intros [|i] Hi Hr; try done.
  - injection Hi as ->. cbn. rewrite Hr. pose proof (returned_le svs). unfold returned_count in *. lia.
  - change (<[S i := returnServing sv]> (x :: svs)) with (x :: <[i := returnServing sv]> svs).
    destruct (IH i Hi Hr) as [IH1 IH2]. cbn [List.filter]. destruct (gr_returned x); cbn [length]; lia.
Qed.

(** Closing and entering leave the count of those that returned. *)
Lemma returned_fmap (g : serving -> serving) svs :
  (forall sv, gr_returned (g sv) = gr_returned sv) -> returned_count (g <$> svs) = returned_count svs.
Proof.
  intros Hg. unfold returned_count. induction svs as [|sv svs IH]; cbn; [done|]. rewrite Hg.
  destruct (gr_returned sv); cbn; by rewrite IH.
Qed.

Lemma returned_server sv : gr_returned (closeServer sv) = gr_returned sv.
Proof. unfold closeServer. by destruct (gr_entered sv). Qed.

Lemma returned_enter svs i sv : svs !! i = Some sv ->
  returned_count (<[i := enterServing sv]> svs) = returned_count svs.
Proof.
  unfold returned_count. revert i. induction svs as [|x svs IH]; intros [|i] Hi; try done.
  - injection Hi as ->. cbn. by destruct (gr_returned sv).
  - change (<[S i := enterServing sv]> (x :: svs)) with (x :: <[i := enterServing sv]> svs).
    specialize (IH i Hi). cbn [List.filter]. destruct (gr_returned x); cbn [length]; lia.
Qed.

Lemma returned_app svs sv : gr_returned sv = false -> returned_count (svs ++ [sv]) = returned_count svs.
Proof. intros E. unfold returned_count. rewrite List.filter_app. cbn. rewrite E. by rewrite app_nil_r. Qed.

Lemma run_open (r : running) : run_ok r -> (length (opened r) <= capacity r)%nat.
Proof. intros [_ H]. destruct (r_phase r); lia. Qed.

(** A goroutine whose Serve returned is never blocked: the channel has room. *)
Lemma serve_never_blocks (r : running) i sv result :
  run_ok r -> opened r !! i = Some sv -> gr_entered sv = true -> gr_returned sv = false ->
  exists errs', serveReturned r i result =
      Some (mkRunning (r_phase r) (<[i := returnServing sv]> (opened r)) errs' (capacity r) (limit r)) /\
    (errs' = errs r \/ exists e, result = ServeFailed e /\ errs' = errs r ++ [listenerError (gr_listener sv) e]).
Proof.
  intros Hok Hi Hin Hr. pose proof (run_open _ Hok). destruct Hok as [Hc _].
  destruct (returned_insert _ _ _ Hi Hr) as [_ Hlt].
  unfold serveReturned. rewrite Hi, Hin, Hr. cbn [negb orb]. destruct result as [| |e]; [eauto|eauto|].
  rewrite (proj2 (Nat.ltb_lt _ _)) by lia. eauto 6.
Qed.

Lemma serveReturned_inv r i result r' : serveReturned r i result = Some r' ->
  exists sv, opened r !! i = Some sv /\ gr_entered sv = true /\ gr_returned sv = false.
Proof.
  unfold serveReturned. destruct (opened r !! i) as [sv|] eqn:E; [|done].
  destruct (gr_entered sv) eqn:Ein, (gr_returned sv) eqn:Er; try done. by exists sv.
Qed.

Lemma serveEntered_inv r i r' : serveEntered r i = Some r' ->
  exists sv, opened r !! i = Some sv /\ gr_entered sv = false /\
    r' = mkRunning (r_phase r) (<[i := enterServing sv]> (opened r)) (errs r) (capacity r) (limit r).
Proof.
  unfold serveEntered. destruct (opened r !! i) as [sv|] eqn:E; [|done].
  destruct (gr_entered sv) eqn:Ein; [done|]. intros [= <-]. by exists sv.
Qed.

(** *** The invariant is kept *)

(** Look at the fields of a state of [Run]. *)
Ltac fields := unfold ret, run_ok; cbn [fst errs opened r_phase capacity limit].

Lemma run_ok_start snap : Listeners (config snap) <> [] -> run_ok (startRun snap).
Proof.
  intros Hne. unfold startRun, run_ok. cbn. split; [done|].
  destruct (Listeners (config snap)) as [|lc todo] eqn:E; [done|]. cbn. done.
Qed.

Lemma runStep_ok ctx current r ev c w : run_ok r -> runStep ctx current r ev = Some c -> run_ok (c w).1.
Proof.
  intros Hok E. assert (Hle := run_open _ Hok). destruct Hok as [Hc Hp]. unfold runStep in E.
  assert (Hcl : forall i sv sv' b, opened r !! i = Some sv -> gr_closed sv' = gr_closed sv ->
    Forall (λ sv, gr_closed sv = b) (opened r) -> Forall (λ sv, gr_closed sv = b) (<[i := sv']> (opened r))).
  { intros i sv sv' b Hi He Hb. apply Forall_insert; [done|]. rewrite He. by eapply Forall_lookup_1 in Hb. }
  destruct ev as [[e|]|i|i result| | |].
  - destruct (r_phase r) as [[|lc todo]| | |]; simplify_eq. fields.
    rewrite returned_fmap, length_fmap by done. done.
  - destruct (r_phase r) as [[|lc todo]| | |]; simplify_eq. destruct Hp as (_ & Hl & Hf). fields.
    rewrite returned_app by done. split; [done|].
    assert (Forall (λ sv, gr_closed sv = false) (opened r ++ [mkServing lc (limit r)
      (l_Mode lc =b TLSModeImplicit) (newSMTPServer current) false false false])) as Hf'.
    { apply Forall_app. split; [done|]. by constructor. }
    cbn in Hl. destruct todo as [|lc' todo]; cbn [afterOpen]; rewrite length_app; cbn in *; split_and!; try done; lia.
  - destruct (serveEntered r i) as [r'|] eqn:Es; [|done]. injection E as <-.
    apply serveEntered_inv in Es as (sv & Hi & _ & ->). fields. rewrite (returned_enter _ _ _ Hi), length_insert.
    split; [done|]. assert (Hin := Hcl i sv (enterServing sv) false Hi eq_refl). destruct (r_phase r); naive_solver.
  - destruct (serveReturned r i result) as [r'|] eqn:Es; [|done]. injection E as <-. cbn.
    destruct (serveReturned_inv _ _ _ _ Es) as (sv & Hi & Hin & Hr).
    destruct (serve_never_blocks r i sv result (conj Hc Hp) Hi Hin Hr) as (errs' & Es' & He).
    rewrite Es' in Es. injection Es as <-. destruct (returned_insert _ _ _ Hi Hr) as [Hs _].
    fields. rewrite Hs, length_insert. split.
    { destruct He as [->|(e & _ & ->)]; [lia|rewrite length_app; cbn; lia]. }
    assert (Hret := Hcl i sv (returnServing sv) false Hi eq_refl). destruct (r_phase r); naive_solver.
  - destruct (r_phase r); try done. destruct ctx; [|done]. simplify_eq. unfold closeAndWait, bind.
    destruct (Server.Close current w). fields. by rewrite (returned_fmap closeServer), length_fmap by apply returned_server.
  - destruct (r_phase r); try done. destruct (errs r) as [|e rest] eqn:Ee; [done|]. simplify_eq. unfold closeAndWait, bind.
    destruct (Server.Close current w). fields. rewrite (returned_fmap closeServer), length_fmap by apply returned_server.
    cbn in Hc. split; [lia|done].
  - destruct (r_phase r); try done. destruct (forallb _ _); [|done]. by simplify_eq.
Qed.

Lemma accounted_finished trace p err :
  accounted trace p -> (forall e, err = Some e -> caused trace e) -> accounted trace (finished err p).
Proof.
  intros (H1 & H2 & H3 & H4) He. destruct err as [e|]; [|done]. unfold accounted, finished. cbn.
  assert (match p_first p with None => Some e | first => first end <> None) as Hne by by destruct (p_first p).
  split_and!; [done| |by right|].
  - intros e'. destruct (p_first p) as [x|] eqn:Ef; [intros [= ->]; by apply H2|intros [= <-]; by apply He].
  - destruct (r_phase (p_run p)) as [| |[?|]|[?|]]; done.
Qed.

Lemma accounted_mono trace ev p : accounted trace p -> accounted (trace ++ [ev]) p.
Proof.
  intros (H1 & H2 & H3 & H4). split_and!.
  - eapply Forall_impl; [done|]. intros e. apply caused_mono.
  - intros e He. apply caused_mono, H2, He.
  - intros Hc. destruct (H3 Hc); [left; set_solver|by right].
  - destruct (r_phase (p_run p)) as [| |[?|]|[?|]]; try done. by apply caused_mono.
Qed.

(** What an event of [Run] does to the errors around. *)
Lemma runStep_accounted trace p e c r w :
  accounted trace p -> runStep (p_ctx p) (p_server p) (p_run p) e = Some c -> c (p_world p) = (r, w) ->
  accounted (trace ++ [OfRun e])
    (finished (match e, r_phase r with Entered _, _ | Served _ _, _ => None | _, Returned err => err | _, _ => None end)
      (setRun r w p)).
Proof.
  intros Ha E Ec. apply (accounted_mono _ (OfRun e)) in Ha. destruct Ha as (H1 & H2 & H3 & H4).
  assert (Hset : forall r', Forall (caused (trace ++ [OfRun e])) (errs r') ->
    (match r_phase r' with
     | Waiting None | Returned None => p_ctx p = true
     | Waiting (Some e') => caused (trace ++ [OfRun e]) e'
     | Returned (Some _) => p_first p <> None
     | _ => True end) -> accounted (trace ++ [OfRun e]) (setRun r' w p)) by by intros.
  assert (Hret : forall r' x, Forall (caused (trace ++ [OfRun e])) (errs r') -> r_phase r' = Returned (Some x) ->
    caused (trace ++ [OfRun e]) x -> accounted (trace ++ [OfRun e]) (finished (Some x) (setRun r' w p))).
  { intros r' x He Hp Hx. unfold accounted, finished. cbn. rewrite Hp.
    assert (match p_first p with None => Some x | first => first end <> None) as Hne by by destruct (p_first p).
    split_and!; [done| |by right|done].
    intros y. destruct (p_first p) eqn:Ef; [intros [= ->]; by apply H2|by intros [= <-]]. }
  unfold runStep in E. destruct e as [[e|]|i|i result| | |].
  - destruct (r_phase (p_run p)) as [[|lc todo]| | |]; simplify_eq. injection Ec as <- <-. cbn [r_phase].
    apply Hret; [done|done|]. eapply caused_now; [done|right; reflexivity].
  - destruct (r_phase (p_run p)) as [[|lc todo]| | |]; simplify_eq. injection Ec as <- <-. cbn [r_phase].
    destruct todo; by apply Hset.
  - destruct (serveEntered (p_run p) i) as [r'|] eqn:Es; [|done]. injection E as <-. injection Ec as <- <-.
    apply serveEntered_inv in Es as (sv & _ & _ & ->).
    apply Hset; [done|]. cbn. by destruct (r_phase (p_run p)) as [| |[?|]|[?|]].
  - destruct (serveReturned (p_run p) i result) as [r'|] eqn:Es; [|done]. injection E as <-. injection Ec as <- <-.
    unfold serveReturned in Es. destruct (opened (p_run p) !! i) as [sv|]; [|done]. destruct (_ || gr_returned sv); [done|].
    destruct result as [| |x]; [| |destruct (_ <? _)%nat; [|done]]; injection Es as <-;
      (apply Hset; [cbn|cbn; by destruct (r_phase (p_run p)) as [| |[?|]|[?|]]]); try done.
    apply Forall_app. split; [done|]. constructor; [|done]. eapply caused_now; [done|right; reflexivity].
  - destruct (r_phase (p_run p)); try done. destruct (p_ctx p) eqn:Ectx; [|done]. injection E as <-.
    unfold closeAndWait, bind in Ec. destruct (Server.Close _ _). injection Ec as <- <-. cbn [r_phase].
    by apply Hset.
  - destruct (r_phase (p_run p)); try done. destruct (errs (p_run p)) as [|e rest]; [done|]. injection E as <-.
    unfold closeAndWait, bind in Ec. destruct (Server.Close _ _). injection Ec as <- <-. cbn [r_phase].
    apply Forall_cons in H1 as [He Hrest]. by apply Hset.
  - destruct (r_phase (p_run p)) as [| |err|]; try done. destruct (forallb _ _); [|done]. injection E as <-.
    injection Ec as <- <-. cbn [r_phase]. destruct err as [e|]; [|by apply Hset].
    by apply Hret.
Qed.

Lemma onChange_keeps cfg p : snapshot_ok (p_server p) ->
  snapshot_ok (p_server (onChange cfg p)) /\ p_run (onChange cfg p) = p_run p /\ p_ctx (onChange cfg p) = p_ctx p /\
  p_first (onChange cfg p) = p_first p.
Proof.
  intros Hok. unfold onChange. destruct (Reload (Some (p_server p)) cfg (p_world p)) as [[err current] w] eqn:E.
  cbn. split_and!; try done. destruct current as [snap|]; [|done]. cbn.
  unfold Reload, bind in E. pose proof (newSnapshot_spec cfg (Some (p_server p)) (p_world p)) as Hs.
  destruct (newSnapshot cfg (Some (p_server p)) (p_world p)) as [[s|e] w1].
  - destruct Hs as (_ & _ & Hok' & _). revert E. unfold record, ret, RateLimit.close, closeClient.
    repeat case_match; intros; by simplify_eq/=.
  - unfold record, ret in E. by injection E as _ <- _.
Qed.

Lemma procStep_ok trace p ev p' : proc_ok trace p -> procStep f p ev = Some p' -> proc_ok (trace ++ [ev]) p'.
Proof.
  intros (Hs & Hr & Ha) E. unfold procStep in E. destruct (exited p); [done|].
  destruct ev as [|e|e|now created|now wk].
  - injection E as <-. split_and!; [done|done|]. destruct (accounted_mono _ Signal _ Ha) as (H1 & H2 & H3 & H4).
    split_and!; try done; [intros _; left; set_solver|].
    cbn. destruct (r_phase (p_run p)) as [| |[?|]|[?|]]; done.
  - destruct (metricsStep (p_ctx p) (p_metrics p) e) as [m|] eqn:Em; [|done]. injection E as <-.
    assert (Ha' := accounted_mono _ (OfMetrics e) _ Ha). split_and!.
    1, 2: by destruct m as [| |[?|]].
    apply accounted_finished; [done|]. intros x Hx. destruct m as [| |err]; simplify_eq.
    unfold metricsStep in Em. destruct (p_metrics p), e as [[?|]| |[] ?]; simplify_eq; try (by destruct (p_ctx p)).
    all: eapply (caused_now _ _ _ _ []); [done|by left].
  - destruct (runStep (p_ctx p) (p_server p) (p_run p) e) as [c|] eqn:Ee; [|done].
    pose proof (runStep_ok _ _ _ _ _ (p_world p) Hr Ee) as Hr'.
    destruct (c (p_world p)) as [r w] eqn:Ec. cbn in Hr'. injection E as <-.
    split_and!; [|by destruct (match e, r_phase r with Entered _, _ | Served _ _, _ => None | _, Returned err => err | _, _ => None end)|].
    + by destruct (match e, r_phase r with Entered _, _ | Served _ _, _ => None | _, Returned err => err | _, _ => None end).
    + by eapply runStep_accounted.
  - destruct (p_watch p); try done. injection E as <-. split_and!; [done|done|]. by apply accounted_mono.
  - assert (Hw : forall st, proc_ok (trace ++ [OfWatch now wk]) (setWatch st p)).
    { intros st. split_and!; [done|done|]. by apply (accounted_mono _ _ p). }
    assert (Hc : forall st changed, proc_ok (trace ++ [OfWatch now wk])
      (match changed with Some cfg => onChange cfg (setWatch st p) | None => setWatch st p end)).
    { intros st [cfg|]; [|done]. destruct (Hw st) as (Hs' & Hr' & Ha').
      destruct (onChange_keeps cfg (setWatch st p) Hs') as (Hs'' & E1 & E2 & E3).
      split_and!; [done|by rewrite E1|]. unfold accounted. by rewrite E1, E2, E3. }
    destruct (p_watch p) as [|st|]; try done. destruct wk; repeat case_match; simplify_eq; auto; exact (Hc _ (Some _)).
Qed.

(** A process that started. *)
Definition started (metricsAddr : bytes) (now : Z) (removable : bytes -> bool) (listing : list dirEntry)
    (w : World) (p0 : proc) : Prop := runGateway f metricsAddr now removable listing w = inl p0.

Lemma started_server addr now removable listing w p0 : started addr now removable listing w p0 ->
  exists cfg w1, Load f now = Ok cfg /\ newSnapshot cfg None w = (inl (p_server p0), w1) /\
    p0 = mkProc (p_world p0) (p_server p0) false (startMetrics addr) (startRun (p_server p0)) WatchStarting None
           (SweepSpool removable listing).
Proof.
  unfold started, runGateway. destruct (Load f now) as [cfg|]; [|done].
  unfold NewServer, bind. destruct (Reload None cfg w) as [[err current] w'] eqn:Er. intros E.
  destruct err as [e|], current as [snap|]; unfold ret in E; simplify_eq. cbn.
  exists cfg. unfold Reload, bind in Er. destruct (newSnapshot cfg None w) as [[s|e] w1]; [|done].
  exists w1. unfold record, ret in Er. by simplify_eq/=.
Qed.

Lemma started_ok addr now removable listing w p0 : started addr now removable listing w p0 -> proc_ok [] p0.
Proof.
  intros Hst. destruct (started_server _ _ _ _ _ _ Hst) as (cfg & w1 & _ & E & ->).
  pose proof (newSnapshot_spec cfg None w) as Hs. rewrite E in Hs. destruct Hs as (_ & _ & Hok & _).
  split_and!; [done| |].
  - apply run_ok_start, (sv_listener _ (ok_servable _ Hok)).
  - split_and!; cbn; try done. by destruct (Listeners (config (p_server p0))).
Qed.

Lemma procRuns_ok trace0 p0 trace p : proc_ok trace0 p0 -> procRuns f p0 trace p -> proc_ok (trace0 ++ trace) p.
Proof.
  intros H0. induction 1 as [|trace p ev p' _ IH E]; [by rewrite app_nil_r|].
  rewrite app_assoc. by eapply procStep_ok.
Qed.

(** ** What stops the relay *)

(** The relay stops for a reason, and says which: the command ends without an
    error only when it was signalled, and any error it ends with is one a socket
    reported, as the code wraps it. *)
Theorem exit_has_a_cause (addr : bytes) (now : Z) (removable : bytes -> bool) (listing : list dirEntry)
    (w : World) (p0 p : proc) (trace : list event) (r : option goerror) :
  started addr now removable listing w p0 -> procRuns f p0 trace p -> exited p = Some r ->
  match r with None => Signal ∈ trace | Some e => caused trace e end.
Proof.
  intros H0 Hr He. pose proof (procRuns_ok [] _ _ _ (started_ok _ _ _ _ _ _ H0) Hr) as (_ & _ & H1 & H2 & H3 & H4).
  unfold exited in He. destruct (p_metrics p); try done. destruct (r_phase (p_run p)) as [| | |why]; try done.
  injection He as <-. destruct (p_first p) as [e|] eqn:Ef; [by apply H2|].
  destruct why; [done|]. by destruct (H3 H4).
Qed.


(** ** The end of the process *)

(** The steps left to a goroutine of a listener: to call Serve, and to return
    from it. *)
Definition steps_left (sv : serving) : nat :=
  ((if gr_entered sv then 0 else 1) + (if gr_returned sv then 0 else 1))%nat.
Definition goroutines_left (svs : list serving) : nat := sum_list_with steps_left svs.

(** The steps left to [Run] and to [ServeMetrics]. *)
Definition run_left (r : running) : nat :=
  (goroutines_left (opened r) +
   match r_phase r with Opening todo => 3 * length todo + 3 | Selecting => 2 | Waiting _ => 1 | Returned _ => 0 end)%nat.
Definition metrics_left (m : metricsPhase) : nat :=
  match m with MetricsStarting => 2 | MetricsServing => 1 | MetricsReturned _ => 0 end%nat.
Definition left_to_do (p : proc) : nat := (run_left (p_run p) + metrics_left (p_metrics p))%nat.

(** The events of the goroutines the command waits for. *)
Definition of_group (ev : event) : bool := match ev with OfMetrics _ | OfRun _ => true | _ => false end.

Lemma left_fmap (g : serving -> serving) svs :
  (forall sv, steps_left (g sv) = steps_left sv) -> goroutines_left (g <$> svs) = goroutines_left svs.
Proof. intros Hg. unfold goroutines_left. induction svs as [|sv svs IH]; cbn; [done|]. by rewrite Hg, IH. Qed.

Lemma left_server sv : steps_left (closeServer sv) = steps_left sv.
Proof. unfold closeServer. by destruct (gr_entered sv). Qed.

Lemma left_insert svs i sv sv' : svs !! i = Some sv -> (steps_left sv' < steps_left sv)%nat ->
  (goroutines_left (<[i := sv']> svs) < goroutines_left svs)%nat.
Proof.
  unfold goroutines_left. revert i. induction svs as [|x svs IH]; intros [|i] Hi Hlt; try done.
  - injection Hi as ->. cbn. lia.
  - change (<[S i := sv']> (x :: svs)) with (x :: <[i := sv']> svs). specialize (IH i Hi Hlt). cbn in *. lia.
Qed.

Lemma runStep_left ctx current r ev c w : runStep ctx current r ev = Some c -> (run_left (c w).1 < run_left r)%nat.
Proof.
  intros E. unfold run_left, runStep in *. destruct ev as [[e|]|i|i result| | |].
  - destruct (r_phase r) as [[|lc todo]| | |]; simplify_eq. fields. rewrite left_fmap by done. lia.
  - destruct (r_phase r) as [[|lc todo]| | |]; simplify_eq. fields. unfold goroutines_left. rewrite sum_list_with_app.
    destruct todo; cbn; unfold steps_left; cbn; lia.
  - destruct (serveEntered r i) as [r'|] eqn:Es; [|done]. injection E as <-.
    apply serveEntered_inv in Es as (sv & Hi & Hin & ->). fields.
    assert (Hu : (goroutines_left (<[i := enterServing sv]> (opened r)) < goroutines_left (opened r))%nat).
    { apply (left_insert _ _ sv); [done|]. unfold steps_left. cbn. rewrite Hin. lia. }
    lia.
  - destruct (serveReturned r i result) as [r'|] eqn:Es; [|done]. injection E as <-. cbn [ret fst].
    destruct (serveReturned_inv _ _ _ _ Es) as (sv & Hi & Hin & Hr).
    assert (Hu : (goroutines_left (<[i := returnServing sv]> (opened r)) < goroutines_left (opened r))%nat).
    { apply (left_insert _ _ sv); [done|]. unfold steps_left. cbn. rewrite Hr, Hin. lia. }
    unfold serveReturned in Es. rewrite Hi, Hin, Hr in Es. cbn [negb orb] in Es.
    destruct result; [| |destruct (_ <? _)%nat; [|done]]; injection Es as <-; fields; lia.
  - destruct (r_phase r); try done. destruct ctx; [|done]. injection E as <-. unfold closeAndWait, bind.
    destruct (Server.Close current w). fields. rewrite (left_fmap closeServer) by apply left_server. lia.
  - destruct (r_phase r); try done. destruct (errs r); [done|]. injection E as <-. unfold closeAndWait, bind.
    destruct (Server.Close current w). fields. rewrite (left_fmap closeServer) by apply left_server. lia.
  - destruct (r_phase r); try done. destruct (forallb _ _); [|done]. injection E as <-. fields. lia.
Qed.

Lemma left_finished err p : left_to_do (finished err p) = left_to_do p.
Proof. by destruct err. Qed.

Lemma onChange_left cfg p : left_to_do (onChange cfg p) = left_to_do p.
Proof. unfold onChange. by destruct (Reload _ cfg _) as [[? ?] ?]. Qed.

(** An event of the group uses up a step; no other event adds one. *)
Lemma procStep_left p ev p' : procStep f p ev = Some p' ->
  ((if of_group ev then 1 else 0) + left_to_do p' <= left_to_do p)%nat.
Proof.
  unfold procStep. destruct (exited p); [done|]. destruct ev as [|e|e|now created|now wk]; intros E.
  - by injection E as <-.
  - destruct (metricsStep _ _ e) as [m|] eqn:Em; [|done]. injection E as <-. rewrite left_finished.
    unfold left_to_do, metricsStep in *. cbn.
    destruct (p_metrics p), e as [[?|]| |[] ?]; simplify_eq; cbn; try lia; destruct (p_ctx p); simplify_eq; cbn; lia.
  - destruct (runStep _ _ _ e) as [c|] eqn:Ee; [|done]. pose proof (runStep_left _ _ _ _ _ (p_world p) Ee) as Hl.
    destruct (c (p_world p)) as [r w]. injection E as <-. rewrite left_finished. unfold left_to_do. cbn in *. lia.
  - destruct (p_watch p); try done. by injection E as <-.
  - destruct (p_watch p) as [|st|]; try done.
    destruct wk; repeat case_match; simplify_eq; rewrite ?onChange_left; done.
Qed.

Lemma procRuns_left p0 trace p : procRuns f p0 trace p ->
  (length (List.filter of_group trace) + left_to_do p <= left_to_do p0)%nat.
Proof.
  induction 1 as [|trace p ev p' _ IH E]; [done|]. apply procStep_left in E.
  rewrite List.filter_app, length_app. cbn. destruct (of_group ev); cbn in *; lia.
Qed.

(** The server of the [i]-th listener was closed before the goroutine of that
    listener called Serve. *)
Definition entered_late (trace : list event) (i : nat) : Prop :=
  exists k ev, trace !! k = Some (OfRun ev) /\ (ev = CtxDone \/ ev = ErrReceived) /\
    forall j, (j < k)%nat -> trace !! j <> Some (OfRun (Entered i)).

(** Which goroutines called Serve, and which listeners their server's Close
    closed. *)
Definition entrances_ok (trace : list event) (r : running) : Prop :=
  (forall i, OfRun (Entered i) ∈ trace -> exists sv, opened r !! i = Some sv /\ gr_entered sv = true) /\
  match r_phase r with
  | Waiting _ => forall i sv, opened r !! i = Some sv -> gr_closed sv = true \/ entered_late trace i
  | _ => True
  end.

Lemma entered_late_mono trace ev i : entered_late trace i -> entered_late (trace ++ [ev]) i.
Proof.
  intros (k & e & Hk & He & Hlater). exists k, e. split_and!; [by apply lookup_app_l_Some|done|].
  intros j Hj. rewrite lookup_app_l; [by apply Hlater|]. apply lookup_lt_Some in Hk. lia.
Qed.

Lemma entered_late_now trace e i : e = CtxDone \/ e = ErrReceived -> OfRun (Entered i) ∉ trace ->
  entered_late (trace ++ [OfRun e]) i.
Proof.
  intros He Hno. exists (length trace), e. split_and!; [by apply list_lookup_middle|done|].
  intros j Hj E. rewrite lookup_app_l in E by done. by apply list_elem_of_lookup_2 in E.
Qed.

Lemma entrances_step trace e ctx current r c w : entrances_ok trace r -> runStep ctx current r e = Some c ->
  entrances_ok (trace ++ [OfRun e]) (c w).1.
Proof.
  intros [Hin Hw] E.
  assert (Hclose : forall errs err, e = CtxDone \/ e = ErrReceived ->
    entrances_ok (trace ++ [OfRun e]) (closeAndWait current r errs err w).1).
  { intros errs err He. unfold closeAndWait, bind. destruct (Server.Close current w). cbn. split; cbn [opened r_phase].
    - intros i [Hi|Hi%list_elem_of_singleton]%elem_of_app; [|destruct He; simplify_eq].
      destruct (Hin i Hi) as (sv & Hsv & Hen). exists (closeServer sv). rewrite list_lookup_fmap, Hsv.
      split; [done|]. unfold closeServer. by rewrite Hen.
    - intros i sv (sv0 & -> & Hsv)%list_lookup_fmap_Some. unfold closeServer. destruct (gr_entered sv0) eqn:Een; [by left|].
      right. apply entered_late_now; [done|]. intros (sv1 & Hsv1 & Hen1)%Hin. congruence. }
  assert (Hkeep : forall r', (forall i sv, opened r !! i = Some sv -> exists sv', opened r' !! i = Some sv' /\
      (gr_entered sv = true -> gr_entered sv' = true)) ->
    (forall i, e = Entered i -> exists sv, opened r' !! i = Some sv /\ gr_entered sv = true) ->
    (forall why, r_phase r' = Waiting why -> r_phase r = Waiting why /\ forall i sv', opened r' !! i = Some sv' ->
       exists sv, opened r !! i = Some sv /\ gr_closed sv' = gr_closed sv) ->
    entrances_ok (trace ++ [OfRun e]) r').
  { intros r' Hop Hnew Hph. split.
    - intros i [Hi|Hi%list_elem_of_singleton]%elem_of_app; [|apply Hnew; congruence].
      destruct (Hin i Hi) as (sv & Hsv & Hen). destruct (Hop _ _ Hsv) as (sv' & ? & ?). eauto.
    - destruct (r_phase r') as [| |why|] eqn:Ep; try done. destruct (Hph _ eq_refl) as [Er Hcl]. rewrite Er in Hw.
      intros i sv' Hi. destruct (Hcl _ _ Hi) as (sv & Hsv & ->). destruct (Hw _ _ Hsv); [by left|right].
      by apply entered_late_mono. }
  unfold runStep in E. destruct e as [[e|]|i|i result| | |].
  - destruct (r_phase r) as [[|lc todo]| | |]; simplify_eq. cbn. apply Hkeep; [|done|done].
    intros i sv Hi. exists (closeServing sv). cbn. by rewrite list_lookup_fmap, Hi.
  - destruct (r_phase r) as [[|lc todo]| | |]; simplify_eq. cbn. apply Hkeep; [|done|by destruct todo].
    intros i sv Hi. exists sv. split; [by apply lookup_app_l_Some|done].
  - destruct (serveEntered r i) as [r'|] eqn:Es; [|done]. injection E as <-.
    apply serveEntered_inv in Es as (sv & Hi & _ & ->). cbn. pose proof (lookup_lt_Some _ _ _ Hi) as Hlt. apply Hkeep; cbn.
    + intros j sv' Hj. destruct (decide (i = j)) as [<-|Hne]; [|by exists sv'; rewrite list_lookup_insert_ne].
      exists (enterServing sv). by rewrite list_lookup_insert_eq.
    + intros j [= <-]. exists (enterServing sv). by rewrite list_lookup_insert_eq.
    + intros why ->. split; [done|]. intros j sv' Hj. destruct (decide (i = j)) as [<-|Hne].
      * rewrite list_lookup_insert_eq in Hj by done. injection Hj as <-. by exists sv.
      * rewrite list_lookup_insert_ne in Hj by done. by exists sv'.
  - destruct (serveReturned r i result) as [r'|] eqn:Es; [|done]. injection E as <-.
    destruct (serveReturned_inv _ _ _ _ Es) as (sv & Hi & Hen & Hr). unfold serveReturned in Es.
    rewrite Hi, Hen, Hr in Es. cbn [negb orb] in Es. pose proof (lookup_lt_Some _ _ _ Hi) as Hlt.
    assert (exists errs', r' = mkRunning (r_phase r) (<[i := returnServing sv]> (opened r)) errs' (capacity r) (limit r))
      as (errs' & ->) by (destruct result; [| |destruct (_ <? _)%nat; [|done]]; injection Es as <-; eauto).
    cbn. apply Hkeep; cbn; [|done|].
    + intros j sv' Hj. destruct (decide (i = j)) as [<-|Hne]; [|by exists sv'; rewrite list_lookup_insert_ne].
      exists (returnServing sv). by rewrite list_lookup_insert_eq.
    + intros why ->. split; [done|]. intros j sv' Hj. destruct (decide (i = j)) as [<-|Hne].
      * rewrite list_lookup_insert_eq in Hj by done. injection Hj as <-. by exists sv.
      * rewrite list_lookup_insert_ne in Hj by done. by exists sv'.
  - destruct (r_phase r); try done. destruct ctx; [|done]. injection E as <-. apply Hclose. by left.
  - destruct (r_phase r); try done. destruct (errs r) as [|x rest]; [done|]. injection E as <-. apply Hclose. by right.
  - destruct (r_phase r) as [| |err|]; try done. destruct (forallb _ _); [|done]. injection E as <-. cbn.
    apply Hkeep; [|done|done]. intros i sv Hi. by exists sv.
Qed.

Lemma entrances_mono trace ev r : entrances_ok trace r -> (forall i, ev <> OfRun (Entered i)) ->
  entrances_ok (trace ++ [ev]) r.
Proof.
  intros [Hin Hw] Hev. split.
  - intros i [Hi|Hi%list_elem_of_singleton]%elem_of_app; [by apply Hin|]. by destruct (Hev i).
  - destruct (r_phase r); try done. intros i sv Hi. destruct (Hw i sv Hi); [by left|right; by apply entered_late_mono].
Qed.

Lemma procRuns_entrances p0 trace p : opened (p_run p0) = [] -> (forall why, r_phase (p_run p0) <> Waiting why) ->
  procRuns f p0 trace p -> entrances_ok trace (p_run p).
Proof.
  intros H0 Hph. induction 1 as [|trace p ev p' _ IH E].
  { split; [by intros i ?%not_elem_of_nil|]. destruct (r_phase (p_run p0)) eqn:Ep; try done. by destruct (Hph err). }
  assert (Hsame : p_run p' = p_run p -> (forall i, ev <> OfRun (Entered i)) -> entrances_ok (trace ++ [ev]) (p_run p')).
  { intros -> Hev. by apply entrances_mono. }
  unfold procStep in E. destruct (exited p); [done|]. destruct ev as [|e|e|now created|now wk].
  - injection E as <-. by apply Hsame.
  - destruct (metricsStep _ _ e) as [m|]; [|done]. injection E as <-. apply Hsame; [|done]. by destruct m as [| |[]].
  - destruct (runStep _ _ _ e) as [c|] eqn:Ee; [|done]. pose proof (entrances_step _ _ _ _ _ _ (p_world p) IH Ee) as Hs.
    destruct (c (p_world p)) as [r w]. injection E as <-.
    by destruct (match e, r_phase r with Entered _, _ | Served _ _, _ => None | _, Returned err => err | _, _ => None end).
  - destruct (p_watch p); try done. injection E as <-. by apply Hsame.
  - apply Hsame; [|done]. destruct (p_watch p) as [|st|]; try done.
    destruct wk; repeat case_match; simplify_eq; try done; unfold onChange; by destruct (Reload _ _ _) as [[? ?] ?].
Qed.

Lemma unreturned_one svs : forallb gr_returned svs = false -> exists i sv, svs !! i = Some sv /\ gr_returned sv = false.
Proof.
  induction svs as [|x l IH]; [done|]. cbn. destruct (gr_returned x) eqn:Ex; [|by exists 0%nat, x].
  intros (i & sv & ? & ?)%IH. by exists (S i), sv.
Qed.

Lemma progress trace p : proc_ok trace p -> entrances_ok trace (p_run p) -> p_ctx p = true -> exited p = None ->
  (exists ev p', of_group ev = true /\ procStep f p ev = Some p' /\
    forall i r, ev = OfRun (Served i r) -> exists sv, opened (p_run p) !! i = Some sv /\ gr_closed sv = true) \/
  (exists i sv, opened (p_run p) !! i = Some sv /\ gr_returned sv = false /\ entered_late trace i).
Proof.
  intros (_ & Hr & _) Hent Hc He.
  assert (Hm : forall e m, metricsStep true (p_metrics p) e = Some m ->
    exists p', procStep f p (OfMetrics e) = Some p').
  { intros e m Em. unfold procStep. rewrite He, Hc, Em. eauto. }
  assert (Hrun : forall e c, runStep true (p_server p) (p_run p) e = Some c ->
    exists p', procStep f p (OfRun e) = Some p').
  { intros e c Ec. unfold procStep. rewrite He, Hc, Ec. destruct (c (p_world p)). eauto. }
  destruct (p_metrics p) eqn:Em.
  - left. destruct (Hm (MetricsListened None) MetricsServing eq_refl) as [p' E]. by exists (OfMetrics (MetricsListened None)), p'.
  - left. destruct (Hm MetricsCtxDone (MetricsReturned None) eq_refl) as [p' E]. by exists (OfMetrics MetricsCtxDone), p'.
  - unfold exited in He. rewrite Em in He. assert (Hcase := Hr). destruct Hcase as [_ Hcase].
    destruct (r_phase (p_run p)) as [todo| |why|] eqn:Ep; [| | |done].
    + left. destruct todo as [|lc todo]; [by destruct Hcase|]. edestruct (Hrun (Listened None)) as [p' E].
      { unfold runStep. rewrite Ep. reflexivity. }
      by exists (OfRun (Listened None)), p'.
    + left. edestruct (Hrun CtxDone) as [p' E]; [unfold runStep; rewrite Ep; reflexivity|]. by exists (OfRun CtxDone), p'.
    + destruct (forallb gr_returned (opened (p_run p))) eqn:Ef.
      { left. edestruct (Hrun WaitDone) as [p' E]; [unfold runStep; rewrite Ep, Ef; reflexivity|]. by exists (OfRun WaitDone), p'. }
      destruct (unreturned_one _ Ef) as (i & sv & Hi & Hsv). destruct (gr_entered sv) eqn:Een.
      2: { left. edestruct (Hrun (Entered i)) as [p' E]; [unfold runStep, serveEntered; rewrite Hi, Een; reflexivity|].
           by exists (OfRun (Entered i)), p'. }
      destruct Hent as [_ Hent]. rewrite Ep in Hent. destruct (Hent _ _ Hi) as [Hcl|Hlate]; [left|right; by exists i, sv].
      destruct (serve_never_blocks _ _ _ ServeNil Hr Hi Een Hsv) as (errs' & Es & _).
      edestruct (Hrun (Served i ServeNil)) as [p' E]; [unfold runStep; rewrite Es; reflexivity|].
      exists (OfRun (Served i ServeNil)), p'. split_and!; [done|done|]. intros j r [= <- <-]. by exists sv.
Qed.

(** C8: A relay told to stop stops: once the context is cancelled (a signal, or the
    first error), the goroutines the command waits for can only take a bounded
    number of steps more, whatever the order they are scheduled in, and until it
    has ended one of them is always ready, waiting for nothing but sockets that
    were closed. The one exception is a listener whose goroutine had not yet
    called Serve when the server was closed: go-smtp's Close closes the listeners
    being served, and nothing closes that one (see [late_listener_stays_open]). *)
Theorem shutdown_completes (addr : bytes) (now : Z) (removable : bytes -> bool) (listing : list dirEntry)
    (w : World) (p0 p : proc) (trace : list event) :
  started addr now removable listing w p0 -> procRuns f p0 trace p -> p_ctx p = true ->
  (forall trace' p', procRuns f p trace' p' -> (length (List.filter of_group trace') <= left_to_do p)%nat) /\
  (exited p = None -> (forall i, (i < length (opened (p_run p)))%nat -> ~ entered_late trace i) ->
   exists ev p', of_group ev = true /\ procStep f p ev = Some p' /\
     forall i r, ev = OfRun (Served i r) -> exists sv, opened (p_run p) !! i = Some sv /\ gr_closed sv = true).
Proof.
  intros H0 Hr Hc. split.
  - intros trace' p' Hr'. apply procRuns_left in Hr'. lia.
  - intros He Hnot. assert (Hent : entrances_ok trace (p_run p)).
    { destruct (started_server _ _ _ _ _ _ H0) as (cfg & w1 & _ & _ & Ep0). eapply procRuns_entrances; [| |exact Hr]; rewrite Ep0.
      - done.
      - intros why. cbn. by destruct (Listeners (config (p_server p0))). }
    destruct (progress trace p) as [?|(i & sv & Hi & _ & Hlate)]; try done.
    + by eapply (procRuns_ok []), Hr; eapply started_ok.
    + destruct (Hnot i); [by eapply lookup_lt_Some|done].
Qed.

(** ** From a change of the file to the sessions *)

(** What the watcher was woken by. *)
Definition wakes (trace : list event) : list (Z * wake) :=
  omap (λ ev, match ev with OfWatch now wk => Some (now, wk) | _ => None end) trace.

Lemma wakes_app a b : wakes (a ++ b) = wakes a ++ wakes b.
Proof. apply omap_app. Qed.

Lemma watch_kept p ev p' : procStep f p ev = Some p' ->
  match ev with OfWatch _ _ | WatchStarts _ _ => True | _ => p_watch p' = p_watch p end.
Proof.
  unfold procStep. destruct (exited p); [done|]. destruct ev as [|e|e|now created|now wk]; try done.
  - by intros [= <-].
  - destruct (metricsStep _ _ e) as [m|]; [|done]. intros [= <-]. by destruct (match m with MetricsReturned err => err | _ => None end).
  - destruct (runStep _ _ _ e) as [c|]; [|done]. destruct (c (p_world p)) as [r w]. intros [= <-].
    by destruct (match e, r_phase r with Entered _, _ | Served _ _, _ => None | _, Returned err => err | _, _ => None end).
Qed.

(** The watcher's part of a run of the process is a run of the watcher. *)
Lemma watch_runs p0 trace p : p_watch p0 = WatchStarting -> procRuns f p0 trace p ->
  match p_watch p with
  | WatchStarting => wakes trace = []
  | WatchLooping st => exists t0 out, runs f (start f t0) (wakes trace) st out
  | WatchReturned => True
  end.
Proof.
  intros H0. induction 1 as [|trace p ev p' _ IH E]; [by rewrite H0|].
  pose proof (watch_kept _ _ _ E) as Hk. rewrite wakes_app. unfold procStep in E. destruct (exited p); [done|].
  destruct ev as [|e|e|now created|now wk]; cbn in Hk |- *; rewrite ?app_nil_r; try (by rewrite Hk).
  - destruct (p_watch p) eqn:Ew; try done. injection E as <-. destruct created; cbn; [|done].
    rewrite IH. exists now, []. constructor.
  - destruct (p_watch p) as [|st|] eqn:Ew; [done| |done]. destruct IH as (t0 & out & Hr).
    destruct wk as [|ok|ok|]; cbn in E.
    + destruct (p_ctx p); [|done]. by injection E as <-.
    + destruct ok; injection E as <-; [|done]. eexists t0, _. by eapply (runs_step _ _ _ _ _ _ _ _ None).
    + destruct ok; injection E as <-; [|done]. eexists t0, _. by eapply (runs_step _ _ _ _ _ _ _ _ None).
    + destruct (fire st) as [deadline|] eqn:Ef; [|done]. destruct (now <? deadline) eqn:El; [done|].
      destruct (Load f now) as [cfg|] eqn:Eload; injection E as <-; cbn.
      * unfold onChange. destruct (Reload _ cfg _) as [[? ?] ?]. cbn. eexists t0, _.
        eapply (runs_step _ _ _ _ _ _ _ _ (Some cfg)); [done|]. cbn. by rewrite Ef, El, Eload.
      * eexists t0, _. eapply (runs_step _ _ _ _ _ _ _ _ None); [done|]. cbn. by rewrite Ef, El, Eload.
Qed.
End Reachable.

(** ** Revocation, end to end *)

Section Revocation.
Context `{K : Kernel} `{B : Bcrypt} `{P : Pki} `{C : CertPool} `{D : DkimLib} `{U : Unicode} `{F : ConfigFiles}
  `{Q : QuotaStore} `{M : MilterPeer} `{R : UpstreamPeer} `{L : SmtpLib}.
Context (f : File).

Lemma Reload_serves current cfg w snap w1 :
  newSnapshot cfg current w = (inl snap, w1) -> exists w2, Reload current cfg w = (None, Some snap, w2).
Proof.
  intros E. unfold Reload, bind. rewrite E. unfold record, ret, RateLimit.close, closeClient.
  repeat case_match; eauto.
Qed.

(** C5: Taking an account out of the configuration file cuts it off, without a
    restart: when the watcher has been told of a change and a debounce has
    passed, its reload is ready; if the file then holds a configuration the
    gateway accepts, in which the account is missing or disabled, taking it puts
    that configuration in service. From then on a session that is authenticated
    as that account, opened before or after, has its next MAIL refused with 421
    and its connection closed; so is its DATA, which without a recipient is
    refused for that reason instead; and a connection opened then cannot
    authenticate as that account. *)
Theorem removed_account_is_cut_off (addr : bytes) (now0 : Z) (removable : bytes -> bool) (listing : list dirEntry)
    (w : World) (p0 p : proc) (trace : list event) (st : watching) (t now : Z) (cfg : Config) (snap : snapshot)
    (w1 : World) (u : bytes) :
  started f addr now0 removable listing w p0 -> procRuns f p0 trace p -> exited p = None ->
  p_watch p = WatchLooping st -> unread (wakes trace) = Some t -> t + debounce f <= now ->
  Load f now = Ok cfg -> newSnapshot cfg (Some (p_server p)) (p_world p) = (inl snap, w1) ->
  (forall a, a ∈ Accounts cfg -> Username a = u -> Disabled a = true) ->
  exists p', procStep f p (OfWatch now Fire) = Some p' /\ config (p_server p') = applyDefaults cfg /\
    (forall s acct from_ r w', account s = Some acct -> Username acct = u ->
      Mail (p_server p') s from_ w' = (Some (ESmtp errCredentialsRevoked), setClosed s, w') /\
      Data (p_server p') s r w' =
        match to s with
        | [] => (Some (ESmtp noValidRecipients), s, w')
        | _ => (Some (ESmtp errCredentialsRevoked), setClosed s, w')
        end) /\
    (forall c password w', (authenticate (newSession c (p_server p')) u password w').1.1.2 <> None).
Proof.
  intros H0 Hr He Hw Hp Hnow Hload Hsnap Hdis.
  destruct (started_server _ _ _ _ _ _ _ H0) as (cfg0 & w0 & _ & _ & Ep0).
  assert (p_watch p0 = WatchStarting) as Hw0 by by rewrite Ep0.
  pose proof (watch_runs f _ _ _ Hw0 Hr) as Hwr. rewrite Hw in Hwr. destruct Hwr as (t0 & out & Hwr).
  apply runs_armed in Hwr. rewrite Hp in Hwr. cbn in Hwr.
  destruct (Reload_serves _ _ _ _ _ Hsnap) as [w2 Er].
  eexists. split.
  { unfold procStep. rewrite He, Hw. cbn [select]. rewrite Hwr, (proj2 (Z.ltb_ge _ _) Hnow), Hload. reflexivity. }
  unfold onChange. cbn [setWatch p_server p_world]. rewrite Er. cbn [p_server default].
  pose proof (newSnapshot_spec cfg (Some (p_server p)) (p_world p)) as Hs. rewrite Hsnap in Hs.
  assert (Hoff : forall a, Auth.byUsername (accounts snap) !! u = Some a -> Disabled a = true).
  { intros a Hl. destruct (Sessions.served_of_config _ _ _ _ _ _ _ Hsnap Hl) as (Hin & Hu & _). by apply Hdis. }
  split_and!; [apply Hs| |].
  - intros s acct from_ r w' Ha <-. by apply (Sessions.cut_off snap s acct).
  - intros c password w'. by apply Sessions.disabled_cannot_authenticate.
Qed.
End Revocation.

(** ** Startup *)

Section Startup.
Context `{K : Kernel} `{B : Bcrypt} `{P : Pki} `{C : CertPool} `{D : DkimLib} `{U : Unicode} `{F : ConfigFiles}.
Context (f : File).

Definition no_event (ev : event) : Prop := forall now, ev <> OfWatch now (EventsReady true).

Lemma unarmed_step p ev p' : no_event ev -> (forall st, p_watch p = WatchLooping st -> fire st = None) ->
  procStep f p ev = Some p' ->
  p_server p' = p_server p /\ forall st, p_watch p' = WatchLooping st -> fire st = None.
Proof.
  intros Hne Hf E. pose proof (watch_kept f _ _ _ E) as Hk. unfold procStep in E. destruct (exited p); [done|].
  destruct ev as [|e|e|now created|now wk].
  - injection E as <-. done.
  - destruct (metricsStep _ _ e) as [m|]; [|done]. injection E as <-. rewrite Hk. split; [|done].
    by destruct (match m with MetricsReturned err => err | _ => None end).
  - destruct (runStep _ _ _ e) as [c|]; [|done]. destruct (c (p_world p)) as [r w]. injection E as <-. rewrite Hk.
    split; [|done]. by destruct (match e, r_phase r with Entered _, _ | Served _ _, _ => None | _, Returned err => err | _, _ => None end).
  - destruct (p_watch p); try done. injection E as <-. split; [done|]. destruct created; cbn; [|done].
    by intros st [= <-].
  - destruct (p_watch p) as [|st|] eqn:Ew; [done| |done]. specialize (Hf _ eq_refl).
    destruct wk as [|[]|[]|]; cbn in E; rewrite ?Hf in E; try done.
    + destruct (p_ctx p); [|done]. by injection E as <-.
    + injection E as <-. split; [done|]. by intros st' [= <-].
    + by injection E as <-.
    + by destruct (Hne now).
    + by injection E as <-.
Qed.

(** The command reads the file before it watches it, and the watcher's own
    first reading only tells it what to watch: a change made in between is not
    noticed. As long as nothing else changes, the relay serves what the file held
    when the command read it, whatever the file held when the watch began. *)
Theorem change_before_the_watch_is_missed (addr : bytes) (now : Z) (removable : bytes -> bool)
    (listing : list dirEntry) (w : World) (p0 p : proc) (trace : list event) :
  started f addr now removable listing w p0 -> procRuns f p0 trace p -> Forall no_event trace ->
  exists cfg, Load f now = Ok cfg /\ p_server p = p_server p0 /\ config (p_server p) = applyDefaults cfg.
Proof.
  intros H0 Hr Hne. destruct (started_server _ _ _ _ _ _ _ H0) as (cfg & w1 & Hl & E & Ep0). exists cfg.
  assert (p_server p = p_server p0 /\ forall st, p_watch p = WatchLooping st -> fire st = None) as [-> _].
  { clear -Hr Hne Ep0. induction Hr as [|trace p ev p' _ IH E]; [by rewrite Ep0|].
    apply Forall_app in Hne as [Hne [Hev _]%Forall_cons]. destruct (IH Hne) as [Es Hf].
    destruct (unarmed_step _ _ _ Hev Hf E) as [-> Hf']. done. }
  pose proof (newSnapshot_spec cfg None w) as Hs. rewrite E in Hs. split_and!; [done|done|apply Hs].
Qed.
End Startup.

(** ** Witnesses *)

#[local] Existing Instance kernel_ok.
#[local] Existing Instance toy_bcrypt.
#[local] Existing Instance toy_pki.
#[local] Existing Instance demo_pool.
#[local] Existing Instance toy_dkim.
#[local] Existing Instance unicode14.
#[local] Existing Instance counting_store.
#[local] Existing Instance tagging_peer.
#[local] Existing Instance willing_upstream.
#[local] Existing Instance demo_lib.

(** A file that loses its only account at time 100. *)
Definition demo_files : ConfigFiles := {|
  os_ReadFile now _ := Ok (if now <? 100 then lit "one" else lit "none");
  yaml_UnmarshalStrict raw :=
    Ok (if raw =b lit "one" then demo_config [demo_account "pw"] None else demo_config [] None);
  watcher_Add _ _ := None
|}.
#[local] Existing Instance demo_files.

Definition demo_file : File := NewFile (lit "/etc/mailout/gateway.yaml").

Definition demo_idle : proc :=
  mkProc world0 demo_srv false (MetricsReturned None) (startRun demo_srv) WatchStarting None [].

Definition demo_proc : proc :=
  match runGateway demo_file [] 0 (λ _, true) [] world0 with inl p => p | inr _ => demo_idle end.

Lemma demo_started : started demo_file [] 0 (λ _, true) [] world0 demo_proc.
Proof. vm_compute. reflexivity. Qed.

(** The process after some events that are ready. *)
Fixpoint demo_play (p : proc) (evs : list event) : proc :=
  match evs with
  | [] => p
  | ev :: evs => demo_play (default p (procStep demo_file p ev)) evs
  end.

Lemma play_runs evs : forall trace p, procRuns demo_file demo_proc trace p ->
  (forall n, is_Some (procStep demo_file (demo_play p (take n evs)) (nth n evs Signal)) \/ (length evs <= n)%nat) ->
  procRuns demo_file demo_proc (trace ++ evs) (demo_play p evs).
Proof.
  induction evs as [|ev evs IH]; intros trace p Hr Hn; [by rewrite app_nil_r|].
  destruct (Hn 0%nat) as [[p' E]|Hl]; [|cbn in Hl; lia]. cbn [take demo_play nth] in E. cbn [demo_play]. rewrite E.
  replace (trace ++ ev :: evs) with ((trace ++ [ev]) ++ evs) by by rewrite <- app_assoc.
  apply IH; [by eapply proc_step|]. intros n. destruct (Hn (S n)) as [H|H]; [left|right; cbn in H; lia].
  cbn [take demo_play nth] in H. by rewrite E in H.
Qed.

(** The listener is opened, the watch begins, the file changes. *)
Definition demo_events : list event :=
  [OfRun (Listened None); WatchStarts 1 true; OfWatch 100 (EventsReady true)].
Definition demo_changed : proc := demo_play demo_proc demo_events.

Lemma demo_runs : procRuns demo_file demo_proc demo_events demo_changed.
Proof.
  apply (play_runs demo_events [] demo_proc (proc_nil _ _)). intros n.
  do 3 (destruct n as [|n]; [left; vm_compute; eauto|]). right. cbn. lia.
Qed.

Lemma exit_witness : exited (demo_play demo_changed [OfRun (Entered 0); Signal; OfRun CtxDone; OfRun (Served 0 ServeNil); OfRun WaitDone]) = Some None /\
  Signal ∈ demo_events ++ [OfRun (Entered 0); Signal; OfRun CtxDone; OfRun (Served 0 ServeNil); OfRun WaitDone].
Proof.
  split; [vm_compute; reflexivity|].
  apply (exit_has_a_cause demo_file [] 0 (λ _, true) [] world0 demo_proc
    (demo_play demo_changed [OfRun (Entered 0); Signal; OfRun CtxDone; OfRun (Served 0 ServeNil); OfRun WaitDone]) _ None demo_started).
  - apply (play_runs [OfRun (Entered 0); Signal; OfRun CtxDone; OfRun (Served 0 ServeNil); OfRun WaitDone] _ _ demo_runs). intros n.
    do 5 (destruct n as [|n]; [left; vm_compute; eauto|]). right. cbn. lia.
  - vm_compute. reflexivity.
Defined.


Lemma shutdown_witness : exists ev p', of_group ev = true /\
  procStep demo_file (demo_play demo_changed [OfRun (Entered 0); Signal; OfRun CtxDone]) ev = Some p'.
Proof.
  destruct (shutdown_completes demo_file [] 0 (λ _, true) [] world0 demo_proc
    (demo_play demo_changed [OfRun (Entered 0); Signal; OfRun CtxDone])
    (demo_events ++ [OfRun (Entered 0); Signal; OfRun CtxDone]) demo_started) as [_ Hp].
  - apply (play_runs [OfRun (Entered 0); Signal; OfRun CtxDone] _ _ demo_runs). intros n.
    do 3 (destruct n as [|n]; [left; vm_compute; eauto|]). right. cbn. lia.
  - vm_compute. reflexivity.
  - destruct Hp as (ev & p' & Hg & E & _); [vm_compute; reflexivity| |exists ev, p'; split; [exact Hg|exact E]].
    intros i Hi (k & e & Hk & He & Hlater). assert (i = 0%nat) as -> by (vm_compute in Hi; lia).
    do 5 (destruct k as [|k]; [destruct He as [->| ->]; discriminate Hk|]).
    destruct k as [|k]; [|destruct k; discriminate Hk]. apply (Hlater 3%nat); [lia|reflexivity].
Defined.

(** The signal arrives before the listener's goroutine has called Serve: the
    server is closed, the listener is not, and [Run] waits for it. *)
Theorem late_listener_stays_open :
  let p := demo_play demo_changed [Signal; OfRun CtxDone; OfRun (Entered 0)] in
  r_phase (p_run p) = Waiting None /\ procStep demo_file p (OfRun WaitDone) = None /\
  ((λ sv, (gr_entered sv, gr_closed sv)) <$> opened (p_run p)) = [(true, false)].
Proof. vm_compute. done. Qed.

Lemma cut_off_witness : exists p', procStep demo_file demo_changed (OfWatch 300000000 Fire) = Some p' /\
  Accounts (config (p_server p')) = [].
Proof.
  destruct (removed_account_is_cut_off demo_file [] 0 (λ _, true) [] world0 demo_proc demo_changed demo_events
    (match p_watch demo_changed with WatchLooping st => st | _ => start demo_file 0 end) 100 300000000 (demo_config [] None)
    (match newSnapshot (demo_config [] None) (Some (p_server demo_changed)) (p_world demo_changed) with
     | (inl s, _) => s | _ => demo_srv end)
    (newSnapshot (demo_config [] None) (Some (p_server demo_changed)) (p_world demo_changed)).2
    (lit "app") demo_started demo_runs) as (p' & E & Hc & _).
  1-3: vm_compute; reflexivity.
  - cbn. lia.
  - vm_compute. reflexivity.
  - vm_compute. reflexivity.
  - intros a Ha. apply not_elem_of_nil in Ha. destruct Ha.
  - exists p'. split; [exact E|]. rewrite Hc. reflexivity.
Defined.

(** The account is removed after the command read the file and before the watch
    begins: it is still served. *)
Lemma missed_change_witness :
  Load demo_file 150 = Ok (demo_config [] None) /\
  Accounts (config (p_server (demo_play demo_proc [OfRun (Listened None); WatchStarts 150 true]))) = [demo_account "pw"].
Proof.
  split; [vm_compute; reflexivity|].
  destruct (change_before_the_watch_is_missed demo_file [] 0 (λ _, true) [] world0 demo_proc
    (demo_play demo_proc [OfRun (Listened None); WatchStarts 150 true])
    [OfRun (Listened None); WatchStarts 150 true] demo_started) as (cfg & Hl & _ & ->).
  - apply (play_runs [OfRun (Listened None); WatchStarts 150 true] [] demo_proc (proc_nil _ _)). intros n.
    do 2 (destruct n as [|n]; [left; vm_compute; eauto|]). right. cbn. lia.
  - repeat constructor; intros ?; discriminate.
  - vm_compute in Hl. injection Hl as <-. reflexivity.
Defined.
