(* ===== verification/CommandLine.v ===== *)
(** * CommandLine: from the arguments of a container to a running gateway

    Models the [gateway] command of [src/cmd/mailout/gateway.go] around
    [runGateway] (its flags and their defaults, [newLogger] and the levels of
    log/slog it parses) and [src/cmd/mailout/main.go]. Parsing the arguments is
    pflag's, a parameter. The theorem joins the two programs at their seam: the
    arguments the operator writes into the Deployment are arguments the gateway
    command runs with. *)

From S2P Require Import Prelude Unicode GoStrings GoNet Message Metrics World Spool Passwords.
From S2P Require Import Config Auth RateLimit TlsStore Milter Dkim Relay HeaderCheck Server Sessions.
From S2P Require Import Api Access Render Webhook Objects FileSource Process.
Import Utf8 Spool HeaderCheck Server FileSource Process Render Objects.
#[local] Open Scope Z_scope.
#[local] Set Default Proof Using "Type*".

Definition EQUALS : ascii := chr 61.

(** pflag, for flags that are all strings: the values after the arguments were
    read over the defaults. *)
Class Pflag := { parseFlags : list (bytes * bytes) -> list bytes -> result (gmap bytes bytes) }.

(** The name of a flag: lower-case letters and hyphens, a letter first. *)
Definition flagLetter (c : ascii) : bool := (97 <=? byteZ c) && (byteZ c <=? 122).
Definition flagName (n : bytes) : bool :=
  match n with
  | c :: _ => flagLetter c && forallb (λ c, flagLetter c || (c =b chr 45)) n
  | [] => false
  end.

Definition assignment (s : bytes * bytes) : bytes := lit "--" ++ s.1 ++ EQUALS :: s.2.

(** What it documents: [--name=value] sets a declared flag, later over earlier. *)
Class PflagSound (P : Pflag) := {
  parse_assignments decls sets :
    NoDup decls.*1 -> forallb (λ d, flagName d.1) decls = true -> Forall (λ s, s.1 ∈ decls.*1) sets ->
    parseFlags decls (assignment <$> sets) = Ok (foldl (λ m s, <[s.1 := s.2]> m) (list_to_map decls) sets)
}.

Module CommandLine.

(** ** log/slog *)

(** [strings.ToUpper], as far as a comparison with an ASCII word sees it: the
    only other runes with an ASCII upper case are the dotless i and the long s. *)
Definition upperRune (r : Z) : Z :=
  if (97 <=? r) && (r <=? 122) then r - 32 else if r =? 305 then 73 else if r =? 383 then 83 else r.

Definition isWord (s : bytes) (word : string) : bool := (upperRune <$> runes s) =b (byteZ <$> lit word).

Fixpoint signIndex (s : bytes) : option nat :=
  match s with
  | [] => None
  | c :: s' => if (c =b chr 43) || (c =b chr 45) then Some 0%nat else S <$> signIndex s'
  end.

(** [Level.UnmarshalText]: a name, then perhaps a signed offset; a [Level] is an
    [int]. *)
Definition parseLevel (s : bytes) : option Z :=
  match (match signIndex s with Some i => (take i s, Atoi (drop i s)) | None => (s, Some 0) end) with
  | (_, None) => None
  | (name, Some offset) =>
      match (if isWord name "DEBUG" then Some (-4) else if isWord name "INFO" then Some 0
             else if isWord name "WARN" then Some 4 else if isWord name "ERROR" then Some 8 else None) with
      | None => None
      | Some level => Some (wrap64 (level + offset))
      end
  end.

Inductive handler := JSONHandler | TextHandler.
Record logger := mkLogger { lg_handler : handler; lg_level : Z }.

(** [Handler.Enabled]. *)
Definition Enabled (l : logger) (level : Z) : bool := lg_level l <=? level.

Definition newLogger (level format : bytes) : result logger :=
  match parseLevel level with
  | None => Err (EText (lit "invalid log level " ++ level))
  | Some lvl =>
      if format =b lit "json" then Ok (mkLogger JSONHandler lvl)
      else if format =b lit "text" then Ok (mkLogger TextHandler lvl)
      else Err (EText (lit "invalid log format " ++ format ++ lit ", want text or json"))
  end.

(** ** The gateway command *)

(** The flags and their defaults. *)
Definition gatewayFlags : list (bytes * bytes) :=
  [(lit "config", lit "/etc/mailout/gateway.yaml"); (lit "metrics-bind-address", lit ":9090");
   (lit "log-level", lit "info"); (lit "log-format", lit "text")].

Inductive commandError := BadFlags (e : goerror) | BadLogger (e : goerror) | NotStarted (e : startError).

Definition value (values : gmap bytes bytes) (name : string) : bytes := default [] (values !! lit name).

Section Command.
Context `{Kernel, Bcrypt, Pki, CertPool, DkimLib, Unicode, ConfigFiles, Pflag}.

(** [RunE]: the logger and the process started. *)
Definition gatewayRunE (values : gmap bytes bytes) (now : Z) (removable : bytes -> bool) (listing : list dirEntry)
    (w : World) : (logger * proc) + commandError :=
  match newLogger (value values "log-level") (value values "log-format") with
  | Err e => inr (BadLogger e)
  | Ok log =>
      match runGateway (NewFile (value values "config")) (value values "metrics-bind-address") now removable listing w with
      | inr e => inr (NotStarted e)
      | inl p => inl (log, p)
      end
  end.

Definition gatewayCommand (args : list bytes) (now : Z) (removable : bytes -> bool) (listing : list dirEntry)
    (w : World) : (logger * proc) + commandError :=
  match parseFlags gatewayFlags args with
  | Err e => inr (BadFlags e)
  | Ok values => gatewayRunE values now removable listing w
  end.
End Command.

(** ** main.go *)

(** The names of the commands [main] adds to the root. *)
Definition subcommands : list bytes :=
  lit <$> ["gateway"; "operator"; "hash-password"; "dkim-key"; "version"]%string.

(** What [version] prints. *)
Definition printVersion (version : bytes) : bytes := version ++ [LF].

(** The end of [main]: whether it prints an error, and the exit status. *)
Definition mainExit (err : option goerror) : option goerror * Z :=
  match err with
  | Some e => (Some e, 1)
  | None => (None, 0)
  end.
End CommandLine.
Import CommandLine.

(** ** Properties *)

(** The four documented levels, in their order, however they are capitalized;
    an offset moves the threshold. *)
Example level_examples :
  parseLevel <$> (lit <$> ["debug"; "Info"; "WARN"; "error"; "info+2"; "debug-4"]%string) =
    Some <$> [-4; 0; 4; 8; 2; -8] /\
  parseLevel (lit "verbose") = None /\ parseLevel (lit "info+") = None /\ parseLevel [] = None.
Proof. vm_compute. done. Qed.

(** The flags the operator sets, as the Deployment spells them. *)
Definition deployedFlags : list (bytes * bytes) :=
  [(lit "config", ConfigFilePath); (lit "metrics-bind-address", lit ":" ++ itoa MetricsPort);
   (lit "log-format", lit "json")].

Lemma deployed_args `{Selectors, Sha256} gw cfg image d :
  DeploymentFor gw cfg image = Some d -> Args (Template d) = lit "gateway" :: (assignment <$> deployedFlags).
Proof. unfold DeploymentFor. destruct (ListenerStatuses cfg); [done|]. by intros [= <-]. Qed.

Lemma deployed_metrics_port `{Selectors, Sha256} gw cfg image d :
  DeploymentFor gw cfg image = Some d -> mkContainerPort MetricsPortName MetricsPort ProtocolTCP ∈ Ports (Template d).
Proof.
  unfold DeploymentFor. set (ports := (_ <$> ListenerStatuses cfg) ++ _). destruct (ListenerStatuses cfg); [done|].
  intros Hd. assert (Ports (Template d) = ports) as -> by by injection Hd as <-.
  unfold ports. rewrite elem_of_app. right. left.
Qed.

Section Seam.
Context `{Kernel, Bcrypt, Pki, CertPool, DkimLib, Unicode, ConfigFiles} `{P : Pflag, !PflagSound P} `{Selectors, Sha256}.

Lemma deployed_values :
  parseFlags gatewayFlags (assignment <$> deployedFlags) =
    Ok (foldl (λ m s, <[s.1 := s.2]> m) (list_to_map gatewayFlags) deployedFlags).
Proof.
  apply parse_assignments; [apply (bool_decide_unpack _); by vm_compute|by vm_compute|].
  apply (bool_decide_unpack _). by vm_compute.
Qed.

(** C25: What the operator deploys is a gateway that starts on what the operator
    mounted. The container's first argument is a command of the program, the
    others are flags it declares; its logger is always built, so the only errors
    left are the configuration's; the file it reads is in the directory the
    configuration Secret is mounted at, read-only; the address it serves metrics
    on is the port the container declares for them. *)
Theorem deployed_gateway_runs_on_what_is_mounted (gw : MailoutGateway) (cfg : Config.Config) (image : bytes)
    (d : Deployment) (now : Z) (removable : bytes -> bool) (listing : list dirEntry) (w : World) :
  DeploymentFor gw cfg image = Some d ->
  exists args log,
    Args (Template d) = lit "gateway" :: args /\ lit "gateway" ∈ subcommands /\
    Enabled log 0 = true /\
    gatewayCommand args now removable listing w =
      match runGateway (NewFile ConfigFilePath) (lit ":" ++ itoa MetricsPort) now removable listing w with
      | inl p => inl (log, p)
      | inr e => inr (NotStarted e)
      end /\
    mkMount (lit "config") (Dir ConfigFilePath) true ∈ VolumeMounts (Template d) /\
    mkVolume (lit "config") (FromSecret (ConfigSecretName (Name (g_meta gw))) secretFileMode) ∈ Volumes (Template d) /\
    mkContainerPort MetricsPortName MetricsPort ProtocolTCP ∈ Ports (Template d).
Proof.
  intros Hd. exists (assignment <$> deployedFlags), (mkLogger JSONHandler 0).
  split; [by eapply deployed_args|]. split; [apply (bool_decide_unpack _); by vm_compute|]. split; [done|].
  split.
  - unfold gatewayCommand. rewrite deployed_values. unfold gatewayRunE.
    set (values := foldl _ _ _).
    assert (Hl : newLogger (value values "log-level") (value values "log-format") = Ok (mkLogger JSONHandler 0)) by by vm_compute.
    assert (Hc : value values "config" = ConfigFilePath) by by vm_compute.
    assert (Hm : value values "metrics-bind-address" = lit ":" ++ itoa MetricsPort) by by vm_compute.
    by rewrite Hl, Hc, Hm.
  - assert (Dir ConfigFilePath = ConfigDir) as -> by by vm_compute.
    destruct (Deployment_volumes _ _ _ _ Hd) as [-> ->]. split; [left|]. split; [left|].
    by eapply deployed_metrics_port.
Qed.
End Seam.

(** ** Witness *)

(** A parser of assignments and nothing else. *)
Definition parseOne (decls : list (bytes * bytes)) (m : gmap bytes bytes) (arg : bytes) : result (gmap bytes bytes) :=
  match CutPrefix arg (lit "--") with
  | None => Err (EText (lit "bad flag syntax"))
  | Some rest =>
      let '(name, v, found) := Cut rest EQUALS in
      if found && bool_decide (name ∈ decls.*1) then Ok (<[name := v]> m) else Err (EText (lit "unknown flag"))
  end.

Definition toy_pflag : Pflag := {|
  parseFlags decls args :=
    foldl (λ acc arg, match acc with Ok m => parseOne decls m arg | Err e => Err e end) (Ok (list_to_map decls)) args
|}.

Lemma flagName_no_equals n : flagName n = true -> EQUALS ∉ n.
Proof.
  unfold flagName. destruct n as [|c n]; [done|]. intros [_ H]%andb_prop Hin. rewrite forallb_forall in H.
  by apply list_elem_of_In, H in Hin.
Qed.

Lemma parseOne_assignment decls m n v :
  flagName n = true -> n ∈ decls.*1 -> parseOne decls m (assignment (n, v)) = Ok (<[n := v]> m).
Proof.
  intros Hf Hin. unfold parseOne, assignment. cbn [fst snd].
  assert (Hcut : forall s, CutPrefix (lit "--" ++ s) (lit "--") = Some s)
    by (intros s; unfold CutPrefix; cbn; by destruct s).
  rewrite Hcut, Cut_at by by apply flagName_no_equals. by rewrite (bool_decide_eq_true_2 (n ∈ decls.*1)) by done.
Qed.

Definition toy_pflag_sound : PflagSound toy_pflag.
Proof.
  constructor. intros decls sets _ Hn Hs. cbn [parseFlags toy_pflag].
  generalize (list_to_map decls : gmap bytes bytes). induction Hs as [|[n v] sets Hin Hs IH]; intros m; [done|].
  cbn [fmap list_fmap foldl fst snd] in *. rewrite parseOne_assignment; [apply IH| |done].
  apply list_elem_of_fmap in Hin as (d & -> & Hd). rewrite forallb_forall in Hn. by apply Hn, list_elem_of_In.
Defined.

#[local] Existing Instance kernel_ok.
#[local] Existing Instance toy_bcrypt.
#[local] Existing Instance toy_pki.
#[local] Existing Instance demo_pool.
#[local] Existing Instance toy_dkim.
#[local] Existing Instance unicode14.
#[local] Existing Instance demo_lib.
#[local] Existing Instance demo_files.
#[local] Existing Instance toy_pflag.
#[local] Existing Instance toy_pflag_sound.
#[local] Existing Instance matchLabels.
#[local] Existing Instance sorter_by.
#[local] Existing Instance demo_sha.

Lemma deployed_gateway_witness :
  exists cfg d args log p,
    GatewayConfig (demo_input []) = Ok cfg /\ DeploymentFor demo_gw cfg (lit "img") = Some d /\
    Args (Template d) = lit "gateway" :: args /\
    gatewayCommand args 0 (λ _, true) [] world0 = inl (log, p).
Proof.
  destruct (GatewayConfig (demo_input [])) as [cfg|] eqn:E; [|discriminate].
  destruct (DeploymentFor demo_gw cfg (lit "img")) as [d|] eqn:Ed.
  2: { exfalso. injection E as <-. discriminate Ed. }
  destruct (deployed_gateway_runs_on_what_is_mounted demo_gw cfg (lit "img") d 0 (λ _, true) [] world0 Ed)
    as (args & log & Ha & _ & _ & Hc & _).
  destruct (runGateway (NewFile ConfigFilePath) (lit ":" ++ itoa MetricsPort) 0 (λ _, true) [] world0) as [p|e] eqn:Er.
  - exists cfg, d, args, log, p. split; [reflexivity|]. split; [exact Ed|]. split; [exact Ha|exact Hc].
  - exfalso. revert Er. vm_compute. discriminate.
Defined.
