(* ===== verification/Cache.v ===== *)
(** * Cache: the Secrets the operator keeps in memory

    Models the Secret cache of [src/cmd/mailout/operator.go]: the label it
    selects on and the transform that trims a Secret to its credential keys
    before it is stored. The informers that fill the cache are
    controller-runtime's: a cached read shows some earlier state of the API
    server, selected and trimmed. *)

From S2P Require Import Prelude Api Render Objects.
Import Render Objects.

Module Cache.

Definition cachedSecretKeys : list bytes := [BasicAuthPasswordKey; PasswordHashKey].

(** The keys of [cachedSecretKeys] the Secret has, and nothing else. *)
Definition keepOnlyCredentialKeys (secret : Secret) : Secret :=
  let trimmed := foldl (λ (trimmed : gmap bytes bytes) key,
                          match s_Data secret !! key with
                          | Some value => <[key := value]> trimmed
                          | None => trimmed
                          end) ∅ cachedSecretKeys in
  mkSecret (s_Namespace secret) (s_Name secret) (s_Labels secret) (s_Type secret) trimmed
    (OwnerReferences secret).

(** The selector of the cache. *)
Definition selected (secret : Secret) : bool :=
  bool_decide (s_Labels secret !! lit "app.kubernetes.io/managed-by" = Some (lit "mailout-operator")).

(** What a cached read shows of what the API server holds. *)
Definition cachedView (r : reply Secret) : reply Secret :=
  match r with
  | Found secret => if selected secret then Found (keepOnlyCredentialKeys secret) else NotFound
  | NotFound => NotFound
  | Failed e => Failed e
  end.
End Cache.
Import Cache.

(** The cache follows the API server, from some earlier moment on. *)
Class SecretCache `{A : ApiServer} := {
  cached_earlier n key : exists m, (m <= n)%nat /\ api_CachedSecret n key = cachedView (api_Secret m key)
}.

(** The password and the hash of a Secret. *)
Definition password_of (secret : Secret) : bytes := at_key (s_Data secret) BasicAuthPasswordKey.
Definition hash_of (secret : Secret) : bytes := at_key (s_Data secret) PasswordHashKey.

Lemma trimmed_lookup secret k :
  s_Data (keepOnlyCredentialKeys secret) !! k =
    if bool_decide (k ∈ cachedSecretKeys) then s_Data secret !! k else None.
Proof.
  unfold keepOnlyCredentialKeys. cbn [s_Data foldl cachedSecretKeys].
  assert (Hne : BasicAuthPasswordKey <> PasswordHashKey) by done.
  destruct (decide (k = PasswordHashKey)) as [->|Hh]; [|destruct (decide (k = BasicAuthPasswordKey)) as [->|Hp]].
  - rewrite bool_decide_eq_true_2 by set_solver.
    destruct (s_Data secret !! PasswordHashKey); [by rewrite lookup_insert_eq|].
    destruct (s_Data secret !! BasicAuthPasswordKey); [|done]. by rewrite lookup_insert_ne.
  - rewrite bool_decide_eq_true_2 by set_solver.
    destruct (s_Data secret !! PasswordHashKey); [rewrite lookup_insert_ne by done|];
      destruct (s_Data secret !! BasicAuthPasswordKey); try done; by rewrite lookup_insert_eq.
  - rewrite bool_decide_eq_false_2 by set_solver.
    destruct (s_Data secret !! PasswordHashKey); [rewrite lookup_insert_ne by done|];
      destruct (s_Data secret !! BasicAuthPasswordKey); try done; by rewrite lookup_insert_ne.
Qed.

Lemma trimmed_credentials secret :
  password_of (keepOnlyCredentialKeys secret) = password_of secret /\
  hash_of (keepOnlyCredentialKeys secret) = hash_of secret.
Proof. unfold password_of, hash_of, at_key. by rewrite !trimmed_lookup. Qed.

(** The cache costs two keys per Secret and loses nothing the reconcilers
    decide on: whatever data a Secret carries, its cached form holds no other
    key than the password and its hash, with the values the Secret has, and
    keeps its name, labels and owners. *)
Theorem cache_keeps_only_credentials (secret : Secret) :
  dom (s_Data (keepOnlyCredentialKeys secret)) ⊆ {[BasicAuthPasswordKey; PasswordHashKey]} /\
  (size (s_Data (keepOnlyCredentialKeys secret)) <= 2)%nat /\
  s_Data (keepOnlyCredentialKeys secret) ⊆ s_Data secret /\
  password_of (keepOnlyCredentialKeys secret) = password_of secret /\
  hash_of (keepOnlyCredentialKeys secret) = hash_of secret /\
  selected (keepOnlyCredentialKeys secret) = selected secret /\
  OwnerReferences (keepOnlyCredentialKeys secret) = OwnerReferences secret.
Proof.
  assert (Hdom : dom (s_Data (keepOnlyCredentialKeys secret)) ⊆ {[BasicAuthPasswordKey; PasswordHashKey]}).
  { intros k (v & Hk)%elem_of_dom. rewrite trimmed_lookup in Hk. case_bool_decide; [set_solver|done]. }
  split_and!; try done; [| |apply trimmed_credentials..].
  - rewrite <- size_dom. trans (size ({[BasicAuthPasswordKey; PasswordHashKey]} : gset bytes)); [|done].
    by apply subseteq_size.
  - apply map_subseteq_spec. intros k v Hk. rewrite trimmed_lookup in Hk. by case_bool_decide.
Qed.
