(* ===== verification/Controllerutil.v ===== *)
(** * Controllerutil: what the controllers rely on of their libraries

    The functions of controller-runtime and apimachinery the reconcilers are
    written with, as interfaces: [controllerutil.CreateOrUpdate],
    [controllerutil.SetControllerReference] and [meta.SetStatusCondition]. Each
    has a class for the function and one for what its documentation says, and
    a concrete function that satisfies it. *)

From S2P Require Import Prelude Api.

Section Interfaces.
Context `{Selectors}.

(** [CreateOrUpdate]: the object is fetched, or starts as [empty]; the mutation
    is applied; it is created or, if the mutation changed it, updated. *)
Class CreateOrUpdater := {
  createOrUpdate : forall {T : Type} `{EqDecision T},
    (nat -> reply T) -> T -> (T -> result T) -> (T -> effect) -> K (result T)
}.

(** The possible outcomes, by what the fetch answered: the result and what was
    written. *)
Inductive outcomeOf {T : Type} (empty : T) (mutate : T -> result T) (written : T -> effect)
    : reply T -> result T -> list effect -> Prop :=
| fetch_failed e : outcomeOf empty mutate written (Failed e) (Err e) []
| mutation_failed_new e :
    mutate empty = Err e -> outcomeOf empty mutate written NotFound (Err e) []
| mutation_failed o e :
    mutate o = Err e -> outcomeOf empty mutate written (Found o) (Err e) []
| unchanged o : mutate o = Ok o -> outcomeOf empty mutate written (Found o) (Ok o) []
| created o :
    mutate empty = Ok o -> outcomeOf empty mutate written NotFound (Ok o) [written o]
| create_failed o e :
    mutate empty = Ok o -> outcomeOf empty mutate written NotFound (Err e) []
| updated o o' :
    mutate o = Ok o' -> o' <> o -> outcomeOf empty mutate written (Found o) (Ok o') [written o']
| update_failed o o' e :
    mutate o = Ok o' -> o' <> o -> outcomeOf empty mutate written (Found o) (Err e) [].

Class CreateOrUpdaterSound (C : CreateOrUpdater) := {
  createOrUpdate_outcome {T} `{EqDecision T} get (empty : T) mutate written s :
    exists t es, (calls s <= t)%nat /\
      effects (createOrUpdate get empty mutate written s).2 = effects s ++ es /\
      (t < calls (createOrUpdate get empty mutate written s).2)%nat /\
      outcomeOf empty mutate written (get t) (createOrUpdate get empty mutate written s).1 es
}.

(** What a [CreateOrUpdate] writes is a mutation of what it fetched, or of the
    empty object. *)
Lemma emits_createOrUpdate `{!CreateOrUpdater} `{C : !CreateOrUpdaterSound _} (P : effect -> Prop) {T}
    `{EqDecision T} get (empty : T) mutate written :
  (forall o, mutate empty = Ok o -> P (written o)) ->
  (forall n o o', get n = Found o -> mutate o = Ok o' -> P (written o')) ->
  emits P (createOrUpdate get empty mutate written).
Proof.
  intros Hnew Hold s. destruct (createOrUpdate_outcome get empty mutate written s) as (t & es & _ & He & _ & Ho).
  exists es. split; [done|].
  destruct (get t) as [o| |] eqn:Eg; inversion Ho; subst; try done; apply Forall_singleton; eauto.
Qed.

Lemma emits_found `{!CreateOrUpdater} `{C : !CreateOrUpdaterSound _} (P : effect -> Prop) {T}
    `{EqDecision T} get (empty : T) mutate written :
  (forall n, get n <> NotFound) ->
  (forall n o o', get n = Found o -> mutate o = Ok o' -> P (written o')) ->
  emits P (createOrUpdate get empty mutate written).
Proof.
  intros Hnn Hold s. destruct (createOrUpdate_outcome get empty mutate written s) as (t & es & _ & He & _ & Ho).
  exists es. split; [done|]. specialize (Hnn t).
  destruct (get t) as [o| |] eqn:Eg; inversion Ho; subst; try done; apply Forall_singleton; eauto.
Qed.
End Interfaces.

(** [SetControllerReference]: the owners with the controller among them; an
    error when another object controls already. *)
Class OwnerReferencer := {
  SetControllerReference : bytes * bytes -> list (bytes * bytes) -> result (list (bytes * bytes))
}.

Class OwnerReferencerSound (O : OwnerReferencer) := {
  set_owner_present o l l' : SetControllerReference o l = Ok l' -> o ∈ l';
  set_owner_again o l l' : SetControllerReference o l = Ok l' -> SetControllerReference o l' = Ok l'
}.

(** [metav1.GetControllerOf]: the owner that controls, which is the one last set
    as such. *)
Class ControllerOwners (O : OwnerReferencer) := {
  GetControllerOf : list (bytes * bytes) -> option (bytes * bytes);
  controller_set o l l' : SetControllerReference o l = Ok l' -> GetControllerOf l' = Some o
}.

(** [meta.SetStatusCondition]: one condition per type. *)
Class ConditionSetter := {
  SetStatusCondition : list Condition -> Condition -> list Condition
}.

Definition find_condition (l : list Condition) (type_ : bytes) : option Condition :=
  List.find (λ c, c_Type c =b type_) l.

Class ConditionSetterSound (C : ConditionSetter) := {
  set_condition_find l c t :
    find_condition (SetStatusCondition l c) t = if t =b c_Type c then Some c else find_condition l t
}.

(** ** Concrete instances *)

(** A cluster whose writes succeed. *)
Definition createOrUpdate_ok `{Selectors} {T : Type} `{EqDecision T}
    (get : nat -> reply T) (empty : T) (mutate : T -> result T) (written : T -> effect) : K (result T) :=
  do t <- call;
  match get t with
  | Failed e => kret (Err e)
  | NotFound =>
      match mutate empty with
      | Err e => kret (Err e)
      | Ok o => do _ <- emit (written o); kret (Ok o)
      end
  | Found o =>
      match mutate o with
      | Err e => kret (Err e)
      | Ok o' => if o' =b o then kret (Ok o') else do _ <- emit (written o'); kret (Ok o')
      end
  end.

Definition updater_ok `{Selectors} : CreateOrUpdater := {| createOrUpdate := @createOrUpdate_ok _ |}.

Lemma updater_ok_sound `{Selectors} : CreateOrUpdaterSound updater_ok.
Proof.
  constructor. intros T EqT get empty mutate written s.
  exists (calls s). cbn. unfold createOrUpdate_ok, kbind, kret, call, emit. cbn.
  destruct (get (calls s)) as [o| |e]; [destruct (mutate o) as [o'|] eqn:E|
    destruct (mutate empty) as [o'|] eqn:E|]; [case_bool_decide as Heq; [subst|]|..];
    eexists; (split_and!; [lia|try (symmetry; apply app_nil_r); reflexivity|cbn; lia|
      by econstructor]).
Qed.

(** The owner is added unless it is there. *)
Definition owner_add : OwnerReferencer := {|
  SetControllerReference o l := Ok (if bool_decide (o ∈ l) then l else l ++ [o])
|}.

Lemma owner_add_sound : OwnerReferencerSound owner_add.
Proof.
  constructor; cbn; intros o l l' [= <-].
  - case_bool_decide; [done|set_solver].
  - rewrite (bool_decide_eq_true_2 (o ∈ _)); [done|]. case_bool_decide; [done|set_solver].
Qed.

(** The first owner controls, and no other can be set. *)
Definition owner_first : OwnerReferencer := {|
  SetControllerReference o l :=
    match l with
    | [] => Ok [o]
    | c :: _ => if c =b o then Ok l else Err (EText (lit "already owned"))
    end
|}.

Lemma owner_first_sound : OwnerReferencerSound owner_first.
Proof.
  constructor; cbn; intros o [|c l] l'; [intros [= <-]; by left|case_bool_decide; [|done]|intros [= <-]; cbn|
    case_bool_decide; [|done]].
  - intros [= <-]. subst. by left.
  - by rewrite bool_decide_eq_true_2.
  - intros [= <-]. cbn. by rewrite bool_decide_eq_true_2.
Qed.

Definition controlled_first : ControllerOwners owner_first.
Proof.
  refine {| GetControllerOf l := head l |}. intros o [|c l] l'; cbn; [by intros [= <-]|].
  case_bool_decide; [|done]. intros [= <-]. cbn. by subst.
Defined.

(** The condition replaces the one of its type. *)
Definition condition_replace : ConditionSetter := {|
  SetStatusCondition l c := List.filter (λ d, c_Type d <>b c_Type c) l ++ [c]
|}.

Lemma find_app {A} (f : A -> bool) l k :
  List.find f (l ++ k) = match List.find f l with Some x => Some x | None => List.find f k end.
Proof. induction l as [|x l IH]; cbn; [done|]. by destruct (f x). Qed.

Lemma condition_replace_sound : ConditionSetterSound condition_replace.
Proof.
  constructor. intros l c t. unfold find_condition. cbn. rewrite find_app. cbn.
  destruct (decide (t = c_Type c)) as [Et|Et].
  - subst t. rewrite (bool_decide_eq_true_2 (c_Type c = c_Type c)) by done.
    assert (List.find (λ d, c_Type d =b c_Type c) (List.filter (λ d, c_Type d <>b c_Type c) l) = None) as ->;
      [|done].
    induction l as [|d l IH]; cbn; [done|]. case_bool_decide as Ed; cbn; [done|].
    by rewrite bool_decide_eq_false_2.
  - rewrite (bool_decide_eq_false_2 (c_Type c = t)), (bool_decide_eq_false_2 (t = c_Type c)) by congruence.
    induction l as [|d l IH]; cbn; [done|].
    destruct (decide (c_Type d = c_Type c)) as [Ed|Ed].
    + rewrite (bool_decide_eq_true_2 (c_Type d = c_Type c)) by done. cbn. rewrite IH.
      by rewrite (bool_decide_eq_false_2 (c_Type d = t)) by congruence.
    + rewrite (bool_decide_eq_false_2 (c_Type d = c_Type c)) by done. cbn.
      by destruct (bool_decide (c_Type d = t)).
Qed.
