(* ===== verification/AccountController.v ===== *)
(** * AccountController: one application's credentials

    Models [src/internal/controller/account_controller.go] with
    [conditions.go]: the reconciliation of an account into its Secret and its
    status, the arbitration of usernames, and when a password is generated.
    A reconciliation is one run of [Reconcile]; its [ctrl.Result] is always
    empty, so its result is the error it returns. The watches that start one are
    in [Manager]. The [%q] of a status text is its argument, unquoted. *)

From S2P Require Import Prelude Unicode GoStrings GoNet Policy Passwords Config.
From S2P Require Import Api Access Render Webhook Objects Cache Controllerutil.
Import Access Render Objects Passwords.
#[local] Open Scope Z_scope.
#[local] Set Default Proof Using "Type*".

Module AccountController.

Section Ops.
Context `{ApiServer, Sorter, Bcrypt, Random}.
Context `{!CreateOrUpdater, OwnerReferencer, ConditionSetter}.
Variable OperatorNamespace : bytes.

Definition setCondition (conditions : list Condition) (type_ : bytes) (status : bool)
    (reason message : bytes) (generation : Z) : list Condition :=
  SetStatusCondition conditions (mkCondition type_ status reason message generation).

(** [r.Status().Patch]. *)
Definition patchStatus (account : MailoutAccount) (status : MailoutAccountStatus) : K (result unit) :=
  do t <- call;
  match api_Write t with
  | Some e => kret (Err e)
  | None =>
      do _ <- emit (PatchedAccountStatus (Namespace (a_meta account), Name (a_meta account)) status);
      kret (Ok tt)
  end.

Definition markNotAccepted (account : MailoutAccount) (reason message : bytes) : K (result unit) :=
  let st := a_status account in
  let gen := Generation (a_meta account) in
  let conds := setCondition (Conditions st) ConditionAccepted false reason message gen in
  let conds := setCondition conds ConditionReady false reason message gen in
  patchStatus account (mkAccountStatus conds gen (st_Username st) (SecretName st) (st_Gateway st)
                         (RotationObserved st)).

(** The status of an account whose credentials are in place. *)
Definition readyStatus (account : MailoutAccount) (gw : MailoutGateway) (username : bytes)
    : MailoutAccountStatus :=
  let gen := Generation (a_meta account) in
  let secretName := ref_Name (SecretRef (a_spec account)) in
  let conds := setCondition (Conditions (a_status account)) ConditionAccepted true ReasonAccepted
                 (lit "Account accepted by " ++ Name (g_meta gw)) gen in
  let conds :=
    if as_Disabled (a_spec account)
    then setCondition conds ConditionReady false ReasonDisabled
           (lit "Account is disabled; authentication is refused") gen
    else setCondition conds ConditionReady true ReasonReady
           (lit "Credentials provisioned in Secret " ++ secretName) gen in
  mkAccountStatus conds gen username secretName
    (Namespace (g_meta gw) ++ lit "/" ++ Name (g_meta gw)) (Rotation (a_spec account)).

Definition markReady (account : MailoutAccount) (gw : MailoutGateway) (username : bytes)
    : K (result unit) :=
  patchStatus account (readyStatus account gw username).

(** The older of two claims on a username, the UID settling a tie. *)
Definition older (other account : MailoutAccount) : bool :=
  if CreationTimestamp (a_meta other) <? CreationTimestamp (a_meta account) then true
  else if CreationTimestamp (a_meta account) <? CreationTimestamp (a_meta other) then false
  else str_ltb (UID (a_meta other)) (UID (a_meta account)).

(** Another account of the same gateway that claims the username. *)
Definition rival (account : MailoutAccount) (gw : MailoutGateway) (username : bytes)
    (other : MailoutAccount) : bool :=
  if (Namespace (a_meta other) =b Namespace (a_meta account)) &&
     (Name (a_meta other) =b Name (a_meta account)) then false
  else if (GatewayNamespaceFor other OperatorNamespace <>b Namespace (g_meta gw)) ||
          (gr_Name (GatewayRef (a_spec other)) <>b Name (g_meta gw)) then false
  else UsernameFor other =b username.

(** The holder found in a list of accounts, empty when there is none. *)
Definition holder (account : MailoutAccount) (gw : MailoutGateway) (username : bytes)
    (items : list MailoutAccount) : bytes :=
  match List.find (λ other, rival account gw username other && older other account) items with
  | Some other => Namespace (a_meta other) ++ lit "/" ++ Name (a_meta other)
  | None => []
  end.

Definition usernameConflict (account : MailoutAccount) (gw : MailoutGateway) (username : bytes)
    : K (result bytes) :=
  do accounts <- ListAccounts;
  match accounts with
  | Err e => kret (Err (EWrap (lit "list accounts") e))
  | Ok items => kret (Ok (holder account gw username items))
  end.

(** The password and the hash the Secret will hold: those it has, unless one is
    missing, the hash is not servable, or a rotation was asked for. [t] numbers
    the draws of randomness. *)
Definition credentials (t : nat) (rotationChanged : bool) (password hash : bytes)
    : result (bytes * bytes) :=
  if (password =b []) || (hash =b []) || rotationChanged || negb (UsableHash hash) then
    match GeneratePassword t with
    | Err e => Err e
    | Ok password =>
        match HashPassword t password with
        | Err e => Err e
        | Ok hash => Ok (password, hash)
        end
    end
  else Ok (password, hash).

(** The function given to [CreateOrUpdate]. *)
Definition mutateSecret (t : nat) (account : MailoutAccount) (gw : MailoutGateway)
    (username : bytes) (endpoint : Endpoint) (secret : Secret) : result Secret :=
  let rotationChanged := RotationObserved (a_status account) <>b Rotation (a_spec account) in
  match credentials t rotationChanged (at_key (s_Data secret) BasicAuthPasswordKey)
          (at_key (s_Data secret) PasswordHashKey) with
  | Err e => Err e
  | Ok (password, hash) =>
      let desired := AccountSecret account username password hash endpoint (Namespace (g_meta gw)) in
      match SetControllerReference (lit "MailoutAccount", Name (a_meta account)) (OwnerReferences secret) with
      | Err e => Err e
      | Ok owners =>
          Ok (mkSecret (s_Namespace secret) (s_Name secret) (s_Labels desired) (s_Type desired)
                (s_Data desired) owners)
      end
  end.

Definition reconcileSecret (account : MailoutAccount) (gw : MailoutGateway) (username : bytes)
    : K (result unit) :=
  match GatewayConfig (mkInput (Some gw) [] [] [] [] (mkCreds [] [] [] [] []) []) with
  | Err e => kret (Err (EWrap (lit "render gateway endpoint") e))
  | Ok cfg =>
      let endpoint := GatewayEndpoint gw cfg in
      let ns := Namespace (a_meta account) in
      let name := ref_Name (SecretRef (a_spec account)) in
      do t <- call;
      do r <- createOrUpdate (λ n, api_CachedSecret n (ns, name)) (mkSecret ns name ∅ [] ∅ [])
                (mutateSecret t account gw username endpoint) (WroteSecret (ns, name));
      match r with
      | Err e => kret (Err (EWrap (lit "reconcile account secret") e))
      | Ok _ => kret (Ok tt)
      end
  end.

Definition Reconcile (key : ObjectKey) : K (result unit) :=
  do a <- GetAccount key;
  match a with
  | NotFound => kret (Ok tt)
  | Failed e => kret (Err e)
  | Found account =>
      let gatewayNamespace := GatewayNamespaceFor account OperatorNamespace in
      do g <- GetGateway (gatewayNamespace, gr_Name (GatewayRef (a_spec account)));
      match g with
      | NotFound =>
          markNotAccepted account ReasonGatewayNotFound
            (lit "MailoutGateway " ++ gatewayNamespace ++ lit "/" ++
             gr_Name (GatewayRef (a_spec account)) ++ lit " not found")
      | Failed e => kret (Err (EWrap (lit "get gateway") e))
      | Found gw =>
          try allowed <- namespaceAllowed gw (Namespace (a_meta account));
          if negb allowed then
            markNotAccepted account ReasonNamespaceNotAllowed
              (lit "MailoutGateway " ++ Namespace (g_meta gw) ++ lit "/" ++ Name (g_meta gw) ++
               lit " does not accept accounts from namespace " ++ Namespace (a_meta account))
          else
            let username := UsernameFor account in
            try conflict <- usernameConflict account gw username;
            if conflict <>b [] then
              markNotAccepted account ReasonUsernameConflict
                (lit "username " ++ username ++ lit " is already taken on this gateway")
            else
              try _ <- reconcileSecret account gw username;
              markReady account gw username
      end
  end.
End Ops.
End AccountController.
Import AccountController.

(** ** Arbitration of usernames *)

Section Arbitration.
Context `{Selectors}.
Variable OperatorNamespace : bytes.

Definition key_of (a : MailoutAccount) : ObjectKey := (Namespace (a_meta a), Name (a_meta a)).
Definition uid_of (a : MailoutAccount) : bytes := UID (a_meta a).

(** The account asks for the username on this gateway. *)
Definition claims (gw : MailoutGateway) (username : bytes) (a : MailoutAccount) : Prop :=
  GatewayNamespaceFor a OperatorNamespace = Namespace (g_meta gw) /\
  gr_Name (GatewayRef (a_spec a)) = Name (g_meta gw) /\ UsernameFor a = username.

Lemma rival_claims account gw username other :
  rival OperatorNamespace account gw username other = true <->
  key_of other <> key_of account /\ claims gw username other.
Proof.
  unfold rival, claims, key_of. destruct (_ && _) eqn:Ek.
  - bools. split; [done|]. intros [Hne _]. destruct Hne. congruence.
  - apply andb_false_iff in Ek.
    assert (Hne : (Namespace (a_meta other), Name (a_meta other)) <>
                  (Namespace (a_meta account), Name (a_meta account))).
    { intros [= E1 E2]. destruct Ek as [Ek|Ek]; bools; done. }
    destruct (_ || _) eqn:Eg.
    + apply orb_true_iff in Eg. split; [done|]. intros (_ & E1 & E2 & _). destruct Eg; bools; done.
    + bools. rewrite bool_decide_eq_true. tauto.
Qed.

Lemma holder_nil account gw username items :
  holder OperatorNamespace account gw username items = [] <->
  forall other, other ∈ items -> key_of other <> key_of account -> claims gw username other ->
    older other account = false.
Proof.
  unfold holder. destruct (List.find _ items) as [other|] eqn:E.
  - apply List.find_some in E as [Hin E]. bools. split; [by destruct (Namespace (a_meta other))|].
    intros Hall. apply rival_claims in H0 as [Hk Hc].
    rewrite (Hall other) in H1; [done|by apply list_elem_of_In|done|done].
  - split; [|done]. intros _ other Hin Hk Hc. apply list_elem_of_In in Hin.
    pose proof (List.find_none _ _ E _ Hin) as Hf. cbn in Hf.
    rewrite (proj2 (rival_claims account gw username other)) in Hf by done. done.
Qed.

Lemma older_asymm a b : older a b = true -> older b a = false.
Proof.
  unfold older. destruct (Z.ltb_spec (CreationTimestamp (a_meta a)) (CreationTimestamp (a_meta b))),
    (Z.ltb_spec (CreationTimestamp (a_meta b)) (CreationTimestamp (a_meta a))); try done; try lia.
  apply str_ltb_asymm.
Qed.

Lemma older_total a b : uid_of a <> uid_of b -> older a b = false -> older b a = true.
Proof.
  unfold older, uid_of.
  destruct (Z.ltb_spec (CreationTimestamp (a_meta a)) (CreationTimestamp (a_meta b))),
    (Z.ltb_spec (CreationTimestamp (a_meta b)) (CreationTimestamp (a_meta a))); try done; try lia.
  intros Hne Hab. apply not_false_iff_true. intros Hba. apply str_ltb_le in Hab, Hba.
  by destruct Hne; apply (anti_symm str_le).
Qed.

Lemma older_trans a b c : older b a = false -> older c b = false -> older c a = false.
Proof.
  unfold older.
  destruct (Z.ltb_spec (CreationTimestamp (a_meta b)) (CreationTimestamp (a_meta a))),
    (Z.ltb_spec (CreationTimestamp (a_meta a)) (CreationTimestamp (a_meta b))),
    (Z.ltb_spec (CreationTimestamp (a_meta c)) (CreationTimestamp (a_meta b))),
    (Z.ltb_spec (CreationTimestamp (a_meta b)) (CreationTimestamp (a_meta c))),
    (Z.ltb_spec (CreationTimestamp (a_meta c)) (CreationTimestamp (a_meta a))),
    (Z.ltb_spec (CreationTimestamp (a_meta a)) (CreationTimestamp (a_meta c))); try done; try lia.
  rewrite !str_ltb_le. by intros; etrans.
Qed.

(** Some claim is at least as old as every other. *)
Lemma oldest (items : list MailoutAccount) (P : MailoutAccount -> Prop) :
  (forall a, Decision (P a)) -> (exists a, a ∈ items /\ P a) ->
  exists a, a ∈ items /\ P a /\ forall b, b ∈ items -> P b -> older b a = false.
Proof.
  intros Hdec. induction items as [|x items IH].
  { by intros (a & ?%not_elem_of_nil & _). }
  intros Hex.
  assert (Hcase : Decision (exists a, a ∈ items /\ P a)).
  { destruct (decide (Exists P items)) as [Hi|Hi]; rewrite Exists_exists in Hi; [by left|by right]. }
  destruct Hcase as [Hi|Hi].
  - destruct (IH Hi) as (a & Ha & Pa & Hmin). destruct (decide (P x)) as [Px|Px].
    + destruct (older x a) eqn:E.
      * exists x. split_and!; [by left|done|]. intros b [->|Hb]%elem_of_cons Pb; [|].
        { apply not_true_iff_false. intros Hxx. by rewrite (older_asymm _ _ Hxx) in Hxx. }
        apply (older_trans _ a); [by apply older_asymm|by apply Hmin].
      * exists a. split_and!; [by right|done|]. intros b [->|Hb]%elem_of_cons Pb; auto.
    + exists a. split_and!; [by right|done|]. intros b [->|Hb]%elem_of_cons Pb; [done|auto].
  - destruct Hex as (a & [->|Ha]%elem_of_cons & Pa); [|naive_solver].
    exists x. split_and!; [by left|done|]. intros b [->|Hb]%elem_of_cons Pb; [|naive_solver].
    apply not_true_iff_false. intros Hxx. by rewrite (older_asymm _ _ Hxx) in Hxx.
Qed.
End Arbitration.

(** ** Properties *)

Section Arbitrated.
Context `{ApiServer}.
Variable OperatorNamespace : bytes.

#[local] Instance claims_dec gw username a : Decision (claims OperatorNamespace gw username a).
Proof. unfold claims. apply _. Defined.

Lemma usernameConflict_run account gw username s items :
  api_Accounts (calls s) = Ok items ->
  (usernameConflict OperatorNamespace account gw username s).1 =
    Ok (holder OperatorNamespace account gw username items).
Proof. intros E. unfold usernameConflict. run_api. by rewrite E. Qed.

(** C13: the arbitration of a username names exactly one holder. Of the accounts
    of a gateway that ask for a username, with distinct keys and UIDs as the API
    server gives them, there is one for which [usernameConflict] finds no other
    holder, and for every other of them it finds one; which one it is does not
    depend on the order of the list nor on the account that asks. The arbitration
    looks at nothing but the age of the claims: an account that will not be served
    for another reason holds the name all the same; and it is the account
    controller's, which [collectAccounts] does not apply. *)
Theorem one_account_holds_a_username (items : list MailoutAccount) (gw : MailoutGateway)
    (username : bytes) :
  NoDup (key_of <$> items) -> NoDup (uid_of <$> items) ->
  (exists a, a ∈ items /\ claims OperatorNamespace gw username a) ->
  exists a, a ∈ items /\ claims OperatorNamespace gw username a /\
    forall b s items', items' ≡ₚ items -> b ∈ items -> claims OperatorNamespace gw username b ->
      api_Accounts (calls s) = Ok items' ->
      ((usernameConflict OperatorNamespace b gw username s).1 = Ok [] <-> b = a).
Proof.
  intros Hkeys Huids Hex.
  destruct (oldest items (claims OperatorNamespace gw username) _ Hex) as (a & Ha & Ca & Hmin).
  exists a. split_and!; [done|done|]. intros b s items' Hperm Hb Cb Hitems.
  rewrite (usernameConflict_run _ _ _ _ _ Hitems).
  trans (holder OperatorNamespace b gw username items' = []); [split; [by intros [= ->]|by intros ->]|].
  rewrite holder_nil. split.
  - intros Hall. destruct (decide (uid_of b = uid_of a)) as [Eu|Eu].
    { by apply (NoDup_fmap_elem uid_of items). }
    destruct (decide (key_of a = key_of b)) as [Ek|Ek].
    { by apply (NoDup_fmap_elem key_of items). }
    pose proof (Hall a ltac:(by rewrite Hperm) Ek Ca) as Hab. pose proof (Hmin b Hb Cb) as Hba.
    by rewrite (older_total b a Eu Hba) in Hab.
  - intros -> other Hin _ Hc. rewrite Hperm in Hin. by apply Hmin.
Qed.
End Arbitrated.

Section Secrets.
Context `{ApiServer, Sorter, B : Bcrypt, !BcryptSound B, Random}.
Context `{C : !CreateOrUpdater, !CreateOrUpdaterSound C, O : OwnerReferencer, !OwnerReferencerSound O}.
Context `{ConditionSetter}.
Variable OperatorNamespace : bytes.

(** What a Secret holds can be served as it is. *)
Definition complete (secret : Secret) : Prop :=
  password_of secret <> [] /\ UsableHash (hash_of secret) = true.

Lemma usable_nonempty hash : UsableHash hash = true -> hash <> [].
Proof. intros E ->. unfold UsableHash in E. by rewrite cost_empty in E. Qed.

Lemma GeneratePassword_nonempty t p : GeneratePassword t = Ok p -> p <> [].
Proof.
  intros E ->. destruct (GeneratePassword_url_safe_and_injective t t [] [] E E) as [Hl _]. done.
Qed.

Lemma AccountSecret_data account username password hash ep ns :
  let secret := AccountSecret account username password hash ep ns in
  at_key (s_Data secret) BasicAuthUsernameKey = username /\
  password_of secret = password /\ hash_of secret = hash.
Proof. by vm_compute. Qed.

(** The credentials kept, or a fresh pair. *)
Lemma credentials_spec t rotated p h p' h' :
  credentials t rotated p h = Ok (p', h') ->
  UsableHash h' = true /\ p' <> [] /\
  (if decide (rotated = false /\ p <> [] /\ UsableHash h = true) then p' = p /\ h' = h
   else GeneratePassword t = Ok p' /\ bcrypt_Compare h' p' = true).
Proof.
  unfold credentials. destruct (_ || _) eqn:E.
  - intros Hgen. destruct (GeneratePassword t) as [q|] eqn:Ep; [|done].
    destruct (HashPassword t q) as [k|] eqn:Ek; [|done]. simplify_eq.
    destruct (HashPassword_is_usable _ _ _ Ek) as [Hu Hm].
    split_and!; [done|by eapply GeneratePassword_nonempty|]. rewrite decide_False; [done|].
    intros (-> & Hp & Hh). pose proof (usable_nonempty _ Hh). rewrite Hh in E.
    rewrite !bool_decide_eq_false_2 in E by done. done.
  - intros [= <- <-]. bools. rewrite decide_True by done. done.
Qed.

Lemma mutateSecret_spec t account gw username ep old new :
  mutateSecret t account gw username ep old = Ok new ->
  exists p h owners,
    credentials t (RotationObserved (a_status account) <>b Rotation (a_spec account))
      (password_of old) (hash_of old) = Ok (p, h) /\
    SetControllerReference (lit "MailoutAccount", Name (a_meta account)) (OwnerReferences old) = Ok owners /\
    let desired := AccountSecret account username p h ep (Namespace (g_meta gw)) in
    new = mkSecret (s_Namespace old) (s_Name old) (s_Labels desired) (s_Type desired) (s_Data desired) owners.
Proof.
  unfold mutateSecret. intros E. destruct (credentials _ _ _ _) as [[p h]|] eqn:Ec; [|done].
  destruct (SetControllerReference _ _) as [owners|] eqn:Eo; [|done]. injection E as <-.
  exists p, h, owners. done.
Qed.

Lemma mutateSecret_data t account gw username ep old new :
  mutateSecret t account gw username ep old = Ok new ->
  at_key (s_Data new) BasicAuthUsernameKey = username /\
  credentials t (RotationObserved (a_status account) <>b Rotation (a_spec account))
      (password_of old) (hash_of old) = Ok (password_of new, hash_of new).
Proof.
  intros (p & h & owners & Ec & _ & ->)%mutateSecret_spec.
  destruct (AccountSecret_data account username p h ep (Namespace (g_meta gw))) as (E1 & E2 & E3).
  unfold password_of, hash_of in *. cbn [s_Data] in *. by rewrite E1, E2, E3.
Qed.

(** C15: a password outlives every reconciliation but a rotation. The Secret the
    account controller leaves is always complete (a password and a hash the
    gateway serves); it holds the password and hash it held before exactly when
    they were complete and no rotation was asked for, and otherwise a password
    just generated with a hash that authenticates it. *)
Theorem password_is_kept_until_rotated (t : nat) (account : MailoutAccount) (gw : MailoutGateway)
    (username : bytes) (ep : Endpoint) (old new : Secret) :
  mutateSecret t account gw username ep old = Ok new ->
  complete new /\
  (RotationObserved (a_status account) = Rotation (a_spec account) -> complete old ->
   password_of new = password_of old /\ hash_of new = hash_of old) /\
  (RotationObserved (a_status account) <> Rotation (a_spec account) \/ ~ complete old ->
   GeneratePassword t = Ok (password_of new) /\ bcrypt_Compare (hash_of new) (password_of new) = true).
Proof.
  intros [_ Ec]%mutateSecret_data. apply credentials_spec in Ec as (Hu & Hp & Hcase).
  split; [done|]. split.
  - intros Er [Hpo Hho]. rewrite decide_True in Hcase; [done|].
    rewrite bool_decide_eq_true_2 by done. done.
  - intros Hor. rewrite decide_False in Hcase; [done|]. intros (Er & Hpo & Hho). bools.
    destruct Hor as [Hne|Hnc]; [done|]. by apply Hnc.
Qed.

(** The Secret seen holds what was written, as far as the mutation reads. *)
Definition shows (view secret : Secret) : Prop :=
  s_Namespace view = s_Namespace secret /\ s_Name view = s_Name secret /\
  OwnerReferences view = OwnerReferences secret /\
  password_of view = password_of secret /\ hash_of view = hash_of secret.

Lemma shows_refl secret : shows secret secret.
Proof. done. Qed.

Lemma shows_cached secret : shows (Cache.keepOnlyCredentialKeys secret) secret.
Proof. split_and!; [done..|apply trimmed_credentials|apply trimmed_credentials]. Qed.

(** Once the rotation was observed, the mutation gives back what was written. *)
Lemma mutateSecret_again t t' account account' gw username ep old new view :
  mutateSecret t account gw username ep old = Ok new -> shows view new ->
  a_meta account' = a_meta account -> a_spec account' = a_spec account ->
  RotationObserved (a_status account') = Rotation (a_spec account') ->
  mutateSecret t' account' gw username ep view = Ok new.
Proof.
  intros Em (Vns & Vname & Vown & Vp & Vh) Hmeta Hspec Hrot.
  destruct (mutateSecret_data _ _ _ _ _ _ _ Em) as [_ Ec].
  apply credentials_spec in Ec as (Hu & Hp & _).
  apply mutateSecret_spec in Em as (p & h & owners & _ & Eo & ->).
  set (new := mkSecret _ _ _ _ _ _) in *. pose proof (usable_nonempty _ Hu) as Hh.
  unfold mutateSecret, credentials. fold (password_of view) (hash_of view). rewrite Vp, Vh, Vown, Vns, Vname.
  rewrite (bool_decide_eq_false_2 (password_of new = [])), (bool_decide_eq_false_2 (hash_of new = [])),
    (bool_decide_eq_true_2 _ Hrot), Hu by done. cbn [negb orb].
  rewrite Hmeta. cbn [new OwnerReferences]. rewrite (set_owner_again _ _ _ Eo).
  destruct (AccountSecret_data account username p h ep (Namespace (g_meta gw))) as (_ & E2 & E3).
  unfold password_of, hash_of, new in *. cbn [s_Data s_Namespace s_Name] in *. rewrite E2, E3.
  unfold AccountSecret, accountSecretLabels. by rewrite Hmeta, Hspec.
Qed.

(** What one run of [reconcileSecret] writes. *)
Lemma reconcileSecret_outcome account gw username s :
  exists es, effects (reconcileSecret account gw username s).2 = effects s ++ es /\
    (calls s <= calls (reconcileSecret account gw username s).2)%nat /\
    (es = [] \/ exists t t' ep old new,
       let key := (Namespace (a_meta account), ref_Name (SecretRef (a_spec account))) in
       es = [WroteSecret key new] /\ mutateSecret t account gw username ep old = Ok new /\
       (api_CachedSecret t' key = Found old \/
        api_CachedSecret t' key = NotFound /\ old = mkSecret key.1 key.2 ∅ [] ∅ []) /\
       (reconcileSecret account gw username s).1 = Ok tt).
Proof.
  unfold reconcileSecret. destruct (GatewayConfig _) as [cfg|e].
  2: { exists []. rewrite app_nil_r. cbn. eauto. }
  unfold kbind, call, kret. cbn [calls effects].
  match goal with |- context [createOrUpdate ?g ?e ?m ?w ?s1] =>
    pose proof (createOrUpdate_outcome g e m w s1) as (t & es & Ht & He & Hc & Ho);
    destruct (createOrUpdate g e m w s1) as [r s2] end.
  cbn [calls effects fst snd] in *. exists es.
  inversion Ho; subst; cbn [fst snd]; (split_and!; [done|lia|]); try by left.
  all: right; exists (calls s), t, (GatewayEndpoint gw cfg); eexists _, _;
    split_and!; [reflexivity|eassumption|by eauto|done].
Qed.

(** Provisioning again an account whose Secret was written. *)
Lemma reconcileSecret_again account account' gw username s s1 key secret view :
  reconcileSecret account gw username s = (Ok tt, s1) ->
  effects s1 = effects s ++ [WroteSecret key secret] ->
  a_meta account' = a_meta account -> a_spec account' = a_spec account ->
  RotationObserved (a_status account') = Rotation (a_spec account') ->
  shows view secret ->
  (forall n, (calls s1 <= n)%nat -> api_CachedSecret n key = Found view) ->
  exists r s2, reconcileSecret account' gw username s1 = (r, s2) /\
    ((view = secret /\ r = Ok tt /\ effects s2 = effects s1) \/
     (view <> secret /\ r = Ok tt /\ effects s2 = effects s1 ++ [WroteSecret key secret]) \/
     (view <> secret /\ (exists e, r = Err e) /\ effects s2 = effects s1)).
Proof.
  intros Erun Heff Hmeta Hspec Hrot Hview Hstable.
  unfold reconcileSecret in *. destruct (GatewayConfig _) as [cfg|e]; [|done].
  unfold kbind, call, kret in *. cbn [calls effects] in *.
  match type of Erun with context [createOrUpdate ?g ?e ?m ?w ?c] =>
    pose proof (createOrUpdate_outcome g e m w c) as (t & es & Ht & He & _ & Ho);
    destruct (createOrUpdate g e m w c) as [r s0] end.
  cbn [calls effects fst snd] in *. destruct r as [o|e]; [|done]. injection Erun as ->.
  rewrite Heff in He. apply app_inv_head in He. subst es. rewrite Hmeta, Hspec.
  assert (exists old, mutateSecret (calls s) account gw username (GatewayEndpoint gw cfg) old = Ok secret /\
    key = (Namespace (a_meta account), ref_Name (SecretRef (a_spec account)))) as (old & Hm & ->).
  { inversion Ho; subst; eauto. }
  match goal with |- context [createOrUpdate ?g ?e ?m ?w ?c] =>
    pose proof (createOrUpdate_outcome g e m w c) as (t2 & es2 & Ht2 & He2 & _ & Ho2);
    destruct (createOrUpdate g e m w c) as [r2 s2] end.
  cbn [calls effects fst snd] in *. rewrite (Hstable t2) in Ho2 by lia.
  pose proof (mutateSecret_again _ (calls s1) _ account' _ _ _ _ _ _ Hm Hview Hmeta Hspec Hrot) as Hagain.
  inversion Ho2; subst; rewrite Hagain in *; simplify_eq; rewrite ?app_nil_r in He2.
  - exists (Ok tt), s2. eauto.
  - exists (Ok tt), s2. split; [done|]. right; left. done.
  - exists (Err (EWrap (lit "reconcile account secret") e)), s2. split; [done|]. right; right. eauto.
Qed.

(** C28: provisioning settles. Once a reconciliation wrote an account's Secret
    and the status says the rotation was observed, reconciling the account again
    never changes what the Secret holds: against a client that shows the Secret
    as it was written it succeeds and writes nothing, and against the operator's
    trimmed cache whatever it writes is the same Secret. *)
Theorem provisioning_settles (account account' : MailoutAccount) (gw : MailoutGateway)
    (username : bytes) (s s1 : Calls) (key : ObjectKey) (secret view : Secret) :
  reconcileSecret account gw username s = (Ok tt, s1) ->
  effects s1 = effects s ++ [WroteSecret key secret] ->
  a_meta account' = a_meta account -> a_spec account' = a_spec account ->
  RotationObserved (a_status account') = Rotation (a_spec account') ->
  view = secret \/ view = Cache.keepOnlyCredentialKeys secret ->
  (forall n, (calls s1 <= n)%nat -> api_CachedSecret n key = Found view) ->
  writes (λ e, e = WroteSecret key secret) s1 (reconcileSecret account' gw username s1).2 /\
  (view = secret -> (reconcileSecret account' gw username s1).1 = Ok tt /\
     effects (reconcileSecret account' gw username s1).2 = effects s1).
Proof.
  intros Erun Heff Hmeta Hspec Hrot Hview Hstable.
  assert (Hshows : shows view secret) by (destruct Hview as [->| ->]; [apply shows_refl|apply shows_cached]).
  destruct (reconcileSecret_again _ account' _ _ _ _ _ _ _ Erun Heff Hmeta Hspec Hrot Hshows Hstable)
    as (r & s2 & -> & [(-> & -> & E)|[(Hne & -> & E)|(Hne & _ & E)]]); cbn [fst snd].
  - split; [by apply writes_refl|done].
  - split; [by eapply writes_one|done].
  - split; [by apply writes_refl|done].
Qed.

(** A limit of the trimmed cache: every reconciliation of a provisioned
    account sends its Secret again. The cached form lacks the username and the
    endpoint, so it never equals the Secret desired, and the change detection of
    [CreateOrUpdate] never finds it unchanged. *)
Theorem cache_defeats_change_detection (account account' : MailoutAccount) (gw : MailoutGateway)
    (username : bytes) (s s1 s2 : Calls) (key : ObjectKey) (secret : Secret) :
  reconcileSecret account gw username s = (Ok tt, s1) ->
  effects s1 = effects s ++ [WroteSecret key secret] ->
  a_meta account' = a_meta account -> a_spec account' = a_spec account ->
  RotationObserved (a_status account') = Rotation (a_spec account') ->
  (forall n, (calls s1 <= n)%nat -> api_CachedSecret n key = Found (Cache.keepOnlyCredentialKeys secret)) ->
  reconcileSecret account' gw username s1 = (Ok tt, s2) ->
  effects s2 = effects s1 ++ [WroteSecret key secret].
Proof.
  intros Erun Heff Hmeta Hspec Hrot Hstable Eagain.
  destruct (reconcileSecret_again _ account' _ _ _ _ _ _ _ Erun Heff Hmeta Hspec Hrot (shows_cached secret) Hstable)
    as (r & s2' & E' & Hcase). rewrite Eagain in E'. injection E' as <- <-.
  destruct Hcase as [(Heq & _)|[(_ & _ & E)|(_ & [e He] & _)]]; [|done|done].
  exfalso. destruct (reconcileSecret_outcome account gw username s) as (es & He & _ & Hes).
  rewrite Erun in He. cbn [snd] in He. rewrite Heff in He. apply app_inv_head in He. subst es.
  destruct Hes as [?|(t & t' & ep & old & new & Ew & Hm & _)]; [done|]. injection Ew as _ <-.
  apply mutateSecret_spec in Hm as (p & h & owners & _ & _ & ->).
  apply (f_equal (λ x, s_Data x !! BasicAuthUsernameKey)) in Heq. rewrite trimmed_lookup in Heq.
  vm_compute in Heq. done.
Qed.

(** A Secret is written only where [P] holds. *)
Definition secrets (P : ObjectKey -> Secret -> Prop) (e : effect) : Prop :=
  match e with WroteSecret k secret => P k secret | _ => True end.

Lemma writes_patch P account st s : writes (secrets P) s (patchStatus account st s).2.
Proof.
  unfold patchStatus, kbind, call, emit, kret. cbn. destruct (api_Write _) as [e|]; cbn;
    [by apply writes_refl|by eapply writes_one].
Qed.

(** The account, its gateway and the accounts of the cluster as a reconciliation
    that provisions [account] found them. *)
Definition provisionable (key : ObjectKey) (account : MailoutAccount) (gw : MailoutGateway) : Prop :=
  exists items t1 t2 t3,
    api_Account t1 key = Found account /\
    api_Gateway t2 (GatewayNamespaceFor account OperatorNamespace,
                    gr_Name (GatewayRef (a_spec account))) = Found gw /\
    accepts gw (Namespace (a_meta account)) /\
    api_Accounts t3 = Ok items /\
    (forall other, other ∈ items -> key_of other <> key_of account ->
       claims OperatorNamespace gw (UsernameFor account) other -> older other account = false).

(** A reconciliation writes no Secret but the mutation of the account's. *)
Lemma Reconcile_writes (P : ObjectKey -> Secret -> Prop) (key : ObjectKey) (s : Calls) :
  (forall account gw t t' ep old new,
     let k := (Namespace (a_meta account), ref_Name (SecretRef (a_spec account))) in
     provisionable key account gw -> mutateSecret t account gw (UsernameFor account) ep old = Ok new ->
     (api_CachedSecret t' k = Found old \/ old = mkSecret k.1 k.2 ∅ [] ∅ []) -> P k new) ->
  writes (secrets P) s (Reconcile OperatorNamespace key s).2.
Proof.
  intros HP. unfold Reconcile, markNotAccepted, markReady. run_api.
  destruct (api_Account (calls s) key) as [account| |e] eqn:Ea; [|by apply writes_refl..].
  destruct (api_Gateway _ _) as [gw| |e] eqn:Eg; [| |by apply writes_refl].
  2: by eapply writes_trans; [|apply writes_patch]; apply writes_refl.
  match goal with |- context [namespaceAllowed gw ?n ?c] =>
    destruct (namespaceAllowed gw n c) as [allowed s1] eqn:En end.
  apply namespaceAllowed_spec in En as [Ee Haccept]. cbn [effects] in Ee.
  eapply writes_trans; [by apply (writes_refl _ s s1)|].
  destruct allowed as [[]|e]; [| |by apply writes_refl]; cbn [negb]; [|apply writes_patch].
  unfold usernameConflict. run_api.
  destruct (api_Accounts _) as [items|e] eqn:El; [|by apply writes_refl].
  destruct (decide (holder OperatorNamespace account gw (UsernameFor account) items = [])) as [Eh|Eh].
  2: { rewrite (bool_decide_eq_false_2 _ Eh). cbn [negb].
       by eapply writes_trans; [|apply writes_patch]; apply writes_refl. }
  rewrite (bool_decide_eq_true_2 _ Eh). cbn [negb]. pose proof (proj1 (holder_nil _ _ _ _ _) Eh) as Hold.
  match goal with |- context [reconcileSecret account gw ?u ?c] =>
    pose proof (reconcileSecret_outcome account gw u c) as (es & He & _ & Hes);
    destruct (reconcileSecret account gw u c) as [r s2] end.
  cbn [fst snd effects] in *.
  eapply (writes_trans _ s1 s2); [|by destruct r; [apply writes_patch|apply writes_refl]].
  exists es. split; [done|].
  destruct Hes as [->|(t & t' & ep & old & new & -> & Hm & Hold' & _)]; [done|]. apply Forall_singleton.
  apply (HP account gw t t' ep old new); [|done|by destruct Hold' as [?|[_ ?]]; auto].
  exists items, (calls s), (S (calls s)), (calls s1). split_and!; try done. by apply Haccept.
Qed.

(** What a Secret write says of the account it was written for. *)
Definition rightful (key : ObjectKey) (k : ObjectKey) (secret : Secret) : Prop :=
  exists account gw, provisionable key account gw /\
    k = (Namespace (a_meta account), ref_Name (SecretRef (a_spec account))) /\
    at_key (s_Data secret) BasicAuthUsernameKey = UsernameFor account /\ complete secret.

(** C14: only the rightful account gets credentials. Whatever the API server
    answers, a reconciliation writes at most the Secret of the account it was
    asked about, and only when that account exists, its gateway exists and
    accepts the account's namespace, and no older account claims the username on
    that gateway; the Secret carries the username and complete credentials. *)
Theorem secrets_go_to_rightful_accounts (key : ObjectKey) (s : Calls) :
  writes (secrets (rightful key)) s (Reconcile OperatorNamespace key s).2.
Proof.
  apply Reconcile_writes. intros account gw t t' ep old new k Hprov Hm _.
  destruct (mutateSecret_data _ _ _ _ _ _ _ Hm) as [Hu Ec]. apply credentials_spec in Ec as (? & ? & _).
  exists account, gw. by split_and!.
Qed.
End Secrets.

(** ** Witnesses *)

#[local] Existing Instance matchLabels.
#[local] Existing Instance sorter_by.
#[local] Existing Instance toy_bcrypt.
#[local] Existing Instance toy_random.
#[local] Existing Instance updater_ok.
#[local] Existing Instance updater_ok_sound.
#[local] Existing Instance owner_add.
#[local] Existing Instance owner_add_sound.
#[local] Existing Instance condition_replace.

(** Two accounts that ask for one username, created in the same second. *)
Definition demo_claimant (ns uid : bytes) : MailoutAccount :=
  mkMailoutAccount (mkMeta (lit "app") ns uid 0 1)
    (mkAccountSpec (mkGatewayRef (lit "relay") []) (lit "billing") (mkRef (lit "creds")) (lit "r1") [] None false)
    (mkAccountStatus [] 0 [] [] [] []).

Definition demo_claimants : list MailoutAccount :=
  [demo_claimant (lit "shop") (lit "u7"); demo_claimant (lit "blog") (lit "u3")].

Definition demo_endpoint : Endpoint :=
  match GatewayConfig (mkInput (Some demo_gw) [] [] [] [] (mkCreds [] [] [] [] []) []) with
  | Ok cfg => GatewayEndpoint demo_gw cfg
  | Err _ => mkEndpoint [] 0 []
  end.

Definition demo_empty : Secret := mkSecret (lit "blog") (lit "creds") ∅ [] ∅ [].

Definition demo_secret : Secret :=
  match mutateSecret 0 (demo_claimant (lit "blog") (lit "u3")) demo_gw (lit "billing") demo_endpoint demo_empty with
  | Ok s => s
  | Err _ => demo_empty
  end.

(** The Secret is there from the third call on. *)
Definition demo_server : ApiServer := {|
  api_Namespace _ _ := Found None;
  api_Gateway _ _ := Found demo_gw;
  api_Account _ key := Found (demo_claimant key.1 (lit "u3"));
  api_Secret n _ := if (n <=? 1)%nat then NotFound else Found demo_secret;
  api_CachedSecret n _ := if (n <=? 1)%nat then NotFound else Found (Cache.keepOnlyCredentialKeys demo_secret);
  api_Accounts _ := Ok demo_claimants;
  api_Service _ _ := NotFound;
  api_Certificate _ _ := NotFound;
  api_ServiceMonitor _ _ := NotFound;
  api_Deployment _ _ := NotFound;
  api_NetworkPolicy _ _ := NotFound;
  api_Write _ := None;
  api_Delete _ _ := NotFound
|}.
#[local] Existing Instance demo_server.

Lemma one_account_witness :
  exists a, a ∈ demo_claimants /\ claims (lit "mailout-system") demo_gw (lit "billing") a.
Proof.
  destruct (one_account_holds_a_username (lit "mailout-system") demo_claimants demo_gw (lit "billing"))
    as (a & Ha & Ca & _).
  - apply (bool_decide_unpack _). by vm_compute.
  - apply (bool_decide_unpack _). by vm_compute.
  - exists (demo_claimant (lit "shop") (lit "u7")). split; [by left|]. done.
  - by exists a.
Defined.

Lemma password_kept_witness : complete demo_secret.
Proof.
  apply (password_is_kept_until_rotated 0 (demo_claimant (lit "blog") (lit "u3")) demo_gw (lit "billing")
    demo_endpoint demo_empty demo_secret).
  reflexivity.
Defined.

(** The same account once its rotation was observed. *)
Definition demo_settled : MailoutAccount :=
  mkMailoutAccount (a_meta (demo_claimant (lit "blog") (lit "u3"))) (a_spec (demo_claimant (lit "blog") (lit "u3")))
    (mkAccountStatus [] 0 [] [] [] (lit "r1")).

Definition demo_provisioned : Calls :=
  mkCalls 2 [WroteSecret (lit "blog", lit "creds") demo_secret].

Lemma settles_witness :
  writes (λ e, e = WroteSecret (lit "blog", lit "creds") demo_secret) demo_provisioned
    (reconcileSecret demo_settled demo_gw (lit "billing") demo_provisioned).2.
Proof.
  apply (provisioning_settles (demo_claimant (lit "blog") (lit "u3")) demo_settled demo_gw (lit "billing")
    calls0 demo_provisioned (lit "blog", lit "creds") demo_secret (Cache.keepOnlyCredentialKeys demo_secret));
    try reflexivity; [by right|].
  intros [|[|n]] Hn; [cbn in Hn; lia..|]. reflexivity.
Defined.

Lemma change_detection_witness : exists s2,
  reconcileSecret demo_settled demo_gw (lit "billing") demo_provisioned = (Ok tt, s2) /\
  effects s2 = effects demo_provisioned ++ [WroteSecret (lit "blog", lit "creds") demo_secret].
Proof.
  destruct (reconcileSecret demo_settled demo_gw (lit "billing") demo_provisioned) as [r s2] eqn:E.
  assert (Hr : r = Ok tt) by exact (f_equal fst (eq_sym E)).
  subst r. exists s2. split; [done|].
  refine (cache_defeats_change_detection (demo_claimant (lit "blog") (lit "u3")) demo_settled demo_gw (lit "billing")
    calls0 demo_provisioned s2 (lit "blog", lit "creds") demo_secret _ _ _ _ _ _ E); try reflexivity.
  intros [|[|n]] Hn; [cbn in Hn; lia..|]. reflexivity.
Defined.

Lemma rightful_witness :
  writes (secrets (rightful (lit "mailout-system") (lit "blog", lit "app"))) calls0
    (Reconcile (lit "mailout-system") (lit "blog", lit "app") calls0).2 /\
  length (effects (Reconcile (lit "mailout-system") (lit "blog", lit "app") calls0).2) = 2%nat.
Proof.
  split; [apply (secrets_go_to_rightful_accounts (lit "mailout-system") (lit "blog", lit "app") calls0)|].
  by vm_compute.
Defined.
