(* ===== verification/GatewayController.v ===== *)
(** * GatewayController: one gateway into a running relay

    Models [src/internal/controller/gateway_controller.go]: the accounts a
    gateway serves, the credentials it resolves, its metrics token, the objects
    it keeps (certificate, configuration Secret, Services, network policy,
    ServiceMonitor, Deployment), its status, and the mapping of events back to a
    gateway. [FitAccounts] works on the configuration in place, so the step that
    publishes it returns the configuration the later steps see. The text of an
    error is a parameter. *)

From S2P Require Import Prelude Unicode GoStrings GoNet Policy Passwords Config.
From S2P Require Import Api Access Render Webhook Objects Cache Controllerutil AccountController.
Import Access Render Objects Passwords Cache AccountController.
#[local] Open Scope Z_scope.
#[local] Set Default Proof Using "Type*".

(** [Error()] of the errors a status reports. *)
Class ErrorText := {
  Error : goerror -> bytes;
  ErrorOfProblems : list problem -> bytes
}.

Module GatewayController.

Record GatewayReconciler := mkGatewayReconciler {
  OperatorNamespace : bytes;
  GatewayImage : bytes;
  CertManagerAvailable : bool;
  PrometheusOperatorAvailable : bool
}.

Section Ops.
Context `{Unicode, ApiServer, Sorter, Yaml, Sha256, Random, ErrorText}.
Context `{!CreateOrUpdater, OwnerReferencer, ConditionSetter}.

(** ** Accounts *)

Definition serves (r : GatewayReconciler) (gw : MailoutGateway) (account : MailoutAccount) : bool :=
  negb ((GatewayNamespaceFor account (OperatorNamespace r) <>b Namespace (g_meta gw)) ||
        (gr_Name (GatewayRef (a_spec account)) <>b Name (g_meta gw))).

Definition resolved (account : MailoutAccount) (hash : bytes) (senders : list bytes) : Render.Account :=
  mkRAccount (UsernameFor account) hash (as_Disabled (a_spec account)) senders
    (match EnforceHeaderFrom (a_spec account) with Some b => negb b | None => false end).

(** One turn of the loop: [None] is [continue]. *)
Definition collectOne (r : GatewayReconciler) (gw : MailoutGateway) (account : MailoutAccount)
    : K (result (option Render.Account)) :=
  if negb (serves r gw account) then kret (Ok None)
  else
    try allowed <- namespaceAllowed gw (Namespace (a_meta account));
    if negb allowed then kret (Ok None)
    else
      let key := (Namespace (a_meta account), ref_Name (SecretRef (a_spec account))) in
      do s <- GetCachedSecret key;
      match s with
      | Failed e => kret (Err (EWrap (lit "get secret " ++ key_text key) e))
      | NotFound => kret (Ok None)
      | Found secret =>
          let hash := at_key (s_Data secret) PasswordHashKey in
          if hash =b [] then kret (Ok None)
          else
            try g <- grantedSenders gw (Namespace (a_meta account)) None;
            let '(granted, _) := g in
            let senders := (Policy.GrantedSubset granted (as_AllowedSenders (a_spec account))).1 in
            kret (Ok (Some (resolved account hash senders)))
      end.

Fixpoint collectLoop (r : GatewayReconciler) (gw : MailoutGateway) (items : list MailoutAccount)
    (accounts : list Render.Account) : K (result (list Render.Account)) :=
  match items with
  | [] => kret (Ok accounts)
  | account :: rest =>
      try one <- collectOne r gw account;
      collectLoop r gw rest (match one with Some a => accounts ++ [a] | None => accounts end)
  end.

Definition collectAccounts (r : GatewayReconciler) (gw : MailoutGateway)
    : K (result (list Render.Account)) :=
  do l <- ListAccounts;
  match l with
  | Err e => kret (Err (EWrap (lit "list accounts") e))
  | Ok items => collectLoop r gw items []
  end.

(** ** Credentials the gateway points at *)

(** A Secret of the gateway's namespace, past the cache. *)
Definition readSecret (gw : MailoutGateway) (name what : bytes) : K (result Secret) :=
  let key := (Namespace (g_meta gw), name) in
  do s <- GetSecret key;
  match s with
  | Found secret => kret (Ok secret)
  | NotFound => kret (Err (EWrap (what ++ lit " Secret " ++ key_text key) errNotFound))
  | Failed e => kret (Err (EWrap (what ++ lit " Secret " ++ key_text key) e))
  end.

Definition missingKey (gw : MailoutGateway) (name what key : bytes) : goerror :=
  EText (what ++ lit " Secret " ++ key_text (Namespace (g_meta gw), name) ++ lit " has no " ++ key ++ lit " key").

(** A CA under the reference's key, ca.crt by default. *)
Definition readCA (gw : MailoutGateway) (ref : SecretKeySelector) (what : bytes) : K (result bytes) :=
  try secret <- readSecret gw (sel_Name ref) what;
  let caKey := if sel_Key ref =b [] then lit "ca.crt" else sel_Key ref in
  let pem := at_key (s_Data secret) caKey in
  if pem =b [] then kret (Err (missingKey gw (sel_Name ref) what caKey)) else kret (Ok pem).

(** The closure [read] of [resolveRateLimitSecrets]. *)
Definition readStoreAuth (gw : MailoutGateway) (ref : option LocalObjectReference) (what : bytes)
    : K (result (bytes * bytes)) :=
  match ref with
  | None => kret (Ok ([], []))
  | Some ref =>
      try secret <- readSecret gw (ref_Name ref) what;
      let password := at_key (s_Data secret) BasicAuthPasswordKey in
      if password =b [] then kret (Err (missingKey gw (ref_Name ref) what BasicAuthPasswordKey))
      else kret (Ok (at_key (s_Data secret) BasicAuthUsernameKey, password))
  end.

Definition resolveRateLimitSecrets (gw : MailoutGateway) (input : Input) : K (result Input) :=
  match gs_RateLimit (g_spec gw) with
  | None => kret (Ok input)
  | Some rl =>
      let store := rl_Store rl in
      try auth <- readStoreAuth gw (rs_AuthSecretRef store) (lit "rate limit store auth");
      try sentinel <- readStoreAuth gw (SentinelAuthSecretRef store) (lit "rate limit store sentinel auth");
      try ca <- (match rs_TLS store with
                 | Some tls =>
                     match rt_CASecretRef tls with
                     | Some ref => readCA gw ref (lit "rate limit store CA")
                     | None => kret (Ok (CAPEM (in_RateLimitStore input)))
                     end
                 | None => kret (Ok (CAPEM (in_RateLimitStore input)))
                 end);
      kret (Ok (mkInput (Gateway input) (in_Accounts input) (UpstreamUsername input) (UpstreamPassword input)
                  (UpstreamCAPEM input) (mkCreds auth.1 auth.2 sentinel.1 sentinel.2 ca) (MetricsToken input)))
  end.

Definition resolveSecrets (gw : MailoutGateway) (input : Input) : K (result Input) :=
  try auth <- (match AuthSecretRef (gs_Upstream (g_spec gw)) with
               | None => kret (Ok (UpstreamUsername input, UpstreamPassword input))
               | Some ref =>
                   try secret <- readSecret gw (ref_Name ref) (lit "upstream auth");
                   let username := at_key (s_Data secret) BasicAuthUsernameKey in
                   if username =b [] then
                     kret (Err (missingKey gw (ref_Name ref) (lit "upstream auth") (lit "username")))
                   else kret (Ok (username, at_key (s_Data secret) BasicAuthPasswordKey))
               end);
  try ca <- (match CASecretRef (gs_Upstream (g_spec gw)) with
             | None => kret (Ok (UpstreamCAPEM input))
             | Some ref => readCA gw ref (lit "upstream CA")
             end);
  resolveRateLimitSecrets gw
    (mkInput (Gateway input) (in_Accounts input) auth.1 auth.2 ca (in_RateLimitStore input) (MetricsToken input)).

(** The token in service, or a new one. *)
Definition metricsToken (gw : MailoutGateway) : K (result bytes) :=
  let key := (Namespace (g_meta gw), ConfigSecretName (Name (g_meta gw))) in
  do s <- GetSecret key;
  let generate :=
    do t <- call;
    match GeneratePassword t with
    | Err e => kret (Err (EWrap (lit "generate metrics token") e))
    | Ok token => kret (Ok token)
    end in
  match s with
  | Found secret =>
      let token := at_key (s_Data secret) MetricsTokenKey in
      if token <>b [] then kret (Ok token) else generate
  | NotFound => generate
  | Failed e => kret (Err (EWrap (lit "get configuration secret " ++ key_text key) e))
  end.

(** ** Objects *)

(** The gateway, as the owner of what it keeps. *)
Definition owner (gw : MailoutGateway) : bytes * bytes := (lit "MailoutGateway", Name (g_meta gw)).

(** A mutation of an object that ends in [SetControllerReference]. *)
Definition owning {T} (gw : MailoutGateway) (f : T -> T) (o : owned T) : result (owned T) :=
  match SetControllerReference (owner gw) o.2 with
  | Err e => Err e
  | Ok owners => Ok (f o.1, owners)
  end.

(** [CreateOrUpdate] of an object the gateway owns, its error wrapped. *)
Definition keepObject {T} `{EqDecision T} (gw : MailoutGateway) (what : bytes) (get : nat -> reply (owned T))
    (empty : T) (f : T -> T) (written : owned T -> effect) : K (result T) :=
  do r <- createOrUpdate get (empty, []) (owning gw f) written;
  match r with
  | Err e => kret (Err (EWrap (lit "reconcile " ++ what) e))
  | Ok o => kret (Ok o.1)
  end.

Definition reconcileCertificate (r : GatewayReconciler) (gw : MailoutGateway) : K (result unit) :=
  match CertificateFor gw with
  | None => kret (Ok tt)
  | Some desired =>
      if negb (CertManagerAvailable r) then
        kret (Err (EText (lit "spec.tls.issuerRef needs cert-manager, whose CRDs are not installed")))
      else
        try _ <- keepObject gw (lit "certificate")
          (λ n, api_Certificate n (crt_Namespace desired, crt_Name desired))
          (mkCertificateObject (crt_Name desired) (crt_Namespace desired) ∅
             (mkCertificateSpec [] [] [] (mkIssuer [] [] [])))
          (λ cert, mkCertificateObject (crt_Name cert) (crt_Namespace cert) (crt_Labels desired)
                     (crt_Spec desired))
          WroteCertificate;
        kret (Ok tt)
  end.

Definition mutateConfigSecret (gw : MailoutGateway) (desired secret : Secret) : result Secret :=
  match SetControllerReference (owner gw) (OwnerReferences secret) with
  | Err e => Err e
  | Ok owners => Ok (mkSecret (s_Namespace secret) (s_Name secret) (s_Labels desired) (s_Type desired)
                       (s_Data desired) owners)
  end.

(** Publishes the configuration; returns it as [FitAccounts] left it. *)
Definition reconcileConfigSecret (gw : MailoutGateway) (cfg : Config.Config) : K (result Config.Config) :=
  let cfg := (FitAccounts cfg ConfigBudget).2 in
  match yaml_Config cfg with
  | Err e => kret (Err (EWrap (lit "marshal configuration") e))
  | Ok rendered =>
      let desired := ConfigSecret gw rendered (Token cfg) in
      let key := (s_Namespace desired, s_Name desired) in
      do r <- createOrUpdate (λ n, api_CachedSecret n key) (mkSecret key.1 key.2 ∅ [] ∅ [])
                (mutateConfigSecret gw desired) (WroteSecret key);
      match r with
      | Err e => kret (Err (EWrap (lit "reconcile configuration secret") e))
      | Ok _ => kret (Ok cfg)
      end
  end.

Definition emptyService (name ns : bytes) : Service := mkService name ns ∅ ∅ ∅ [] [] [].

Definition reconcileService (gw : MailoutGateway) (cfg : Config.Config) : K (result unit) :=
  let desired := ServiceFor gw cfg in
  try _ <- keepObject gw (lit "service") (λ n, api_Service n (svc_Namespace desired, svc_Name desired))
    (emptyService (svc_Name desired) (svc_Namespace desired))
    (λ svc, mkService (svc_Name svc) (svc_Namespace svc) (svc_Labels desired) (svc_Annotations desired)
              (svc_Selector desired) (svc_Type desired) (svc_Ports desired) (ClusterIP svc))
    WroteService;
  kret (Ok tt).

Definition reconcileMetricsNetworkPolicy (gw : MailoutGateway) (cfg : Config.Config) : K (result unit) :=
  match MetricsNetworkPolicy gw cfg with
  | None =>
      let stale := (Namespace (g_meta gw), MetricsNetworkPolicyName (Name (g_meta gw))) in
      do t <- call;
      match api_Delete t stale with
      | Found _ => do _ <- emit (DeletedNetworkPolicy stale); kret (Ok tt)
      | NotFound => kret (Ok tt)
      | Failed e => kret (Err (EWrap (lit "remove metrics network policy") e))
      end
  | Some desired =>
      try _ <- keepObject gw (lit "metrics network policy")
        (λ n, api_NetworkPolicy n (npol_Namespace desired, npol_Name desired))
        (mkNetworkPolicy (npol_Name desired) (npol_Namespace desired) ∅ ∅ [] [])
        (λ policy, mkNetworkPolicy (npol_Name policy) (npol_Namespace policy) (npol_Labels desired)
                     (npol_PodSelector desired) (PolicyTypes desired) (Ingress desired))
        WroteNetworkPolicy;
      kret (Ok tt)
  end.

Definition reconcileMetrics (r : GatewayReconciler) (gw : MailoutGateway) (cfg : Config.Config)
    : K (result unit) :=
  let desired := MetricsService gw in
  try _ <- keepObject gw (lit "metrics service")
    (λ n, api_Service n (svc_Namespace desired, svc_Name desired))
    (emptyService (svc_Name desired) (svc_Namespace desired))
    (λ svc, mkService (svc_Name svc) (svc_Namespace svc) (svc_Labels desired) (svc_Annotations svc)
              (svc_Selector desired) (svc_Type desired) (svc_Ports desired) (ClusterIP svc))
    WroteService;
  try _ <- reconcileMetricsNetworkPolicy gw cfg;
  if negb (PrometheusOperatorAvailable r) then kret (Ok tt)
  else
    let desiredMonitor := ServiceMonitorFor gw in
    try _ <- keepObject gw (lit "service monitor")
      (λ n, api_ServiceMonitor n (sm_Namespace desiredMonitor, sm_Name desiredMonitor))
      (mkServiceMonitor (sm_Name desiredMonitor) (sm_Namespace desiredMonitor) ∅
         (mkMonitorSpec ∅ (mkMonitorNamespaces false []) [] []))
      (λ monitor, mkServiceMonitor (sm_Name monitor) (sm_Namespace monitor) (sm_Labels desiredMonitor)
                    (sm_Spec desiredMonitor))
      WroteServiceMonitor;
    kret (Ok tt).

Definition gatewayImage (r : GatewayReconciler) (gw : MailoutGateway) : bytes :=
  if Image (gs_Deployment (g_spec gw)) <>b [] then Image (gs_Deployment (g_spec gw)) else GatewayImage r.

Definition emptyDeployment (name ns : bytes) : Deployment :=
  mkDeployment name ns ∅ None None emptyTemplate 0.

(** The selector is set on creation only; the status is the API server's. *)
Definition mutateDeployment (desired deployment : Deployment) : Deployment :=
  mkDeployment (dep_Name deployment) (dep_Namespace deployment) (dep_Labels desired) (dep_Replicas desired)
    (match dep_Selector deployment with None => dep_Selector desired | Some s => Some s end)
    (Template desired) (AvailableReplicas deployment).

(** A panic, as the value the run stops with. *)
Definition EPanic : goerror := EText (lit "panic: index out of range").

Definition reconcileDeployment (r : GatewayReconciler) (gw : MailoutGateway) (cfg : Config.Config)
    : K (result Deployment) :=
  match DeploymentFor gw cfg (gatewayImage r gw) with
  | None => kret (Err EPanic)
  | Some desired =>
      keepObject gw (lit "deployment") (λ n, api_Deployment n (dep_Namespace desired, dep_Name desired))
        (emptyDeployment (dep_Name desired) (dep_Namespace desired)) (mutateDeployment desired) WroteDeployment
  end.

(** ** Status *)

Definition patchGatewayStatus (gw : MailoutGateway) (status : MailoutGatewayStatus) : K (result unit) :=
  do t <- call;
  match api_Write t with
  | Some e => kret (Err e)
  | None =>
      do _ <- emit (PatchedGatewayStatus (Namespace (g_meta gw), Name (g_meta gw)) status);
      kret (Ok tt)
  end.

Definition updateStatus (gw : MailoutGateway) (cfg : Config.Config) (accounts : list Render.Account)
    (deployment : Deployment) : K (result unit) :=
  let gen := Generation (g_meta gw) in
  let conds := setCondition (gst_Conditions (g_status gw)) ConditionAccepted true ReasonAccepted
                 (lit "Gateway configuration is valid") gen in
  let conds :=
    if 0 <? AvailableReplicas deployment
    then setCondition conds ConditionReady true ReasonReady
           (itoa (AvailableReplicas deployment) ++ lit " replica(s) available") gen
    else setCondition conds ConditionReady false ReasonDeploymentNotReady
           (lit "Waiting for the gateway pods to become available") gen in
  patchGatewayStatus gw
    (mkGatewayStatus conds gen (wrap32 (zlen accounts)) (ListenerStatuses cfg) (Name (g_meta gw))).

Definition markFailed (gw : MailoutGateway) (reason message : bytes) : K (result unit) :=
  let st := g_status gw in
  let gen := Generation (g_meta gw) in
  let conds := setCondition (gst_Conditions st) ConditionAccepted false reason message gen in
  let conds := setCondition conds ConditionReady false reason message gen in
  patchGatewayStatus gw (mkGatewayStatus conds gen (AcceptedAccounts st) (gst_Listeners st) (ServiceName st)).

(** ** Reconciliation *)

(** A [ctrl.Result] is its only field in use, [RequeueAfter]: the nanoseconds
    after which the gateway is reconciled again; zero, [ctrl.Result{}], is not
    before an event. *)
Definition resyncInterval : Z := 300000000000.

(** [return ctrl.Result{}, err]. *)
Definition andStop (c : K (result unit)) : K (result Z) := try _ <- c; kret (Ok 0).

(** From a valid configuration on. *)
Definition publish (r : GatewayReconciler) (gw : MailoutGateway) (cfg : Config.Config)
    (accounts : list Render.Account) : K (result Z) :=
  try _ <- reconcileCertificate r gw;
  try cfg <- reconcileConfigSecret gw cfg;
  try _ <- reconcileService gw cfg;
  try _ <- reconcileMetrics r gw cfg;
  try deployment <- reconcileDeployment r gw cfg;
  try _ <- updateStatus gw cfg accounts deployment;
  kret (Ok resyncInterval).

Definition Reconcile (r : GatewayReconciler) (key : ObjectKey) : K (result Z) :=
  do g <- GetGateway key;
  match g with
  | NotFound => kret (Ok 0)
  | Failed e => kret (Err e)
  | Found gw =>
      if Namespace (g_meta gw) <>b OperatorNamespace r then
        andStop (markFailed gw ReasonInvalidSpec
          (lit "gateways are only served in the operator namespace (" ++ OperatorNamespace r ++ lit ")"))
      else
        try accounts <- collectAccounts r gw;
        do resolved <- resolveSecrets gw (mkInput (Some gw) accounts [] [] [] (mkCreds [] [] [] [] []) []);
        match resolved with
        | Err e => andStop (markFailed gw ReasonSecretMissing (Error e))
        | Ok input =>
            try token <- metricsToken gw;
            let input := mkInput (Gateway input) (in_Accounts input) (UpstreamUsername input)
                           (UpstreamPassword input) (UpstreamCAPEM input) (in_RateLimitStore input) token in
            match GatewayConfig input with
            | Err e => andStop (markFailed gw ReasonInvalidSpec (Error e))
            | Ok cfg =>
                let problems := Validate cfg in
                if bool_decide (problems = []) then publish r gw cfg accounts
                else andStop (markFailed gw ReasonInvalidSpec (ErrorOfProblems problems))
            end
        end
  end.

(** ** Events *)

Definition gatewayForAccountSecret (r : GatewayReconciler) (secret : Secret) : list ObjectKey :=
  let name := at_key (s_Labels secret) LabelGatewayName in
  if name =b [] then []
  else
    let namespace := at_key (s_Labels secret) LabelGatewayNamespace in
    [(if namespace =b [] then OperatorNamespace r else namespace, name)].

Definition gatewayForAccount (r : GatewayReconciler) (account : MailoutAccount) : list ObjectKey :=
  [(GatewayNamespaceFor account (OperatorNamespace r), gr_Name (GatewayRef (a_spec account)))].
End Ops.
End GatewayController.
Import GatewayController.

(** ** What is collected *)

Section Collected.
Context `{Unicode, ApiServer}.
Variable r : GatewayReconciler.

(** The labels of a namespace at some moment. *)
Definition labels_of (namespace : bytes) (ls : labels) : Prop :=
  exists n l, api_Namespace n namespace = Found l /\ ls = default ∅ l.

(** A grant of the gateway that applies to a namespace allows the address. *)
Definition granted_address (gw : MailoutGateway) (namespace addr : bytes) : Prop :=
  exists g, g ∈ gs_AllowedSenders (g_spec gw) /\
    (NamespaceSelector g = None \/ exists ls, labels_of namespace ls /\ applies g ls) /\
    Policy.allows (Policy.newSenderPolicy (Senders g)) addr = true.

(** Where a served account comes from: an account of this gateway, in a
    namespace it accepts, with the hash of its own Secret and senders within
    the namespace's grant. *)
Definition comes_from (gw : MailoutGateway) (account : MailoutAccount) (a : Render.Account) : Prop :=
  serves r gw account = true /\ accepts gw (Namespace (a_meta account)) /\
  ra_Username a = UsernameFor account /\ ra_Disabled a = as_Disabled (a_spec account) /\
  ra_PasswordHash a <> [] /\
  (exists n secret, api_CachedSecret n (Namespace (a_meta account), ref_Name (SecretRef (a_spec account)))
                      = Found secret /\ ra_PasswordHash a = hash_of secret) /\
  forall addr, Policy.allows (Policy.newSenderPolicy (ra_AllowedSenders a)) addr = true ->
    granted_address gw (Namespace (a_meta account)) addr.

Lemma granted_allows gw namespace granted ls s s' addr requested :
  grantedSenders gw namespace None s = (Ok (granted, ls), s') ->
  Policy.allows (Policy.newSenderPolicy (Policy.GrantedSubset granted requested).1) addr = true ->
  granted_address gw namespace addr.
Proof.
  intros (_ & _ & Hr)%grantedSenders_spec Hallow. destruct (Hr _ _ eq_refl) as [Hby Hls].
  apply Policy.allows_carries in Hallow as (g & (e & He & Hp) & Hu).
  destruct (Policy.within_under _ _ _ _ Hp (Policy.GrantedSubset_within _ _ _ _ He Hp) Hu)
    as (g' & (e' & He' & Hp') & Hu').
  apply Hby in He' as [?%not_elem_of_nil|(grant & Hin & Hs & Hm)]; [done|].
  exists grant. split_and!; [done| |].
  - destruct (NamespaceSelector grant) as [sel|]; [right|by left]. destruct Hm as (l & -> & Ha).
    exists l. split; [|done]. destruct Hls as (n & l0 & _ & En & ->). by exists n, l0.
  - apply Policy.allows_carries. exists g'. split; [|done]. by exists e'.
Qed.

Lemma collectOne_spec gw account s res s' :
  collectOne r gw account s = (res, s') ->
  effects s' = effects s /\ forall a, res = Ok (Some a) -> comes_from gw account a.
Proof.
  unfold collectOne. destruct (serves r gw account) eqn:Es; cbn [negb]; [|by intros [= <- <-]].
  run_api. destruct (namespaceAllowed gw _ s) as [[[]|e] s1] eqn:En;
    apply namespaceAllowed_spec in En as [E1 Hacc]; cbn [negb]; [|by intros [= <- <-]..].
  destruct (api_CachedSecret _ _) as [secret| |e] eqn:Ec; [|by intros [= <- <-]..].
  destruct (decide (at_key (s_Data secret) PasswordHashKey = [])) as [Eh|Eh];
    [rewrite (bool_decide_eq_true_2 _ Eh)|rewrite (bool_decide_eq_false_2 _ Eh)]; [by intros [= <- <-]|].
  match goal with |- context [grantedSenders gw ?n None ?c] =>
    destruct (grantedSenders gw n None c) as [[[granted ls]|e] s2] eqn:Eg end;
    pose proof (grantedSenders_spec _ _ _ _ _ Eg) as (E2 & _ & _); cbn [effects] in E2;
    intros [= <- <-]; (split; [congruence|]); [|done].
  intros a [= <-]. unfold resolved, comes_from. cbn [ra_Username ra_Disabled ra_PasswordHash ra_AllowedSenders].
  split_and!; try done; [by apply Hacc|by exists (calls s1), secret|].
  intros addr. by eapply granted_allows.
Qed.

(** The accounts collected, each from an item of the list. *)
Definition all_from (gw : MailoutGateway) (items : list MailoutAccount) (accounts : list Render.Account) : Prop :=
  forall a, a ∈ accounts -> exists account, account ∈ items /\ comes_from gw account a.

Lemma collectLoop_spec gw all items : forall accounts s res s',
  items ⊆ all -> all_from gw all accounts ->
  collectLoop r gw items accounts s = (res, s') ->
  effects s' = effects s /\ forall out, res = Ok out -> all_from gw all out.
Proof.
  induction items as [|x items IH]; intros accounts s res s' Hsub Hacc; cbn [collectLoop].
  { intros [= <- <-]. split; [done|]. by intros out [= <-]. }
  unfold kbind_ok, kbind, kret. destruct (collectOne r gw x s) as [[one|e] s1] eqn:E1;
    apply collectOne_spec in E1 as [He1 Hone]; [|by intros [= <- <-]].
  intros (He & Hout)%IH; [split; [congruence|done]|set_solver|].
  destruct one as [a|]; [|done]. intros b [Hb| ->%list_elem_of_singleton]%elem_of_app; [by apply Hacc|].
  exists x. split; [|by apply Hone]. apply Hsub. by left.
Qed.

Lemma collectAccounts_spec gw s res s' :
  collectAccounts r gw s = (res, s') ->
  effects s' = effects s /\
  forall accounts, res = Ok accounts -> exists n items, api_Accounts n = Ok items /\ all_from gw items accounts.
Proof.
  unfold collectAccounts. run_api. destruct (api_Accounts (calls s)) as [items|e] eqn:El; [|by intros [= <- <-]].
  intros (He & Hout)%(collectLoop_spec gw items); [|done|by intros a ?%not_elem_of_nil].
  split; [done|]. intros accounts E. exists (calls s), items. split; [done|by apply Hout].
Qed.
End Collected.

(** ** What is read *)

Section Resolved.
Context `{ApiServer, Random}.

Lemma reads_readSecret gw name what : reads_only (readSecret gw name what).
Proof. unfold readSecret, GetSecret. reads_tac. Qed.

Lemma reads_readCA gw ref what : reads_only (readCA gw ref what).
Proof. unfold readCA. apply reads_bind_ok; [apply reads_readSecret|]. intros a. reads_tac. Qed.

Lemma reads_readStoreAuth gw ref what : reads_only (readStoreAuth gw ref what).
Proof.
  unfold readStoreAuth. destruct ref; [|done]. apply reads_bind_ok; [apply reads_readSecret|].
  intros a. reads_tac.
Qed.

Lemma reads_resolveSecrets gw input : reads_only (resolveSecrets gw input).
Proof.
  unfold resolveSecrets, resolveRateLimitSecrets.
  repeat first [apply reads_readSecret | apply reads_readCA | apply reads_readStoreAuth | apply reads_ret
               | apply reads_bind_ok; [|intros ?] | case_match].
Qed.

Lemma reads_metricsToken gw : reads_only (metricsToken gw).
Proof. unfold metricsToken, GetSecret. reads_tac. Qed.

(** Resolution changes neither the gateway nor the accounts. *)
Lemma resolveSecrets_keeps gw input s input' s' :
  resolveSecrets gw input s = (Ok input', s') ->
  Gateway input' = Gateway input /\ in_Accounts input' = in_Accounts input.
Proof.
  unfold resolveSecrets, resolveRateLimitSecrets, kbind_ok, kbind, kret.
  repeat case_match; intros; simplify_eq; done.
Qed.
End Resolved.

(** ** What is published *)

Section FitShape.
Context `{Yaml, Sorter}.

Lemma keep_subset cfg dropped : keep cfg dropped ⊆ Accounts cfg.
Proof.
  intros a. unfold keep. rewrite list_elem_of_fmap. intros ((i & b) & -> & [_ Hin]%elem_of_bfilter).
  apply elem_of_lookup_imap in Hin as (j & x & [= _ ->] & Hl). by eapply list_elem_of_lookup_2.
Qed.

Lemma dropLoop_shape cfg budget order : forall dropped names,
  exists kept, (dropLoop cfg budget dropped names order).2 = with_accounts cfg kept /\ kept ⊆ Accounts cfg.
Proof.
  assert (Hown : exists kept, cfg = with_accounts cfg kept /\ kept ⊆ Accounts cfg)
    by (exists (Accounts cfg); by rewrite with_own).
  induction order as [|x order IH]; intros dropped names; cbn [dropLoop]; [done|].
  cbv zeta. destruct (marshalledSize _) as [size|]; [|done]. destruct (size <=? budget); [|apply IH].
  eexists. split; [reflexivity|apply keep_subset].
Qed.

(** Fitting drops accounts and touches nothing else. *)
Lemma FitAccounts_shape cfg budget :
  exists kept, (FitAccounts cfg budget).2 = with_accounts cfg kept /\ kept ⊆ Accounts cfg.
Proof.
  assert (Hown : exists kept, cfg = with_accounts cfg kept /\ kept ⊆ Accounts cfg)
    by (exists (Accounts cfg); by rewrite with_own).
  unfold FitAccounts. destruct (marshalledSize cfg) as [size|]; [|done].
  destruct (size <=? budget); [done|]. destruct (measure _ _); [|done]. apply dropLoop_shape.
Qed.
End FitShape.

Lemma Validate_accounts cfg kept : Validate (with_accounts cfg kept) = Validate cfg.
Proof. done. Qed.

Lemma Validate_listeners cfg : Validate cfg = [] -> Listeners cfg <> [].
Proof.
  intros Hv Hl. unfold Validate in Hv. rewrite Hl in Hv. cbn in Hv. done.
Qed.

Section Published.
Context `{Unicode, ApiServer, S : Sorter, !SorterSound S, Yaml, Sha256, Random, ErrorText}.
Context `{C : !CreateOrUpdater, !CreateOrUpdaterSound C, OwnerReferencer, ConditionSetter}.
Variable r : GatewayReconciler.

(** An account of the published file. *)
Definition served_account (gw : MailoutGateway) (items : list MailoutAccount) (a : Config.Account) : Prop :=
  exists account ra, account ∈ items /\ comes_from r gw account ra /\ a = renderAccount ra.

(** What a published configuration Secret holds. *)
Definition sound_publication (key : ObjectKey) (token : bytes -> Prop) (k : ObjectKey) (secret : Secret) : Prop :=
  exists n m gw items cfg rendered,
    api_Gateway n key = Found gw /\ Namespace (g_meta gw) = OperatorNamespace r /\
    k = (OperatorNamespace r, ConfigSecretName (Name (g_meta gw))) /\
    Validate cfg = [] /\ (exists d, DeploymentFor gw cfg (gatewayImage r gw) = Some d) /\
    yaml_Config cfg = Ok rendered /\
    s_Data secret = s_Data (ConfigSecret gw rendered (Token cfg)) /\ token (Token cfg) /\
    api_Accounts m = Ok items /\ (forall a, a ∈ Accounts cfg -> served_account gw items a).

Lemma emits_patchGatewayStatus P gw st : emits (secrets P) (patchGatewayStatus gw st).
Proof.
  intros s. unfold patchGatewayStatus, kbind, call, emit, kret. cbn. destruct (api_Write _) as [e|]; cbn;
    [by apply writes_refl|by eapply writes_one].
Qed.

Lemma emits_markFailed P gw reason msg : emits (secrets P) (andStop (markFailed gw reason msg)).
Proof. apply emits_bind_ok; [apply emits_patchGatewayStatus|]. intros s [] s' _. by apply writes_refl. Qed.

(** Objects other than Secrets. *)
Lemma emits_keepObject P {T} `{EqDecision T} gw what get (empty : T) f written :
  (forall o, P (written o)) -> emits P (keepObject gw what get empty f written).
Proof.
  intros HP. unfold keepObject. apply emits_bind; [apply emits_createOrUpdate; auto|].
  intros s [o|e] s' _; by apply writes_refl.
Qed.

Lemma emits_keep_unit P {T} `{EqDecision T} gw what get (empty : T) f written :
  (forall o, P (written o)) ->
  emits P (try _ <- keepObject gw what get empty f written; kret (Ok tt)).
Proof. intros HP. apply emits_bind_ok; [by apply emits_keepObject|]. intros s a s' _. by apply writes_refl. Qed.

Lemma emits_reconcileCertificate P gw : emits (secrets P) (reconcileCertificate r gw).
Proof.
  unfold reconcileCertificate. destruct (CertificateFor gw); [|apply emits_ret].
  destruct (negb _); [apply emits_ret|]. by apply emits_keep_unit.
Qed.

Lemma emits_reconcileService P gw cfg : emits (secrets P) (reconcileService gw cfg).
Proof. unfold reconcileService. by apply emits_keep_unit. Qed.

Lemma emits_reconcileMetricsNetworkPolicy P gw cfg : emits (secrets P) (reconcileMetricsNetworkPolicy gw cfg).
Proof.
  unfold reconcileMetricsNetworkPolicy. destruct (MetricsNetworkPolicy gw cfg); [by apply emits_keep_unit|].
  apply emits_bind; [apply emits_call|]. intros s t s' _. destruct (api_Delete _ _);
    [|by apply writes_refl..]. by eapply writes_one.
Qed.

Lemma emits_reconcileMetrics P gw cfg : emits (secrets P) (reconcileMetrics r gw cfg).
Proof.
  unfold reconcileMetrics. apply emits_bind_ok; [by apply emits_keepObject|]. intros s a s' _.
  apply emits_bind_ok; [apply emits_reconcileMetricsNetworkPolicy|]. intros s1 b s2 _.
  destruct (negb _); [by apply writes_refl|]. by apply emits_keep_unit.
Qed.

Lemma emits_reconcileDeployment P gw cfg : emits (secrets P) (reconcileDeployment r gw cfg).
Proof.
  unfold reconcileDeployment. destruct (DeploymentFor _ _ _); [by apply emits_keepObject|apply emits_ret].
Qed.

Lemma emits_reconcileConfigSecret (P : ObjectKey -> Secret -> Prop) gw cfg :
  (forall rendered secret, yaml_Config (FitAccounts cfg ConfigBudget).2 = Ok rendered ->
     s_Data secret = s_Data (ConfigSecret gw rendered (Token (FitAccounts cfg ConfigBudget).2)) ->
     P (Namespace (g_meta gw), ConfigSecretName (Name (g_meta gw))) secret) ->
  emits (secrets P) (reconcileConfigSecret gw cfg).
Proof.
  intros HP. unfold reconcileConfigSecret. destruct (yaml_Config _) as [rendered|e] eqn:Ey; [|apply emits_ret].
  assert (Hm : forall o o', mutateConfigSecret gw (ConfigSecret gw rendered (Token (FitAccounts cfg ConfigBudget).2)) o
                            = Ok o' -> P (Namespace (g_meta gw), ConfigSecretName (Name (g_meta gw))) o').
  { intros o o'. unfold mutateConfigSecret. destruct (SetControllerReference _ _); [|done].
    intros [= <-]. by apply (HP rendered). }
  apply emits_bind; [apply emits_createOrUpdate; intros; by eapply Hm|].
  intros s [o|e] s' _; by apply writes_refl.
Qed.

(** The steps after validation write one Secret, the configuration's. *)
Lemma emits_publish (P : ObjectKey -> Secret -> Prop) gw cfg accounts :
  (forall rendered secret, yaml_Config (FitAccounts cfg ConfigBudget).2 = Ok rendered ->
     s_Data secret = s_Data (ConfigSecret gw rendered (Token (FitAccounts cfg ConfigBudget).2)) ->
     P (Namespace (g_meta gw), ConfigSecretName (Name (g_meta gw))) secret) ->
  emits (secrets P) (publish r gw cfg accounts).
Proof.
  intros HP. unfold publish. apply emits_bind_ok; [apply emits_reconcileCertificate|]. intros s1 [] s1' _.
  apply emits_bind_ok; [by apply emits_reconcileConfigSecret|]. intros s2 cfg' s2' _.
  apply emits_bind_ok; [apply emits_reconcileService|]. intros s3 [] s3' _.
  apply emits_bind_ok; [apply emits_reconcileMetrics|]. intros s4 [] s4' _.
  apply emits_bind_ok; [apply emits_reconcileDeployment|]. intros s5 d s5' _.
  apply emits_bind_ok; [apply emits_patchGatewayStatus|]. intros s6 [] s6' _. by apply writes_refl.
Qed.

Lemma onward_grantLoop ns grants : forall i ls granted, onward (grantLoop ns i grants ls granted).
Proof.
  induction grants as [|g grants IH]; intros i ls granted; cbn [grantLoop]; [auto with mailout|].
  unfold namespaceLabels, GetNamespace. onward_tac.
Qed.

Lemma onward_collectAccounts gw : onward (collectAccounts r gw).
Proof.
  unfold collectAccounts, ListAccounts. apply onward_bind; [onward_tac|]. intros [items|e]; [|auto with mailout].
  generalize (@nil Render.Account). induction items as [|x items IH]; intros acc; cbn [collectLoop]; [auto with mailout|].
  apply onward_bind_ok; [|intros ?; apply IH].
  unfold collectOne, namespaceAllowed, GetNamespace, GetCachedSecret, grantedSenders.
  pose proof (onward_grantLoop (Namespace (a_meta x)) (gs_AllowedSenders (g_spec gw)) 0 None []). onward_tac.
Qed.

Lemma onward_resolveSecrets gw input : onward (resolveSecrets gw input).
Proof. unfold resolveSecrets, resolveRateLimitSecrets, readCA, readStoreAuth, readSecret, GetSecret. onward_tac. Qed.

Lemma onward_metricsToken gw : onward (metricsToken gw).
Proof. unfold metricsToken, GetSecret. onward_tac. Qed.

Lemma onward_createOrUpdate {T} `{EqDecision T} get (empty : T) mutate written :
  onward (createOrUpdate get empty mutate written).
Proof. intros s. destruct (createOrUpdate_outcome get empty mutate written s) as (t & es & ? & _ & ? & _). lia. Qed.

Lemma onward_reconcileCertificate gw : onward (reconcileCertificate r gw).
Proof.
  unfold reconcileCertificate, keepObject. pose proof (@onward_createOrUpdate). onward_tac.
Qed.

(** The Secret is in the cluster when the step ends: it was written, or the read
    made to compare them found it to be the same. *)
Definition stored (k : ObjectKey) (secret : Secret) (s s' : Calls) : Prop :=
  (exists es, effects s' = effects s ++ es /\ WroteSecret k secret ∈ es) \/
  (exists n, (calls s <= n < calls s')%nat /\ api_CachedSecret n k = Found secret).

Lemma reconcileConfigSecret_stored gw cfg s cfg' s' :
  reconcileConfigSecret gw cfg s = (Ok cfg', s') ->
  exists rendered secret, yaml_Config (FitAccounts cfg ConfigBudget).2 = Ok rendered /\
    s_Data secret = s_Data (ConfigSecret gw rendered (Token (FitAccounts cfg ConfigBudget).2)) /\
    stored (Namespace (g_meta gw), ConfigSecretName (Name (g_meta gw))) secret s s'.
Proof.
  unfold reconcileConfigSecret. destruct (yaml_Config _) as [rendered|e] eqn:Ey; [|done].
  set (desired := ConfigSecret gw rendered _). unfold kbind.
  match goal with |- context [createOrUpdate ?get ?empty ?mutate ?written s] =>
    destruct (createOrUpdate_outcome get empty mutate written s) as (t & es & Ht & He & Ht' & Ho);
    destruct (createOrUpdate get empty mutate written s) as [res s1] end.
  cbn [fst snd] in *. destruct res as [secret|e]; [|done]. unfold kret. intros [= _ <-].
  assert (Hm : forall o, mutateConfigSecret gw desired o = Ok secret -> s_Data secret = s_Data desired).
  { intros o. unfold mutateConfigSecret. destruct (SetControllerReference _ _); [|done]. by intros [= <-]. }
  exists rendered, secret. split; [done|].
  destruct (api_CachedSecret t _) as [o| |] eqn:Eg; inversion Ho; subst; (split; [by eapply Hm|]).
  - right. exists t. split; [lia|exact Eg].
  - left. eexists. split; [exact He|by left].
  - left. eexists. split; [exact He|by left].
Qed.

Lemma stored_extend k secret s0 s1 s2 s3 :
  stored k secret s1 s2 -> effects s1 = effects s0 \/ writes (secrets (λ _ _, True)) s0 s1 ->
  (calls s0 <= calls s1)%nat -> (calls s2 <= calls s3)%nat -> writes (secrets (λ _ _, True)) s2 s3 -> stored k secret s0 s3.
Proof.
  intros [(es & E & Hin)|(n & Hn & Hs)] H01 Hc Hc' (fs & F & _); [left|right; exists n; split; [lia|done]].
  assert (exists gs, effects s1 = effects s0 ++ gs) as (gs & G).
  { destruct H01 as [H01|(gs & G & _)]; [|by exists gs]. exists []. by rewrite app_nil_r. }
  exists (gs ++ es ++ fs). split; [by rewrite F, E, G, !app_assoc|]. rewrite !elem_of_app. tauto.
Qed.

(** What follows the configuration. *)
Definition finish (gw : MailoutGateway) (accounts : list Render.Account) (cfg : Config.Config) : K (result Z) :=
  try _ <- reconcileService gw cfg;
  try _ <- reconcileMetrics r gw cfg;
  try deployment <- reconcileDeployment r gw cfg;
  try _ <- updateStatus gw cfg accounts deployment;
  kret (Ok resyncInterval).

Lemma emits_finish P gw accounts cfg : emits (secrets P) (finish gw accounts cfg).
Proof.
  unfold finish. apply emits_bind_ok; [apply emits_reconcileService|]. intros s3 [] s3' _.
  apply emits_bind_ok; [apply emits_reconcileMetrics|]. intros s4 [] s4' _.
  apply emits_bind_ok; [apply emits_reconcileDeployment|]. intros s5 d s5' _.
  apply emits_bind_ok; [apply emits_patchGatewayStatus|]. intros s6 [] s6' _. by apply writes_refl.
Qed.

Lemma onward_finish gw accounts cfg : onward (finish gw accounts cfg).
Proof.
  pose proof (@onward_createOrUpdate) as Hcu.
  unfold finish, reconcileService, reconcileMetrics, reconcileMetricsNetworkPolicy, reconcileDeployment, updateStatus,
    patchGatewayStatus, keepObject.
  assert (He : forall e, onward (emit e)) by by intros e s. onward_tac.
Qed.

Lemma ends_in {A B} (c : K (result A)) (k : A -> K (result B)) s x s' :
  kbind_ok c k s = (Ok x, s') -> exists a s1, k a s1 = (Ok x, s').
Proof. unfold kbind_ok, kbind, kret. destruct (c s) as [[a|e] s1]; [eauto|done]. Qed.

Lemma finish_result gw accounts cfg s d s' : finish gw accounts cfg s = (Ok d, s') -> d = resyncInterval.
Proof.
  intros (? & ? & (? & ? & (? & ? & (? & ? & E)%ends_in)%ends_in)%ends_in)%ends_in. unfold kret in E. congruence.
Qed.

(** A run of the steps after validation that ends well has stored the
    configuration. *)
Lemma publish_stored gw cfg accounts s d s' :
  publish r gw cfg accounts s = (Ok d, s') ->
  d = resyncInterval /\ exists rendered secret, yaml_Config (FitAccounts cfg ConfigBudget).2 = Ok rendered /\
    s_Data secret = s_Data (ConfigSecret gw rendered (Token (FitAccounts cfg ConfigBudget).2)) /\
    stored (Namespace (g_meta gw), ConfigSecretName (Name (g_meta gw))) secret s s'.
Proof.
  change (publish r gw cfg accounts) with
    (kbind_ok (reconcileCertificate r gw) (λ _, kbind_ok (reconcileConfigSecret gw cfg) (finish gw accounts))).
  unfold kbind_ok, kbind. pose proof (emits_reconcileCertificate (λ _ _, True) gw s) as E1.
  pose proof (onward_reconcileCertificate gw s) as C1.
  destruct (reconcileCertificate r gw s) as [[[]|e] s1]; [|done].
  destruct (reconcileConfigSecret gw cfg s1) as [[cfg'|e] s2] eqn:Ec; [|done]. intros E.
  pose proof (emits_finish (λ _ _, True) gw accounts cfg' s2) as E2. pose proof (onward_finish gw accounts cfg' s2) as C2.
  rewrite E in E2, C2. split; [by eapply finish_result|].
  apply reconcileConfigSecret_stored in Ec as (rendered & secret & Ey & Ed & Hs).
  exists rendered, secret. split_and!; [done|done|]. eapply stored_extend; [exact Hs|right; exact E1|exact C1|exact C2|exact E2].
Qed.

(** A reconciliation that asks to be called again after the resync interval has
    stored the configuration of the accounts it collected. *)
Lemma Reconcile_stored key s s' :
  Reconcile r key s = (Ok resyncInterval, s') ->
  exists gw s0 accounts s1 input s2 tok s3 cfg rendered secret,
    api_Gateway (calls s) key = Found gw /\ Namespace (g_meta gw) = OperatorNamespace r /\
    collectAccounts r gw s0 = (Ok accounts, s1) /\ metricsToken gw s2 = (Ok tok, s3) /\
    Gateway input = Some gw /\ in_Accounts input = accounts /\ MetricsToken input = tok /\
    GatewayConfig input = Ok cfg /\ Validate cfg = [] /\
    yaml_Config (FitAccounts cfg ConfigBudget).2 = Ok rendered /\
    s_Data secret = s_Data (ConfigSecret gw rendered (Token (FitAccounts cfg ConfigBudget).2)) /\
    stored (Namespace (g_meta gw), ConfigSecretName (Name (g_meta gw))) secret s s'.
Proof.
  assert (Hno : forall gw reason msg t t', andStop (markFailed gw reason msg) t <> (Ok resyncInterval, t')).
  { intros gw reason msg t t'. unfold andStop, kbind_ok, kbind, kret.
    by destruct (markFailed gw reason msg t) as [[[]|] ?]. }
  unfold Reconcile. unfold GetGateway, kbind, call, kret. cbn [calls].
  destruct (api_Gateway (calls s) key) as [gw| |e] eqn:Eg; [|done..].
  case_bool_decide as Ens; cbn [negb]; [|by intros ?%Hno].
  set (s0 := mkCalls _ _). assert (E0 : effects s0 = effects s) by done.
  assert (C0 : (calls s <= calls s0)%nat) by (cbn; lia). clearbody s0.
  unfold kbind_ok, kbind, kret. pose proof (onward_collectAccounts gw s0) as C1.
  destruct (collectAccounts r gw s0) as [[accounts|e] s1] eqn:Ec; [|done].
  pose proof (collectAccounts_spec _ _ _ _ _ Ec) as [E1 _].
  match goal with |- context [resolveSecrets gw ?i s1] =>
    pose proof (reads_resolveSecrets gw i s1) as E2; pose proof (onward_resolveSecrets gw i s1) as C2;
    destruct (resolveSecrets gw i s1) as [[input|e] s2] eqn:Er end; [|by intros ?%Hno].
  apply resolveSecrets_keeps in Er as [Egw Ein]. cbn [Gateway in_Accounts snd] in *.
  pose proof (reads_metricsToken gw s2) as E3. pose proof (onward_metricsToken gw s2) as C3.
  destruct (metricsToken gw s2) as [[tok|e] s3] eqn:Et; [|done]. cbn [snd] in *.
  rewrite Egw, Ein. destruct (GatewayConfig _) as [cfg|e] eqn:Ecfg; [|by intros ?%Hno].
  case_bool_decide as Hv; [|by intros ?%Hno].
  intros (_ & rendered & secret & Ey & Ed & Hs)%publish_stored.
  eexists gw, s0, accounts, s1, _, s2, tok, s3, cfg, rendered, secret.
  split_and!; [done|done|done|done| | | |exact Ecfg|done|done|done|]; [done..|].
  eapply stored_extend; [exact Hs|left; congruence|lia|done|by apply writes_refl].
Qed.

Lemma rendered_accounts inp cfg :
  GatewayConfig inp = Ok cfg ->
  Token cfg = MetricsToken inp /\
  forall a, a ∈ Accounts cfg -> exists ra, ra ∈ in_Accounts inp /\ a = renderAccount ra.
Proof.
  unfold GatewayConfig. destruct (Gateway inp) as [gw|]; [|done]. intros [= <-]. split; [done|].
  cbn [Accounts]. intros a (ra & -> & Hin)%list_elem_of_fmap. rewrite sortSlice_perm in Hin. by exists ra.
Qed.

(** A reconciliation writes no Secret but the configuration of the accounts it
    collected, fitted to its budget. *)
Lemma Reconcile_secrets (P : ObjectKey -> Secret -> Prop) key :
  (forall n gw s0 accounts s1 input s2 tok s3 cfg rendered secret,
     api_Gateway n key = Found gw -> Namespace (g_meta gw) = OperatorNamespace r ->
     collectAccounts r gw s0 = (Ok accounts, s1) -> metricsToken gw s2 = (Ok tok, s3) ->
     Gateway input = Some gw -> in_Accounts input = accounts -> MetricsToken input = tok ->
     GatewayConfig input = Ok cfg -> Validate cfg = [] ->
     yaml_Config (FitAccounts cfg ConfigBudget).2 = Ok rendered ->
     s_Data secret = s_Data (ConfigSecret gw rendered (Token (FitAccounts cfg ConfigBudget).2)) ->
     P (Namespace (g_meta gw), ConfigSecretName (Name (g_meta gw))) secret) ->
  emits (secrets P) (Reconcile r key).
Proof.
  intros HP s. unfold Reconcile. unfold GetGateway, kbind, call, kret. cbn [calls].
  set (s0 := mkCalls _ _). assert (E0 : effects s0 = effects s) by done.
  destruct (api_Gateway (calls s) key) as [gw| |e] eqn:Eg; [|by apply writes_refl..].
  eapply writes_trans; [by apply (writes_refl _ s s0)|]. clearbody s0.
  destruct (decide (Namespace (g_meta gw) = OperatorNamespace r)) as [Ens|Ens];
    [rewrite (bool_decide_eq_true_2 _ Ens)|rewrite (bool_decide_eq_false_2 _ Ens)]; cbn [negb];
    [|apply emits_markFailed].
  unfold kbind_ok, kbind, kret. destruct (collectAccounts r gw s0) as [[accounts|e] s1] eqn:Ec;
    pose proof (collectAccounts_spec _ _ _ _ _ Ec) as [E1 _]; [|by apply writes_refl].
  eapply writes_trans; [by apply (writes_refl _ s0 s1)|].
  match goal with |- context [resolveSecrets gw ?i s1] =>
    pose proof (reads_resolveSecrets gw i s1) as E2; destruct (resolveSecrets gw i s1) as [[input|e] s2] eqn:Er end;
    cbn [snd] in E2; (eapply writes_trans; [by apply (writes_refl _ s1 s2)|]); [|apply emits_markFailed].
  apply resolveSecrets_keeps in Er as [Egw Ein]. cbn [Gateway in_Accounts] in Egw, Ein.
  pose proof (reads_metricsToken gw s2) as E3. destruct (metricsToken gw s2) as [[tok|e] s3] eqn:Et;
    cbn [snd] in E3; [|by apply writes_refl].
  eapply writes_trans; [by apply (writes_refl _ s2 s3)|].
  rewrite Egw, Ein. destruct (GatewayConfig _) as [cfg|e] eqn:Ecfg; [|apply emits_markFailed].
  case_bool_decide as Hv; [|apply emits_markFailed]. apply emits_publish. intros rendered secret Ey Ed.
  by eapply (HP (calls s) gw s0 accounts s1); [done|done|done|exact Et| | | |exact Ecfg|..].
Qed.

(** What is published is sound, whatever is known of the token. *)
Lemma Reconcile_publishes (token : bytes -> Prop) key :
  (forall n gw s tok s', api_Gateway n key = Found gw -> metricsToken gw s = (Ok tok, s') -> token tok) ->
  emits (secrets (sound_publication key token)) (Reconcile r key).
Proof.
  intros Htoken. apply Reconcile_secrets.
  intros n gw s0 accounts s1 input s2 tok s3 cfg rendered secret Eg Ens Ec Et _ Hin Htok Ecfg Hv Ey Ed.
  apply collectAccounts_spec in Ec as [_ Hacc]. destruct (Hacc _ eq_refl) as (m & items & Hm & Hall).
  apply rendered_accounts in Ecfg as [Etok Hfrom]. rewrite Hin in Hfrom.
  destruct (FitAccounts_shape cfg ConfigBudget) as (kept & Ef & Hkept). rewrite Ef in *.
  exists n, m, gw, items, (with_accounts cfg kept), rendered. rewrite Ens.
  split_and!; try done.
  - unfold DeploymentFor, ListenerStatuses. cbn [with_accounts Listeners].
    pose proof (Validate_listeners _ Hv). destruct (Listeners cfg); [done|]. cbn. eauto.
  - cbn [with_accounts Token]. rewrite Etok, Htok. eauto.
  - cbn [with_accounts Accounts]. intros a (ra & Hra & ->)%Hkept%Hfrom.
    destruct (Hall _ Hra) as (account & Hacct & Hcf). by exists account, ra.
Qed.

(** C6: what the operator publishes is valid and within what was granted.
    Whatever the API server answers during a reconciliation, the only Secret it
    writes is the configuration of a gateway of the operator's namespace; the
    file in it is of a configuration in which [Validate], the first check the
    dataplane makes, finds no problem, and that has a listener, so that a
    Deployment is rendered for it; and each account in it is an account of that
    gateway, from a namespace the gateway accepts, with the hash of its own
    Secret, that may send from an address only when a grant that applies to its
    namespace allows it. What the dataplane checks later, in [newSnapshot], is
    not part of it (see [junk_ca_passes_validation]). *)
Theorem published_config_is_sound (key : ObjectKey) (s : Calls) :
  writes (secrets (sound_publication key (λ _, True))) s (Reconcile r key s).2.
Proof. by apply Reconcile_publishes. Qed.

(** A scraper keeps its access: as long as the configuration Secret holds a
    metrics token, no reconciliation publishes another one. *)
Theorem metrics_token_is_kept (key : ObjectKey) (gw : MailoutGateway) (tok : bytes) (s : Calls) :
  (forall n, api_Gateway n key = Found gw) -> tok <> [] ->
  (forall n, exists secret, api_Secret n (Namespace (g_meta gw), ConfigSecretName (Name (g_meta gw))) = Found secret /\
     at_key (s_Data secret) MetricsTokenKey = tok) ->
  writes (secrets (λ k secret, at_key (s_Data secret) MetricsTokenKey = tok)) s (Reconcile r key s).2.
Proof.
  intros Hgw Hne Hsec. eapply writes_mono; [|apply (Reconcile_publishes (λ t, t = tok))].
  - intros e. destruct e; try done. cbn.
    intros (n & m & gw' & items & cfg & rendered & _ & _ & _ & _ & _ & _ & -> & -> & _).
    cbn. rewrite (bool_decide_eq_false_2 _ Hne). cbn [negb]. unfold at_key. by rewrite lookup_insert_eq.
  - intros n gw' s0 tok' s1 Eg. rewrite Hgw in Eg. injection Eg as <-.
    unfold metricsToken. run_api.
    destruct (Hsec (calls s0)) as (secret & -> & Htok). rewrite Htok, (bool_decide_eq_false_2 _ Hne).
    by intros [= <- _].
Qed.
End Published.

(** ** Settling *)

Section Settling.
Context `{ApiServer, Sha256}.
Context `{C : !CreateOrUpdater, !CreateOrUpdaterSound C, O : OwnerReferencer, !OwnerReferencerSound O}.
Variable r : GatewayReconciler.

(** A mutation that leaves what it produced alone: an object that was kept is
    not written again. [seen] is how the object comes back. *)
Lemma keepObject_again {T} `{EqDecision T} gw what get (empty : T) f written s o o0 seen :
  owning gw f o0 = Ok o -> f seen.1 = seen.1 -> seen.2 = o.2 ->
  (forall n, (calls s <= n)%nat -> get n = Found seen) ->
  exists s2, keepObject gw what get empty f written s = (Ok seen.1, s2) /\ effects s2 = effects s.
Proof.
  intros Eo Hf Howners Hget. unfold keepObject, kbind, kret.
  destruct (createOrUpdate_outcome get (empty, []) (owning gw f) written s) as (t & es & Ht & He & _ & Hout).
  destruct (createOrUpdate _ _ _ _ s) as [res s2]. cbn [fst snd] in *. rewrite (Hget t Ht) in Hout.
  assert (Hagain : owning gw f seen = Ok seen).
  { unfold owning in *. destruct (SetControllerReference _ o0.2) as [owners|] eqn:Er; [|done].
    injection Eo as <-. cbn [snd] in Howners. rewrite Howners, (set_owner_again _ _ _ Er), Hf.
    destruct seen as [x y]. cbn in *. by subst. }
  inversion Hout; subst; rewrite Hagain in *; simplify_eq. exists s2. split; [done|]. by rewrite He, app_nil_r.
Qed.

(** The Deployment as the API server shows it once pods come up. *)
Definition with_replicas (d : Deployment) (n : Z) : Deployment :=
  mkDeployment (dep_Name d) (dep_Namespace d) (dep_Labels d) (dep_Replicas d) (dep_Selector d)
    (Template d) n.

Lemma mutateDeployment_again desired d n :
  dep_Selector desired <> None ->
  mutateDeployment desired (with_replicas (mutateDeployment desired d) n) =
  with_replicas (mutateDeployment desired d) n.
Proof.
  intros Hs. unfold mutateDeployment, with_replicas. cbn. f_equal.
  destruct (dep_Selector d); [done|]. by destruct (dep_Selector desired).
Qed.

Lemma DeploymentFor_names gw cfg image d :
  DeploymentFor gw cfg image = Some d ->
  dep_Name d = Name (g_meta gw) /\ dep_Namespace d = Namespace (g_meta gw) /\ dep_Selector d <> None.
Proof. unfold DeploymentFor. cbv zeta. destruct (ListenerStatuses cfg); [done|]. by intros [= <-]. Qed.

(** A rollout is not restarted by its own progress. Once a reconciliation
    wrote the Deployment, a later one with the same configuration writes it no
    more, however many replicas became available meanwhile, succeeds, and
    returns the replicas the API server reports. *)
Theorem deployment_settles (gw : MailoutGateway) (cfg : Config.Config) (s s1 : Calls)
    (d : Deployment) (o : owned Deployment) (available : Z) :
  reconcileDeployment r gw cfg s = (Ok d, s1) ->
  effects s1 = effects s ++ [WroteDeployment o] ->
  (forall n, (calls s1 <= n)%nat ->
     api_Deployment n (Namespace (g_meta gw), Name (g_meta gw)) = Found (with_replicas o.1 available, o.2)) ->
  exists s2, reconcileDeployment r gw cfg s1 = (Ok (with_replicas o.1 available), s2) /\ effects s2 = effects s1.
Proof.
  intros Erun Heff Hget. unfold reconcileDeployment in *.
  destruct (DeploymentFor _ _ _) as [desired|] eqn:Ed; [|done].
  apply DeploymentFor_names in Ed as (En & Ens & Hsel). rewrite En, Ens in *.
  assert (exists o0, owning gw (mutateDeployment desired) o0 = Ok o) as (o0 & Ho).
  { unfold keepObject, kbind, kret in Erun.
    match type of Erun with context [createOrUpdate ?g ?e ?m ?w s] =>
      destruct (createOrUpdate_outcome g e m w s) as (t & es & _ & He & _ & Hout);
      destruct (createOrUpdate g e m w s) as [res s0] end.
    cbn [fst snd] in *. destruct res as [x|e]; [|done]. injection Erun as _ ->.
    rewrite Heff in He. apply app_inv_head in He. subst es. inversion Hout; subst; eauto. }
  apply (keepObject_again _ _ _ _ _ _ _ o o0 (with_replicas o.1 available, o.2)); [done| |done|done].
  cbn [fst]. unfold owning in Ho. destruct (SetControllerReference _ _); [|done]. injection Ho as <-.
  by apply mutateDeployment_again.
Qed.

(** An update keeps what the cluster assigned: over an existing Deployment
    the selector, which is immutable, stays, and over an existing Service the
    cluster address stays, whatever the gateway asks for now. *)
Theorem updates_keep_assigned_fields (gw : MailoutGateway) (cfg : Config.Config)
    (sel : gmap bytes bytes) (ip : bytes) :
  let key := (Namespace (g_meta gw), Name (g_meta gw)) in
  (forall n, exists x, api_Deployment n key = Found x /\ dep_Selector x.1 = Some sel) ->
  (forall n, exists x, api_Service n key = Found x /\ ClusterIP x.1 = ip) ->
  emits (λ e, if e is WroteService o then ClusterIP o.1 = ip else False) (reconcileService gw cfg) /\
  emits (λ e, if e is WroteDeployment o then dep_Selector o.1 = Some sel else False)
    (reconcileDeployment r gw cfg).
Proof.
  intros key Hdep Hsvc. split.
  - unfold reconcileService. apply emits_bind_ok; [|intros s a s' _; by apply writes_refl].
    unfold keepObject. apply emits_bind; [|intros s [a|e] s' _; by apply writes_refl].
    apply emits_found; [intros n; destruct (Hsvc n) as (x & Ex & _); cbn; unfold key in Ex; by rewrite Ex|].
    intros n o o' Eg. destruct (Hsvc n) as (x & Ex & <-). unfold key in Ex. cbn in Eg. rewrite Ex in Eg. injection Eg as <-.
    unfold owning. destruct (SetControllerReference _ _); [|done]. by intros [= <-].
  - unfold reconcileDeployment. destruct (DeploymentFor _ _ _) as [desired|] eqn:Ed; [|apply emits_ret].
    apply DeploymentFor_names in Ed as (En & Ens & Hsel). rewrite En, Ens.
    unfold keepObject. apply emits_bind; [|intros s [a|e] s' _; by apply writes_refl].
    apply emits_found; [intros n; destruct (Hdep n) as (x & Ex & _); unfold key in Ex; by rewrite Ex|].
    intros n o o' Eg. destruct (Hdep n) as (x & Ex & Es).
    unfold key in Ex. rewrite Ex in Eg. injection Eg as <-.
    unfold owning. destruct (SetControllerReference _ _); [|done]. intros [= <-]. cbn. by rewrite Es.
Qed.
End Settling.

(** ** Events *)

Section Events.
Context `{Selectors}.
Variable r : GatewayReconciler.

(** A rotated password reaches the relay: the labels the account controller
    puts on an account's Secret map a change of that Secret back to the very
    gateway a change of the account itself maps to, which is the gateway the
    account was provisioned for. *)
Theorem secret_events_reach_the_gateway (account : MailoutAccount) (gw : MailoutGateway)
    (username password hash : bytes) (ep : Endpoint) :
  serves r gw account = true -> Name (g_meta gw) <> [] ->
  gatewayForAccountSecret r (AccountSecret account username password hash ep (Namespace (g_meta gw))) =
    [(Namespace (g_meta gw), Name (g_meta gw))] /\
  gatewayForAccount r account = [(Namespace (g_meta gw), Name (g_meta gw))].
Proof.
  unfold serves. intros Hs Hne. rewrite negb_true_iff in Hs. apply orb_false_iff in Hs as [Hns Hname]. bools.
  unfold gatewayForAccountSecret, gatewayForAccount, AccountSecret, accountSecretLabels. cbn [s_Labels].
  unfold at_key. change (LabelGatewayName) with (lit "mailout.daly.nc/gateway").
  rewrite !list_to_map_cons.
  repeat first [rewrite lookup_insert_eq | rewrite lookup_insert_ne by done]. cbn [default id].
  rewrite Hns, Hname, (bool_decide_eq_false_2 _ Hne). split; [|done].
  case_bool_decide as En; [|done]. rewrite En in *. f_equal. f_equal.
  unfold GatewayNamespaceFor in Hns. case_bool_decide as Eg; [done|]. by destruct Eg.
Qed.
End Events.

(** ** Witnesses *)

#[local] Existing Instance matchLabels.
#[local] Existing Instance sorter_by.
#[local] Existing Instance sorter_by_sound.
#[local] Existing Instance toy_random.
#[local] Existing Instance updater_ok.
#[local] Existing Instance updater_ok_sound.
#[local] Existing Instance owner_add.
#[local] Existing Instance owner_add_sound.
#[local] Existing Instance condition_replace.
#[local] Existing Instance demo_sha.
#[local] Existing Instance demo_yaml.

Definition demo_errors : ErrorText := {| Error _ := []; ErrorOfProblems _ := [] |}.
#[local] Existing Instance demo_errors.

Definition demo_reconciler : GatewayReconciler := mkGatewayReconciler (lit "mailout-system") (lit "img") false false.

(** A configuration Secret with a token in service. *)
Definition demo_config_secret : Secret :=
  mkSecret (lit "mailout-system") (lit "relay-config") ∅ [] {[MetricsTokenKey := lit "tok"]} [].

(** The Deployment of the demonstration gateway. *)
Definition demo_config : Config.Config :=
  match GatewayConfig (demo_input []) with Ok cfg => cfg | Err _ => mkConfig [] [] (mkTLSConfig [] []) (mkUpstream [] 0 [] false [] [] [] 0) [] [] [] None (mkLimits 0 0 0 0 0 0 [] 0) [] end.

Definition demo_deployment : Deployment :=
  match DeploymentFor demo_gw demo_config (lit "img") with
  | Some d => mutateDeployment d (emptyDeployment (lit "relay") (lit "mailout-system"))
  | None => emptyDeployment [] []
  end.

(** A cluster with one provisioned account; the Deployment appears once it was
    written. *)
Definition demo_cluster : ApiServer := {|
  api_Namespace _ _ := Found None;
  api_Gateway _ _ := Found demo_gw;
  api_Account _ _ := NotFound;
  api_Secret _ _ := Found demo_config_secret;
  api_CachedSecret _ _ := Found demo_secret;
  api_Accounts _ := Ok [demo_claimant (lit "blog") (lit "u3")];
  api_Service _ _ := Found (mkService (lit "relay") (lit "mailout-system") ∅ ∅ ∅ [] [] (lit "10.0.0.7"), []);
  api_Certificate _ _ := NotFound;
  api_ServiceMonitor _ _ := NotFound;
  api_Deployment n _ :=
    if (n <=? 0)%nat then NotFound else Found (with_replicas demo_deployment 2, [owner demo_gw]);
  api_NetworkPolicy _ _ := NotFound;
  api_Write _ := None;
  api_Delete _ _ := NotFound
|}.
#[local] Existing Instance demo_cluster.

Definition demo_run : result Z * Calls := Reconcile demo_reconciler (lit "mailout-system", lit "relay") calls0.

Lemma sound_config_witness :
  writes (secrets (sound_publication demo_reconciler (lit "mailout-system", lit "relay") (λ _, True))) calls0 demo_run.2 /\
  length (effects demo_run.2) = 4%nat.
Proof.
  split; [apply (published_config_is_sound demo_reconciler (lit "mailout-system", lit "relay") calls0)|].
  by vm_compute.
Defined.

Lemma token_kept_witness :
  writes (secrets (λ k secret, at_key (s_Data secret) MetricsTokenKey = lit "tok")) calls0 demo_run.2.
Proof.
  apply (metrics_token_is_kept demo_reconciler (lit "mailout-system", lit "relay") demo_gw (lit "tok") calls0);
    [done|done|].
  intros n. by exists demo_config_secret.
Defined.

Lemma deployment_settles_witness : exists s2,
  reconcileDeployment demo_reconciler demo_gw demo_config
    (mkCalls 1 [WroteDeployment (demo_deployment, [owner demo_gw])]) = (Ok (with_replicas demo_deployment 2), s2) /\
  effects s2 = [WroteDeployment (demo_deployment, [owner demo_gw])].
Proof.
  apply (deployment_settles demo_reconciler demo_gw demo_config calls0
    (mkCalls 1 [WroteDeployment (demo_deployment, [owner demo_gw])]) demo_deployment
    (demo_deployment, [owner demo_gw]) 2); try reflexivity.
  intros [|n] Hn; [cbn in Hn; lia|]. reflexivity.
Defined.

Definition demo_upgraded : ApiServer := {|
  api_Namespace _ _ := Found None;
  api_Gateway _ _ := Found demo_gw;
  api_Account _ _ := NotFound;
  api_Secret _ _ := NotFound;
  api_CachedSecret _ _ := NotFound;
  api_Accounts _ := Ok [];
  api_Service _ _ := Found (mkService (lit "relay") (lit "mailout-system") ∅ ∅ ∅ [] [] (lit "10.0.0.7"), []);
  api_Certificate _ _ := NotFound;
  api_ServiceMonitor _ _ := NotFound;
  api_Deployment _ _ :=
    Found (mkDeployment (lit "relay") (lit "mailout-system") ∅ None (Some ∅) emptyTemplate 1, []);
  api_NetworkPolicy _ _ := NotFound;
  api_Write _ := None;
  api_Delete _ _ := NotFound
|}.

Lemma assigned_fields_witness :
  @emits matchLabels (λ e, if e is WroteService o then ClusterIP o.1 = lit "10.0.0.7" else False) _
    (@reconcileService _ demo_upgraded updater_ok _ demo_gw demo_config).
Proof.
  apply (updates_keep_assigned_fields (H0 := demo_upgraded) demo_reconciler demo_gw demo_config ∅ (lit "10.0.0.7")).
  - intros n. eexists. split; [reflexivity|done].
  - intros n. eexists. split; [reflexivity|done].
Defined.

Lemma secret_events_witness :
  gatewayForAccount demo_reconciler (demo_claimant (lit "blog") (lit "u3")) = [(lit "mailout-system", lit "relay")].
Proof.
  apply (secret_events_reach_the_gateway demo_reconciler (demo_claimant (lit "blog") (lit "u3")) demo_gw [] [] []
    demo_endpoint); [reflexivity|done].
Defined.

(** Two accounts claim one username and both have a Secret, as when the older
    account takes a name that was free before. *)
Definition demo_contested : ApiServer := {|
  api_Namespace _ _ := Found None;
  api_Gateway _ _ := Found demo_gw;
  api_Account _ _ := NotFound;
  api_Secret _ _ := NotFound;
  api_CachedSecret _ _ := Found demo_secret;
  api_Accounts _ := Ok demo_claimants;
  api_Service _ _ := NotFound;
  api_Certificate _ _ := NotFound;
  api_ServiceMonitor _ _ := NotFound;
  api_Deployment _ _ := NotFound;
  api_NetworkPolicy _ _ := NotFound;
  api_Write _ := None;
  api_Delete _ _ := NotFound
|}.

#[local] Existing Instance demo_contested.

(** A limit of the arbitration: the gateway controller does not apply it. The
    account that lost its username to an older one is still collected, next to
    the rightful one, as long as its Secret exists: the published file then
    names the username twice. *)
Theorem contested_username_is_collected_twice :
  (usernameConflict (lit "mailout-system") (demo_claimant (lit "shop") (lit "u7")) demo_gw
     (lit "billing") calls0).1 = Ok (lit "blog/app") /\
  match (collectAccounts demo_reconciler demo_gw calls0).1 with
  | Ok accounts => (ra_Username <$> accounts) = [lit "billing"; lit "billing"]
  | Err _ => False
  end.
Proof. split; by vm_compute. Qed.
