(* ===== verification/Commands.v ===== *)
(** * Commands: the subcommands that handle secrets

    Models the [hash-password] command of [src/cmd/mailout/hashpassword.go], the
    [dkim-key] command of [src/cmd/mailout/dkimkey.go] with the file it writes,
    and the discovery of optional APIs of
    [src/internal/controller/discovery.go]. Flag parsing is cobra's: the
    arguments of a definition are the flags as parsed. *)

From S2P Require Import Prelude Unicode GoStrings Message World Spool Passwords Config TlsStore Milter Dkim DkimGen.
Import Passwords DkimGen.
#[local] Open Scope Z_scope.
#[local] Set Default Proof Using "Type*".

(** ** Files *)

(** Permission bits and contents, by path. *)
Abbreviation files := (gmap bytes (Z * bytes)).

(** What the system answers: the error of each call, if any; [sys_write] also
    says how many bytes were written before it. *)
Class FileSystem := {
  sys_umask : Z;
  sys_open : bytes -> option goerror;
  sys_chmod : bytes -> option goerror;
  sys_write : bytes -> option (nat * goerror);
  sys_close : bytes -> option goerror
}.

(** The discovery API: the kinds a group and version serves. *)
Inductive discovery :=
| Serves (kinds : list bytes)
| GroupFailed (e : goerror)   (* IsGroupDiscoveryFailedError *)
| GroupNotFound (e : goerror) (* IsNotFound *)
| DiscoveryFailed (e : goerror).

Module Commands.

(** *** dkimkey.go *)

(** [os.OpenFile(path, O_WRONLY|O_CREATE|O_TRUNC, mode)]: the mode, less the
    umask, is that of a new file only. *)
Definition openTruncate `{FileSystem} (path : bytes) (mode : Z) (fs : files) : option goerror * files :=
  match sys_open path with
  | Some e => (Some e, fs)
  | None =>
      let mode := match fs !! path with
                  | Some (old, _) => old
                  | None => Z.land mode (Z.lnot sys_umask)
                  end in
      (None, <[path := (mode, [])]> fs)
  end.

Definition chmod `{FileSystem} (path : bytes) (mode : Z) (fs : files) : option goerror * files :=
  match sys_chmod path with
  | Some e => (Some e, fs)
  | None => (None, alter (λ f, (mode, f.2)) path fs)
  end.

Definition writeString `{FileSystem} (path data : bytes) (fs : files) : option goerror * files :=
  match sys_write path with
  | Some (n, e) => (Some e, alter (λ f, (f.1, f.2 ++ take n data)) path fs)
  | None => (None, alter (λ f, (f.1, f.2 ++ data)) path fs)
  end.

Definition writePrivateKey `{FileSystem} (path pemData : bytes) (fs : files) : option goerror * files :=
  match openTruncate path 384 fs with   (* 0o600 *)
  | (Some e, fs) => (Some (EWrap (lit "write " ++ path) e), fs)
  | (None, fs) =>
      match chmod path 384 fs with
      | (Some e, fs) => (Some (EWrap (lit "restrict " ++ path) e), fs)
      | (None, fs) =>
          match writeString path pemData fs with
          | (Some e, fs) => (Some (EWrap (lit "write " ++ path) e), fs)
          | (None, fs) => (sys_close path, fs)
          end
      end
  end.

(** What a command prints. *)
Record output := mkOutput { stdout : bytes; stderr : bytes }.

Definition stdoutWarning : bytes :=
  lit "warning: writing the private key to stdout. Use -o to write it to a file with restrictive permissions instead."
  ++ [LF].

Definition recordText (key : GeneratedDKIMKey) : bytes :=
  [LF] ++ lit "Publish this TXT record:" ++ [LF] ++ DNSRecordName key ++ [LF] ++ lit "  " ++ DNSRecordValue key ++ [LF].

Definition dkimKey `{KeyGen, FileSystem} (t : nat) (algorithm domain selector outFile : bytes) (fs : files)
    : option goerror * output * files :=
  match GenerateDKIMKey t algorithm domain selector with
  | Err e => (Some e, mkOutput [] [], fs)
  | Ok key =>
      if outFile <>b [] then
        match writePrivateKey outFile (g_PrivateKeyPEM key) fs with
        | (Some e, fs) => (Some e, mkOutput [] [], fs)
        | (None, fs) =>
            (None, mkOutput (lit "private key written to " ++ outFile ++ lit " (mode 0600)" ++ [LF] ++ recordText key) [], fs)
        end
      else (None, mkOutput (g_PrivateKeyPEM key ++ recordText key) stdoutWarning, fs)
  end.

(** *** hashpassword.go *)

(** What [hash-password] prints on stderr before it hashes. *)
Definition passwordWarning (generate : bool) (args : list bytes) : bytes :=
  if generate then []
  else match args with
       | [_] => lit "warning: a password on the command line is visible in /proc and in your shell history. Pipe it on stdin instead: echo -n 'secret' | mailout hash-password" ++ [LF]
       | _ => []
       end.

(** [bufio.Reader.ReadString('\n')]: the line with its newline; what is left
    and [io.EOF] when there is none. *)
Fixpoint ReadString (s : bytes) : bytes * bool :=
  match s with
  | [] => ([], true)
  | c :: s' => if c =b LF then ([c], false) else let '(line, eof) := ReadString s' in (c :: line, eof)
  end.

Section Hash.
Context `{Bcrypt, Random}.

(** What is printed before the hash, and the password to hash. *)
Definition choosePassword (t : nat) (generate : bool) (args : list bytes) (stdin : bytes)
    : result (bytes * bytes) :=
  if generate then
    match GeneratePassword t with
    | Err e => Err e
    | Ok password => Ok (lit "password: " ++ password ++ [LF], password)
    end
  else
    match args with
    | [arg] => Ok ([], arg)
    | _ =>
        let '(line, eof) := ReadString stdin in
        if eof && (line =b []) then Err (EWrap (lit "read password from stdin") (EText (lit "EOF")))
        else Ok ([], TrimRight line [CR; LF])
    end.

Definition hashPassword (t : nat) (generate : bool) (args : list bytes) (stdin : bytes) : result bytes :=
  match choosePassword t generate args stdin with
  | Err e => Err e
  | Ok (out, password) =>
      match HashPassword t password with
      | Err e => Err e
      | Ok hash => Ok (out ++ lit "passwordHash: " ++ hash ++ [LF])
      end
  end.
End Hash.

(** *** discovery.go *)

Definition kindInstalled (client : option goerror) (answer : discovery) (kind : bytes) : result bool :=
  match client with
  | Some e => Err (EWrap (lit "discovery client") e)
  | None =>
      match answer with
      | GroupFailed _ | GroupNotFound _ => Ok false
      | DiscoveryFailed e => Err e
      | Serves kinds => Ok (existsb (λ k, k =b kind) kinds)
      end
  end.
End Commands.
Import Commands.

(** ** Properties *)

Section KeyFile.
Context `{FileSystem}.

Lemma key_file path pem fs fs' err :
  writePrivateKey path pem fs = (err, fs') ->
  (forall p, p <> path -> fs' !! p = fs !! p) /\
  (fs' = fs \/ exists mode data, fs' !! path = Some (mode, data) /\ (data = [] \/ mode = 384)) /\
  (err = None -> fs' !! path = Some (384, pem)).
Proof.
  unfold writePrivateKey, openTruncate, chmod, writeString.
  destruct (sys_open path); [intros [= <- <-]; split_and!; [done|by left|done]|].
  destruct (sys_chmod path).
  { intros [= <- <-]. split_and!; [intros; by rewrite lookup_insert_ne| |done].
    right. rewrite lookup_insert_eq. eauto. }
  destruct (sys_write path) as [[n e]|]; intros [= <- <-];
    (split_and!; [intros; by rewrite !lookup_alter_ne, lookup_insert_ne| |]);
    rewrite !lookup_alter_eq, lookup_insert_eq; cbn; try done; right; eauto.
Qed.

(** C40: a signing key is never readable by others. However the run of
    [writePrivateKey] ends and whatever was at the path before, either no file
    was touched, or the file at the path is the only one that was and it holds
    key material only under mode 0600; a run that succeeds leaves exactly the
    key, under that mode. *)
Theorem private_key_is_never_exposed (path pem : bytes) (fs fs' : files) (err : option goerror) :
  writePrivateKey path pem fs = (err, fs') ->
  (forall p, p <> path -> fs' !! p = fs !! p) /\
  (fs' = fs \/ exists mode data, fs' !! path = Some (mode, data) /\ (data = [] \/ mode = 384)) /\
  (err = None -> fs' !! path = Some (384, pem)).
Proof.
  apply key_file.
Qed.

(** The key goes to the file that was named or to the terminal, never to both,
    and never to the terminal without a warning: the output of a run of
    [dkim-key] with a file name is the same for every private key with that
    public record, and on success the file is the key under mode 0600; without a
    file name no file is touched. *)
Theorem dkim_key_goes_to_one_place `{KeyGen} (t : nat) (algorithm domain selector outFile : bytes) (fs fs' : files)
    (err : option goerror) (out : output) (key : GeneratedDKIMKey) :
  GenerateDKIMKey t algorithm domain selector = Ok key ->
  dkimKey t algorithm domain selector outFile fs = (err, out, fs') ->
  if outFile <>b [] then
    stderr out = [] /\
    (err <> None /\ stdout out = [] \/
     err = None /\ fs' !! outFile = Some (384, g_PrivateKeyPEM key) /\
     stdout out = lit "private key written to " ++ outFile ++ lit " (mode 0600)" ++ [LF] ++ recordText key)
  else
    err = None /\ fs' = fs /\ stderr out = stdoutWarning /\ stdout out = g_PrivateKeyPEM key ++ recordText key.
Proof.
  intros Hk. unfold dkimKey. rewrite Hk. destruct (outFile <>b []); [|by intros [= <- <- <-]].
  destruct (writePrivateKey outFile _ fs) as [[e|] fs1] eqn:E; intros [= <- <- <-]; (split; [done|]); [by left|right].
  destruct (key_file _ _ _ _ _ E) as (_ & _ & Hf). split_and!; [done|by apply Hf|done].
Qed.
End KeyFile.

Section HashFacts.
Context `{B : Bcrypt, !BcryptSound B, Random}.

(** The hash printed authenticates the password that was given, or generated
    and printed, and is one the gateway serves. *)
Theorem hash_password_output (t : nat) (generate : bool) (args : list bytes) (stdin out : bytes) :
  hashPassword t generate args stdin = Ok out ->
  exists password hash before,
    out = before ++ lit "passwordHash: " ++ hash ++ [LF] /\
    bcrypt_Compare hash password = true /\ UsableHash hash = true /\
    (if generate then before = lit "password: " ++ password ++ [LF]
     else before = [] /\ (args = [password] \/ password = TrimRight (ReadString stdin).1 [CR; LF])).
Proof.
  unfold hashPassword, choosePassword. destruct generate.
  - destruct (GeneratePassword t) as [pw|]; [|done]. destruct (HashPassword t pw) as [h|] eqn:Eh; [|done].
    intros [= <-]. destruct (HashPassword_is_usable _ _ _ Eh). by exists pw, h, (lit "password: " ++ pw ++ [LF]).
  - intros E. assert (Hgen : forall pw, match HashPassword t pw with Ok hash => Ok ([] ++ lit "passwordHash: " ++ hash ++ [LF])
      | Err e => Err e end = Ok out -> exists hash, out = [] ++ lit "passwordHash: " ++ hash ++ [LF] /\
      bcrypt_Compare hash pw = true /\ UsableHash hash = true).
    { intros pw. destruct (HashPassword t pw) as [h|] eqn:Eh; [|done]. intros [= <-].
      destruct (HashPassword_is_usable _ _ _ Eh). by exists h. }
    destruct args as [|a [|b args]].
    + destruct (ReadString stdin) as [line eof]. destruct (eof && _); [done|].
      destruct (Hgen _ E) as (h & ? & ? & ?). exists (TrimRight line [CR; LF]), h, []. cbn. by split_and!; auto.
    + destruct (Hgen _ E) as (h & ? & ? & ?). exists a, h, []. by split_and!; auto.
    + destruct (ReadString stdin) as [line eof]. destruct (eof && _); [done|].
      destruct (Hgen _ E) as (h & ? & ? & ?). exists (TrimRight line [CR; LF]), h, []. cbn. by split_and!; auto.
Qed.
End HashFacts.

(** ** Witness *)

(** A system where only the write fails, half way. *)
Definition half_written : FileSystem := {|
  sys_umask := 0; sys_open _ := None; sys_chmod _ := None;
  sys_write _ := Some (2%nat, EText (lit "no space")); sys_close _ := None
|}.

Lemma never_exposed_witness :
  @writePrivateKey half_written (lit "k") (lit "KEY") {[lit "k" := (420, lit "old")]} =
    (Some (EWrap (lit "write k") (EText (lit "no space"))), {[lit "k" := (384, lit "KE")]}) /\
  exists mode data, ({[lit "k" := (384, lit "KE")]} : files) !! lit "k" = Some (mode, data) /\ (data = [] \/ mode = 384).
Proof.
  assert (E : @writePrivateKey half_written (lit "k") (lit "KEY") {[lit "k" := (420, lit "old")]} =
    (Some (EWrap (lit "write k") (EText (lit "no space"))), {[lit "k" := (384, lit "KE")]})) by reflexivity.
  split; [exact E|].
  destruct (@private_key_is_never_exposed half_written _ _ _ _ _ E) as (_ & [Hsame|Hf] & _); [|exact Hf].
  exists 384, (lit "KE"). split; [reflexivity|by right].
Defined.
