(* ===== verification/Pki.v ===== *)
(** * Pki: throwaway certificates, and the local stack they are for

    Models [src/internal/pki/pki.go] (a certificate authority and the server
    certificates it issues) and [src/hack/gencerts/main.go] (the files the
    docker-compose stack starts from). The keys, the signatures and the encodings
    are parameters; the theorems put the files in front of the gateway's own
    certificate store. *)

From S2P Require Import Prelude Unicode GoStrings GoNet GoIP GoTime Message World Spool Passwords Config TlsStore.
From S2P Require Import Milter Dkim DkimGen Api Access Render Commands.
Import DkimGen Filepath Commands.
#[local] Open Scope Z_scope.
#[local] Set Default Proof Using "Type*".

(** ** crypto/x509 *)

(** The fields of [x509.Certificate] the code sets. *)
Record certificate := mkCert {
  c_SerialNumber : Z;
  c_Subject : bytes;              (* the common name *)
  c_NotBefore : Z;
  c_NotAfter : Z;
  c_KeyUsage : Z;
  c_ExtKeyUsage : list Z;
  c_BasicConstraintsValid : bool;
  c_IsCA : bool;
  c_IPAddresses : list (list Z);
  c_DNSNames : list bytes
}.

Definition KeyUsageDigitalSignature : Z := 1.
Definition KeyUsageKeyEncipherment : Z := 4.
Definition KeyUsageCertSign : Z := 32.
Definition ExtKeyUsageServerAuth : Z := 1.

Definition ecKey : Type := bytes.

(** crypto/ecdsa, crypto/rand, crypto/x509 and the clock; the first argument
    numbers the calls. A certificate is made from a template, its parent, its own
    key and the one that signs it. *)
Class X509 := {
  ecdsa_GenerateKey : nat -> result ecKey;
  rand_Int : nat -> Z -> result Z;
  time_Now : nat -> Z;
  CreateCertificate : nat -> certificate -> certificate -> ecKey -> ecKey -> result bytes;
  x509_ParseCertificate : bytes -> result certificate
}.

(** A name a certificate can carry. *)
Definition hostByte (c : ascii) : bool :=
  is_digit c || ((97 <=? lower_byte c) && (lower_byte c <=? 122)) || (c =b chr 45) || (c =b chr 46) || (c =b chr 42)
    || (c =b chr 95).
Definition hostName (n : bytes) : bool := (n <>b []) && forallb hostByte n.

(** What the packages document: a number drawn is below the limit; a certificate
    and the key it was made for are a pair, and the certificate parses with the
    names of its template. *)
Class X509Sound (X : X509) (K : KeyGen) (P : Pki) := {
  rand_below t limit n : rand_Int t limit = Ok n -> 0 <= n < limit;
  created_pairs t tmpl parent key signer der kder :
    CreateCertificate t tmpl parent key signer = Ok der ->
    MarshalPKCS8PrivateKey (OtherKey key) = Ok kder ->
    X509KeyPair (pem_EncodeToMemory (lit "CERTIFICATE") der) (pem_EncodeToMemory (lit "PRIVATE KEY") kder) = Ok der;
  created_parses t tmpl parent key signer der :
    CreateCertificate t tmpl parent key signer = Ok der -> forallb hostName (c_DNSNames tmpl) = true ->
    ParseCertificate der = Ok (mkLeaf (c_DNSNames tmpl) (c_Subject tmpl))
}.

Module PkiGen.

(** ** pki.go *)

Record CA := mkCA { ca_CertPEM : bytes; ca_KeyPEM : bytes; ca_cert : certificate; ca_key : ecKey }.
Record KeyPair := mkKeyPair { kp_CertPEM : bytes; kp_KeyPEM : bytes }.

(** The loop of [Issue] over the names: addresses and host names. *)
Fixpoint sortNames (names : list bytes) (ips : list (list Z)) (dns : list bytes) : list (list Z) * list bytes :=
  match names with
  | [] => (ips, dns)
  | n :: names =>
      match ParseIP n with
      | Some ip => sortNames names (ips ++ [ip]) dns
      | None => sortNames names ips (dns ++ [n])
      end
  end.

(** The common name: [names[0]], if there is one. *)
Definition firstName (names : list bytes) : bytes := match names with n :: _ => n | [] => [] end.

Section Ops.
Context `{KeyGen} `{X509}.

Definition encodeKey (key : ecKey) : result bytes :=
  match MarshalPKCS8PrivateKey (OtherKey key) with
  | Err e => Err (EWrap (lit "marshal key") e)
  | Ok der => Ok (pem_EncodeToMemory (lit "PRIVATE KEY") der)
  end.

Definition serial (t : nat) : Z :=
  let limit := Z.shiftl 1 128 in
  match rand_Int t limit with
  | Err _ => 1
  | Ok n => n
  end.

Definition caTemplate (t : nat) (commonName : bytes) : certificate :=
  mkCert (serial t) commonName (time_Now (2 * t) - 3600 * 10 ^ 9) (AddYears (time_Now (2 * t + 1)) 1)
    (Z.lor KeyUsageCertSign KeyUsageDigitalSignature) [] true true [] [].

Definition NewCA (t : nat) (commonName : bytes) : result CA :=
  match ecdsa_GenerateKey t with
  | Err e => Err (EWrap (lit "generate CA key") e)
  | Ok key =>
      let tmpl := caTemplate t commonName in
      match CreateCertificate t tmpl tmpl key key with
      | Err e => Err (EWrap (lit "self-sign CA") e)
      | Ok der =>
          match x509_ParseCertificate der with
          | Err e => Err (EWrap (lit "parse CA") e)
          | Ok cert =>
              match encodeKey key with
              | Err e => Err e
              | Ok keyPEM => Ok (mkCA (pem_EncodeToMemory (lit "CERTIFICATE") der) keyPEM cert key)
              end
          end
      end
  end.

Definition serverTemplate (t : nat) (names : list bytes) : certificate :=
  let '(ips, dns) := sortNames names [] [] in
  mkCert (serial t) (firstName names)
    (time_Now (2 * t) - 3600 * 10 ^ 9) (AddYears (time_Now (2 * t + 1)) 1)
    (Z.lor KeyUsageDigitalSignature KeyUsageKeyEncipherment) [ExtKeyUsageServerAuth] false false ips dns.

Definition Issue (t : nat) (ca : CA) (names : list bytes) : result KeyPair :=
  match ecdsa_GenerateKey t with
  | Err e => Err (EWrap (lit "generate key") e)
  | Ok key =>
      match CreateCertificate t (serverTemplate t names) (ca_cert ca) key (ca_key ca) with
      | Err e => Err (EWrap (lit "sign certificate") e)
      | Ok der =>
          match encodeKey key with
          | Err e => Err e
          | Ok keyPEM => Ok (mkKeyPair (pem_EncodeToMemory (lit "CERTIFICATE") der) keyPEM)
          end
      end
  end.
End Ops.

Section Files.
Context `{FileSystem}.

(** [os.WriteFile]: the file is closed even when the write failed. *)
Definition WriteFile (path data : bytes) (perm : Z) (fs : files) : option goerror * files :=
  match openTruncate path perm fs with
  | (Some e, fs) => (Some e, fs)
  | (None, fs) =>
      match writeString path data fs with
      | (Some e, fs) => (Some e, fs)
      | (None, fs) => (sys_close path, fs)
      end
  end.

Definition certPath (dir name : bytes) : bytes := Join [dir; name ++ lit ".crt"].
Definition keyPath (dir name : bytes) : bytes := Join [dir; name ++ lit ".key"].

(** The two paths are the result when both files are written. *)
Definition WriteFiles (kp : KeyPair) (dir name : bytes) (fs : files) : result (bytes * bytes) * files :=
  match WriteFile (certPath dir name) (kp_CertPEM kp) 420 fs with   (* 0o644 *)
  | (Some e, fs) => (Err e, fs)
  | (None, fs) =>
      match WriteFile (keyPath dir name) (kp_KeyPEM kp) 384 fs with   (* 0o600 *)
      | (Some e, fs) => (Err e, fs)
      | (None, fs) => (Ok (certPath dir name, keyPath dir name), fs)
      end
  end.

(** ** gencerts *)

(** [strings.Split(s, ",")]. *)
Fixpoint SplitComma (s : bytes) : list bytes :=
  match s with
  | [] => [[]]
  | c :: s' =>
      if c =b chr 44 then [] :: SplitComma s'
      else match SplitComma s' with
           | [] => [[c]]
           | e :: es => (c :: e) :: es
           end
  end.

(** A pair written, and its key given the mode asked for. *)
Definition writePair (kp : KeyPair) (dir name : bytes) (keyMode : Z) (fs : files) : option goerror * files :=
  match WriteFiles kp dir name fs with
  | (Err e, fs) => (Some e, fs)
  | (Ok (_, keyFile), fs) => chmod keyFile keyMode fs
  end.

Context `{KeyGen} `{X509}.

(** What [os.MkdirAll] answers is the first argument. The authority is the call
    0, the two certificates are 1 and 2. The messages it prints are left out. *)
Definition run (mkdir : option goerror) (dir names altNames : bytes) (keyMode : Z) (fs : files)
    : option goerror * files :=
  match mkdir with
  | Some e => (Some e, fs)
  | None =>
      match NewCA 0 (lit "mailout local dev") with
      | Err e => (Some e, fs)
      | Ok ca =>
          match WriteFile (dir ++ lit "/ca.crt") (ca_CertPEM ca) 420 fs with
          | (Some e, fs) => (Some e, fs)
          | (None, fs) =>
              match Issue 1 ca (SplitComma names) with
              | Err e => (Some e, fs)
              | Ok primary =>
                  match writePair primary dir (lit "gateway") keyMode fs with
                  | (Some e, fs) => (Some e, fs)
                  | (None, fs) =>
                      if altNames <>b [] then
                        match Issue 2 ca (SplitComma altNames) with
                        | Err e => (Some e, fs)
                        | Ok alt => writePair alt dir (lit "gateway-alt") keyMode fs
                        end
                      else (None, fs)
                  end
              end
          end
      end
  end.
End Files.
End PkiGen.
Import PkiGen.

(** ** Lemmas *)

Lemma sortNames_spec names : forall ips dns,
  sortNames names ips dns = (ips ++ omap ParseIP names, dns ++ List.filter (λ n, ParseIP n =b None) names).
Proof.
  induction names as [|n names IH]; intros ips dns; cbn [sortNames omap list_omap List.filter]; [by rewrite !app_nil_r|].
  destruct (ParseIP n) as [ip|] eqn:E; rewrite IH; cbn.
  - by rewrite <- app_assoc.
  - by rewrite <- app_assoc.
Qed.

(** The host names of a list of names. *)
Definition hostsOf (names : list bytes) : list bytes := List.filter (λ n, ParseIP n =b None) names.

(** The path of a file of the directory, when the directory is written without
    redundant elements. *)
Definition stackFiles : list bytes :=
  [lit "ca.crt"; lit "gateway.crt"; lit "gateway.key"; lit "gateway-alt.crt"; lit "gateway-alt.key"].
Definition cleanDir (dir : bytes) : bool :=
  (dir <>b []) && forallb (λ n, Join [dir; n] =b dir ++ SLASH :: n) stackFiles.

Section FileFacts.
Context `{FileSystem}.

Lemma WriteFile_ok path data perm fs fs' :
  WriteFile path data perm fs = (None, fs') ->
  (exists mode, fs' !! path = Some (mode, data)) /\ forall p, p <> path -> fs' !! p = fs !! p.
Proof.
  unfold WriteFile, openTruncate, writeString. destruct (sys_open path); [done|].
  destruct (sys_write path) as [[n e]|]; [done|]. intros [= _ <-]. split.
  - rewrite lookup_alter_eq, lookup_insert_eq. by eexists.
  - intros p Hp. by rewrite lookup_alter_ne, lookup_insert_ne.
Qed.

Lemma writePair_ok kp dir name keyMode fs fs' :
  writePair kp dir name keyMode fs = (None, fs') -> certPath dir name <> keyPath dir name ->
  (exists mode, fs' !! certPath dir name = Some (mode, kp_CertPEM kp)) /\
  fs' !! keyPath dir name = Some (keyMode, kp_KeyPEM kp) /\
  forall p, p <> certPath dir name -> p <> keyPath dir name -> fs' !! p = fs !! p.
Proof.
  unfold writePair, WriteFiles. destruct (WriteFile (certPath dir name) _ _ fs) as [[e|] fs1] eqn:E1; [done|].
  destruct (WriteFile (keyPath dir name) _ _ fs1) as [[e|] fs2] eqn:E2; [done|].
  apply WriteFile_ok in E1 as ([m1 H1] & Ho1). apply WriteFile_ok in E2 as ([m2 H2] & Ho2).
  unfold chmod. destruct (sys_chmod _); [done|]. intros [= <-] Hne. split_and!.
  - exists m1. by rewrite lookup_alter_ne, Ho2.
  - by rewrite lookup_alter_eq, H2.
  - intros p Hc Hk. by rewrite lookup_alter_ne, Ho2, Ho1.
Qed.
End FileFacts.

Lemma stack_paths dir : cleanDir dir = true ->
  certPath dir (lit "gateway") = dir ++ lit "/gateway.crt" /\ keyPath dir (lit "gateway") = dir ++ lit "/gateway.key" /\
  certPath dir (lit "gateway-alt") = dir ++ lit "/gateway-alt.crt" /\
  keyPath dir (lit "gateway-alt") = dir ++ lit "/gateway-alt.key".
Proof.
  unfold cleanDir, stackFiles. cbn [forallb]. rewrite !andb_true_iff, !bool_decide_eq_true.
  intros (_ & _ & H1 & H2 & H3 & H4 & _). done.
Qed.

(** The gateway's view of the files. *)
Definition pkiOn (P : Pki) (fs : files) : Pki := {|
  ReadFile p := match fs !! p with Some (_, data) => Ok data | None => Err (EText (lit "no such file")) end;
  X509KeyPair := @X509KeyPair P;
  ParseCertificate := @ParseCertificate P
|}.

Section Served.
Context `{K : KeyGen} `{X : X509} `{P : Pki} `{!X509Sound X K P}.

(** What [Issue] returns loads as a certificate with the names it was asked for. *)
Lemma issued_loads t ca names kp fs ref i mode kmode :
  Issue t ca names = Ok kp -> forallb hostName (hostsOf names) = true ->
  CertFile ref <> [] -> fs !! CertFile ref = Some (mode, kp_CertPEM kp) -> fs !! KeyFile ref = Some (kmode, kp_KeyPEM kp) ->
  exists c, TlsStore.load (H := pkiOn P fs) i ref = Ok c /\
    Leaf c = mkLeaf (hostsOf names) (firstName names).
Proof.
  unfold Issue. destruct (ecdsa_GenerateKey t) as [key|]; [|done].
  destruct (CreateCertificate _ _ _ _ _) as [der|] eqn:Ec; [|done]. unfold encodeKey.
  destruct (MarshalPKCS8PrivateKey (OtherKey key)) as [kder|] eqn:Ek; [|done].
  intros [= <-] Hn Hne Hc Hk. cbn in Hc, Hk.
  assert (Hd : c_DNSNames (serverTemplate t names) = hostsOf names) by (unfold serverTemplate; by rewrite sortNames_spec).
  exists (mkCertificate der (mkLeaf (hostsOf names) (firstName names))). split; [|done].
  unfold TlsStore.load, TlsStore.loadKeyPair. rewrite bool_decide_eq_false_2 by done. cbn [negb ReadFile X509KeyPair ParseCertificate pkiOn].
  rewrite Hc, Hk, (created_pairs _ _ _ _ _ _ _ Ec Ek), (created_parses _ _ _ _ _ _ Ec) by by rewrite Hd.
  rewrite Hd. do 3 f_equal. unfold serverTemplate. by rewrite sortNames_spec.
Qed.
End Served.

(** The configuration of the stack: the two pairs of the directory. *)
Definition stackTLS (dir : bytes) : TLSConfig :=
  mkTLSConfig
    [mkCertificateRef (lit "gateway") (certPath dir (lit "gateway")) (keyPath dir (lit "gateway")) [] [];
     mkCertificateRef (lit "gateway-alt") (certPath dir (lit "gateway-alt")) (keyPath dir (lit "gateway-alt")) [] []] [].

Section Stack.
Context `{F : FileSystem} `{K : KeyGen} `{X : X509} `{P : Pki} `{U : Unicode}.

(** The files a run with two sets of names leaves. *)
Lemma run_files dir names altNames keyMode fs fs' :
  run None dir names altNames keyMode fs = (None, fs') -> altNames <> [] -> cleanDir dir = true ->
  exists ca primary alt m0 m1 m2,
    NewCA 0 (lit "mailout local dev") = Ok ca /\
    Issue 1 ca (SplitComma names) = Ok primary /\ Issue 2 ca (SplitComma altNames) = Ok alt /\
    fs' !! (dir ++ lit "/ca.crt") = Some (m0, ca_CertPEM ca) /\
    fs' !! certPath dir (lit "gateway") = Some (m1, kp_CertPEM primary) /\
    fs' !! keyPath dir (lit "gateway") = Some (keyMode, kp_KeyPEM primary) /\
    fs' !! certPath dir (lit "gateway-alt") = Some (m2, kp_CertPEM alt) /\
    fs' !! keyPath dir (lit "gateway-alt") = Some (keyMode, kp_KeyPEM alt) /\
    forall p, p ∉ (λ n, dir ++ SLASH :: n) <$> stackFiles -> fs' !! p = fs !! p.
Proof.
  intros Hr Ha Hd. unfold run in Hr. destruct (NewCA _ _) as [ca|] eqn:Eca; [|done].
  destruct (WriteFile _ _ _ fs) as [[e|] fs1] eqn:E1; [done|].
  destruct (Issue 1 ca _) as [primary|] eqn:Ep; [|done].
  destruct (writePair primary _ _ _ fs1) as [[e|] fs2] eqn:E2; [done|].
  rewrite bool_decide_eq_false_2 in Hr by done. cbn [negb] in Hr.
  destruct (Issue 2 ca _) as [alt|] eqn:Eal; [|done].
  apply WriteFile_ok in E1 as ([m0 H0] & Ho0).
  destruct (stack_paths dir Hd) as (P1 & P2 & P3 & P4).
  assert (Hpaths : forall a b, lit a <> lit b -> dir ++ lit a <> dir ++ lit b)
    by (intros a b Hab Hab'; by apply app_inv_head in Hab').
  apply writePair_ok in E2 as ([m1 H1] & H2 & Ho2); [|by rewrite P1, P2; apply Hpaths].
  apply writePair_ok in Hr as ([m2 H3] & H4 & Ho4); [|by rewrite P3, P4; apply Hpaths].
  rewrite P1, P2, P3, P4 in *.
  exists ca, primary, alt, m0, m1, m2. split_and!; try done.
  - by rewrite Ho4, Ho2 by (by apply Hpaths).
  - by rewrite Ho4 by (by apply Hpaths).
  - by rewrite Ho4 by (by apply Hpaths).
  - intros p Hp. cbn in Hp. rewrite !not_elem_of_cons in Hp. destruct Hp as (? & ? & ? & ? & ? & _).
    by rewrite Ho4, Ho2, Ho0.
Qed.

(** The local stack works: when [gencerts] succeeds with two lists of names, it
    leaves in its directory the authority's certificate and two pairs, the keys
    under the mode asked for, and touches nothing else. A gateway configured with
    the two pairs starts; it answers each host name of the second list with the
    second certificate, each one of the first list only with the first, and the
    certificates carry exactly the host names asked for. *)
Theorem local_stack_serves_its_names `{!X509Sound X K P} (dir names altNames : bytes) (keyMode : Z) (fs fs' : files) :
  run None dir names altNames keyMode fs = (None, fs') -> altNames <> [] -> cleanDir dir = true ->
  forallb hostName (hostsOf (SplitComma names)) = true -> forallb hostName (hostsOf (SplitComma altNames)) = true ->
  (forall p, p ∉ (λ n, dir ++ SLASH :: n) <$> stackFiles -> fs' !! p = fs !! p) /\
  (forall name, name ∈ [lit "gateway"; lit "gateway-alt"] -> exists data, fs' !! keyPath dir name = Some (keyMode, data)) /\
  exists s primary alt,
    TlsStore.newCertStore (H := pkiOn P fs') (stackTLS dir) = Ok s /\
    Leaf primary = mkLeaf (hostsOf (SplitComma names)) (firstName (SplitComma names)) /\
    Leaf alt = mkLeaf (hostsOf (SplitComma altNames)) (firstName (SplitComma altNames)) /\
    forall sni,
      let name := ToLower (TrimSuffix sni [TlsStore.DOT]) in
      (name ∈ TlsStore.exactNames alt -> TlsStore.getCertificate s sni = alt) /\
      (name ∉ TlsStore.exactNames alt -> name ∈ TlsStore.exactNames primary -> TlsStore.getCertificate s sni = primary).
Proof.
  intros Hr Ha Hd Hn1 Hn2.
  destruct (run_files _ _ _ _ _ _ Hr Ha Hd) as (ca & p & a & m0 & m1 & m2 & Eca & Ep & Ea & H0 & H1 & H2 & H3 & H4 & Ho).
  split; [done|]. split.
  { intros n. rewrite !elem_of_cons. intros [->|[->|Hn]]; [by eexists..|by apply not_elem_of_nil in Hn]. }
  destruct (stack_paths dir Hd) as (P1 & P2 & P3 & P4).
  assert (Hne : forall x, dir ++ x <> []).
  { intros x. unfold cleanDir in Hd. bools. by destruct dir. }
  destruct (issued_loads 1 ca (SplitComma names) p fs' (mkCertificateRef (lit "gateway") (certPath dir (lit "gateway"))
    (keyPath dir (lit "gateway")) [] []) 0 m1 keyMode) as (c1 & L1 & N1); [done..|by cbn [CertFile]; rewrite P1|done|done|].
  destruct (issued_loads 2 ca (SplitComma altNames) a fs' (mkCertificateRef (lit "gateway-alt") (certPath dir (lit "gateway-alt"))
    (keyPath dir (lit "gateway-alt")) [] []) (0 + 1) m2 keyMode) as (c2 & L2 & N2); [done..|by cbn [CertFile]; rewrite P3|done|done|].
  unfold TlsStore.newCertStore, stackTLS. cbn [Certificates length Nat.eqb TlsStore.certLoop DefaultCertificate].
  rewrite L1, L2. cbv zeta. cbn [Z.eqb TlsStore.certLoop].
  eexists _, c1, c2. split; [reflexivity|]. split; [exact N1|]. split; [exact N2|].
  intros sni. cbv zeta. unfold TlsStore.getCertificate. cbn [TlsStore.byName].
  set (name := ToLower (TrimSuffix sni [TlsStore.DOT])).
  rewrite (proj1 (TlsStore.addNames_lookup c2 _ _ name)), (proj1 (TlsStore.addNames_lookup c1 _ _ name)).
  fold (TlsStore.exactNames c1). fold (TlsStore.exactNames c2). split.
  - intros Hin. by rewrite bool_decide_eq_true_2.
  - intros Hn Hin. rewrite bool_decide_eq_false_2 by done. by rewrite bool_decide_eq_true_2.
Qed.

(** What is issued is a server certificate and no more: it cannot sign others,
    its serial number fits in 128 bits, it lists every address and every host
    name asked for in order, and it is valid from an hour before it was made to
    365 or 366 days after. The authority's own can sign. *)
Theorem issued_certificate_is_limited `{!X509Sound X K P} (t : nat) (names : list bytes) (cn : bytes) :
  let c := serverTemplate t names in
  c_IsCA c = false /\ Z.land (c_KeyUsage c) KeyUsageCertSign = 0 /\ c_ExtKeyUsage c = [ExtKeyUsageServerAuth] /\
  0 <= c_SerialNumber c < 2 ^ 128 /\
  c_IPAddresses c = omap ParseIP names /\ c_DNSNames c = hostsOf names /\
  c_NotBefore c = time_Now (2 * t) - 3600 * 10 ^ 9 /\
  (c_NotAfter c = time_Now (2 * t + 1) + 365 * dayNanos \/ c_NotAfter c = time_Now (2 * t + 1) + 366 * dayNanos) /\
  c_IsCA (caTemplate t cn) = true /\ Z.land (c_KeyUsage (caTemplate t cn)) KeyUsageCertSign = KeyUsageCertSign.
Proof.
  unfold serverTemplate. rewrite sortNames_spec. cbn [c_IsCA c_KeyUsage c_ExtKeyUsage c_SerialNumber c_IPAddresses
    c_DNSNames c_NotBefore c_NotAfter app]. cbv zeta. split_and!; try done.
  - unfold serial. destruct (rand_Int t _) as [n|] eqn:E; [|lia]. apply rand_below in E as [? _]. done.
  - unfold serial. destruct (rand_Int t _) as [n|] eqn:E; [|by vm_compute]. apply rand_below in E as [_ ?]. done.
  - apply AddYears_one.
Qed.
End Stack.

(** ** Witness *)

(** A certificate whose encoding is its names, separated by commas, then a new
    line and its common name. *)
Fixpoint joinComma (names : list bytes) : bytes :=
  match names with
  | [] => []
  | [n] => n
  | n :: names => n ++ chr 44 :: joinComma names
  end.

Definition toy_der (c : certificate) : bytes := joinComma (c_DNSNames c) ++ LF :: c_Subject c.

Definition toy_leaf (der : bytes) : leafCert :=
  let '(names, cn, _) := Cut der LF in mkLeaf (if names =b [] then [] else SplitComma names) cn.

Lemma SplitComma_nonempty s : SplitComma s <> [].
Proof. destruct s as [|c s]; [done|]. cbn. destruct (c =b chr 44); [done|]. by destruct (SplitComma s). Qed.

Lemma SplitComma_app n s : chr 44 ∉ n -> SplitComma (n ++ s) =
  match SplitComma s with e :: es => (n ++ e) :: es | [] => [n] end.
Proof.
  induction n as [|c n IH]; cbn [app SplitComma]; intros Hn.
  - pose proof (SplitComma_nonempty s). by destruct (SplitComma s).
  - apply not_elem_of_cons in Hn as [Hc Hn]. rewrite bool_decide_eq_false_2 by congruence.
    rewrite IH by done. by destruct (SplitComma s).
Qed.

Lemma SplitComma_join names :
  names <> [] -> Forall (λ n, chr 44 ∉ n) names -> SplitComma (joinComma names) = names.
Proof.
  induction names as [|n [|m names] IH]; intros Hne Hf; [done| |]; apply Forall_cons in Hf as [Hn Hf].
  - cbn [joinComma]. rewrite <- (app_nil_r n) at 1. rewrite SplitComma_app by done. cbn. by rewrite app_nil_r.
  - change (joinComma (n :: m :: names)) with (n ++ chr 44 :: joinComma (m :: names)).
    rewrite SplitComma_app by done. cbn [SplitComma]. rewrite bool_decide_eq_true_2 by done.
    by rewrite IH, app_nil_r.
Qed.

Lemma hostName_bytes n c : hostName n = true -> c ∈ n -> hostByte c = true.
Proof. unfold hostName. intros H Hc. bools. rewrite forallb_forall in H0. by apply H0, list_elem_of_In. Qed.

Lemma joinComma_avoids names : forallb hostName names = true -> LF ∉ joinComma names.
Proof.
  induction names as [|n [|m names] IH]; intros H; [by apply not_elem_of_nil| |].
  - cbn in H. bools. intros Hc. by eapply hostName_bytes in Hc.
  - change (joinComma (n :: m :: names)) with (n ++ chr 44 :: joinComma (m :: names)).
    cbn [forallb] in H. apply andb_prop in H as [H1 H2]. rewrite elem_of_app, elem_of_cons.
    intros [Hc|[Hc|Hc]]; [by eapply hostName_bytes in Hc|done|by apply IH].
Qed.

Lemma toy_leaf_der c : forallb hostName (c_DNSNames c) = true -> toy_leaf (toy_der c) = mkLeaf (c_DNSNames c) (c_Subject c).
Proof.
  intros H. unfold toy_leaf, toy_der.
  rewrite Cut_at by by apply joinComma_avoids. f_equal. destruct (c_DNSNames c) as [|n names] eqn:E; [done|].
  rewrite bool_decide_eq_false_2.
  - apply SplitComma_join; [done|]. apply Forall_forall. intros x Hx Hc. rewrite forallb_forall in H.
    apply list_elem_of_In, H in Hx. by eapply hostName_bytes in Hc.
  - cbn in H. bools. unfold hostName in H. bools. destruct n; [done|]. by destruct names.
Qed.

Definition toy_x509 : X509 := {|
  ecdsa_GenerateKey t := Ok (itoa (Z.of_nat t));
  rand_Int t limit := if 7 <? limit then Ok 7 else Err (EText (lit "rand"));
  time_Now t := 0;
  CreateCertificate t tmpl parent key signer := Ok (toy_der tmpl);
  x509_ParseCertificate der := Ok (mkCert 7 [] 0 0 0 [] true true [] [])
|}.

Definition toy_keygen : KeyGen := {|
  rsa_GenerateKey t bits := Err (EText []);
  ed25519_GenerateKey t := Err (EText []);
  MarshalPKCS8PrivateKey key := Ok (lit "key");
  MarshalPKIXPublicKey key := Err (EText []);
  pem_EncodeToMemory type der := der
|}.

Definition leaf_pki : Pki := {|
  ReadFile p := Err (EText []);
  X509KeyPair c k := Ok c;
  ParseCertificate der := Ok (toy_leaf der)
|}.

Definition toy_x509_sound : X509Sound toy_x509 toy_keygen leaf_pki.
Proof.
  split.
  - cbn. intros t limit n. destruct (7 <? limit) eqn:E; [|done]. intros [= <-]. bools. lia.
  - cbn. by intros t tmpl parent key signer der kder [= <-] _.
  - cbn. intros t tmpl parent key signer der [= <-] Hn. by rewrite toy_leaf_der.
Defined.

Definition quiet_disk : FileSystem := {|
  sys_umask := 18; sys_open _ := None; sys_chmod _ := None; sys_write _ := None; sys_close _ := None
|}.

Definition toy_dir : bytes := lit "deploy/compose/certs".
Definition toy_names : bytes := lit "mailout.test,localhost,127.0.0.1".
Definition toy_altNames : bytes := lit "alt.mailout.test".
Definition toy_run : option goerror * files :=
  @run quiet_disk toy_keygen toy_x509 None toy_dir toy_names toy_altNames 420 ∅.

Lemma pair_with {A B} (p : A * B) a : p.1 = a -> p = (a, p.2).
Proof. destruct p. cbn. by intros ->. Defined.

Lemma local_stack_witness :
  toy_run.1 = None /\
  exists s primary alt,
    @TlsStore.newCertStore (pkiOn leaf_pki toy_run.2) unicode14 (stackTLS toy_dir) = Ok s /\
    Leaf primary = mkLeaf [lit "mailout.test"; lit "localhost"] (lit "mailout.test") /\
    TlsStore.getCertificate s (lit "LOCALHOST") = primary /\
    TlsStore.getCertificate s (lit "alt.mailout.test.") = alt.
Proof.
  assert (Hok : toy_run.1 = None) by (vm_compute; reflexivity). split; [exact Hok|].
  destruct (@local_stack_serves_its_names quiet_disk toy_keygen toy_x509 leaf_pki unicode14 toy_x509_sound
    toy_dir toy_names toy_altNames 420 ∅ toy_run.2) as (_ & _ & s & primary & alt & Es & E1 & E2 & Hs);
    [exact (pair_with toy_run None Hok)|discriminate|vm_compute; reflexivity..|].
  exists s, primary, alt. split; [exact Es|]. split; [rewrite E1; vm_compute; reflexivity|].
  assert (Hx1 : TlsStore.exactNames primary = [lit "mailout.test"; lit "localhost"])
    by (unfold TlsStore.exactNames; rewrite E1; vm_compute; reflexivity).
  assert (Hx2 : TlsStore.exactNames alt = [lit "alt.mailout.test"])
    by (unfold TlsStore.exactNames; rewrite E2; vm_compute; reflexivity).
  split; apply (Hs _); rewrite ?Hx1, ?Hx2; apply (bool_decide_unpack _); vm_compute; exact I.
Defined.
