(* ===== verification/Manager.v ===== *)
(** * Manager: how the operator is put together

    Models the [operator] command of [src/cmd/mailout/operator.go] and what it
    registers: [SetupWithManager] of both controllers, the webhooks of
    [src/internal/webhook/v1alpha1] and the discovery of optional APIs. A
    controller is its list of watches; a change of an object is delivered to a
    watch through the manager's cache, which shows a Secret only if it has the
    operator's label, and turned into the keys to reconcile. Queues, retries
    after an error and leader election are controller-runtime's. *)

From S2P Require Import Prelude Unicode GoStrings GoNet Policy Passwords Config.
From S2P Require Import Api Access Render Webhook Objects Cache Controllerutil AccountController GatewayController Commands.
Import Access Render Objects Cache.
#[local] Open Scope Z_scope.
#[local] Set Default Proof Using "Type*".

Module Manager.

(** ** Watches *)

Section Watches.
Context `{Selectors}.

(** An object of a kind the operator watches. *)
Inductive object :=
| OGateway (gw : MailoutGateway)
| OAccount (account : MailoutAccount)
| OSecret (secret : Secret)
| ODeployment (o : owned Deployment)
| OService (o : owned Service)
| ONetworkPolicy (o : owned NetworkPolicy)
| OCertificate (o : owned Certificate)
| OServiceMonitor (o : owned ServiceMonitor).

Inductive kind :=
| KGateway | KAccount | KSecret | KDeployment | KService | KNetworkPolicy | KCertificate | KServiceMonitor.

Definition kindOf (o : object) : kind :=
  match o with
  | OGateway _ => KGateway
  | OAccount _ => KAccount
  | OSecret _ => KSecret
  | ODeployment _ => KDeployment
  | OService _ => KService
  | ONetworkPolicy _ => KNetworkPolicy
  | OCertificate _ => KCertificate
  | OServiceMonitor _ => KServiceMonitor
  end.

Definition keyOf (o : object) : ObjectKey :=
  match o with
  | OGateway gw => (Namespace (g_meta gw), Name (g_meta gw))
  | OAccount a => (Namespace (a_meta a), Name (a_meta a))
  | OSecret s => (s_Namespace s, s_Name s)
  | ODeployment o => (dep_Namespace o.1, dep_Name o.1)
  | OService o => (svc_Namespace o.1, svc_Name o.1)
  | ONetworkPolicy o => (npol_Namespace o.1, npol_Name o.1)
  | OCertificate o => (crt_Namespace o.1, crt_Name o.1)
  | OServiceMonitor o => (sm_Namespace o.1, sm_Name o.1)
  end.

(** Nothing owns a gateway or an account. *)
Definition ownersOf (o : object) : list (bytes * bytes) :=
  match o with
  | OGateway _ | OAccount _ => []
  | OSecret s => OwnerReferences s
  | ODeployment o => o.2
  | OService o => o.2
  | ONetworkPolicy o => o.2
  | OCertificate o => o.2
  | OServiceMonitor o => o.2
  end.

(** [For], [Owns] and [Watches] with a map function. *)
Inductive handler :=
| EnqueueRequestForObject
| EnqueueRequestForOwner (ownerKind : bytes)
| EnqueueRequestsFromMapFunc (f : object -> list ObjectKey).

Record watch := mkWatch { w_kind : kind; w_handler : handler }.

#[export] Instance kind_eq_dec : EqDecision kind.
Proof. solve_decision. Defined.

(** A change: the object before and after it, when it exists. *)
Record change := mkChange { before : option object; after : option object }.

(** What the cache shows of an object. *)
Definition cached (o : object) : option object :=
  match o with
  | OSecret s => if selected s then Some (OSecret (keepOnlyCredentialKeys s)) else None
  | _ => Some o
  end.

(** An update is delivered with both states, a creation or deletion with one. *)
Definition delivered (c : change) : list object :=
  omap cached (option_list (before c) ++ option_list (after c)).

(** *** SetupWithManager *)

Definition mapAccountSecret (r : GatewayController.GatewayReconciler) (o : object) : list ObjectKey :=
  match o with OSecret s => GatewayController.gatewayForAccountSecret r s | _ => [] end.

Definition mapAccount (r : GatewayController.GatewayReconciler) (o : object) : list ObjectKey :=
  match o with OAccount a => GatewayController.gatewayForAccount r a | _ => [] end.

Definition gatewayWatches (r : GatewayController.GatewayReconciler) : list watch :=
  let owns k := mkWatch k (EnqueueRequestForOwner (lit "MailoutGateway")) in
  [mkWatch KGateway EnqueueRequestForObject; owns KDeployment; owns KService; owns KNetworkPolicy; owns KSecret;
   mkWatch KAccount (EnqueueRequestsFromMapFunc (mapAccount r));
   mkWatch KSecret (EnqueueRequestsFromMapFunc (mapAccountSecret r))] ++
  (if GatewayController.CertManagerAvailable r then [owns KCertificate] else []) ++
  (if GatewayController.PrometheusOperatorAvailable r then [owns KServiceMonitor] else []).

Definition accountWatches : list watch :=
  [mkWatch KAccount EnqueueRequestForObject; mkWatch KSecret (EnqueueRequestForOwner (lit "MailoutAccount"))].

Context `{C : ControllerOwners}.

Definition handle (h : handler) (o : object) : list ObjectKey :=
  match h with
  | EnqueueRequestForObject => [keyOf o]
  | EnqueueRequestForOwner ownerKind =>
      match GetControllerOf (ownersOf o) with
      | Some (k, name) => if k =b ownerKind then [((keyOf o).1, name)] else []
      | None => []
      end
  | EnqueueRequestsFromMapFunc f => f o
  end.

(** The keys a change puts in the controller's queue. *)
Definition requests (watches : list watch) (c : change) : list ObjectKey :=
  w ← watches; o ← delivered c; if w_kind w =b kindOf o then handle (w_handler w) o else [].
End Watches.

(** ** Admission *)

Inductive operation (A : Type) :=
| Create (a : A)
| Update (old a : A)
| Delete (a : A).
Arguments Create {A} a.
Arguments Update {A} old a.
Arguments Delete {A} a.

(** [ValidateCreate], [ValidateUpdate] and [ValidateDelete] of each validator. *)
Definition admitGateway `{Unicode, Selectors} (v : Webhook.GatewayValidator) (op : operation MailoutGateway)
    : list Webhook.warning * option Webhook.admissionError :=
  match op with
  | Create gw => Webhook.validateGateway v gw
  | Update _ gw => Webhook.validateGateway v gw
  | Delete _ => ([], None)
  end.

Definition admitAccount `{Unicode, ApiServer} (operatorNamespace : bytes) (op : operation MailoutAccount)
    : K (list Webhook.warning * option Webhook.admissionError) :=
  match op with
  | Create account => Webhook.validateAccount operatorNamespace account
  | Update _ account => Webhook.validateAccount operatorNamespace account
  | Delete _ => kret ([], None)
  end.

(** ** The operator command *)

Record operatorOptions := mkOperatorOptions {
  metricsAddr : bytes;
  maxCachedSecrets : Z;
  probeAddr : bytes;
  leaderElect : bool;
  namespace : bytes;
  gatewayImage : bytes;
  developmentLog : bool;
  enableWebhooks : bool;
  webhookPort : Z;
  webhookCertDir : bytes
}.

(** [newOperatorCommand]: the flags' defaults, two of them from the
    environment. *)
Definition defaultOptions (POD_NAMESPACE MAILOUT_GATEWAY_IMAGE : bytes) : operatorOptions :=
  mkOperatorOptions (lit "0") 1024 (lit ":8081") false POD_NAMESPACE MAILOUT_GATEWAY_IMAGE false true 9443
    (lit "/tmp/k8s-webhook-server/serving-certs").

(** What the cluster and controller-runtime answer while the operator starts. *)
Class Cluster := {
  discoveryClient : option goerror;
  serverResources : bytes -> discovery;       (* by group and version *)
  newManagerError : option goerror;
  setupError : bytes -> option goerror;       (* Complete, by what is set up *)
  addCheckError : bytes -> option goerror;
  addRunnableError : option goerror;
  startError : option goerror                 (* what Start returns, once it does *)
}.

Section Start.
Context `{Cl : Cluster}.

(** *** discovery.go *)

Definition certManagerGroupVersion : bytes := lit "cert-manager.io/v1".
Definition monitoringGroupVersion : bytes := lit "monitoring.coreos.com/v1".

Definition CertManagerInstalled : result bool :=
  Commands.kindInstalled discoveryClient (serverResources certManagerGroupVersion) (lit "Certificate").

Definition PrometheusOperatorInstalled : result bool :=
  Commands.kindInstalled discoveryClient (serverResources monitoringGroupVersion) (lit "ServiceMonitor").

(** *** operator.go *)

(** [ctrl.Options]: the metrics endpoint, what the cache keeps of Secrets, and
    the port and directory of the webhook server when there is one. *)
Record managerOptions := mkManagerOptions {
  BindAddress : bytes;
  SecureServing : bool;
  AuthenticatedMetrics : bool;   (* filters.WithAuthenticationAndAuthorization *)
  HealthProbeBindAddress : bytes;
  LeaderElection : bool;
  LeaderElectionID : bytes;
  SecretLabels : labels;
  SecretTransform : Secret -> Secret;
  WebhookServer : option (Z * bytes)
}.

Definition optionsFor (opts : operatorOptions) : managerOptions :=
  mkManagerOptions (metricsAddr opts) ((metricsAddr opts <>b lit "0") && (metricsAddr opts <>b [])) true
    (probeAddr opts) (leaderElect opts) (lit "mailout-operator.mailout.daly.nc")
    {[lit "app.kubernetes.io/managed-by" := lit "mailout-operator"]} keepOnlyCredentialKeys
    (if enableWebhooks opts then Some (webhookPort opts, webhookCertDir opts) else None).

(** Errors are returned at once, some with a prefix. *)
Definition and_then {A B} (c : result A) (k : A -> result B) : result B :=
  match c with Ok a => k a | Err e => Err e end.
Definition wrap {A} (what : bytes) (c : result A) : result A :=
  match c with Ok a => Ok a | Err e => Err (EWrap what e) end.

#[local] Notation "'let+' x ':=' c 'in' k" := (and_then c (λ x, k))
  (at level 10, x pattern, c at level 200, k at level 200).

(** What was registered, in order. *)
Inductive registration :=
| GatewayControllerSet (r : GatewayController.GatewayReconciler)
| AccountControllerSet (operatorNamespace : bytes)
| GatewayWebhookSet (v : Webhook.GatewayValidator)
| AccountWebhookSet (operatorNamespace : bytes)
| HealthzSet
| ReadyzSet
| SecretCountSet (threshold : Z).

Record manager := mkManager { mgr_options : managerOptions; registered : list registration }.

Definition register (err : option goerror) (reg : registration) (m : manager) : result manager :=
  match err with
  | Some e => Err e
  | None => Ok (mkManager (mgr_options m) (registered m ++ [reg]))
  end.

(** [SetupWithManager] of each reconciler: its watches are [gatewayWatches] and
    [accountWatches]. *)
Definition SetupGatewayWithManager (r : GatewayController.GatewayReconciler) (m : manager) : result manager :=
  register (setupError (lit "mailoutgateway")) (GatewayControllerSet r) m.

Definition SetupAccountWithManager (operatorNamespace : bytes) (m : manager) : result manager :=
  register (setupError (lit "mailoutaccount")) (AccountControllerSet operatorNamespace) m.

Definition SetupGatewayWebhookWithManager (operatorNamespace : bytes) (certManagerAvailable : bool) (m : manager)
    : result manager :=
  register (setupError (lit "MailoutGateway webhook"))
    (GatewayWebhookSet (Webhook.mkGatewayValidator operatorNamespace certManagerAvailable)) m.

Definition SetupAccountWebhookWithManager (operatorNamespace : bytes) (m : manager) : result manager :=
  register (setupError (lit "MailoutAccount webhook")) (AccountWebhookSet operatorNamespace) m.

Definition watchCachedSecretCount (m : manager) (threshold : Z) : result manager :=
  if threshold <=? 0 then Ok m else register addRunnableError (SecretCountSet threshold) m.

Definition setupWebhooks (opts : operatorOptions) (certManagerAvailable : bool) (m : manager) : result manager :=
  if enableWebhooks opts then
    let+ m := wrap (lit "set up gateway webhook")
                (SetupGatewayWebhookWithManager (namespace opts) certManagerAvailable m) in
    wrap (lit "set up account webhook") (SetupAccountWebhookWithManager (namespace opts) m)
  else Ok m.

(** Everything before [mgr.Start]. *)
Definition prepare (opts : operatorOptions) : result manager :=
  if namespace opts =b [] then Err (EText (lit "--namespace is required (or set POD_NAMESPACE)"))
  else if gatewayImage opts =b [] then
    Err (EText (lit "--gateway-image is required (or set MAILOUT_GATEWAY_IMAGE)"))
  else
    let+ certManagerAvailable := wrap (lit "detect cert-manager") CertManagerInstalled in
    let+ prometheusOperatorAvailable := wrap (lit "detect prometheus-operator") PrometheusOperatorInstalled in
    let+ m := (match newManagerError with
               | Some e => Err (EWrap (lit "create manager") e)
               | None => Ok (mkManager (optionsFor opts) [])
               end) in
    let r := GatewayController.mkGatewayReconciler (namespace opts) (gatewayImage opts) certManagerAvailable
               prometheusOperatorAvailable in
    let+ m := wrap (lit "set up gateway controller") (SetupGatewayWithManager r m) in
    let+ m := wrap (lit "set up account controller") (SetupAccountWithManager (namespace opts) m) in
    let+ m := setupWebhooks opts certManagerAvailable m in
    let+ m := wrap (lit "add health check") (register (addCheckError (lit "healthz")) HealthzSet m) in
    let+ m := wrap (lit "add ready check") (register (addCheckError (lit "readyz")) ReadyzSet m) in
    wrap (lit "add secret cache watch") (watchCachedSecretCount m (maxCachedSecrets opts)).

(** The manager that was started, if any, and what the command returns. *)
Definition runOperator (opts : operatorOptions) : option manager * result unit :=
  match prepare opts with
  | Err e => (None, Err e)
  | Ok m =>
      (Some m, match startError with
               | Some e => Err (EWrap (lit "run manager") e)
               | None => Ok tt
               end)
  end.
End Start.

(** One turn of the loop that counts the cached Secrets: what it logs of the
    answer to [List]. *)
Inductive logged :=
| CannotCount (e : goerror)
| MoreThanExpected (count threshold : Z).

Definition countSecrets (threshold : Z) (answer : result (list Secret)) : option logged :=
  match answer with
  | Err e => Some (CannotCount e)
  | Ok items => if threshold <? zlen items then Some (MoreThanExpected (zlen items) threshold) else None
  end.

End Manager.
Import Manager.

(** ** Start *)

Section Wiring.
Context `{Cl : Cluster}.

(** What a manager that is started was given. *)
Definition wired (opts : operatorOptions) (cert prom : bool) : list registration :=
  [GatewayControllerSet (GatewayController.mkGatewayReconciler (namespace opts) (Manager.gatewayImage opts) cert prom);
   AccountControllerSet (namespace opts)] ++
  (if enableWebhooks opts
   then [GatewayWebhookSet (Webhook.mkGatewayValidator (namespace opts) cert); AccountWebhookSet (namespace opts)]
   else []) ++
  [HealthzSet; ReadyzSet] ++
  (if maxCachedSecrets opts <=? 0 then [] else [SecretCountSet (maxCachedSecrets opts)]).

Lemma prepare_ok opts m : prepare opts = Ok m ->
  namespace opts <> [] /\ Manager.gatewayImage opts <> [] /\ mgr_options m = optionsFor opts /\
  exists cert prom, CertManagerInstalled = Ok cert /\ PrometheusOperatorInstalled = Ok prom /\
    registered m = wired opts cert prom.
Proof.
  unfold prepare. do 2 (case_bool_decide; [done|]).
  destruct CertManagerInstalled as [cert|e]; [|done]. destruct PrometheusOperatorInstalled as [prom|e]; [|done].
  destruct newManagerError as [e|]; [done|]. unfold and_then at 1 2 3. cbn [wrap].
  unfold SetupGatewayWithManager, SetupAccountWithManager, setupWebhooks, SetupGatewayWebhookWithManager,
    SetupAccountWebhookWithManager, watchCachedSecretCount, wired, register, and_then, wrap.
  destruct (enableWebhooks opts), (maxCachedSecrets opts <=? 0);
    repeat match goal with |- context [match ?e with Some _ => Err _ | None => _ end] => destruct e as [?|]; [done|] end;
    intros [= <-]; eauto 10.
Qed.
End Wiring.

(** What is wired is one controller and, with the webhooks on, one validator
    that agree. *)
Lemma wired_agree opts cert prom v r :
  GatewayWebhookSet v ∈ wired opts cert prom -> GatewayControllerSet r ∈ wired opts cert prom ->
  Webhook.gv_OperatorNamespace v = GatewayController.OperatorNamespace r /\
  Webhook.CertManagerAvailable v = GatewayController.CertManagerAvailable r.
Proof.
  unfold wired. intros Hv Hr.
  assert (v = Webhook.mkGatewayValidator (namespace opts) cert) as ->
    by (destruct (enableWebhooks opts), (_ <=? 0); set_solver).
  assert (r = GatewayController.mkGatewayReconciler (namespace opts) (Manager.gatewayImage opts) cert prom) as ->
    by (destruct (enableWebhooks opts), (_ <=? 0); set_solver).
  done.
Qed.

(** ** Events *)

(** A read returns the object that was asked for, and a name is never empty. *)
Class ApiKeyed `{A : ApiServer} := {
  keyed_Gateway n k gw : api_Gateway n k = Found gw -> (Namespace (g_meta gw), Name (g_meta gw)) = k;
  named_Gateway n k gw : api_Gateway n k = Found gw -> Name (g_meta gw) <> [];
  keyed_Account n k a : api_Account n k = Found a -> (Namespace (a_meta a), Name (a_meta a)) = k;
  keyed_Secret n k s : api_CachedSecret n k = Found s -> (s_Namespace s, s_Name s) = k;
  keyed_Service n k o : api_Service n k = Found o -> (svc_Namespace o.1, svc_Name o.1) = k;
  keyed_Certificate n k o : api_Certificate n k = Found o -> (crt_Namespace o.1, crt_Name o.1) = k;
  keyed_ServiceMonitor n k o : api_ServiceMonitor n k = Found o -> (sm_Namespace o.1, sm_Name o.1) = k;
  keyed_Deployment n k o : api_Deployment n k = Found o -> (dep_Namespace o.1, dep_Name o.1) = k;
  keyed_NetworkPolicy n k o : api_NetworkPolicy n k = Found o -> (npol_Namespace o.1, npol_Name o.1) = k
}.

(** The object an effect leaves in the cluster. *)
Definition left_by `{Selectors} (e : effect) : option object :=
  match e with
  | WroteSecret _ s => Some (OSecret s)
  | WroteService o => Some (OService o)
  | WroteCertificate o => Some (OCertificate o)
  | WroteServiceMonitor o => Some (OServiceMonitor o)
  | WroteDeployment o => Some (ODeployment o)
  | WroteNetworkPolicy o => Some (ONetworkPolicy o)
  | _ => None
  end.

Section Requests.
Context `{Selectors, O : OwnerReferencer, C : !ControllerOwners O}.

(** A change of an object is delivered in its state before it. *)
Lemma requested ws w o o' a k :
  w ∈ ws -> w_kind w = kindOf o' -> cached o = Some o' -> k ∈ handle (w_handler w) o' ->
  k ∈ requests ws (mkChange (Some o) a).
Proof.
  intros Hw Hk Hc Hin. unfold requests. apply list_elem_of_bind. exists w. split; [|done].
  apply list_elem_of_bind. exists o'. split.
  - by rewrite (bool_decide_eq_true_2 _ Hk).
  - unfold delivered. apply list_elem_of_omap. exists o. split; [|done]. cbn. by left.
Qed.

Lemma cached_shape o o' : cached o = Some o' ->
  kindOf o' = kindOf o /\ keyOf o' = keyOf o /\ ownersOf o' = ownersOf o.
Proof.
  destruct o; cbn; try by intros [= <-]. destruct (selected secret); [|done]. by intros [= <-].
Qed.

(** A change of an object that is controlled asks for its owner. *)
Lemma requested_owner ws o a kind ns name l owners :
  mkWatch (kindOf o) (EnqueueRequestForOwner kind) ∈ ws -> is_Some (cached o) ->
  SetControllerReference (kind, name) l = Ok owners -> ownersOf o = owners -> (keyOf o).1 = ns ->
  (ns, name) ∈ requests ws (mkChange (Some o) a).
Proof.
  intros Hw [o' Hc] Hs Ho Hns. destruct (cached_shape _ _ Hc) as (Hk & Hkey & Hown).
  eapply requested; [exact Hw|done|exact Hc|]. cbn [w_handler handle].
  rewrite Hown, Ho, (controller_set _ _ _ Hs), bool_decide_eq_true_2 by done. rewrite Hkey, Hns. by left.
Qed.
End Requests.

Section Drift.
Context `{Unicode, A : ApiServer, !ApiKeyed, Sorter, Yaml, Sha256, Random, ErrorText}.
Context `{C : !CreateOrUpdater, !CreateOrUpdaterSound C, O : OwnerReferencer, !ControllerOwners O, ConditionSetter}.
Variable r : GatewayController.GatewayReconciler.
Import GatewayController.

(** Whatever becomes of the object the effect left, the gateway is
    reconciled. *)
Definition comes_back (key : ObjectKey) (e : effect) : Prop :=
  forall o a, left_by e = Some o -> key ∈ requests (gatewayWatches r) (mkChange (Some o) a).

Lemma comes_back_owned gw e o kind l owners :
  left_by e = Some o -> kindOf o = kind -> (keyOf o).1 = Namespace (g_meta gw) -> ownersOf o = owners ->
  SetControllerReference (owner gw) l = Ok owners -> is_Some (cached o) ->
  mkWatch kind (EnqueueRequestForOwner (lit "MailoutGateway")) ∈ gatewayWatches r ->
  comes_back (Namespace (g_meta gw), Name (g_meta gw)) e.
Proof.
  intros He Hk Hns Ho Hs Hc Hw o' a Ho'. rewrite He in Ho'. injection Ho' as <-. subst kind.
  eapply requested_owner; eauto.
Qed.

Lemma emits_kept P {T} `{EqDecision T} gw what get (empty : T) f written :
  (forall o l owners, (exists n, get n = Found (o, l)) \/ o = empty ->
     SetControllerReference (owner gw) l = Ok owners -> P (written (f o, owners))) ->
  emits P (keepObject gw what get empty f written).
Proof.
  intros HP. unfold keepObject. apply emits_seq; [|intros []; apply emits_ret].
  apply emits_createOrUpdate.
  - intros o. unfold owning. destruct (SetControllerReference _ _) eqn:E; [|done]. intros [= <-].
    eapply HP; [by right|exact E].
  - intros n [o l] o' Hget. unfold owning. destruct (SetControllerReference _ _) eqn:E; [|done]. intros [= <-].
    eapply HP; [by left; eauto|exact E].
Qed.

(** An object the gateway keeps in its namespace, of a kind that is watched. *)
Ltac kept_tac keyed :=
  let Hget := fresh in let Hs := fresh in let Hk := fresh in
  apply emits_kept; intros ? ? ? Hget Hs; eapply comes_back_owned;
  [reflexivity|reflexivity
  |destruct Hget as [(? & Hk%keyed)| ->]; [cbn in Hk; injection Hk as Hk _|]; cbn; congruence
  |reflexivity|exact Hs|by eexists|unfold gatewayWatches; try set_solver].

Lemma drift_certificate gw : emits (comes_back (keyOf (OGateway gw))) (reconcileCertificate r gw).
Proof.
  unfold reconcileCertificate. emits_tac.
  assert (crt_Namespace c = Namespace (g_meta gw)) by (unfold CertificateFor in *; case_match; by simplify_eq).
  kept_tac keyed_Certificate. destruct (GatewayController.CertManagerAvailable r); [set_solver|done].
Qed.

Lemma drift_service gw cfg : emits (comes_back (keyOf (OGateway gw))) (reconcileService gw cfg).
Proof. unfold reconcileService. emits_tac. kept_tac keyed_Service. Qed.

Lemma drift_network_policy gw cfg : emits (comes_back (keyOf (OGateway gw))) (reconcileMetricsNetworkPolicy gw cfg).
Proof.
  unfold reconcileMetricsNetworkPolicy. emits_tac.
  - assert (npol_Namespace n = Namespace (g_meta gw)) by (unfold MetricsNetworkPolicy in *; case_match; by simplify_eq).
    kept_tac keyed_NetworkPolicy.
  - by apply emits_emit.
Qed.

Lemma drift_metrics gw cfg : emits (comes_back (keyOf (OGateway gw))) (reconcileMetrics r gw cfg).
Proof.
  unfold reconcileMetrics. emits_tac.
  - kept_tac keyed_Service.
  - apply drift_network_policy.
  - kept_tac keyed_ServiceMonitor. destruct (PrometheusOperatorAvailable r); [set_solver|done].
Qed.

Lemma drift_deployment gw cfg : emits (comes_back (keyOf (OGateway gw))) (reconcileDeployment r gw cfg).
Proof.
  unfold reconcileDeployment. emits_tac.
  assert (dep_Namespace d = Namespace (g_meta gw)) by (unfold DeploymentFor in *; case_match; by simplify_eq).
  kept_tac keyed_Deployment.
Qed.

Lemma drift_config_secret gw cfg : emits (comes_back (keyOf (OGateway gw))) (reconcileConfigSecret gw cfg).
Proof.
  unfold reconcileConfigSecret. emits_tac.
  assert (Hm : forall o o', (s_Namespace o = Namespace (g_meta gw)) ->
    mutateConfigSecret gw (ConfigSecret gw a (Token (FitAccounts cfg ConfigBudget).2)) o = Ok o' ->
    comes_back (keyOf (OGateway gw))
      (WroteSecret (Namespace (g_meta gw), ConfigSecretName (Name (g_meta gw))) o')).
  { intros o o' Hns. unfold mutateConfigSecret. destruct (SetControllerReference _ _) eqn:E; [|done]. intros [= <-].
    eapply comes_back_owned; [reflexivity|reflexivity|exact Hns|reflexivity|exact E| |unfold gatewayWatches; set_solver].
    by eexists. }
  apply emits_createOrUpdate; [by intros o; apply Hm|].
  intros n o o' Hk%keyed_Secret. apply Hm. cbn in Hk. by injection Hk as ->.
Qed.

Lemma drift_status P gw st : (forall k st, P (PatchedGatewayStatus k st)) -> emits P (patchGatewayStatus gw st).
Proof. intros HP. unfold patchGatewayStatus. emits_tac. by apply emits_emit. Qed.

(** C16: drift is corrected. Every object a reconciliation of a gateway writes is
    watched as the gateway's: whoever changes or deletes it afterwards, the
    gateway is reconciled again. *)
Theorem written_objects_come_back (key : ObjectKey) (s : Calls) :
  writes (comes_back key) s (Reconcile r key s).2.
Proof.
  revert s. change (emits (comes_back key) (Reconcile r key)). unfold Reconcile.
  apply emits_bind; [by apply emits_reads|]. intros s g s' Eg.
  assert (Hg : g = api_Gateway (calls s) key) by (unfold GetGateway, kbind, call, kret in Eg; by injection Eg).
  clear Eg. subst g.
  match goal with |- writes ?P ?s (?c ?s).2 => apply (λ Hc : emits P c, Hc s) end.
  destruct (api_Gateway (calls s) key) as [gw| |e] eqn:E; [|apply emits_ret..].
  apply keyed_Gateway in E. subst key. unfold andStop, markFailed, publish, updateStatus. emits_tac.
  all: try by apply drift_status.
  - apply emits_reads. intros s0. destruct (collectAccounts r gw s0) as [res s1] eqn:Ec.
    by apply collectAccounts_spec in Ec as [? _].
  - apply emits_reads, reads_resolveSecrets.
  - apply emits_reads, reads_metricsToken.
  - apply drift_certificate.
  - apply drift_config_secret.
  - apply drift_service.
  - apply drift_metrics.
  - apply drift_deployment.
Qed.
End Drift.

(** ** Credentials *)

Section Credentials.
Context `{A : ApiServer, !ApiKeyed, Sorter, B : Bcrypt, !BcryptSound B, Random}.
Context `{C : !CreateOrUpdater, !CreateOrUpdaterSound C, O : OwnerReferencer, !OwnerReferencerSound O, !ControllerOwners O}.
Context `{ConditionSetter}.
Variable r : GatewayController.GatewayReconciler.
Import GatewayController.

(** A change of the Secret asks for the account it belongs to and for the
    gateway that serves the account. *)
Definition wakes_both (key : ObjectKey) (k : ObjectKey) (secret : Secret) : Prop :=
  forall a, key ∈ requests accountWatches (mkChange (Some (OSecret secret)) a) /\
    exists t account gw, api_Account t key = Found account /\ serves r gw account = true /\
      keyOf (OGateway gw) ∈ requests (gatewayWatches r) (mkChange (Some (OSecret secret)) a).

(** C17: a change of credentials reaches both sides. The Secret a reconciliation
    of an account writes, when it is changed or deleted later, brings back that
    account, so that the credentials are restored, and the gateway the account
    belongs to, so that the relay learns the new hash. *)
Theorem credentials_wake_both_controllers (key : ObjectKey) (s : Calls) :
  writes (AccountController.secrets (wakes_both key)) s
    (AccountController.Reconcile (OperatorNamespace r) key s).2.
Proof.
  apply AccountController.Reconcile_writes.
  intros account gw t t' ep old new k (items & t1 & t2 & t3 & Ha & Hg & _) Hm Hold a.
  assert (Hns : s_Namespace old = Namespace (a_meta account)).
  { destruct Hold as [Hk%keyed_Secret| ->]; [by injection Hk|done]. }
  apply AccountController.mutateSecret_spec in Hm as (p & h & owners & _ & Hs & ->).
  pose proof (keyed_Account _ _ _ Ha) as <-. pose proof (keyed_Gateway _ _ _ Hg) as Hk.
  injection Hk as Hgns Hgname.
  assert (Hserve : serves r gw account = true).
  { unfold serves. rewrite Hgns, Hgname. by rewrite !bool_decide_eq_true_2. }
  split.
  - eapply requested_owner; [|by eexists|exact Hs|done|done]. unfold accountWatches. set_solver.
  - exists t1, account, gw. split_and!; [done| |].
    + done.
    + eapply (requested _ (mkWatch KSecret (EnqueueRequestsFromMapFunc (mapAccountSecret r))));
        [unfold gatewayWatches; set_solver| |reflexivity|]; [reflexivity|].
      destruct (secret_events_reach_the_gateway r account gw (UsernameFor account) p h ep Hserve
                  (named_Gateway _ _ _ Hg)) as [Hm _].
      cbn [w_handler handle mapAccountSecret]. unfold gatewayForAccountSecret in *. cbn [s_Labels keepOnlyCredentialKeys] in *.
      rewrite Hm. by left.
Qed.
End Credentials.

(** ** What is not watched *)

Section Unwatched.
Context `{A : ApiServer, O : OwnerReferencer, !ControllerOwners O}.

(** Only the watches of a kind see its objects. *)
Lemma not_requested ws c :
  (forall o o', o ∈ option_list (before c) ++ option_list (after c) -> cached o = Some o' ->
     Forall (λ w, w_kind w <> kindOf o') ws) ->
  requests ws c = [].
Proof.
  intros Hno. destruct (requests ws c) as [|k l] eqn:E; [done|].
  assert (Hk : k ∈ requests ws c) by (rewrite E; by left). unfold requests in Hk.
  apply list_elem_of_bind in Hk as (w & Hk & Hw). apply list_elem_of_bind in Hk as (o' & Hk & Ho).
  apply list_elem_of_omap in Ho as (o & Ho & Hc). specialize (Hno _ _ Ho Hc). rewrite Forall_forall in Hno.
  rewrite (bool_decide_eq_false_2 _ (Hno _ Hw)) in Hk. by apply not_elem_of_nil in Hk.
Qed.

(** A limit of the account controller: an account that waits for its gateway is
    not told when the gateway appears. The reconciliation that finds no gateway
    marks the account and ends without an error or a requeue, and no creation,
    change or deletion of a gateway puts an account in the queue. *)
Theorem missing_gateway_is_not_awaited `{Sorter, Bcrypt, Random, !CreateOrUpdater, ConditionSetter}
    (operatorNamespace : bytes) (key : ObjectKey) (account : MailoutAccount) (s : Calls) :
  api_Account (calls s) key = Found account ->
  api_Gateway (S (calls s)) (GatewayNamespaceFor account operatorNamespace, gr_Name (GatewayRef (a_spec account)))
    = NotFound ->
  api_Write (S (S (calls s))) = None ->
  (AccountController.Reconcile operatorNamespace key s).1 = Ok tt /\
  (exists st, effects (AccountController.Reconcile operatorNamespace key s).2 =
     effects s ++ [PatchedAccountStatus (keyOf (OAccount account)) st]) /\
  forall old new : option MailoutGateway,
    requests accountWatches (mkChange (OGateway <$> old) (OGateway <$> new)) = [].
Proof.
  intros Ha Hg Hw. unfold AccountController.Reconcile, AccountController.markNotAccepted, AccountController.patchStatus.
  run_api. rewrite Ha. cbn [calls]. rewrite Hg. cbn [calls]. rewrite Hw. cbn [fst snd calls effects].
  split_and!; [done|by eexists|]. intros old new. apply not_requested. intros o o' Ho Hc.
  assert (exists gw, o = OGateway gw) as [gw ->] by (destruct old, new; cbn in Ho; set_solver).
  injection Hc as <-. by repeat constructor.
Qed.

(** A limit of the gateway controller: a gateway that waits for a Secret is not
    told when the Secret appears. The reconciliation that misses a credential
    marks the gateway and ends without an error and without asking to come back
    after [resyncInterval], and a Secret without the operator's label puts no
    gateway in the queue. *)
Theorem missing_secret_is_not_awaited `{Unicode, Sorter, Yaml, Sha256, Random, ErrorText, !CreateOrUpdater, ConditionSetter}
    (r : GatewayController.GatewayReconciler) (key : ObjectKey) (gw : MailoutGateway) (s s1 s2 : Calls)
    (accounts : list Render.Account) (e : goerror) :
  api_Gateway (calls s) key = Found gw -> Namespace (g_meta gw) = GatewayController.OperatorNamespace r ->
  GatewayController.collectAccounts r gw (mkCalls (S (calls s)) (effects s)) = (Ok accounts, s1) ->
  GatewayController.resolveSecrets gw (mkInput (Some gw) accounts [] [] [] (mkCreds [] [] [] [] []) []) s1 = (Err e, s2) ->
  api_Write (calls s2) = None ->
  (GatewayController.Reconcile r key s).1 = Ok 0 /\
  forall old new : option Secret, (forall x, old = Some x \/ new = Some x -> selected x = false) ->
    requests (gatewayWatches r) (mkChange (OSecret <$> old) (OSecret <$> new)) = [].
Proof.
  intros Hg Hns Hc Hr Hw. split.
  - unfold GatewayController.Reconcile, GatewayController.andStop, GatewayController.markFailed,
      GatewayController.patchGatewayStatus, GetGateway.
    unfold kbind_ok, kbind, kret, call. cbn [calls effects]. rewrite Hg, (bool_decide_eq_true_2 _ Hns). cbn [negb].
    rewrite Hc, Hr. cbn. by rewrite Hw.
  - intros old new Hsel. apply not_requested. intros o o' Ho Hcached.
    assert (exists x, o = OSecret x /\ selected x = false) as (x & -> & Hx).
    { apply elem_of_app in Ho as [Ho|Ho]; [destruct old as [x|]|destruct new as [x|]]; cbn in Ho;
        try by apply not_elem_of_nil in Ho.
      all: apply list_elem_of_singleton in Ho as ->; eauto. }
    cbn in Hcached. by rewrite Hx in Hcached.
Qed.
End Unwatched.

(** ** Admission and reconciliation *)

Lemma admitted_namespace `{Unicode, Selectors} v gw :
  (Webhook.validateGateway v gw).2 = None -> Namespace (g_meta gw) = Webhook.gv_OperatorNamespace v.
Proof.
  cbn [Webhook.validateGateway snd]. unfold Webhook.gatewayErrors. intros Hv. autorewrite with admission in Hv.
  destruct Hv as [Hv _]. by case_bool_decide.
Qed.

Lemma admitted_issuer `{Unicode, Selectors} v gw :
  (Webhook.validateGateway v gw).2 = None -> IssuerRef (gs_TLS (g_spec gw)) <> None ->
  Webhook.CertManagerAvailable v = true.
Proof.
  cbn [Webhook.validateGateway snd]. unfold Webhook.gatewayErrors, Webhook.validateTLS. intros Hv Hi.
  autorewrite with admission in Hv. destruct Hv as (_ & (_ & Hv & _) & _).
  destruct (IssuerRef _) as [i|]; [|done]. autorewrite with admission in Hv. destruct Hv as [Hv _].
  by apply negb_false_iff.
Qed.

Section Acceptance.
Context `{Unicode, A : ApiServer, S : Sorter, !SorterSound S, Yaml, Sha256, Random, ErrorText}.
Context `{C : !CreateOrUpdater, !CreateOrUpdaterSound C, O : OwnerReferencer, CS : ConditionSetter, !ConditionSetterSound CS}.
Context `{Cl : Cluster}.
Import GatewayController.

(** A status that accepts the gateway, or that waits for a Secret. *)
Definition accepted_or_waiting (e : effect) : Prop :=
  match e with
  | PatchedGatewayStatus _ st =>
      exists c, find_condition (gst_Conditions st) ConditionAccepted = Some c /\
        ((c_Status c = true /\ c_Reason c = ReasonAccepted) \/ (c_Status c = false /\ c_Reason c = ReasonSecretMissing))
  | _ => True
  end.

Lemma emits_markSecretMissing gw msg : emits accepted_or_waiting (andStop (markFailed gw ReasonSecretMissing msg)).
Proof.
  unfold andStop, markFailed, patchGatewayStatus. emits_tac. apply emits_emit. cbn [accepted_or_waiting gst_Conditions].
  unfold AccountController.setCondition. rewrite !set_condition_find. cbn [c_Type]. eexists. split; [reflexivity|]. by right.
Qed.

Lemma emits_updateStatus gw cfg accounts d : emits accepted_or_waiting (updateStatus gw cfg accounts d).
Proof.
  unfold updateStatus, patchGatewayStatus. emits_tac. apply emits_emit. cbn [accepted_or_waiting gst_Conditions].
  unfold AccountController.setCondition. destruct (_ <? _); rewrite !set_condition_find; cbn [c_Type];
    (eexists; split; [reflexivity|]); by left.
Qed.

Lemma emits_publish_accepts r gw cfg accounts : emits accepted_or_waiting (publish r gw cfg accounts).
Proof.
  unfold publish, reconcileCertificate, reconcileConfigSecret, reconcileService, reconcileMetrics,
    reconcileMetricsNetworkPolicy, reconcileDeployment.
  emits_tac; first [by apply emits_keepObject|by apply emits_emit|by apply emits_createOrUpdate|apply emits_updateStatus].
Qed.

(** A gateway that validates is never reported invalid. *)
Lemma admitted_emits r v gw key :
  Namespace (g_meta gw) = OperatorNamespace r -> (Webhook.validateGateway v gw).2 = None ->
  us_Host (gs_Upstream (g_spec gw)) <> [] -> (forall n, api_Gateway n key = Found gw) ->
  emits accepted_or_waiting (Reconcile r key).
Proof.
  intros Hns Hok Hhost Hgw. unfold Reconcile. apply emits_bind; [by apply emits_reads|]. intros s g s' Eg.
  assert (Hg : g = Found gw) by (unfold GetGateway, kbind, call, kret in Eg; rewrite Hgw in Eg; by injection Eg).
  clear Eg. subst g.
  match goal with |- writes ?P ?s (?c ?s).2 => apply (λ Hc : emits P c, Hc s) end.
  rewrite (bool_decide_eq_true_2 _ Hns). cbn [negb]. apply emits_seq_ok.
  { apply emits_reads. intros s0. destruct (collectAccounts r gw s0) as [res s1] eqn:Ec.
    by apply collectAccounts_spec in Ec as [? _]. }
  intros accounts. apply emits_bind; [apply emits_reads, reads_resolveSecrets|].
  intros s0 [input|e] s1 Er; [|apply emits_markSecretMissing].
  apply resolveSecrets_keeps in Er as [Egw _]. cbn [Gateway] in Egw.
  match goal with |- writes ?P ?s (?c ?s).2 => apply (λ Hc : emits P c, Hc s) end.
  apply emits_seq_ok; [apply emits_reads, reads_metricsToken|]. intros token.
  match goal with |- context [GatewayConfig ?i] => destruct (GatewayConfig i) as [cfg|e] eqn:Ecfg end.
  - pose proof (λ E, Webhook.admitted_servable _ _ _ _ Hok Hhost E Ecfg) as Hv. specialize (Hv Egw).
    rewrite bool_decide_eq_true_2 by (by apply Validate_servable). apply emits_publish_accepts.
  - exfalso. unfold GatewayConfig in Ecfg. cbn [Gateway] in Ecfg. by rewrite Egw in Ecfg.
Qed.

(** C10: what the operator admits, it accepts. In an operator that started, the
    webhook and the controller agree: a gateway with an upstream host that the
    webhook let in, on creation or on update, is never reported invalid by the
    reconciliation; its status says it was accepted, or that a Secret it names
    is missing. Its certificate is never refused for lack of cert-manager. *)
Theorem admitted_gateway_is_accepted (opts : operatorOptions) (m : manager) (res : result unit)
    (v : Webhook.GatewayValidator) (r : GatewayReconciler) (key : ObjectKey) (old gw : MailoutGateway)
    (op : operation MailoutGateway) (s : Calls) :
  runOperator opts = (Some m, res) -> GatewayWebhookSet v ∈ registered m -> GatewayControllerSet r ∈ registered m ->
  op = Create gw \/ op = Update old gw -> (admitGateway v op).2 = None -> us_Host (gs_Upstream (g_spec gw)) <> [] ->
  (forall n, api_Gateway n key = Found gw) ->
  writes accepted_or_waiting s (Reconcile r key s).2 /\
  (CertificateFor gw <> None -> CertManagerAvailable r = true).
Proof.
  intros Hrun Hv Hr Hop Hadm Hhost Hgw.
  assert (Hok : (Webhook.validateGateway v gw).2 = None) by (by destruct Hop as [->| ->]).
  unfold runOperator in Hrun. destruct (prepare opts) as [m'|] eqn:Ep; [|done]. injection Hrun as -> _.
  apply prepare_ok in Ep as (_ & _ & _ & cert & prom & _ & _ & Hreg). rewrite Hreg in *.
  destruct (wired_agree _ _ _ _ _ Hv Hr) as [Hns Hcm]. split.
  - apply (admitted_emits r v gw key); [|done..]. by rewrite <- Hns, (admitted_namespace _ _ Hok).
  - unfold CertificateFor. intros Hi. rewrite <- Hcm. apply (admitted_issuer _ _ Hok). by destruct (IssuerRef _).
Qed.
End Acceptance.

(** ** Witnesses *)

#[local] Existing Instance matchLabels.
#[local] Existing Instance sorter_by.
#[local] Existing Instance sorter_by_sound.
#[local] Existing Instance toy_bcrypt.
#[local] Existing Instance toy_bcrypt_sound.
#[local] Existing Instance toy_random.
#[local] Existing Instance updater_ok.
#[local] Existing Instance updater_ok_sound.
#[local] Existing Instance owner_first.
#[local] Existing Instance owner_first_sound.
#[local] Existing Instance controlled_first.
#[local] Existing Instance condition_replace.
#[local] Existing Instance condition_replace_sound.
#[local] Existing Instance demo_sha.
#[local] Existing Instance demo_yaml.
#[local] Existing Instance demo_errors.

Definition demo_gateway_key : ObjectKey := (lit "mailout-system", lit "relay").
Definition demo_account_key : ObjectKey := (lit "blog", lit "app").

(** A gateway whose upstream wants credentials. *)
Definition demo_needy : MailoutGateway :=
  let spec := g_spec demo_gw in
  mkGateway (g_meta demo_gw)
    (mkGatewaySpec (gs_Hostname spec) (gs_Listeners spec) (gs_TLS spec)
       (mkUpstreamSpec (lit "mx.example.com") 25 (lit "StartTLS") (Some (mkRef (lit "upstream"))) None false false None)
       (gs_DKIM spec) (gs_Milters spec) (AllowedAccounts spec) (gs_AllowedSenders spec) (gs_RateLimit spec)
       (gs_Deployment spec) (gs_Metrics spec))
    (g_status demo_gw).

(** A cluster with the given gateways and one account, and nothing written
    yet. *)
Definition demo_fresh (gateways : ObjectKey -> reply MailoutGateway) : ApiServer := {|
  api_Namespace _ _ := Found None;
  api_Gateway _ := gateways;
  api_Account _ k := if k =b demo_account_key then Found (AccountController.demo_claimant (lit "blog") (lit "u3")) else NotFound;
  api_Secret _ _ := NotFound;
  api_CachedSecret _ _ := NotFound;
  api_Accounts _ := Ok [AccountController.demo_claimant (lit "blog") (lit "u3")];
  api_Service _ _ := NotFound;
  api_Certificate _ _ := NotFound;
  api_ServiceMonitor _ _ := NotFound;
  api_Deployment _ _ := NotFound;
  api_NetworkPolicy _ _ := NotFound;
  api_Write _ := None;
  api_Delete _ _ := NotFound
|}.

Definition demo_one (gw : MailoutGateway) (k : ObjectKey) : reply MailoutGateway :=
  if k =b demo_gateway_key then Found gw else NotFound.

Lemma demo_fresh_keyed : @ApiKeyed _ (demo_fresh (demo_one demo_gw)).
Proof.
  constructor; try done; intros n k o; cbn.
  - unfold demo_one. case_bool_decide; [|done]. by intros [= <-].
  - unfold demo_one. case_bool_decide; [|done]. by intros [= <-].
  - case_bool_decide; [|done]. by intros [= <-].
Qed.

Definition demo_full : GatewayController.GatewayReconciler :=
  GatewayController.mkGatewayReconciler (lit "mailout-system") (lit "img") true true.

Lemma come_back_witness :
  let run := @GatewayController.Reconcile _ _ (demo_fresh (demo_one demo_gw)) _ _ _ _ _ _ _ _ demo_full
               demo_gateway_key calls0 in
  length (effects run.2) = 6%nat /\
  Forall (comes_back demo_full demo_gateway_key) (effects run.2).
Proof.
  cbv zeta. split; [by vm_compute|].
  destruct (@written_objects_come_back _ _ (demo_fresh (demo_one demo_gw)) demo_fresh_keyed _ _ _ _ _ _ _ _ _ _
              demo_full demo_gateway_key calls0) as (es & -> & Hes). exact Hes.
Defined.

Lemma wake_both_witness :
  let run := @AccountController.Reconcile _ (demo_fresh (demo_one demo_gw)) _ _ _ _ _ _ (lit "mailout-system")
               demo_account_key calls0 in
  length (effects run.2) = 2%nat /\
  Forall (AccountController.secrets (@wakes_both _ (demo_fresh (demo_one demo_gw)) _ _ demo_full demo_account_key))
    (effects run.2).
Proof.
  cbv zeta. split; [by vm_compute|].
  destruct (@credentials_wake_both_controllers _ (demo_fresh (demo_one demo_gw)) demo_fresh_keyed _ _ _ _ _ _ _ _ _ _
              demo_full demo_account_key calls0) as (es & E & Hes).
  change (GatewayController.OperatorNamespace demo_full) with (lit "mailout-system") in E. rewrite E. exact Hes.
Defined.

Lemma not_awaited_witness :
  (@AccountController.Reconcile _ (demo_fresh (λ _, NotFound)) _ _ _ _ _ _ (lit "mailout-system")
     demo_account_key calls0).1 = Ok tt /\
  requests accountWatches (mkChange None (Some (OGateway demo_gw))) = [].
Proof.
  destruct (@missing_gateway_is_not_awaited _ (demo_fresh (λ _, NotFound)) _ _ _ _ _ _ _
              (lit "mailout-system") demo_account_key (AccountController.demo_claimant (lit "blog") (lit "u3")) calls0)
    as (H1 & _ & H3); [reflexivity..|].
  split; [exact H1|]. exact (H3 None (Some demo_gw)).
Defined.

Lemma secret_not_awaited_witness :
  (@GatewayController.Reconcile _ _ (demo_fresh (demo_one demo_needy)) _ _ _ _ _ _ _ _ demo_full
     demo_gateway_key calls0).1 = Ok 0.
Proof.
  eapply (@missing_secret_is_not_awaited _ (demo_fresh (demo_one demo_needy)) _ _ _ _ _ _ _ _ _ _ demo_full
            demo_gateway_key demo_needy calls0); reflexivity.
Defined.

(** A cluster with both optional APIs. *)
Definition demo_answers : Cluster := {|
  discoveryClient := None;
  serverResources _ := Serves [lit "Certificate"; lit "ServiceMonitor"];
  newManagerError := None;
  setupError _ := None;
  addCheckError _ := None;
  addRunnableError := None;
  startError := None
|}.
#[local] Existing Instance demo_answers.

Lemma accepted_witness :
  let opts := defaultOptions (lit "mailout-system") (lit "img") in
  writes accepted_or_waiting calls0
    (@GatewayController.Reconcile _ _ (demo_fresh (λ _, Found demo_gw)) _ _ _ _ _ _ _ _ demo_full demo_gateway_key calls0).2 /\
  registered <$> (runOperator opts).1 = Some (wired opts true true).
Proof.
  cbv zeta. split; [|reflexivity].
  eapply (@admitted_gateway_is_accepted _ _ (demo_fresh (λ _, Found demo_gw)) _ _ _ _ _ _ _ _ _ _ _ _
           (defaultOptions (lit "mailout-system") (lit "img")) _ _ (Webhook.mkGatewayValidator (lit "mailout-system") true)
           demo_full demo_gateway_key demo_gw demo_gw (Create demo_gw) calls0).
  - reflexivity.
  - cbn. set_solver.
  - cbn. set_solver.
  - by left.
  - by vm_compute.
  - done.
  - done.
Defined.
