(* ===== verification/EndToEnd.v ===== *)
(** * EndToEnd: from a MailoutAccount to an SMTP session

    The operator and the dataplane together. The operator collects the accounts
    of a gateway, renders them and writes the configuration Secret
    ([GatewayController]); the kubelet shows the Secret as a file, the dataplane
    loads it ([FileSource]) and serves it ([Server]). The theorems say what an
    account, its Secret and the gateway's grants mean for who can log in and
    which senders are taken. What connects the two halves is the YAML library:
    a configuration whose strings are valid UTF-8 is read back as it was
    written. *)

From S2P Require Import Prelude Unicode GoStrings GoTime GoNet Policy Message Metrics World Spool Passwords.
From S2P Require Import Config Auth RateLimit TlsStore Milter Dkim Relay HeaderCheck Server Sessions Refinement.
From S2P Require Import Api Access Render Webhook Objects FileSource Cache Controllerutil AccountController GatewayController.
Import Access Render Objects Cache GatewayController.
#[local] Open Scope Z_scope.
#[local] Set Default Proof Using "Type*".

(** ** The configuration file *)

#[export] Instance Listener_eq_dec : EqDecision Config.Listener.
Proof. solve_decision. Defined.
#[export] Instance CertificateRef_eq_dec : EqDecision Config.CertificateRef.
Proof. solve_decision. Defined.
#[export] Instance TLSConfig_eq_dec : EqDecision Config.TLSConfig.
Proof. solve_decision. Defined.
#[export] Instance Upstream_eq_dec : EqDecision Config.Upstream.
Proof. solve_decision. Defined.
#[export] Instance Account_eq_dec : EqDecision Config.Account.
Proof. solve_decision. Defined.
#[export] Instance Milter_eq_dec : EqDecision Config.Milter.
Proof. solve_decision. Defined.
#[export] Instance DKIMKey_eq_dec : EqDecision Config.DKIMKey.
Proof. solve_decision. Defined.
#[export] Instance RateLimitStore_eq_dec : EqDecision Config.RateLimitStore.
Proof. solve_decision. Defined.
#[export] Instance RateLimit_eq_dec : EqDecision Config.RateLimit.
Proof. solve_decision. Defined.
#[export] Instance Limits_eq_dec : EqDecision Config.Limits.
Proof. solve_decision. Defined.
#[export] Instance Config_eq_dec : EqDecision Config.Config.
Proof. solve_decision. Defined.

(** [utf8.ValidString]: every rune is the encoding it decodes from. *)
Definition valid_utf8 (s : bytes) : bool := Utf8.encodeRunes (Utf8.runes s) =b s.

Definition upstream_strings (u : Config.Upstream) : list bytes :=
  [Host u; u_TLS u; u_RootCAPEM u; u_Username u; u_Password u].

Definition account_strings (a : Config.Account) : list bytes :=
  [Username a; PasswordHash a] ++ AllowedSenders a.

Definition store_strings (s : Config.RateLimitStore) : list bytes :=
  Addresses s ++ [MasterName s; Config.s_Username s; s_Password s; SentinelUsername s; SentinelPassword s; s_RootCAPEM s].

(** Every string of a configuration. *)
Definition config_strings (c : Config.Config) : list bytes :=
  [Hostname c; Token c; Config.SpoolDir (limits c); DefaultCertificate (TLS c)] ++ upstream_strings (upstream c) ++
  concat ((λ l, [l_Name l; l_Addr l; l_Mode l]) <$> Listeners c) ++
  concat ((λ r, [cr_Name r; CertFile r; KeyFile r; CertPEM r; KeyPEM r]) <$> Certificates (TLS c)) ++
  concat (account_strings <$> Accounts c) ++
  concat ((λ m, [m_Name m; m_Address m]) <$> Milters c) ++
  concat ((λ k, [Domain k; Selector k; PrivateKeyPEM k; PrivateKeyFile k] ++ HeaderKeys k) <$> DKIM c) ++
  match rateLimit c with Some rl => store_strings (Store rl) | None => [] end.

Definition text_config (c : Config.Config) : Prop := Forall (λ s, valid_utf8 s = true) (config_strings c).

(** sigs.k8s.io/yaml reads back what it wrote; JSON, which it goes through,
    replaces what is not UTF-8. *)
Class YamlRoundTrip (Y : Yaml) (F : ConfigFiles) := {
  yaml_reads_back c rendered : text_config c -> yaml_Config c = Ok rendered -> yaml_UnmarshalStrict rendered = Ok c
}.

(** The file of a Secret is mounted where the dataplane reads it. *)
Definition mounted_at `{ConfigFiles} (f : FileSource.File) (now : Z) (secret : Secret) : Prop :=
  os_ReadFile now (FileSource.path f) = Ok (at_key (s_Data secret) ConfigFileName).

(** A configuration a Secret carries. *)
Definition carries `{Yaml} (secret : Secret) (cfg : Config.Config) : Prop :=
  text_config cfg /\ exists rendered, yaml_Config cfg = Ok rendered /\
    s_Data secret !! ConfigFileName = Some rendered.

Lemma carries_loads `{YamlRoundTrip} f now secret cfg :
  carries secret cfg -> mounted_at f now secret -> FileSource.Load f now = Ok cfg.
Proof.
  intros (Ht & rendered & Hy & Hd) Hm. unfold FileSource.Load. rewrite Hm. unfold at_key. rewrite Hd. cbn [default id].
  by rewrite (yaml_reads_back _ _ Ht Hy).
Qed.

Lemma ConfigSecret_file `{Selectors} gw rendered token :
  s_Data (ConfigSecret gw rendered token) !! ConfigFileName = Some rendered.
Proof.
  unfold ConfigSecret. cbn [s_Data]. case_bool_decide; cbn [negb]; [by rewrite lookup_singleton_eq|].
  rewrite lookup_insert_ne by done. by rewrite lookup_singleton_eq.
Qed.

(** ** Sessions against a snapshot *)

Section Sessions.
Context `{K : Kernel} `{B : Bcrypt} `{P : Pki} `{C : CertPool} `{D : DkimLib} `{U : Unicode} `{L : SmtpLib}.
Import Server.

(** An account that is the only one of its name is served. *)
Lemma only_account_is_served cfg prev w snap w1 a :
  newSnapshot cfg prev w = (inl snap, w1) -> a ∈ Accounts cfg -> well_formed a = true ->
  (forall b, b ∈ Accounts cfg -> Username b = Username a -> b = a) ->
  Auth.byUsername (accounts snap) !! Username a = Some a.
Proof.
  intros Hs Ha Hw Huniq. pose proof (newSnapshot_spec cfg prev w) as Hspec. rewrite Hs in Hspec.
  destruct Hspec as (_ & _ & Hok & Hcfg & _). apply (ok_accounts _ Hok). split; [|done].
  rewrite PartitionAccounts_firsts, Hcfg. cbn [applyDefaults Accounts]. apply firsts_elem.
  apply list_elem_of_split_l in Ha as (l1 & l2 & El & Hno). exists l1, l2. split_and!; [done|done|set_solver|].
  intros b Hb _ Eb. apply Hno. rewrite <- (Huniq b); [done| |done]. rewrite El. set_solver.
Qed.

(** Its password opens a session. *)
Lemma authenticate_opens c snap a password w :
  Auth.byUsername (accounts snap) !! Username a = Some a -> Disabled a = false ->
  bcrypt_Compare (PasswordHash a) password = true -> acquireSlot (tick w) = true ->
  exists w', authenticate (newSession c snap) (Username a) password w =
    ([PasswordHash a], None, mkSession c snap (Some a) [] [] 0 false, w').
Proof.
  intros Hl Hd Hc Hslot. unfold authenticate, newSession. cbn [authFailures Server.snap conn account from to closed]. change (maxAuthFailures <=? 0) with false. cbn iota.
  unfold bind at 1, next at 1. rewrite Hslot. cbn [negb]. unfold Auth.authenticate. rewrite Hl, Hc, Hd. cbn [negb].
  unfold ret. cbn. eauto.
Qed.

(** A sender of its list is taken. *)
Lemma Mail_takes snap a s sender w :
  snapshot_ok snap -> Auth.byUsername (accounts snap) !! Username a = Some a -> Disabled a = false ->
  account s = Some a -> Policy.allows (Policy.newSenderPolicy (AllowedSenders a)) sender = true ->
  exists s' w', Mail snap s sender w = (None, s', w') /\ from s' = sender.
Proof.
  intros Hok Hl Hd Ha Hallow. unfold Mail. rewrite Ha. unfold stillAuthorized. rewrite Hl, Hd.
  cbn [Server.snap]. unfold policyFor. rewrite (ok_policies _ Hok), Hl. cbn [fmap option_fmap option_map policyOf senders].
  rewrite Hallow. cbn [negb]. unfold ret. eauto.
Qed.
End Sessions.

Section Logins.
Context `{K : Kernel} `{B : Bcrypt} `{P : Pki} `{C : CertPool} `{D : DkimLib} `{U : Unicode} `{L : SmtpLib}.
Import Server.

(** Who a login that succeeds is. *)
Lemma authenticate_identity c current u password w compared s w' :
  authenticate (newSession c current) u password w = (compared, None, s, w') ->
  exists a, Auth.byUsername (accounts current) !! u = Some a /\ Disabled a = false /\
    bcrypt_Compare (PasswordHash a) password = true /\ account s = Some a.
Proof.
  unfold authenticate, newSession. cbn [authFailures Server.snap conn account from to closed].
  change (maxAuthFailures <=? 0) with false. cbn iota. unfold bind at 1, next at 1.
  destruct (acquireSlot (tick w)); cbn [negb]; [|done]. unfold Auth.authenticate.
  destruct (Auth.byUsername (accounts current) !! u) as [a|]; [|run_io; done].
  destruct (bcrypt_Compare (PasswordHash a) password) eqn:Ec; cbn [negb]; [|run_io; done].
  destruct (Disabled a) eqn:Ed; run_io; [done|]. intros [= <- <- <-]. by exists a.
Qed.

(** MAIL is taken only for a sender of the account's list. *)
Lemma Mail_listed current s a sender w s' w' :
  snapshot_ok current -> account s = Some a -> Auth.byUsername (accounts current) !! Username a = Some a ->
  Mail current s sender w = (None, s', w') ->
  Policy.allows (Policy.newSenderPolicy (AllowedSenders a)) sender = true.
Proof.
  intros Hok Ha Hl. unfold Mail. rewrite Ha. unfold stillAuthorized. rewrite Hl.
  destruct (Disabled a); [done|]. cbn [Server.snap]. unfold policyFor. rewrite (ok_policies _ Hok), Hl.
  cbn [fmap option_fmap option_map policyOf senders]. by destruct (Policy.allows _ sender).
Qed.
End Logins.

(** ** What is collected *)

Section Collected.
Context `{Unicode, ApiServer}.
Variable r : GatewayReconciler.

(** The account belongs to the gateway, which accepts its namespace; its Secret
    and what its namespace is granted do not change. *)
Record settled (gw : MailoutGateway) (account : MailoutAccount) (secret : Secret) (granted : list bytes) : Prop := {
  st_serves : serves r gw account = true;
  st_accepts s : exists s', namespaceAllowed gw (Namespace (a_meta account)) s = (Ok true, s');
  st_secret n : api_CachedSecret n (Namespace (a_meta account), ref_Name (SecretRef (a_spec account))) = Found secret;
  st_hash : hash_of secret <> [];
  st_granted s : exists ls s', grantedSenders gw (Namespace (a_meta account)) None s = (Ok (granted, ls), s')
}.

(** The senders it gets of its grant. *)
Definition senders_of (account : MailoutAccount) (granted : list bytes) : list bytes :=
  (Policy.GrantedSubset granted (as_AllowedSenders (a_spec account))).1.

Lemma collectOne_settled gw account secret granted s :
  settled gw account secret granted ->
  (collectOne r gw account s).1 = Ok (Some (resolved account (hash_of secret) (senders_of account granted))).
Proof.
  intros [Hs Ha Hc Hh Hg]. unfold collectOne. rewrite Hs. cbn [negb]. run_api.
  destruct (Ha s) as [s1 ->]. cbn [negb]. rewrite Hc. fold (hash_of secret). rewrite (bool_decide_eq_false_2 _ Hh).
  match goal with |- context [grantedSenders gw ?n None ?c] => destruct (Hg c) as (ls & s2 & ->) end. done.
Qed.

(** The loop keeps what each account resolves to, and nothing else. *)
Lemma collectLoop_exact gw items : forall acc s out s',
  collectLoop r gw items acc s = (Ok out, s') ->
  acc ⊆ out /\
  (forall ra, ra ∈ out -> ra ∈ acc \/ exists x t, x ∈ items /\ (collectOne r gw x t).1 = Ok (Some ra)) /\
  (forall x, x ∈ items -> exists t one, (collectOne r gw x t).1 = Ok one /\ forall ra, one = Some ra -> ra ∈ out).
Proof.
  induction items as [|x items IH]; intros acc s out s'; cbn [collectLoop].
  { intros [= <- <-]. split_and!; [done|by left|]. by intros x ?%not_elem_of_nil. }
  unfold kbind_ok, kbind, kret. destruct (collectOne r gw x s) as [[one|e] s1] eqn:E1; [|done].
  intros (Hsub & Hfrom & Hall)%IH. split_and!.
  - destruct one; set_solver.
  - intros ra [Hra|(y & t & Hy & Ey)]%Hfrom; [|right; exists y, t; set_solver].
    destruct one as [a|]; [|by left]. apply elem_of_app in Hra as [?| ->%list_elem_of_singleton]; [by left|].
    right. exists x, s. rewrite E1. set_solver.
  - intros y [->|Hy]%elem_of_cons; [|by apply Hall]. exists s, one. rewrite E1. split; [done|].
    intros ra ->. set_solver.
Qed.

(** With one settled account of its username, the accounts collected hold what
    it resolves to, and nothing else of that username. *)
Lemma collected_account gw account secret granted items s out s' :
  settled gw account secret granted -> (forall n, api_Accounts n = Ok items) -> account ∈ items ->
  (forall other, other ∈ items -> serves r gw other = true -> UsernameFor other = UsernameFor account ->
     other = account) ->
  collectAccounts r gw s = (Ok out, s') ->
  let ra := resolved account (hash_of secret) (senders_of account granted) in
  ra ∈ out /\ forall rb, rb ∈ out -> ra_Username rb = UsernameFor account -> rb = ra.
Proof.
  intros Hset Hitems Hin Huniq. unfold collectAccounts. run_api. rewrite Hitems.
  intros (_ & Hfrom & Hall)%collectLoop_exact. split.
  - destruct (Hall _ Hin) as (t & one & E & Hra). rewrite (collectOne_settled _ _ _ _ _ Hset) in E.
    injection E as <-. by apply Hra.
  - intros rb [?%not_elem_of_nil|(x & t & Hx & Ex)]%Hfrom Hu; [done|].
    destruct (collectOne r gw x t) as [res t'] eqn:E. cbn [fst] in Ex. subst res.
    pose proof (collectOne_spec _ _ _ _ _ _ E) as [_ Hspec].
    destruct (Hspec _ eq_refl) as (Hsv & _ & Hux & _).
    assert (x = account) as -> by (apply Huniq; [done|done|congruence]).
    pose proof (collectOne_settled _ _ _ _ t Hset) as E'. rewrite E in E'. by injection E'.
Qed.
End Collected.

(** ** The two halves together *)

Section Whole.
Context `{K : Kernel} `{B : Bcrypt} `{P : Pki} `{C : CertPool} `{D : DkimLib} `{U : Unicode} `{L : SmtpLib}.
Context `{F : ConfigFiles, Y : Yaml, !YamlRoundTrip Y F}.
Context `{Selectors, A : !ApiServer, So : Sorter, !SorterSound So, Sha256, Random, ErrorText}.
Context `{Up : !CreateOrUpdater, !CreateOrUpdaterSound Up, OwnerReferencer, ConditionSetter}.
Variable r : GatewayReconciler.
Import Server.

(** A snapshot the dataplane puts in service from the mounted file. *)
Definition served_from (published : Secret) (snap : snapshot) : Prop :=
  exists f now prev cfg w w1, mounted_at f now published /\ FileSource.Load f now = Ok cfg /\
    newSnapshot cfg prev w = (inl snap, w1).

(** The login and the senders an account gets from its Secret and its grant. *)
Definition lets_in (account : MailoutAccount) (hash : bytes) (senders : list bytes) (snap : snapshot) : Prop :=
  forall c password w, bcrypt_Compare hash password = true -> acquireSlot (tick w) = true ->
  exists compared s w1, authenticate (newSession c snap) (UsernameFor account) password w = (compared, None, s, w1) /\
    forall sender w2, Policy.allows (Policy.newSenderPolicy senders) sender = true ->
      exists s' w3, Mail snap s sender w2 = (None, s', w3) /\ from s' = sender.

(** The configuration has an account of that username. *)
Definition listed (account : MailoutAccount) (cfg : Config.Config) : Prop :=
  UsernameFor account ∈ Username <$> Accounts cfg.

(** What a gateway that renders to [full] publishes: all of it when it fits the
    budget. *)
Definition publishes (published : Secret) (full cfg : Config.Config) : Prop :=
  cfg = (FitAccounts full ConfigBudget).2 /\
  (exists rendered, yaml_Config cfg = Ok rendered /\ s_Data published !! ConfigFileName = Some rendered) /\
  ((forall size, marshalledSize full = Ok size -> size <= ConfigBudget) -> cfg = full).

Lemma fits_whole full :
  (forall size, marshalledSize full = Ok size -> size <= ConfigBudget) -> (FitAccounts full ConfigBudget).2 = full.
Proof.
  intros Hf. unfold FitAccounts. destruct (marshalledSize full) as [size|]; [|done].
  by rewrite (proj2 (Z.leb_le _ _) (Hf _ eq_refl)).
Qed.

Lemma rendered_list input gw cfg : Gateway input = Some gw -> GatewayConfig input = Ok cfg ->
  forall a, a ∈ Accounts cfg <-> exists rb, a = renderAccount rb /\ rb ∈ in_Accounts input.
Proof.
  intros Hg Ecfg a. unfold GatewayConfig in Ecfg. rewrite Hg in Ecfg. injection Ecfg as <-. cbn [Accounts].
  rewrite list_elem_of_fmap. by setoid_rewrite sortSlice_perm.
Qed.

(** A published Secret that works for the account: the gateway rendered it, and
    every relay that serves the file in that Secret lets it in. *)
Definition carries_account (account : MailoutAccount) (secret : Secret) (granted : list bytes) (published : Secret) : Prop :=
  exists full cfg, publishes published full cfg /\ listed account full /\
    (text_config cfg -> listed account cfg -> forall snap, served_from published snap ->
       lets_in account (hash_of secret) (senders_of account granted) snap).

Lemma collected_carries gw account secret granted items s0 accounts s1 input full rendered published :
  (forall n, api_Accounts n = Ok items) -> account ∈ items ->
  settled r gw account secret granted -> as_Disabled (a_spec account) = false ->
  ValidUsername (UsernameFor account) = true -> Passwords.UsableHash (hash_of secret) = true ->
  (forall other, other ∈ items -> serves r gw other = true -> UsernameFor other = UsernameFor account ->
     other = account) ->
  collectAccounts r gw s0 = (Ok accounts, s1) -> Gateway input = Some gw -> in_Accounts input = accounts ->
  GatewayConfig input = Ok full -> yaml_Config (FitAccounts full ConfigBudget).2 = Ok rendered ->
  s_Data published = s_Data (ConfigSecret gw rendered (Token (FitAccounts full ConfigBudget).2)) ->
  carries_account account secret granted published.
Proof.
  intros Hitems Hin Hset Hen Hvalid Husable Huniq Ec Hg Ha Ecfg Ey Ed.
  pose proof (rendered_list _ _ _ Hg Ecfg) as Hacc. rewrite Ha in Hacc.
  destruct (collected_account r gw account secret granted items _ _ _ Hset Hitems Hin Huniq Ec) as [Hra Honly].
  set (ra := resolved account (hash_of secret) (senders_of account granted)) in *.
  destruct (FitAccounts_shape full ConfigBudget) as (kept & Ef & Hkept).
  assert (Hfile : s_Data published !! ConfigFileName = Some rendered) by (rewrite Ed; apply ConfigSecret_file).
  exists full, (FitAccounts full ConfigBudget).2. split_and!; [|by apply list_elem_of_fmap; exists (renderAccount ra); split; [|apply Hacc; eauto]|].
  { split_and!; [done|by exists rendered|apply fits_whole]. }
  intros Htext Hlist snap (f & now & prev & cfg' & w & w1 & Hm & Hl & Hs).
  rewrite (carries_loads _ _ _ _ (conj Htext (ex_intro _ rendered (conj Ey Hfile))) Hm) in Hl. injection Hl as <-.
  assert (Hsame : forall b, b ∈ Accounts (FitAccounts full ConfigBudget).2 -> Username b = UsernameFor account ->
    b = renderAccount ra).
  { rewrite Ef. cbn [with_accounts Accounts]. intros b (rb & -> & Hb)%Hkept%Hacc Hu. by rewrite (Honly rb Hb Hu). }
  assert (Hserved : Auth.byUsername (Server.accounts snap) !! Username (renderAccount ra) = Some (renderAccount ra)).
  { apply list_elem_of_fmap in Hlist as (b & Eb & Hb). rewrite (Hsame b Hb (eq_sym Eb)) in Hb.
    eapply only_account_is_served; [exact Hs|exact Hb| |exact Hsame].
    unfold well_formed. cbn. by rewrite Hvalid, Husable, (bool_decide_eq_false_2 _ (st_hash _ _ _ _ _ Hset)). }
  pose proof (newSnapshot_spec (FitAccounts full ConfigBudget).2 prev w) as Hspec. rewrite Hs in Hspec.
  destruct Hspec as (_ & _ & Hok & _). intros c password w2 Hcmp Hslot.
  destruct (authenticate_opens c snap (renderAccount ra) password w2 Hserved Hen Hcmp Hslot) as [w3 Hauth].
  eexists _, _, w3. split; [exact Hauth|]. intros sender w4 Hallow. by eapply Mail_takes.
Qed.

(** C2: an application can log in with what its Secret holds. Take an account of
    a gateway, alone with its username there, enabled, whose Secret holds a
    servable hash, in a namespace the gateway accepts. When a reconciliation of
    the gateway completes, which it reports by asking to be called again after
    the resync interval, the Secret of the gateway's configuration is in the
    cluster, just written or found to be up to date, and it works for the
    account, as does any Secret the reconciliation writes, completed or not: the
    gateway rendered the account, the file in that Secret is all that was
    rendered unless that is over its budget, and a relay that serves that file,
    when it is text and lists the account, lets it in: whatever password matches
    the hash opens a session, provided a verification slot is free, and in that
    session MAIL takes every address the account's grant allows. *)
Theorem account_can_send (key : ObjectKey) (gw : MailoutGateway) (items : list MailoutAccount)
    (account : MailoutAccount) (secret : Secret) (granted : list bytes) (s : Calls) :
  (forall n, api_Gateway n key = Found gw) -> (forall n, api_Accounts n = Ok items) -> account ∈ items ->
  settled r gw account secret granted -> as_Disabled (a_spec account) = false ->
  ValidUsername (UsernameFor account) = true -> Passwords.UsableHash (hash_of secret) = true ->
  (forall other, other ∈ items -> serves r gw other = true -> UsernameFor other = UsernameFor account ->
     other = account) ->
  ((Reconcile r key s).1 = Ok resyncInterval ->
     exists published, carries_account account secret granted published /\
       stored (Namespace (g_meta gw), ConfigSecretName (Name (g_meta gw))) published s (Reconcile r key s).2) /\
  writes (AccountController.secrets (λ _ published, carries_account account secret granted published))
    s (Reconcile r key s).2.
Proof.
  intros Hgw Hitems Hin Hset Hen Hvalid Husable Huniq. split.
  - destruct (Reconcile r key s) as [res s'] eqn:E. cbn [fst snd]. intros ->.
    apply Reconcile_stored in E as (gw' & s0 & accounts & s1 & input & s2 & tok & s3 & full & rendered & published &
      Eg & _ & Ec & _ & Hg & Ha & _ & Ecfg & _ & Ey & Ed & Hst).
    rewrite Hgw in Eg. injection Eg as <-. exists published. split; [|done]. by eapply collected_carries.
  - apply Reconcile_secrets.
    intros n gw' s0 accounts s1 input s2 tok s3 full rendered published Eg _ Ec _ Hg Ha _ Ecfg _ Ey Ed.
    rewrite Hgw in Eg. injection Eg as <-. by eapply collected_carries.
Qed.

(** An account of the gateway whose own Secret matches the password, in a
    namespace the gateway accepts. *)
Definition authorized (key : ObjectKey) (username password : bytes) (gw : MailoutGateway) (account : MailoutAccount)
    : Prop :=
  exists n m t items secret,
    api_Gateway n key = Found gw /\ api_Accounts m = Ok items /\ account ∈ items /\ serves r gw account = true /\
    accepts gw (Namespace (a_meta account)) /\ UsernameFor account = username /\
    as_Disabled (a_spec account) = false /\
    api_CachedSecret t (Namespace (a_meta account), ref_Name (SecretRef (a_spec account))) = Found secret /\
    bcrypt_Compare (hash_of secret) password = true.

(** Who gets in, and what MAIL then takes. *)
Definition guarded (key : ObjectKey) (snap : snapshot) : Prop :=
  forall c username password w compared s w1,
    authenticate (newSession c snap) username password w = (compared, None, s, w1) ->
    exists gw account, authorized key username password gw account /\
      forall sender w2 s' w3, Mail snap s sender w2 = (None, s', w3) ->
        granted_address gw (Namespace (a_meta account)) sender.

(** C1: nobody else gets in. Whatever the API server answers, each configuration
    a reconciliation publishes, when it is text, is guarded in every relay that
    serves it: a login succeeds only with the username of an enabled account of
    that gateway, from a namespace the gateway accepts, and a password that
    matches the hash of that account's own Secret; and MAIL then takes only an
    address that a grant of the gateway, applying to the account's namespace,
    allows. *)
Theorem only_authorized_accounts_send (key : ObjectKey) (s : Calls) :
  writes (AccountController.secrets (λ _ published,
    exists cfg rendered, yaml_Config cfg = Ok rendered /\ s_Data published !! ConfigFileName = Some rendered /\
      (text_config cfg -> forall snap, served_from published snap -> guarded key snap)))
    s (Reconcile r key s).2.
Proof.
  eapply writes_mono; [|apply (Reconcile_publishes r (λ _, True) key); auto].
  intros e. destruct e as [k published| | | | | | | |]; try done. cbn.
  intros (n & m & gw & items & cfg & rendered & Hg & _ & _ & _ & _ & Hy & Hd & _ & Hitems & Hserved).
  assert (Hfile : s_Data published !! ConfigFileName = Some rendered) by (rewrite Hd; apply ConfigSecret_file).
  exists cfg, rendered. split_and!; [done|done|]. intros Htext snap (f & now & prev & cfg' & w & w1 & Hm & Hl & Hs).
  assert (Hcar : carries published cfg) by (split; [done|by exists rendered]).
  rewrite (carries_loads _ _ _ _ Hcar Hm) in Hl. injection Hl as <-.
  intros c u password w2 compared sess w3 (a & Hlook & Hdis & Hcmp & Hacct)%authenticate_identity.
  destruct (Sessions.served_of_config _ _ _ _ _ _ _ Hs Hlook) as (Ha & Hu & _). subst u.
  destruct (Hserved _ Ha) as (account & ra & Hin & (Hsv & Hacc & Eu & Edis & _ & (t & secret & Hsec & Eh) & Hgr) & ->).
  exists gw, account. split.
  - exists n, m, t, items, secret. cbn in *. split_and!; try done; [by rewrite <- Edis|by rewrite <- Eh].
  - intros sender w4 s' w5 Hmail. apply Hgr.
    pose proof (newSnapshot_spec cfg prev w) as Hspec. rewrite Hs in Hspec. destruct Hspec as (_ & _ & Hok & _).
    exact (Mail_listed _ _ _ _ _ _ _ Hok Hacct Hlook Hmail).
Qed.
End Whole.

(** ** Witnesses *)

#[local] Existing Instance matchLabels.
#[local] Existing Instance sorter_by.
#[local] Existing Instance sorter_by_sound.
#[local] Existing Instance toy_bcrypt.
#[local] Existing Instance toy_random.
#[local] Existing Instance updater_ok.
#[local] Existing Instance updater_ok_sound.
#[local] Existing Instance owner_add.
#[local] Existing Instance condition_replace.
#[local] Existing Instance demo_sha.
#[local] Existing Instance demo_errors.
#[local] Existing Instance kernel_ok.
#[local] Existing Instance demo_pool.
#[local] Existing Instance toy_dkim.
#[local] Existing Instance unicode14.
#[local] Existing Instance demo_lib.

#[local] Existing Instance toy_pki.

(** A gateway without signing keys, an account of it and the account's Secret. *)
Definition demo_relay : MailoutGateway :=
  let spec := g_spec demo_gw in
  mkGateway (g_meta demo_gw)
    (mkGatewaySpec (gs_Hostname spec) (gs_Listeners spec) (gs_TLS spec) (gs_Upstream spec) [] [] (AllowedAccounts spec)
       (gs_AllowedSenders spec) None (gs_Deployment spec) (gs_Metrics spec))
    (g_status demo_gw).

Definition demo_app : MailoutAccount := AccountController.demo_claimant (lit "blog") (lit "u3").

Definition demo_credentials : Secret :=
  mkSecret (lit "blog") (lit "creds") ∅ []
    {[BasicAuthPasswordKey := lit "pw"; PasswordHashKey := chr 12 :: lit "pw"]} [].

Definition demo_world : ApiServer := {|
  api_Namespace _ _ := Found None;
  api_Gateway _ _ := Found demo_relay;
  api_Account _ _ := NotFound;
  api_Secret _ _ := NotFound;
  api_CachedSecret _ _ := Found demo_credentials;
  api_Accounts _ := Ok [demo_app];
  api_Service _ _ := NotFound;
  api_Certificate _ _ := NotFound;
  api_ServiceMonitor _ _ := NotFound;
  api_Deployment _ _ := NotFound;
  api_NetworkPolicy _ _ := NotFound;
  api_Write _ := None;
  api_Delete _ _ := NotFound
|}.
#[local] Existing Instance demo_world.

Definition demo_token : bytes := match Passwords.GeneratePassword 4 with Ok t => t | Err _ => [] end.

(** What the gateway renders to. *)
Definition demo_rendered : Config.Config :=
  match GatewayConfig (mkInput (Some demo_relay)
    [resolved demo_app (chr 12 :: lit "pw") [lit "*@example.com"]] [] [] [] (mkCreds [] [] [] [] []) demo_token) with
  | Ok cfg => cfg
  | Err _ => Sessions.demo_config [] None
  end.

(** A YAML library for one configuration, and a file that holds it. *)
Definition one_yaml (cfg : Config.Config) : Yaml := {|
  yaml_Config c := if c =b cfg then Ok (lit "demo") else Err (EText (lit "unsupported"));
  yaml_Account _ := Ok []
|}.

Definition one_mount (cfg : Config.Config) : ConfigFiles := {|
  os_ReadFile _ _ := Ok (lit "demo");
  yaml_UnmarshalStrict raw := if raw =b lit "demo" then Ok cfg else Err (EText (lit "unsupported"));
  watcher_Add _ _ := None
|}.

Lemma one_reads_back cfg : YamlRoundTrip (one_yaml cfg) (one_mount cfg).
Proof.
  constructor. intros c rendered _. unfold one_yaml, one_mount, yaml_Config, yaml_UnmarshalStrict.
  case_bool_decide; [|done]. intros [= <-]. subst. by rewrite bool_decide_eq_true_2.
Qed.

Lemma one_yaml_only cfg c rendered : @yaml_Config (one_yaml cfg) c = Ok rendered -> c = cfg.
Proof. unfold one_yaml, yaml_Config. by case_bool_decide. Qed.

Definition demo_text : Yaml := one_yaml demo_rendered.
Definition demo_mount : ConfigFiles := one_mount demo_rendered.
#[local] Existing Instance demo_text.
#[local] Existing Instance demo_mount.
Lemma demo_reads_back : YamlRoundTrip demo_text demo_mount.
Proof. apply one_reads_back. Qed.
#[local] Existing Instance demo_reads_back.

Definition demo_operator : GatewayReconciler := mkGatewayReconciler (lit "mailout-system") (lit "img") false false.

(** What a reconciliation of the demonstration publishes, and the relay that
    serves it. *)
Definition demo_published : Secret :=
  match effects (Reconcile demo_operator (lit "mailout-system", lit "relay") calls0).2 with
  | WroteSecret _ secret :: _ => secret
  | _ => demo_credentials
  end.

Definition demo_serving : Server.snapshot :=
  match (Server.newSnapshot demo_rendered None world0).1 with inl snap => snap | inr _ => Sessions.demo_empty end.

Lemma demo_serves : served_from demo_published demo_serving.
Proof.
  exists (FileSource.NewFile (lit "/etc/mailout/gateway.yaml")), 0, None, demo_rendered, world0,
    (Server.newSnapshot demo_rendered None world0).2.
  split_and!; [vm_compute; reflexivity|reflexivity|vm_compute; reflexivity].
Qed.

Lemma demo_settled : settled demo_operator demo_relay demo_app demo_credentials [lit "*@example.com"].
Proof. constructor; [reflexivity|by eexists|reflexivity|done|by eexists _, _]. Qed.

Lemma demo_writes : exists k rest,
  effects (Reconcile demo_operator (lit "mailout-system", lit "relay") calls0).2 = WroteSecret k demo_published :: rest.
Proof.
  assert (Hw : match effects (Reconcile demo_operator (lit "mailout-system", lit "relay") calls0).2 with
               | WroteSecret _ _ :: _ => True
               | _ => False
               end) by (vm_compute; exact I).
  unfold demo_published. destruct (effects _) as [|[] rest]; try done. eauto.
Qed.

(** The one configuration the library writes. *)
Lemma demo_publishes full cfg : publishes demo_published full cfg -> cfg = demo_rendered.
Proof. intros (_ & (rendered & Hy & _) & _). exact (one_yaml_only _ _ _ Hy). Qed.

Lemma demo_is_text : text_config demo_rendered.
Proof. apply (bool_decide_unpack _). vm_compute. exact I. Qed.

Lemma can_send_witness :
  (Reconcile demo_operator (lit "mailout-system", lit "relay") calls0).1 = Ok resyncInterval /\
  (exists published, carries_account demo_app demo_credentials [lit "*@example.com"] published /\
     stored (lit "mailout-system", lit "relay-config") published calls0
       (Reconcile demo_operator (lit "mailout-system", lit "relay") calls0).2) /\
  exists compared s w1, Server.authenticate (Server.newSession Sessions.demo_conn demo_serving) (lit "billing") (lit "pw") world0
    = (compared, None, s, w1) /\
  exists s' w2, Server.Mail demo_serving s (lit "shop@example.com") w1 = (None, s', w2).
Proof.
  assert (Hr : (Reconcile demo_operator (lit "mailout-system", lit "relay") calls0).1 = Ok resyncInterval)
    by (vm_compute; reflexivity).
  destruct (account_can_send demo_operator (lit "mailout-system", lit "relay") demo_relay [demo_app] demo_app
              demo_credentials [lit "*@example.com"] calls0) as (Hstored & es & He & Hes);
    [reflexivity|reflexivity|by left|exact demo_settled|reflexivity|vm_compute; reflexivity|vm_compute; reflexivity| |].
  { intros other Ho%list_elem_of_singleton _ _. exact Ho. }
  split; [exact Hr|]. split; [exact (Hstored Hr)|].
  destruct demo_writes as (k & rest & Hw). rewrite Hw in He. cbn [calls0 effects app] in He. rewrite <- He in Hes.
  apply Forall_cons in Hes as [(full & cfg & Hpub & _ & Hlet) _].
  pose proof (demo_publishes _ _ Hpub) as ->.
  destruct (Hlet demo_is_text ltac:(vm_compute; by left) demo_serving demo_serves Sessions.demo_conn (lit "pw") world0)
    as (compared & s & w1 & Ha & Hm); [vm_compute; reflexivity|reflexivity|].
  exists compared, s, w1. split; [exact Ha|].
  destruct (Hm (lit "shop@example.com") w1) as (s' & w2 & Em & _); [vm_compute; reflexivity|]. by exists s', w2.
Defined.

Lemma authorized_senders_witness :
  (exists gw account, authorized demo_operator (lit "mailout-system", lit "relay") (lit "billing") (lit "pw") gw account) /\
  (Server.authenticate (Server.newSession Sessions.demo_conn demo_serving) (lit "billing") (lit "guess") world0).1.1.2 <> None.
Proof.
  split; [|vm_compute; discriminate].
  destruct (only_authorized_accounts_send demo_operator (lit "mailout-system", lit "relay") calls0) as (es & He & Hes).
  destruct demo_writes as (k & rest & Hw). rewrite Hw in He. cbn [calls0 effects app] in He. rewrite <- He in Hes.
  apply Forall_cons in Hes as [(cfg & rendered & Hy & _ & Hg) _].
  pose proof (one_yaml_only _ _ _ Hy) as ->.
  assert (Hlogin : (Server.authenticate (Server.newSession Sessions.demo_conn demo_serving) (lit "billing") (lit "pw")
                      world0).1.1.2 = None) by (vm_compute; reflexivity).
  destruct (Server.authenticate (Server.newSession Sessions.demo_conn demo_serving) (lit "billing") (lit "pw") world0)
    as [[[compared err] s] w1] eqn:E. cbn [fst snd] in Hlogin. subst err.
  destruct (Hg demo_is_text demo_serving demo_serves _ _ _ _ _ _ _ E) as (gw & account & Hauth & _). by exists gw, account.
Defined.
